(* ===== verification/_CoqProject ===== *)
-Q . S2P
Prelude.v
CTypes.v
BpfHelperDefs.v
AkilC.v
BpfHelpers.v
Bits.v
BpfCoreRead.v
BpfTracing.v
BpfCoreVariants.v
Float64.v
Window.v
ProfileStore.v
Store.v
Scorer.v
Telemetry.v
Loader.v
Batch.v
Collector.v
CollectorMain.v
Aggregator.v
Resolver.v
CgroupCache.v
Plugin.v
Pipeline.v
Autoscaler.v
HttpApi.v
