(* ===== verification/Prelude.v ===== *)
(** * AKIL: a verification development

    AKIL places Kubernetes pods by what the kernel observes of the running
    workloads.  Its parts, and the flow between them:

    - eBPF programs ([pkg/ebpf/akil.c]) fire on page faults, context switches,
      cache-miss samples and lock contention, and write 40-byte records to a ring
      buffer;
    - on each node a collector ([cmd/collector]) reads the records, resolves the
      cgroup id to a workload key ([pkg/cgroup]), and streams batches of protobuf
      events;
    - the aggregator ([cmd/aggregator]) counts each event in the sliding window
      of its workload ([pkg/profile]), and serves profiles over gRPC and HTTP; a
      demo autoscaler reads the same profiles;
    - the scheduler plugin ([pkg/scoring]) queries the candidate's profile and
      those of a node's workloads and scores the node from 0 to 100;
    - [pkg/telemetry] and [pkg/ebpf/loader.go] hold a second pipeline (typed
      events, a batch assembler, a parser of raw records) that the commands do
      not call.

    ** Files, in dependency order

    - [Prelude]: machine integers ([wrapU], [wrapS], the notations [u64! z],
      [i64! z], ...), little-endian bytes, checked slices, tactics and hints.
    - [CTypes]: C types, sizes, alignments, struct layout.
    - [BpfHelperDefs]: [bpf_helper_defs.h], the table of the 211 kernel helpers
      (prototype, number, documented result).
    - [AkilC]: [akil.c].  The kernel is a type class: [BpfKernel] gives the
      helpers the programs call, [BpfKernelLaws] what their comments promise, any
      call being free to fail; that the map fails only for lack of room is a
      hypothesis of its own ([table_works]).  A small kernel discharges both, and
      one that never deletes shows what goes wrong without it ([stuck_invents]).
      State [kst]: the ring buffer and [lock_starts].
    - [Bits], [BpfCoreRead]: bit-level lemmas; [bpf_core_read.h], the bitfield
      accessors ([Bitfield]) and the pointer-chasing macros ([Chase]).
    - [BpfHelpers]: [bpf_helpers.h], the printing macros ([Printk]) and the loops
      ([Loop]) over an interface to the kernel's open-coded iterators.
    - [BpfTracing]: [bpf_tracing.h], the register tables and accessors ([Regs]),
      the program macros over slots ([Prog]) and over registers ([Kprobe]).
    - [BpfCoreVariants]: the rest of [bpf_core_read.h], questions about fields and
      types ([Relo]) and the twelve pointer-chasing macros ([Reads]).
    - [Float64]: IEEE binary64 on integers: round to nearest even, the operations,
      their monotonicity.
    - [Window]: [window.go].  State [WorkloadProfile].  The circular buffer is
      refined by a queue of groups of recordings ([rep]), from which ages follow.
    - [ProfileStore]: the interface ([ProfileStore], [ProfileStoreLaws]) between
      the store and its clients.
    - [Store]: [store.go], with an explicit heap since callers share pointers; it
      implements the interface.  [store_step], labelled with the action of one
      caller and its answer, interleaves any number of callers; [map_step] is the
      same for a plain map of windows.
    - [Scorer]: [scorer.go] in float64, operation by operation.
    - [Telemetry]: [types.go], [akil.proto], [taggedEventToProto],
      [ParseRawEvent].
    - [Batch]: [batch.go], the batch assembler as threads over its shared state.
    - [Loader]: the rest of [loader.go], a stub that opens nothing.
    - [Collector]: the loop of [cmd/collector/main.go].  [CollectorMain]: what its
      [main] opens and closes around the loop, in a state and error monad over a
      system ([System]) whose every call may fail.
    - [Aggregator]: the handlers of [cmd/aggregator/main.go], against the
      interface.
    - [Resolver]: [pkg/cgroup/resolver.go].
    - [CgroupCache]: [pkg/telemetry/cgroup.go], the lookup ([Lookup]) and the cache
      in front of it ([Cache]), whose threads run on the real map or on a history.
    - [Plugin]: [akil_score.go] and the server side of its second query.
    - [Pipeline]: the parts composed, from hook to profile.
    - [Autoscaler]: [autoscaler.go]: the rule, the state, the loop without a
      cluster.
    - [HttpApi]: the HTTP endpoints and the loop in a cluster, over any store and
      any implementation ([Deployments]) of the Kubernetes calls.

    ** What the theorems show

    - End to end: [Pipeline.probe_to_profile] (what a profile counts is what the
      probes saw), [Plugin.plugin_scores_store] (the score is the score of the
      stored profiles).  [Pipeline.loader_rejects_probe_records] shows that the
      unused parser expects another layout than [akil.c] writes.
    - Probes: [AkilC.reports_ideal] and [AkilC.reports_sublist_ideal] refine an
      ideal observer with and without drops and failures; [AkilC.contention_interval_reported].
      Helper calls type-check ([AkilC.akil_calls_check]).
    - Headers: numbering and calling convention of the helpers; reading, writing
      and framing of bitfields; the meaning of the pointer-chasing, printing and
      loop macros; what the tracing macros hand to a program ([BpfTracing.Kprobe.ksyscall_passes_arguments] and its neighbours).
    - Windows: totals and ages ([Window.window_counts]), index safety with any
      clock ([Window.window_never_panics]), ageing out, additivity
      ([Window.recordings_add_up]), nodes.
    - Store: one profile per key, the same runs of actions and answers as a plain
      map ([Store.store_refines_map]), no panics, exact node queries.  Aggregator: per-key profiles ([Aggregator.aggregator_profiles]).
    - Scores: range, monotonicity in pressure and in crowding, dampening, unknown
      candidates; the plugin's answers when queries fail; a workload that stops
      emitting stops counting ([Plugin.idle_workload_stops_counting]).
    - Collector and batch assembler: nothing lost silently, duplicated or
      reordered; clean shutdown; the crash when [Stop] overlaps an [Add].  The
      collector closes what it opened ([CollectorMain.collector_releases_everything]).
    - Resolver: what a cgroup resolves to after a sync, from the ids the pods list
      and the inodes of the tree ([Resolver.resolve_after_sync]).
      Cached resolver: container ids, the lookup as a whole, and the cache as a
      view of a history ([CgroupCache.Cache.cache_refines_history]).
    - Autoscaler: the rule, and the range of the replica count.  HTTP API: every
      request is answered, and with which status, 500 exactly when a call to the
      cluster that the request takes fails ([HttpApi.http_always_answers]); what
      is written to the cluster, and why ([HttpApi.cluster_writes_justified]).

    ** Conventions and bounds

    Go ints are 64-bit; overflow wraps where the code can overflow.  A function
    returns [None] where Go panics.  [time.Now()] is an argument; theorems about
    ages assume readings that do not decrease and a span below 2^63 ns (292
    years), the range of [time.Duration]; [window_never_panics] and
    [store_never_panics] assume nothing about the clock.  Bucket counts are
    below 2^63 - 1 and durations below 2^63.  Each eBPF program and each method
    under a mutex is one step; interleavings are sequences of steps.  [HttpApi]
    takes a whole request or loop iteration as a step: its parts interleave in
    [Store] and [Autoscaler].  Fuel: [Resolver.Split] and
    [CgroupCache.trim_space] take the length of the string, which is enough as
    each step removes a byte ([Resolver.Split_eq]), and the loops of [BpfHelpers]
    one step more than there are items ([loops_run_their_range]).  Every other recursion is structural.  A C macro is
    a function from its arguments to what it expands to, [None] where it does not
    expand or compile.  Floating-point operations round one by one.  The Go
    specification lets a compiler fuse [x * y + z], across assignments too, and
    the compiler may do so on other architectures, where a score could differ by
    a rounding; it does not at the default level of amd64, for which
    [deploy/docker] builds the images.  The conversion of a float out of range to
    [int64] is [undef], any function.

    ** Not modelled

    - The bodies of kernel helpers, the verifier, the perf and ring buffer
      libraries, gRPC, protobuf encoding, JSON, HTTP and the Kubernetes API: they
      are outside the repository, and appear as parameters or inputs.
    - The setup code of the aggregator (flags, listening, shutdown), of the
      scheduler binary and of the command line tool.
    - Generated Go bindings, the web frontend, scripts, benchmarks, deployment
      files and documents. *)
From stdpp Require Export base tactics option list numbers strings gmap.
From Stdlib Require Export Lia ZArith.

(** Notations of the development live in their own scope. *)
Declare Scope akil_scope.
Delimit Scope akil_scope with akil.
#[global] Open Scope list_scope.
#[global] Open Scope Z_scope.

(** ** Machine integers

    A [w]-bit unsigned integer is a [Z] in [[0, 2^w)], a signed one a [Z] in
    [[-2^(w-1), 2^(w-1))].  [wrapU] and [wrapS] are the conversions C and Go
    perform on overflow and on a cast. *)
Definition wrapU (w z : Z) : Z := z mod 2 ^ w.
Definition wrapS (w z : Z) : Z := (z + 2 ^ (w - 1)) mod 2 ^ w - 2 ^ (w - 1).
Definition inU (w z : Z) : Prop := 0 <= z < 2 ^ w.
Definition inS (w z : Z) : Prop := - 2 ^ (w - 1) <= z < 2 ^ (w - 1).

Notation "'u8!' z" := (wrapU 8 z) (at level 10, z at level 9) : akil_scope.
Notation "'u32!' z" := (wrapU 32 z) (at level 10, z at level 9) : akil_scope.
Notation "'u64!' z" := (wrapU 64 z) (at level 10, z at level 9) : akil_scope.
Notation "'i32!' z" := (wrapS 32 z) (at level 10, z at level 9) : akil_scope.
Notation "'i64!' z" := (wrapS 64 z) (at level 10, z at level 9) : akil_scope.
#[global] Open Scope akil_scope.

#[global] Instance inU_dec w z : Decision (inU w z).
Proof. unfold inU. apply _. Defined.
#[global] Instance inS_dec w z : Decision (inS w z).
Proof. unfold inS. apply _. Defined.

Create HintDb akil discriminated.
Create Rewrite HintDb akil.
Create Rewrite HintDb wrap.

Section machine_int.
Implicit Types (w z : Z).

Lemma pow2_pos w : 0 <= w -> 0 < 2 ^ w.
Proof. intros. apply Z.pow_pos_nonneg; lia. Qed.

Lemma pow2_half w : 0 < w -> 2 ^ w = 2 * 2 ^ (w - 1).
Proof. intros. rewrite <- Z.pow_succ_r by lia. f_equal; lia. Qed.

Lemma wrapU_range w z : 0 <= w -> inU w (wrapU w z).
Proof. intros. apply Z.mod_pos_bound, pow2_pos. done. Qed.

Lemma wrapU_id w z : inU w z -> wrapU w z = z.
Proof. intros. by apply Z.mod_small. Qed.

Lemma wrapS_range w z : 0 < w -> inS w (wrapS w z).
Proof.
  intros Hw. pose proof (pow2_half w Hw).
  pose proof (Z.mod_pos_bound (z + 2 ^ (w - 1)) (2 ^ w) (pow2_pos w ltac:(lia))).
  unfold inS, wrapS. lia.
Qed.

Lemma wrapS_id w z : 0 < w -> inS w z -> wrapS w z = z.
Proof.
  intros Hw [? ?]. pose proof (pow2_half w Hw). unfold wrapS.
  rewrite Z.mod_small by lia. lia.
Qed.

Lemma wrapU_wrapS w z : 0 < w -> wrapU w (wrapS w z) = wrapU w z.
Proof.
  intros Hw. unfold wrapU, wrapS. rewrite Zminus_mod_idemp_l. f_equal. lia.
Qed.

Lemma wrapS_wrapU w z : 0 < w -> wrapS w (wrapU w z) = wrapS w z.
Proof. intros Hw. unfold wrapU, wrapS. by rewrite Zplus_mod_idemp_l. Qed.

(** A truncation to a width forgets an earlier truncation to a larger one. *)
Lemma wrapU_wrapU w v z : 0 <= w <= v -> wrapU w (wrapU v z) = wrapU w z.
Proof.
  intros Hw. unfold wrapU. apply Z.mod_mod_divide. exists (2 ^ (v - w)).
  rewrite <- Z.pow_add_r by lia. f_equal. lia.
Qed.

Lemma wrapS_wrapU_le w v z : 0 < w <= v -> wrapS w (wrapU v z) = wrapS w z.
Proof.
  intros Hw. rewrite <- (wrapS_wrapU w (wrapU v z)), wrapU_wrapU by lia. apply wrapS_wrapU. lia.
Qed.

Lemma wrapS_add_l w a b : 0 < w -> wrapS w (wrapS w a + b) = wrapS w (a + b).
Proof.
  intros Hw. unfold wrapS at 1 3.
  rewrite <- (Zplus_mod_idemp_l (wrapS w a + b)).
  rewrite <- (Zplus_mod_idemp_l (a + b)). do 3 f_equal.
  rewrite <- (Zplus_mod_idemp_l (wrapS w a)), <- (Zplus_mod_idemp_l a).
  fold (wrapU w (wrapS w a)) (wrapU w a). by rewrite wrapU_wrapS.
Qed.

Lemma wrapS_add_r w a b : 0 < w -> wrapS w (a + wrapS w b) = wrapS w (a + b).
Proof. intros. rewrite (Z.add_comm a), wrapS_add_l by done. f_equal; lia. Qed.

(** Subtracting two unsigned readings is exact when the clock did not go back. *)
Lemma wrapU_sub_le w a b : inU w a -> inU w b -> b <= a -> wrapU w (a - b) = a - b.
Proof. intros [? ?] [? ?] ?. apply wrapU_id. unfold inU. lia. Qed.

(** An unsigned value below the sign bit survives the cast to the signed type. *)
Lemma wrapS_small w z : 0 < w -> 0 <= z < 2 ^ (w - 1) -> wrapS w z = z.
Proof. intros Hw ?. apply wrapS_id; [done|]. unfold inS. lia. Qed.
End machine_int.

#[export] Hint Resolve wrapU_range wrapS_range pow2_pos : akil.
#[export] Hint Rewrite wrapU_wrapS wrapS_wrapU wrapS_add_l wrapS_add_r using lia : wrap.

(** ** Bytes: [n]-byte little-endian encodings, bytes being [Z]s in [[0, 256)]. *)
Fixpoint le_bytes (n : nat) (z : Z) : list Z :=
  match n with
  | O => []
  | S n => z mod 256 :: le_bytes n (z / 256)
  end.

Fixpoint le_val (bs : list Z) : Z :=
  match bs with
  | [] => 0
  | b :: bs => b + 256 * le_val bs
  end.

Definition is_byte (b : Z) : Prop := 0 <= b < 256.

Lemma length_le_bytes n z : length (le_bytes n z) = n.
Proof. revert z. induction n; intros; simpl; auto. Qed.

Lemma le_bytes_bytes n z : Forall is_byte (le_bytes n z).
Proof.
  revert z. induction n; intros; simpl; constructor; auto.
  apply Z.mod_pos_bound. lia.
Qed.

(** Decoding an encoding gives the value reduced to the width encoded. *)
Lemma le_val_bytes n z : le_val (le_bytes n z) = z mod 256 ^ Z.of_nat n.
Proof.
  revert z. induction n as [|n IH]; intros z; simpl le_bytes; simpl le_val.
  { by rewrite Z.mod_1_r. }
  rewrite IH, Nat2Z.inj_succ, Z.pow_succ_r by lia.
  rewrite Z.rem_mul_r by lia. lia.
Qed.

Lemma le_val_bytes_id n z : 0 <= z < 256 ^ Z.of_nat n -> le_val (le_bytes n z) = z.
Proof. intros. rewrite le_val_bytes. by apply Z.mod_small. Qed.

Lemma le_val_range bs : Forall is_byte bs -> 0 <= le_val bs < 256 ^ Z.of_nat (length bs).
Proof.
  induction 1 as [|b bs Hb _ IH]; [done|]. cbn [length le_val].
  rewrite Nat2Z.inj_succ, Z.pow_succ_r by lia. unfold is_byte in Hb. lia.
Qed.

Lemma le_bytes_val bs : Forall is_byte bs -> le_bytes (length bs) (le_val bs) = bs.
Proof.
  induction 1 as [|b bs Hb _ IH]; [done|]. cbn [length le_val le_bytes].
  unfold is_byte in Hb. f_equal.
  - rewrite Z.mul_comm, Z.mod_add by lia. by apply Z.mod_small.
  - rewrite Z.mul_comm, Z.div_add by lia. rewrite Z.div_small by lia. exact IH.
Qed.
#[export] Hint Rewrite length_le_bytes : akil.

(** [get_le n off bs]: the [n]-byte little-endian value at offset [off]
    ([binary.LittleEndian.UintN(bs[off:off+n])]). *)
Definition get_le (n off : nat) (bs : list Z) : Z := le_val (take n (drop off bs)).

(** Overwriting [length new] bytes of [bs] at offset [off]. *)
Definition put_bytes (off : nat) (new bs : list Z) : list Z :=
  take off bs ++ new ++ drop (off + length new) bs.

Lemma length_put_bytes off new bs :
  (off + length new <= length bs)%nat -> length (put_bytes off new bs) = length bs.
Proof.
  intros. unfold put_bytes. rewrite !length_app, length_take, length_drop. lia.
Qed.

Lemma take_drop_put_same off new bs :
  (off <= length bs)%nat -> take (length new) (drop off (put_bytes off new bs)) = new.
Proof.
  intros. unfold put_bytes.
  rewrite drop_app_length' by (rewrite length_take; lia).
  by rewrite take_app_length.
Qed.

Lemma lookup_put_bytes_ne off new bs i :
  (off + length new <= length bs)%nat ->
  (i < off)%nat \/ (off + length new <= i)%nat ->
  put_bytes off new bs !! i = bs !! i.
Proof.
  intros Hlen [Hi|Hi]; unfold put_bytes.
  - rewrite lookup_app_l by (rewrite length_take; lia). by rewrite lookup_take_lt.
  - rewrite app_assoc, lookup_app_r by (rewrite length_app, length_take; lia).
    rewrite lookup_drop, length_app, length_take. f_equal. lia.
Qed.

(** A write elsewhere does not change the [n] bytes read at [off]. *)
Lemma take_drop_put_ne n off off' new bs :
  (off' + length new <= length bs)%nat ->
  (off + n <= off')%nat \/ (off' + length new <= off)%nat ->
  take n (drop off (put_bytes off' new bs)) = take n (drop off bs).
Proof.
  intros Hlen Hd. apply list_eq. intros i.
  destruct (decide (i < n)%nat) as [Hi|Hi].
  - rewrite !lookup_take_lt, !lookup_drop by done.
    apply lookup_put_bytes_ne; [done|]. lia.
  - by rewrite !lookup_take_ge by lia.
Qed.

Lemma get_le_put_same n off z bs :
  (off <= length bs)%nat ->
  get_le n off (put_bytes off (le_bytes n z) bs) = z mod 256 ^ Z.of_nat n.
Proof.
  intros. unfold get_le.
  rewrite <- (length_le_bytes n z) at 1. rewrite take_drop_put_same by done.
  apply le_val_bytes.
Qed.

Lemma get_le_put_ne n off off' new bs :
  (off' + length new <= length bs)%nat ->
  (off + n <= off')%nat \/ (off' + length new <= off)%nat ->
  get_le n off (put_bytes off' new bs) = get_le n off bs.
Proof. intros. unfold get_le. by rewrite take_drop_put_ne. Qed.

(** ** Go slices: an index outside the slice panics ([None]). *)
Definition slice_get {A} (l : list A) (i : Z) : option A :=
  if decide (0 <= i) then l !! Z.to_nat i else None.

Definition slice_set {A} (l : list A) (i : Z) (x : A) : option (list A) :=
  if decide (0 <= i < Z.of_nat (length l)) then Some (<[Z.to_nat i := x]> l) else None.

Lemma slice_set_lookup {A} (l l' : list A) i x j :
  slice_set l i x = Some l' ->
  length l' = length l /\ l' !! j = if decide (j = Z.to_nat i) then Some x else l !! j.
Proof.
  unfold slice_set. case_decide as H; [|done]. intros [= <-].
  split; [apply length_insert|]. case_decide as Hj.
  - subst. rewrite list_lookup_insert_eq; [done|lia].
  - by rewrite list_lookup_insert_ne.
Qed.

(** Filtering keeps the order of sublists. *)
Lemma filter_sublist_mono {A} (P : A -> Prop) `{!forall x, Decision (P x)} (l k : list A) :
  l `sublist_of` k -> filter P l `sublist_of` filter P k.
Proof.
  induction 1 as [|x l k _ IH|x l k _ IH]; rewrite ?filter_cons; [constructor|..].
  - case_decide; [by apply sublist_skip|done].
  - case_decide; [by apply sublist_cons|done].
Qed.
