(* ===== verification/CTypes.v ===== *)
(** * C types and the layout of C structs

    The fragment of the C type system that [pkg/ebpf/akil.c] and the libbpf
    headers under [pkg/ebpf/headers/bpf] use, with the sizes and alignments of
    the BPF target (64-bit pointers and [long], natural alignment).  The C
    language fixes the layout rules; the struct declarations that are laid out
    with them are in the files that model those declarations. *)
From S2P Require Import Prelude.

(** The scalar types named in the sources, by their spelling there. *)
Inductive ikind :=
  | K_u8 | K_u16 | K_u32 | K_u64 | K_s32 | K_s64
  | K_be16 | K_be32 | K_wsum | K_int | K_long | K_ulong | K_char.

Inductive ctype :=
  | CVoid
  | CScalar (k : ikind)
  | CPtr (is_const : bool) (t : ctype)      (* [const t *] or [t *] *)
  | CNamed (tag : string)                   (* an incomplete [struct tag] *)
  | CStruct (fields : list (string * ctype))
  | CUnion (fields : list (string * ctype)).

#[global] Instance ikind_eq_dec : EqDecision ikind.
Proof. solve_decision. Defined.

Definition ikind_size (k : ikind) : Z :=
  match k with
  | K_u8 | K_char => 1
  | K_u16 | K_be16 => 2
  | K_u32 | K_s32 | K_be32 | K_wsum | K_int => 4
  | K_u64 | K_s64 | K_long | K_ulong => 8
  end.

Definition ikind_signed (k : ikind) : bool :=
  match k with K_s32 | K_s64 | K_int | K_long | K_char => true | _ => false end.

(** ** Layout *)

Definition align_up (off a : Z) : Z := (off + a - 1) / a * a.

(** [place sa off]: the offsets of members of the given (size, alignment)
    pairs laid out from [off] on, and the first free offset after them. *)
Fixpoint place (sa : list (Z * Z)) (off : Z) : list Z * Z :=
  match sa with
  | [] => ([], off)
  | (s, a) :: sa =>
      let o := align_up off a in
      let '(os, e) := place sa (o + s) in
      (o :: os, e)
  end.

Definition max_align (sa : list (Z * Z)) : Z := foldr (fun p m => Z.max (snd p) m) 1 sa.
Definition max_size (sa : list (Z * Z)) : Z := foldr (fun p m => Z.max (fst p) m) 0 sa.

(** (sizeof, _Alignof) of a type; (0, 1) stands for an incomplete type. *)
Fixpoint size_align (t : ctype) : Z * Z :=
  match t with
  | CVoid | CNamed _ => (0, 1)
  | CScalar k => (ikind_size k, ikind_size k)
  | CPtr _ _ => (8, 8)
  | CStruct fs =>
      let sa := (fix go fs := match fs with [] => [] | (_, t) :: fs => size_align t :: go fs end) fs in
      (align_up (snd (place sa 0)) (max_align sa), max_align sa)
  | CUnion fs =>
      let sa := (fix go fs := match fs with [] => [] | (_, t) :: fs => size_align t :: go fs end) fs in
      (align_up (max_size sa) (max_align sa), max_align sa)
  end.

Definition sizeof (t : ctype) : Z := fst (size_align t).
Definition alignof (t : ctype) : Z := snd (size_align t).

Definition field_layouts (fs : list (string * ctype)) : list (Z * Z) :=
  map (fun p => size_align (snd p)) fs.

Definition struct_offsets (fs : list (string * ctype)) : list Z :=
  fst (place (field_layouts fs) 0).

(** [offsetof(type, member)] for a member named directly in the struct; every
    member of a union is at offset 0. *)
Fixpoint assoc_find {A} (name : string) (fs : list (string * ctype)) (xs : list A) : option A :=
  match fs, xs with
  | (n, _) :: fs, x :: xs => if decide (n = name) then Some x else assoc_find name fs xs
  | _, _ => None
  end.

Definition offsetof_ (t : ctype) (member : string) : option Z :=
  match t with
  | CStruct fs => assoc_find member fs (struct_offsets fs)
  | CUnion fs => assoc_find member fs (map (fun _ => 0) fs)
  | _ => None
  end.

(** ** What the layout guarantees *)

Lemma align_up_spec off a :
  0 < a -> off <= align_up off a < off + a /\ align_up off a mod a = 0.
Proof.
  intros Ha. unfold align_up. split; [|by rewrite Z.mod_mul by lia].
  pose proof (Z.div_mod (off + a - 1) a ltac:(lia)) as E.
  pose proof (Z.mod_pos_bound (off + a - 1) a Ha). lia.
Qed.

Lemma align_up_id off a : 0 < a -> off mod a = 0 -> align_up off a = off.
Proof.
  intros Ha Hm. unfold align_up.
  apply Z.mod_divide in Hm; [|lia]. destruct Hm as [q ->].
  replace (q * a + a - 1) with (a - 1 + q * a) by lia.
  rewrite Z.div_add by lia. rewrite Z.div_small by lia. lia.
Qed.

Definition sane_layout (sa : list (Z * Z)) : Prop :=
  Forall (fun p => 0 <= fst p /\ 0 < snd p) sa.

Lemma place_length sa off : length (fst (place sa off)) = length sa.
Proof.
  revert off. induction sa as [|[s a] sa IH]; intros off; [done|].
  cbn [place]. specialize (IH (align_up off a + s)).
  destruct (place sa _); simpl in *. auto.
Qed.

Lemma place_end_ge sa off : sane_layout sa -> off <= snd (place sa off).
Proof.
  intros Hs. revert off. induction Hs as [|[s a] sa [Hs Ha] _ IH]; intros off; [simpl; lia|].
  cbn [place]. specialize (IH (align_up off a + s)).
  destruct (place sa _); simpl in *. pose proof (align_up_spec off a Ha). lia.
Qed.

(** Members start at or after the first free offset. *)
Lemma place_ge sa off i o :
  sane_layout sa -> fst (place sa off) !! i = Some o -> off <= o.
Proof.
  intros Hs. revert off i. induction Hs as [|[s a] sa [Hs Ha] _ IH]; intros off i; [done|].
  cbn [place]. specialize (IH (align_up off a + s)).
  destruct (place sa _); simpl in *. pose proof (align_up_spec off a Ha).
  destruct i; simpl; intros Hl; [simplify_eq; lia|]. specialize (IH _ Hl). lia.
Qed.

(** Every member is aligned and inside the laid out range. *)
Lemma place_in_range sa off i o s a :
  sane_layout sa -> fst (place sa off) !! i = Some o -> sa !! i = Some (s, a) ->
  o mod a = 0 /\ off <= o /\ o + s <= snd (place sa off).
Proof.
  intros Hs. revert off i. induction Hs as [|[s' a'] sa [Hs' Ha] Hsa IH]; intros off i; [done|].
  cbn [place]. specialize (IH (align_up off a' + s')).
  pose proof (place_end_ge sa (align_up off a' + s') Hsa).
  destruct (place sa _) as [os e] eqn:E; simpl in *. pose proof (align_up_spec off a' Ha).
  destruct i; simpl; intros Hl Hx; simplify_eq; [lia|].
  specialize (IH _ Hl Hx). lia.
Qed.

(** Two distinct members do not overlap. *)
Lemma place_disjoint sa off i j oi oj si ai :
  sane_layout sa -> (i < j)%nat ->
  fst (place sa off) !! i = Some oi -> fst (place sa off) !! j = Some oj ->
  sa !! i = Some (si, ai) -> oi + si <= oj.
Proof.
  intros Hs. revert off i j. induction Hs as [|[s a] sa [Hs' Ha] Hsa IH]; intros off i j; [done|].
  cbn [place].
  pose proof (place_ge sa (align_up off a + s)) as Hge.
  specialize (IH (align_up off a + s)).
  destruct (place sa _) as [os e] eqn:E; simpl in *.
  destruct j as [|j]; [lia|]. destruct i as [|i]; simpl; intros ? Hi Hj Hx; simplify_eq.
  - by apply (Hge j).
  - apply (IH i j); auto; lia.
Qed.
