(* ===== verification/BpfHelperDefs.v ===== *)
(** * The BPF helper table ([pkg/ebpf/headers/bpf/bpf_helper_defs.h])

    The header declares one static function pointer per kernel helper,
    [static T ( *const name)(params) = (void * ) id;], after a comment that
    documents what the helper returns.  A helper is modelled by its C prototype,
    the call number it is initialised with, and the return convention its
    comment documents ([ret_contract]).  What a helper does is kernel code and
    not part of the repository: nothing here defines it.

    The first part is the table itself; the second what is checked about it:
    the numbering is a bijection, every call fits the BPF calling convention,
    declared return types can carry the documented results, and a typing of
    helper calls that the files modelling programs and macros use. *)
From stdpp Require Import pretty.
From S2P Require Import Prelude CTypes.
#[local] Open Scope string_scope.

(** What the "Returns" paragraph of a helper's comment promises. *)
Inductive ret_contract :=
  | R_nothing          (* no result *)
  | R_zero             (* always 0 *)
  | R_zero_or_err      (* 0, or a negative error *)
  | R_nonneg_or_err    (* a size, count, level or id >= 0, or a negative error *)
  | R_pos_or_err       (* a strictly positive length, or a negative error *)
  | R_value_or_err     (* any counter value, or a negative error code *)
  | R_bool             (* 0 or 1 *)
  | R_bool_or_err      (* 0, 1 or a negative error *)
  | R_verdict          (* an action code such as SK_PASS or XDP_REDIRECT *)
  | R_value            (* a value of the return type *)
  | R_ptr              (* a valid pointer *)
  | R_ptr_or_null.     (* a valid pointer, or NULL *)

Record helper := mk_helper {
  h_name : string;
  h_ret : ctype;
  h_params : list (ctype * string);
  h_variadic : bool;
  h_fastcall : bool;
  h_id : Z;
  h_returns : ret_contract
}.

#[global] Instance ret_contract_eq_dec : EqDecision ret_contract.
Proof. solve_decision. Defined.

(** The structs the header declares before the first prototype. *)
Definition forward_structs : list string :=
  ["bpf_fib_lookup"; "bpf_sk_lookup"; "bpf_perf_event_data"; "bpf_perf_event_value";
   "bpf_pidns_info"; "bpf_redir_neigh"; "bpf_sock"; "bpf_sock_addr"; "bpf_sock_ops";
   "bpf_sock_tuple"; "bpf_spin_lock"; "bpf_sysctl"; "bpf_tcp_sock"; "bpf_tunnel_key";
   "bpf_xfrm_state"; "linux_binprm"; "pt_regs"; "sk_reuseport_md"; "sockaddr";
   "tcphdr"; "seq_file"; "tcp6_sock"; "tcp_sock"; "tcp_timewait_sock";
   "tcp_request_sock"; "udp6_sock"; "unix_sock"; "task_struct"; "cgroup"; "__sk_buff";
   "sk_msg_md"; "xdp_md"; "path"; "btf_ptr"; "inode"; "socket"; "file"; "bpf_timer";
   "mptcp_sock"; "bpf_dynptr"; "iphdr"; "ipv6hdr"].

(** ** The helpers, in the order of their numbers *)

Definition bpf_map_lookup_elem : helper :=
  mk_helper "bpf_map_lookup_elem" (CPtr false CVoid)
    [(CPtr false CVoid, "map"); (CPtr true CVoid, "key")]
    false false 1 R_ptr_or_null.
Definition bpf_map_update_elem : helper :=
  mk_helper "bpf_map_update_elem" (CScalar K_long)
    [(CPtr false CVoid, "map"); (CPtr true CVoid, "key"); (CPtr true CVoid, "value");
     (CScalar K_u64, "flags")]
    false false 2 R_zero_or_err.
Definition bpf_map_delete_elem : helper :=
  mk_helper "bpf_map_delete_elem" (CScalar K_long)
    [(CPtr false CVoid, "map"); (CPtr true CVoid, "key")]
    false false 3 R_zero_or_err.
Definition bpf_probe_read : helper :=
  mk_helper "bpf_probe_read" (CScalar K_long)
    [(CPtr false CVoid, "dst"); (CScalar K_u32, "size"); (CPtr true CVoid,
     "unsafe_ptr")]
    false false 4 R_zero_or_err.
Definition bpf_ktime_get_ns : helper :=
  mk_helper "bpf_ktime_get_ns" (CScalar K_u64)
    []
    false false 5 R_value.
Definition bpf_trace_printk : helper :=
  mk_helper "bpf_trace_printk" (CScalar K_long)
    [(CPtr true (CScalar K_char), "fmt"); (CScalar K_u32, "fmt_size")]
    true false 6 R_nonneg_or_err.
Definition bpf_get_prandom_u32 : helper :=
  mk_helper "bpf_get_prandom_u32" (CScalar K_u32)
    []
    false false 7 R_value.
Definition bpf_get_smp_processor_id : helper :=
  mk_helper "bpf_get_smp_processor_id" (CScalar K_u32)
    []
    false true 8 R_value.
Definition bpf_skb_store_bytes : helper :=
  mk_helper "bpf_skb_store_bytes" (CScalar K_long)
    [(CPtr false (CNamed "__sk_buff"), "skb"); (CScalar K_u32, "offset"); (CPtr true
     CVoid, "from"); (CScalar K_u32, "len"); (CScalar K_u64, "flags")]
    false false 9 R_zero_or_err.
Definition bpf_l3_csum_replace : helper :=
  mk_helper "bpf_l3_csum_replace" (CScalar K_long)
    [(CPtr false (CNamed "__sk_buff"), "skb"); (CScalar K_u32, "offset"); (CScalar
     K_u64, "from"); (CScalar K_u64, "to"); (CScalar K_u64, "size")]
    false false 10 R_zero_or_err.
Definition bpf_l4_csum_replace : helper :=
  mk_helper "bpf_l4_csum_replace" (CScalar K_long)
    [(CPtr false (CNamed "__sk_buff"), "skb"); (CScalar K_u32, "offset"); (CScalar
     K_u64, "from"); (CScalar K_u64, "to"); (CScalar K_u64, "flags")]
    false false 11 R_zero_or_err.
Definition bpf_tail_call : helper :=
  mk_helper "bpf_tail_call" (CScalar K_long)
    [(CPtr false CVoid, "ctx"); (CPtr false CVoid, "prog_array_map"); (CScalar K_u32,
     "index")]
    false false 12 R_zero_or_err.
Definition bpf_clone_redirect : helper :=
  mk_helper "bpf_clone_redirect" (CScalar K_long)
    [(CPtr false (CNamed "__sk_buff"), "skb"); (CScalar K_u32, "ifindex"); (CScalar
     K_u64, "flags")]
    false false 13 R_value.
Definition bpf_get_current_pid_tgid : helper :=
  mk_helper "bpf_get_current_pid_tgid" (CScalar K_u64)
    []
    false false 14 R_value.
Definition bpf_get_current_uid_gid : helper :=
  mk_helper "bpf_get_current_uid_gid" (CScalar K_u64)
    []
    false false 15 R_value.
Definition bpf_get_current_comm : helper :=
  mk_helper "bpf_get_current_comm" (CScalar K_long)
    [(CPtr false CVoid, "buf"); (CScalar K_u32, "size_of_buf")]
    false false 16 R_zero_or_err.
Definition bpf_get_cgroup_classid : helper :=
  mk_helper "bpf_get_cgroup_classid" (CScalar K_u32)
    [(CPtr false (CNamed "__sk_buff"), "skb")]
    false false 17 R_value.
Definition bpf_skb_vlan_push : helper :=
  mk_helper "bpf_skb_vlan_push" (CScalar K_long)
    [(CPtr false (CNamed "__sk_buff"), "skb"); (CScalar K_be16, "vlan_proto");
     (CScalar K_u16, "vlan_tci")]
    false false 18 R_zero_or_err.
Definition bpf_skb_vlan_pop : helper :=
  mk_helper "bpf_skb_vlan_pop" (CScalar K_long)
    [(CPtr false (CNamed "__sk_buff"), "skb")]
    false false 19 R_zero_or_err.
Definition bpf_skb_get_tunnel_key : helper :=
  mk_helper "bpf_skb_get_tunnel_key" (CScalar K_long)
    [(CPtr false (CNamed "__sk_buff"), "skb"); (CPtr false (CNamed "bpf_tunnel_key"),
     "key"); (CScalar K_u32, "size"); (CScalar K_u64, "flags")]
    false false 20 R_zero_or_err.
Definition bpf_skb_set_tunnel_key : helper :=
  mk_helper "bpf_skb_set_tunnel_key" (CScalar K_long)
    [(CPtr false (CNamed "__sk_buff"), "skb"); (CPtr false (CNamed "bpf_tunnel_key"),
     "key"); (CScalar K_u32, "size"); (CScalar K_u64, "flags")]
    false false 21 R_zero_or_err.
Definition bpf_perf_event_read : helper :=
  mk_helper "bpf_perf_event_read" (CScalar K_u64)
    [(CPtr false CVoid, "map"); (CScalar K_u64, "flags")]
    false false 22 R_value_or_err.
Definition bpf_redirect : helper :=
  mk_helper "bpf_redirect" (CScalar K_long)
    [(CScalar K_u32, "ifindex"); (CScalar K_u64, "flags")]
    false false 23 R_verdict.
Definition bpf_get_route_realm : helper :=
  mk_helper "bpf_get_route_realm" (CScalar K_u32)
    [(CPtr false (CNamed "__sk_buff"), "skb")]
    false false 24 R_value.
Definition bpf_perf_event_output : helper :=
  mk_helper "bpf_perf_event_output" (CScalar K_long)
    [(CPtr false CVoid, "ctx"); (CPtr false CVoid, "map"); (CScalar K_u64, "flags");
     (CPtr false CVoid, "data"); (CScalar K_u64, "size")]
    false false 25 R_zero_or_err.
Definition bpf_skb_load_bytes : helper :=
  mk_helper "bpf_skb_load_bytes" (CScalar K_long)
    [(CPtr true CVoid, "skb"); (CScalar K_u32, "offset"); (CPtr false CVoid, "to");
     (CScalar K_u32, "len")]
    false false 26 R_zero_or_err.
Definition bpf_get_stackid : helper :=
  mk_helper "bpf_get_stackid" (CScalar K_long)
    [(CPtr false CVoid, "ctx"); (CPtr false CVoid, "map"); (CScalar K_u64, "flags")]
    false false 27 R_nonneg_or_err.
Definition bpf_csum_diff : helper :=
  mk_helper "bpf_csum_diff" (CScalar K_s64)
    [(CPtr false (CScalar K_be32), "from"); (CScalar K_u32, "from_size"); (CPtr false
     (CScalar K_be32), "to"); (CScalar K_u32, "to_size"); (CScalar K_wsum, "seed")]
    false false 28 R_nonneg_or_err.
Definition bpf_skb_get_tunnel_opt : helper :=
  mk_helper "bpf_skb_get_tunnel_opt" (CScalar K_long)
    [(CPtr false (CNamed "__sk_buff"), "skb"); (CPtr false CVoid, "opt"); (CScalar
     K_u32, "size")]
    false false 29 R_value.
Definition bpf_skb_set_tunnel_opt : helper :=
  mk_helper "bpf_skb_set_tunnel_opt" (CScalar K_long)
    [(CPtr false (CNamed "__sk_buff"), "skb"); (CPtr false CVoid, "opt"); (CScalar
     K_u32, "size")]
    false false 30 R_zero_or_err.
Definition bpf_skb_change_proto : helper :=
  mk_helper "bpf_skb_change_proto" (CScalar K_long)
    [(CPtr false (CNamed "__sk_buff"), "skb"); (CScalar K_be16, "proto"); (CScalar
     K_u64, "flags")]
    false false 31 R_zero_or_err.
Definition bpf_skb_change_type : helper :=
  mk_helper "bpf_skb_change_type" (CScalar K_long)
    [(CPtr false (CNamed "__sk_buff"), "skb"); (CScalar K_u32, "type")]
    false false 32 R_zero_or_err.
Definition bpf_skb_under_cgroup : helper :=
  mk_helper "bpf_skb_under_cgroup" (CScalar K_long)
    [(CPtr false (CNamed "__sk_buff"), "skb"); (CPtr false CVoid, "map"); (CScalar
     K_u32, "index")]
    false false 33 R_bool_or_err.
Definition bpf_get_hash_recalc : helper :=
  mk_helper "bpf_get_hash_recalc" (CScalar K_u32)
    [(CPtr false (CNamed "__sk_buff"), "skb")]
    false false 34 R_value.
Definition bpf_get_current_task : helper :=
  mk_helper "bpf_get_current_task" (CScalar K_u64)
    []
    false false 35 R_value.
Definition bpf_probe_write_user : helper :=
  mk_helper "bpf_probe_write_user" (CScalar K_long)
    [(CPtr false CVoid, "dst"); (CPtr true CVoid, "src"); (CScalar K_u32, "len")]
    false false 36 R_zero_or_err.
Definition bpf_current_task_under_cgroup : helper :=
  mk_helper "bpf_current_task_under_cgroup" (CScalar K_long)
    [(CPtr false CVoid, "map"); (CScalar K_u32, "index")]
    false false 37 R_bool_or_err.
Definition bpf_skb_change_tail : helper :=
  mk_helper "bpf_skb_change_tail" (CScalar K_long)
    [(CPtr false (CNamed "__sk_buff"), "skb"); (CScalar K_u32, "len"); (CScalar K_u64,
     "flags")]
    false false 38 R_zero_or_err.
Definition bpf_skb_pull_data : helper :=
  mk_helper "bpf_skb_pull_data" (CScalar K_long)
    [(CPtr false (CNamed "__sk_buff"), "skb"); (CScalar K_u32, "len")]
    false false 39 R_zero_or_err.
Definition bpf_csum_update : helper :=
  mk_helper "bpf_csum_update" (CScalar K_s64)
    [(CPtr false (CNamed "__sk_buff"), "skb"); (CScalar K_wsum, "csum")]
    false false 40 R_nonneg_or_err.
Definition bpf_set_hash_invalid : helper :=
  mk_helper "bpf_set_hash_invalid" CVoid
    [(CPtr false (CNamed "__sk_buff"), "skb")]
    false false 41 R_nothing.
Definition bpf_get_numa_node_id : helper :=
  mk_helper "bpf_get_numa_node_id" (CScalar K_long)
    []
    false false 42 R_value.
Definition bpf_skb_change_head : helper :=
  mk_helper "bpf_skb_change_head" (CScalar K_long)
    [(CPtr false (CNamed "__sk_buff"), "skb"); (CScalar K_u32, "len"); (CScalar K_u64,
     "flags")]
    false false 43 R_zero_or_err.
Definition bpf_xdp_adjust_head : helper :=
  mk_helper "bpf_xdp_adjust_head" (CScalar K_long)
    [(CPtr false (CNamed "xdp_md"), "xdp_md"); (CScalar K_int, "delta")]
    false false 44 R_zero_or_err.
Definition bpf_probe_read_str : helper :=
  mk_helper "bpf_probe_read_str" (CScalar K_long)
    [(CPtr false CVoid, "dst"); (CScalar K_u32, "size"); (CPtr true CVoid,
     "unsafe_ptr")]
    false false 45 R_pos_or_err.
Definition bpf_get_socket_cookie : helper :=
  mk_helper "bpf_get_socket_cookie" (CScalar K_u64)
    [(CPtr false CVoid, "ctx")]
    false false 46 R_value.
Definition bpf_get_socket_uid : helper :=
  mk_helper "bpf_get_socket_uid" (CScalar K_u32)
    [(CPtr false (CNamed "__sk_buff"), "skb")]
    false false 47 R_value.
Definition bpf_set_hash : helper :=
  mk_helper "bpf_set_hash" (CScalar K_long)
    [(CPtr false (CNamed "__sk_buff"), "skb"); (CScalar K_u32, "hash")]
    false false 48 R_zero.
Definition bpf_setsockopt : helper :=
  mk_helper "bpf_setsockopt" (CScalar K_long)
    [(CPtr false CVoid, "bpf_socket"); (CScalar K_int, "level"); (CScalar K_int,
     "optname"); (CPtr false CVoid, "optval"); (CScalar K_int, "optlen")]
    false false 49 R_zero_or_err.
Definition bpf_skb_adjust_room : helper :=
  mk_helper "bpf_skb_adjust_room" (CScalar K_long)
    [(CPtr false (CNamed "__sk_buff"), "skb"); (CScalar K_s32, "len_diff"); (CScalar
     K_u32, "mode"); (CScalar K_u64, "flags")]
    false false 50 R_zero_or_err.
Definition bpf_redirect_map : helper :=
  mk_helper "bpf_redirect_map" (CScalar K_long)
    [(CPtr false CVoid, "map"); (CScalar K_u64, "key"); (CScalar K_u64, "flags")]
    false false 51 R_verdict.
Definition bpf_sk_redirect_map : helper :=
  mk_helper "bpf_sk_redirect_map" (CScalar K_long)
    [(CPtr false (CNamed "__sk_buff"), "skb"); (CPtr false CVoid, "map"); (CScalar
     K_u32, "key"); (CScalar K_u64, "flags")]
    false false 52 R_verdict.
Definition bpf_sock_map_update : helper :=
  mk_helper "bpf_sock_map_update" (CScalar K_long)
    [(CPtr false (CNamed "bpf_sock_ops"), "skops"); (CPtr false CVoid, "map"); (CPtr
     false CVoid, "key"); (CScalar K_u64, "flags")]
    false false 53 R_zero_or_err.
Definition bpf_xdp_adjust_meta : helper :=
  mk_helper "bpf_xdp_adjust_meta" (CScalar K_long)
    [(CPtr false (CNamed "xdp_md"), "xdp_md"); (CScalar K_int, "delta")]
    false false 54 R_zero_or_err.
Definition bpf_perf_event_read_value : helper :=
  mk_helper "bpf_perf_event_read_value" (CScalar K_long)
    [(CPtr false CVoid, "map"); (CScalar K_u64, "flags"); (CPtr false (CNamed
     "bpf_perf_event_value"), "buf"); (CScalar K_u32, "buf_size")]
    false false 55 R_zero_or_err.
Definition bpf_perf_prog_read_value : helper :=
  mk_helper "bpf_perf_prog_read_value" (CScalar K_long)
    [(CPtr false (CNamed "bpf_perf_event_data"), "ctx"); (CPtr false (CNamed
     "bpf_perf_event_value"), "buf"); (CScalar K_u32, "buf_size")]
    false false 56 R_zero_or_err.
Definition bpf_getsockopt : helper :=
  mk_helper "bpf_getsockopt" (CScalar K_long)
    [(CPtr false CVoid, "bpf_socket"); (CScalar K_int, "level"); (CScalar K_int,
     "optname"); (CPtr false CVoid, "optval"); (CScalar K_int, "optlen")]
    false false 57 R_zero_or_err.
Definition bpf_override_return : helper :=
  mk_helper "bpf_override_return" (CScalar K_long)
    [(CPtr false (CNamed "pt_regs"), "regs"); (CScalar K_u64, "rc")]
    false false 58 R_zero.
Definition bpf_sock_ops_cb_flags_set : helper :=
  mk_helper "bpf_sock_ops_cb_flags_set" (CScalar K_long)
    [(CPtr false (CNamed "bpf_sock_ops"), "bpf_sock"); (CScalar K_int, "argval")]
    false false 59 R_nonneg_or_err.
Definition bpf_msg_redirect_map : helper :=
  mk_helper "bpf_msg_redirect_map" (CScalar K_long)
    [(CPtr false (CNamed "sk_msg_md"), "msg"); (CPtr false CVoid, "map"); (CScalar
     K_u32, "key"); (CScalar K_u64, "flags")]
    false false 60 R_verdict.
Definition bpf_msg_apply_bytes : helper :=
  mk_helper "bpf_msg_apply_bytes" (CScalar K_long)
    [(CPtr false (CNamed "sk_msg_md"), "msg"); (CScalar K_u32, "bytes")]
    false false 61 R_zero.
Definition bpf_msg_cork_bytes : helper :=
  mk_helper "bpf_msg_cork_bytes" (CScalar K_long)
    [(CPtr false (CNamed "sk_msg_md"), "msg"); (CScalar K_u32, "bytes")]
    false false 62 R_zero.
Definition bpf_msg_pull_data : helper :=
  mk_helper "bpf_msg_pull_data" (CScalar K_long)
    [(CPtr false (CNamed "sk_msg_md"), "msg"); (CScalar K_u32, "start"); (CScalar
     K_u32, "end"); (CScalar K_u64, "flags")]
    false false 63 R_zero_or_err.
Definition bpf_bind : helper :=
  mk_helper "bpf_bind" (CScalar K_long)
    [(CPtr false (CNamed "bpf_sock_addr"), "ctx"); (CPtr false (CNamed "sockaddr"),
     "addr"); (CScalar K_int, "addr_len")]
    false false 64 R_zero_or_err.
Definition bpf_xdp_adjust_tail : helper :=
  mk_helper "bpf_xdp_adjust_tail" (CScalar K_long)
    [(CPtr false (CNamed "xdp_md"), "xdp_md"); (CScalar K_int, "delta")]
    false false 65 R_zero_or_err.
Definition bpf_skb_get_xfrm_state : helper :=
  mk_helper "bpf_skb_get_xfrm_state" (CScalar K_long)
    [(CPtr false (CNamed "__sk_buff"), "skb"); (CScalar K_u32, "index"); (CPtr false
     (CNamed "bpf_xfrm_state"), "xfrm_state"); (CScalar K_u32, "size"); (CScalar
     K_u64, "flags")]
    false false 66 R_zero_or_err.
Definition bpf_get_stack : helper :=
  mk_helper "bpf_get_stack" (CScalar K_long)
    [(CPtr false CVoid, "ctx"); (CPtr false CVoid, "buf"); (CScalar K_u32, "size");
     (CScalar K_u64, "flags")]
    false false 67 R_nonneg_or_err.
Definition bpf_skb_load_bytes_relative : helper :=
  mk_helper "bpf_skb_load_bytes_relative" (CScalar K_long)
    [(CPtr true CVoid, "skb"); (CScalar K_u32, "offset"); (CPtr false CVoid, "to");
     (CScalar K_u32, "len"); (CScalar K_u32, "start_header")]
    false false 68 R_zero_or_err.
Definition bpf_fib_lookup : helper :=
  mk_helper "bpf_fib_lookup" (CScalar K_long)
    [(CPtr false CVoid, "ctx"); (CPtr false (CNamed "bpf_fib_lookup"), "params");
     (CScalar K_int, "plen"); (CScalar K_u32, "flags")]
    false false 69 R_value.
Definition bpf_sock_hash_update : helper :=
  mk_helper "bpf_sock_hash_update" (CScalar K_long)
    [(CPtr false (CNamed "bpf_sock_ops"), "skops"); (CPtr false CVoid, "map"); (CPtr
     false CVoid, "key"); (CScalar K_u64, "flags")]
    false false 70 R_zero_or_err.
Definition bpf_msg_redirect_hash : helper :=
  mk_helper "bpf_msg_redirect_hash" (CScalar K_long)
    [(CPtr false (CNamed "sk_msg_md"), "msg"); (CPtr false CVoid, "map"); (CPtr false
     CVoid, "key"); (CScalar K_u64, "flags")]
    false false 71 R_verdict.
Definition bpf_sk_redirect_hash : helper :=
  mk_helper "bpf_sk_redirect_hash" (CScalar K_long)
    [(CPtr false (CNamed "__sk_buff"), "skb"); (CPtr false CVoid, "map"); (CPtr false
     CVoid, "key"); (CScalar K_u64, "flags")]
    false false 72 R_verdict.
Definition bpf_lwt_push_encap : helper :=
  mk_helper "bpf_lwt_push_encap" (CScalar K_long)
    [(CPtr false (CNamed "__sk_buff"), "skb"); (CScalar K_u32, "type"); (CPtr false
     CVoid, "hdr"); (CScalar K_u32, "len")]
    false false 73 R_zero_or_err.
Definition bpf_lwt_seg6_store_bytes : helper :=
  mk_helper "bpf_lwt_seg6_store_bytes" (CScalar K_long)
    [(CPtr false (CNamed "__sk_buff"), "skb"); (CScalar K_u32, "offset"); (CPtr true
     CVoid, "from"); (CScalar K_u32, "len")]
    false false 74 R_zero_or_err.
Definition bpf_lwt_seg6_adjust_srh : helper :=
  mk_helper "bpf_lwt_seg6_adjust_srh" (CScalar K_long)
    [(CPtr false (CNamed "__sk_buff"), "skb"); (CScalar K_u32, "offset"); (CScalar
     K_s32, "delta")]
    false false 75 R_zero_or_err.
Definition bpf_lwt_seg6_action : helper :=
  mk_helper "bpf_lwt_seg6_action" (CScalar K_long)
    [(CPtr false (CNamed "__sk_buff"), "skb"); (CScalar K_u32, "action"); (CPtr false
     CVoid, "param"); (CScalar K_u32, "param_len")]
    false false 76 R_zero_or_err.
Definition bpf_rc_repeat : helper :=
  mk_helper "bpf_rc_repeat" (CScalar K_long)
    [(CPtr false CVoid, "ctx")]
    false false 77 R_zero.
Definition bpf_rc_keydown : helper :=
  mk_helper "bpf_rc_keydown" (CScalar K_long)
    [(CPtr false CVoid, "ctx"); (CScalar K_u32, "protocol"); (CScalar K_u64,
     "scancode"); (CScalar K_u32, "toggle")]
    false false 78 R_zero.
Definition bpf_skb_cgroup_id : helper :=
  mk_helper "bpf_skb_cgroup_id" (CScalar K_u64)
    [(CPtr false (CNamed "__sk_buff"), "skb")]
    false false 79 R_value.
Definition bpf_get_current_cgroup_id : helper :=
  mk_helper "bpf_get_current_cgroup_id" (CScalar K_u64)
    []
    false false 80 R_value.
Definition bpf_get_local_storage : helper :=
  mk_helper "bpf_get_local_storage" (CPtr false CVoid)
    [(CPtr false CVoid, "map"); (CScalar K_u64, "flags")]
    false false 81 R_ptr.
Definition bpf_sk_select_reuseport : helper :=
  mk_helper "bpf_sk_select_reuseport" (CScalar K_long)
    [(CPtr false (CNamed "sk_reuseport_md"), "reuse"); (CPtr false CVoid, "map");
     (CPtr false CVoid, "key"); (CScalar K_u64, "flags")]
    false false 82 R_zero_or_err.
Definition bpf_skb_ancestor_cgroup_id : helper :=
  mk_helper "bpf_skb_ancestor_cgroup_id" (CScalar K_u64)
    [(CPtr false (CNamed "__sk_buff"), "skb"); (CScalar K_int, "ancestor_level")]
    false false 83 R_value.
Definition bpf_sk_lookup_tcp : helper :=
  mk_helper "bpf_sk_lookup_tcp" (CPtr false (CNamed "bpf_sock"))
    [(CPtr false CVoid, "ctx"); (CPtr false (CNamed "bpf_sock_tuple"), "tuple");
     (CScalar K_u32, "tuple_size"); (CScalar K_u64, "netns"); (CScalar K_u64,
     "flags")]
    false false 84 R_ptr_or_null.
Definition bpf_sk_lookup_udp : helper :=
  mk_helper "bpf_sk_lookup_udp" (CPtr false (CNamed "bpf_sock"))
    [(CPtr false CVoid, "ctx"); (CPtr false (CNamed "bpf_sock_tuple"), "tuple");
     (CScalar K_u32, "tuple_size"); (CScalar K_u64, "netns"); (CScalar K_u64,
     "flags")]
    false false 85 R_ptr_or_null.
Definition bpf_sk_release : helper :=
  mk_helper "bpf_sk_release" (CScalar K_long)
    [(CPtr false CVoid, "sock")]
    false false 86 R_zero_or_err.
Definition bpf_map_push_elem : helper :=
  mk_helper "bpf_map_push_elem" (CScalar K_long)
    [(CPtr false CVoid, "map"); (CPtr true CVoid, "value"); (CScalar K_u64, "flags")]
    false false 87 R_zero_or_err.
Definition bpf_map_pop_elem : helper :=
  mk_helper "bpf_map_pop_elem" (CScalar K_long)
    [(CPtr false CVoid, "map"); (CPtr false CVoid, "value")]
    false false 88 R_zero_or_err.
Definition bpf_map_peek_elem : helper :=
  mk_helper "bpf_map_peek_elem" (CScalar K_long)
    [(CPtr false CVoid, "map"); (CPtr false CVoid, "value")]
    false false 89 R_zero_or_err.
Definition bpf_msg_push_data : helper :=
  mk_helper "bpf_msg_push_data" (CScalar K_long)
    [(CPtr false (CNamed "sk_msg_md"), "msg"); (CScalar K_u32, "start"); (CScalar
     K_u32, "len"); (CScalar K_u64, "flags")]
    false false 90 R_zero_or_err.
Definition bpf_msg_pop_data : helper :=
  mk_helper "bpf_msg_pop_data" (CScalar K_long)
    [(CPtr false (CNamed "sk_msg_md"), "msg"); (CScalar K_u32, "start"); (CScalar
     K_u32, "len"); (CScalar K_u64, "flags")]
    false false 91 R_zero_or_err.
Definition bpf_rc_pointer_rel : helper :=
  mk_helper "bpf_rc_pointer_rel" (CScalar K_long)
    [(CPtr false CVoid, "ctx"); (CScalar K_s32, "rel_x"); (CScalar K_s32, "rel_y")]
    false false 92 R_zero.
Definition bpf_spin_lock : helper :=
  mk_helper "bpf_spin_lock" (CScalar K_long)
    [(CPtr false (CNamed "bpf_spin_lock"), "lock")]
    false false 93 R_zero.
Definition bpf_spin_unlock : helper :=
  mk_helper "bpf_spin_unlock" (CScalar K_long)
    [(CPtr false (CNamed "bpf_spin_lock"), "lock")]
    false false 94 R_zero.
Definition bpf_sk_fullsock : helper :=
  mk_helper "bpf_sk_fullsock" (CPtr false (CNamed "bpf_sock"))
    [(CPtr false (CNamed "bpf_sock"), "sk")]
    false false 95 R_ptr_or_null.
Definition bpf_tcp_sock : helper :=
  mk_helper "bpf_tcp_sock" (CPtr false (CNamed "bpf_tcp_sock"))
    [(CPtr false (CNamed "bpf_sock"), "sk")]
    false false 96 R_ptr_or_null.
Definition bpf_skb_ecn_set_ce : helper :=
  mk_helper "bpf_skb_ecn_set_ce" (CScalar K_long)
    [(CPtr false (CNamed "__sk_buff"), "skb")]
    false false 97 R_bool.
Definition bpf_get_listener_sock : helper :=
  mk_helper "bpf_get_listener_sock" (CPtr false (CNamed "bpf_sock"))
    [(CPtr false (CNamed "bpf_sock"), "sk")]
    false false 98 R_ptr_or_null.
Definition bpf_skc_lookup_tcp : helper :=
  mk_helper "bpf_skc_lookup_tcp" (CPtr false (CNamed "bpf_sock"))
    [(CPtr false CVoid, "ctx"); (CPtr false (CNamed "bpf_sock_tuple"), "tuple");
     (CScalar K_u32, "tuple_size"); (CScalar K_u64, "netns"); (CScalar K_u64,
     "flags")]
    false false 99 R_ptr_or_null.
Definition bpf_tcp_check_syncookie : helper :=
  mk_helper "bpf_tcp_check_syncookie" (CScalar K_long)
    [(CPtr false CVoid, "sk"); (CPtr false CVoid, "iph"); (CScalar K_u32, "iph_len");
     (CPtr false (CNamed "tcphdr"), "th"); (CScalar K_u32, "th_len")]
    false false 100 R_zero_or_err.
Definition bpf_sysctl_get_name : helper :=
  mk_helper "bpf_sysctl_get_name" (CScalar K_long)
    [(CPtr false (CNamed "bpf_sysctl"), "ctx"); (CPtr false (CScalar K_char), "buf");
     (CScalar K_ulong, "buf_len"); (CScalar K_u64, "flags")]
    false false 101 R_nonneg_or_err.
Definition bpf_sysctl_get_current_value : helper :=
  mk_helper "bpf_sysctl_get_current_value" (CScalar K_long)
    [(CPtr false (CNamed "bpf_sysctl"), "ctx"); (CPtr false (CScalar K_char), "buf");
     (CScalar K_ulong, "buf_len")]
    false false 102 R_nonneg_or_err.
Definition bpf_sysctl_get_new_value : helper :=
  mk_helper "bpf_sysctl_get_new_value" (CScalar K_long)
    [(CPtr false (CNamed "bpf_sysctl"), "ctx"); (CPtr false (CScalar K_char), "buf");
     (CScalar K_ulong, "buf_len")]
    false false 103 R_nonneg_or_err.
Definition bpf_sysctl_set_new_value : helper :=
  mk_helper "bpf_sysctl_set_new_value" (CScalar K_long)
    [(CPtr false (CNamed "bpf_sysctl"), "ctx"); (CPtr true (CScalar K_char), "buf");
     (CScalar K_ulong, "buf_len")]
    false false 104 R_zero_or_err.
Definition bpf_strtol : helper :=
  mk_helper "bpf_strtol" (CScalar K_long)
    [(CPtr true (CScalar K_char), "buf"); (CScalar K_ulong, "buf_len"); (CScalar
     K_u64, "flags"); (CPtr false (CScalar K_long), "res")]
    false false 105 R_pos_or_err.
Definition bpf_strtoul : helper :=
  mk_helper "bpf_strtoul" (CScalar K_long)
    [(CPtr true (CScalar K_char), "buf"); (CScalar K_ulong, "buf_len"); (CScalar
     K_u64, "flags"); (CPtr false (CScalar K_ulong), "res")]
    false false 106 R_pos_or_err.
Definition bpf_sk_storage_get : helper :=
  mk_helper "bpf_sk_storage_get" (CPtr false CVoid)
    [(CPtr false CVoid, "map"); (CPtr false CVoid, "sk"); (CPtr false CVoid, "value");
     (CScalar K_u64, "flags")]
    false false 107 R_ptr_or_null.
Definition bpf_sk_storage_delete : helper :=
  mk_helper "bpf_sk_storage_delete" (CScalar K_long)
    [(CPtr false CVoid, "map"); (CPtr false CVoid, "sk")]
    false false 108 R_zero_or_err.
Definition bpf_send_signal : helper :=
  mk_helper "bpf_send_signal" (CScalar K_long)
    [(CScalar K_u32, "sig")]
    false false 109 R_zero_or_err.
Definition bpf_tcp_gen_syncookie : helper :=
  mk_helper "bpf_tcp_gen_syncookie" (CScalar K_s64)
    [(CPtr false CVoid, "sk"); (CPtr false CVoid, "iph"); (CScalar K_u32, "iph_len");
     (CPtr false (CNamed "tcphdr"), "th"); (CScalar K_u32, "th_len")]
    false false 110 R_nonneg_or_err.
Definition bpf_skb_output : helper :=
  mk_helper "bpf_skb_output" (CScalar K_long)
    [(CPtr false CVoid, "ctx"); (CPtr false CVoid, "map"); (CScalar K_u64, "flags");
     (CPtr false CVoid, "data"); (CScalar K_u64, "size")]
    false false 111 R_zero_or_err.
Definition bpf_probe_read_user : helper :=
  mk_helper "bpf_probe_read_user" (CScalar K_long)
    [(CPtr false CVoid, "dst"); (CScalar K_u32, "size"); (CPtr true CVoid,
     "unsafe_ptr")]
    false false 112 R_zero_or_err.
Definition bpf_probe_read_kernel : helper :=
  mk_helper "bpf_probe_read_kernel" (CScalar K_long)
    [(CPtr false CVoid, "dst"); (CScalar K_u32, "size"); (CPtr true CVoid,
     "unsafe_ptr")]
    false false 113 R_zero_or_err.
Definition bpf_probe_read_user_str : helper :=
  mk_helper "bpf_probe_read_user_str" (CScalar K_long)
    [(CPtr false CVoid, "dst"); (CScalar K_u32, "size"); (CPtr true CVoid,
     "unsafe_ptr")]
    false false 114 R_pos_or_err.
Definition bpf_probe_read_kernel_str : helper :=
  mk_helper "bpf_probe_read_kernel_str" (CScalar K_long)
    [(CPtr false CVoid, "dst"); (CScalar K_u32, "size"); (CPtr true CVoid,
     "unsafe_ptr")]
    false false 115 R_pos_or_err.
Definition bpf_tcp_send_ack : helper :=
  mk_helper "bpf_tcp_send_ack" (CScalar K_long)
    [(CPtr false CVoid, "tp"); (CScalar K_u32, "rcv_nxt")]
    false false 116 R_zero_or_err.
Definition bpf_send_signal_thread : helper :=
  mk_helper "bpf_send_signal_thread" (CScalar K_long)
    [(CScalar K_u32, "sig")]
    false false 117 R_zero_or_err.
Definition bpf_jiffies64 : helper :=
  mk_helper "bpf_jiffies64" (CScalar K_u64)
    []
    false false 118 R_value.
Definition bpf_read_branch_records : helper :=
  mk_helper "bpf_read_branch_records" (CScalar K_long)
    [(CPtr false (CNamed "bpf_perf_event_data"), "ctx"); (CPtr false CVoid, "buf");
     (CScalar K_u32, "size"); (CScalar K_u64, "flags")]
    false false 119 R_nonneg_or_err.
Definition bpf_get_ns_current_pid_tgid : helper :=
  mk_helper "bpf_get_ns_current_pid_tgid" (CScalar K_long)
    [(CScalar K_u64, "dev"); (CScalar K_u64, "ino"); (CPtr false (CNamed
     "bpf_pidns_info"), "nsdata"); (CScalar K_u32, "size")]
    false false 120 R_zero_or_err.
Definition bpf_xdp_output : helper :=
  mk_helper "bpf_xdp_output" (CScalar K_long)
    [(CPtr false CVoid, "ctx"); (CPtr false CVoid, "map"); (CScalar K_u64, "flags");
     (CPtr false CVoid, "data"); (CScalar K_u64, "size")]
    false false 121 R_zero_or_err.
Definition bpf_get_netns_cookie : helper :=
  mk_helper "bpf_get_netns_cookie" (CScalar K_u64)
    [(CPtr false CVoid, "ctx")]
    false false 122 R_value.
Definition bpf_get_current_ancestor_cgroup_id : helper :=
  mk_helper "bpf_get_current_ancestor_cgroup_id" (CScalar K_u64)
    [(CScalar K_int, "ancestor_level")]
    false false 123 R_value.
Definition bpf_sk_assign : helper :=
  mk_helper "bpf_sk_assign" (CScalar K_long)
    [(CPtr false CVoid, "ctx"); (CPtr false CVoid, "sk"); (CScalar K_u64, "flags")]
    false false 124 R_zero_or_err.
Definition bpf_ktime_get_boot_ns : helper :=
  mk_helper "bpf_ktime_get_boot_ns" (CScalar K_u64)
    []
    false false 125 R_value.
Definition bpf_seq_printf : helper :=
  mk_helper "bpf_seq_printf" (CScalar K_long)
    [(CPtr false (CNamed "seq_file"), "m"); (CPtr true (CScalar K_char), "fmt");
     (CScalar K_u32, "fmt_size"); (CPtr true CVoid, "data"); (CScalar K_u32,
     "data_len")]
    false false 126 R_zero_or_err.
Definition bpf_seq_write : helper :=
  mk_helper "bpf_seq_write" (CScalar K_long)
    [(CPtr false (CNamed "seq_file"), "m"); (CPtr true CVoid, "data"); (CScalar K_u32,
     "len")]
    false false 127 R_zero_or_err.
Definition bpf_sk_cgroup_id : helper :=
  mk_helper "bpf_sk_cgroup_id" (CScalar K_u64)
    [(CPtr false CVoid, "sk")]
    false false 128 R_value.
Definition bpf_sk_ancestor_cgroup_id : helper :=
  mk_helper "bpf_sk_ancestor_cgroup_id" (CScalar K_u64)
    [(CPtr false CVoid, "sk"); (CScalar K_int, "ancestor_level")]
    false false 129 R_value.
Definition bpf_ringbuf_output : helper :=
  mk_helper "bpf_ringbuf_output" (CScalar K_long)
    [(CPtr false CVoid, "ringbuf"); (CPtr false CVoid, "data"); (CScalar K_u64,
     "size"); (CScalar K_u64, "flags")]
    false false 130 R_zero_or_err.
Definition bpf_ringbuf_reserve : helper :=
  mk_helper "bpf_ringbuf_reserve" (CPtr false CVoid)
    [(CPtr false CVoid, "ringbuf"); (CScalar K_u64, "size"); (CScalar K_u64, "flags")]
    false false 131 R_ptr_or_null.
Definition bpf_ringbuf_submit : helper :=
  mk_helper "bpf_ringbuf_submit" CVoid
    [(CPtr false CVoid, "data"); (CScalar K_u64, "flags")]
    false false 132 R_nothing.
Definition bpf_ringbuf_discard : helper :=
  mk_helper "bpf_ringbuf_discard" CVoid
    [(CPtr false CVoid, "data"); (CScalar K_u64, "flags")]
    false false 133 R_nothing.
Definition bpf_ringbuf_query : helper :=
  mk_helper "bpf_ringbuf_query" (CScalar K_u64)
    [(CPtr false CVoid, "ringbuf"); (CScalar K_u64, "flags")]
    false false 134 R_value.
Definition bpf_csum_level : helper :=
  mk_helper "bpf_csum_level" (CScalar K_long)
    [(CPtr false (CNamed "__sk_buff"), "skb"); (CScalar K_u64, "level")]
    false false 135 R_nonneg_or_err.
Definition bpf_skc_to_tcp6_sock : helper :=
  mk_helper "bpf_skc_to_tcp6_sock" (CPtr false (CNamed "tcp6_sock"))
    [(CPtr false CVoid, "sk")]
    false false 136 R_ptr_or_null.
Definition bpf_skc_to_tcp_sock : helper :=
  mk_helper "bpf_skc_to_tcp_sock" (CPtr false (CNamed "tcp_sock"))
    [(CPtr false CVoid, "sk")]
    false false 137 R_ptr_or_null.
Definition bpf_skc_to_tcp_timewait_sock : helper :=
  mk_helper "bpf_skc_to_tcp_timewait_sock" (CPtr false (CNamed "tcp_timewait_sock"))
    [(CPtr false CVoid, "sk")]
    false false 138 R_ptr_or_null.
Definition bpf_skc_to_tcp_request_sock : helper :=
  mk_helper "bpf_skc_to_tcp_request_sock" (CPtr false (CNamed "tcp_request_sock"))
    [(CPtr false CVoid, "sk")]
    false false 139 R_ptr_or_null.
Definition bpf_skc_to_udp6_sock : helper :=
  mk_helper "bpf_skc_to_udp6_sock" (CPtr false (CNamed "udp6_sock"))
    [(CPtr false CVoid, "sk")]
    false false 140 R_ptr_or_null.
Definition bpf_get_task_stack : helper :=
  mk_helper "bpf_get_task_stack" (CScalar K_long)
    [(CPtr false (CNamed "task_struct"), "task"); (CPtr false CVoid, "buf"); (CScalar
     K_u32, "size"); (CScalar K_u64, "flags")]
    false false 141 R_nonneg_or_err.
Definition bpf_load_hdr_opt : helper :=
  mk_helper "bpf_load_hdr_opt" (CScalar K_long)
    [(CPtr false CVoid, "ctx"); (CPtr false CVoid, "searchby_res"); (CScalar K_u32,
     "len"); (CScalar K_u64, "flags")]
    false false 142 R_pos_or_err.
Definition bpf_store_hdr_opt : helper :=
  mk_helper "bpf_store_hdr_opt" (CScalar K_long)
    [(CPtr false CVoid, "ctx"); (CPtr true CVoid, "from"); (CScalar K_u32, "len");
     (CScalar K_u64, "flags")]
    false false 143 R_zero_or_err.
Definition bpf_reserve_hdr_opt : helper :=
  mk_helper "bpf_reserve_hdr_opt" (CScalar K_long)
    [(CPtr false CVoid, "ctx"); (CScalar K_u32, "len"); (CScalar K_u64, "flags")]
    false false 144 R_zero_or_err.
Definition bpf_inode_storage_get : helper :=
  mk_helper "bpf_inode_storage_get" (CPtr false CVoid)
    [(CPtr false CVoid, "map"); (CPtr false CVoid, "inode"); (CPtr false CVoid,
     "value"); (CScalar K_u64, "flags")]
    false false 145 R_ptr_or_null.
Definition bpf_inode_storage_delete : helper :=
  mk_helper "bpf_inode_storage_delete" (CScalar K_int)
    [(CPtr false CVoid, "map"); (CPtr false CVoid, "inode")]
    false false 146 R_zero_or_err.
Definition bpf_d_path : helper :=
  mk_helper "bpf_d_path" (CScalar K_long)
    [(CPtr true (CNamed "path"), "path"); (CPtr false (CScalar K_char), "buf");
     (CScalar K_u32, "sz")]
    false false 147 R_pos_or_err.
Definition bpf_copy_from_user : helper :=
  mk_helper "bpf_copy_from_user" (CScalar K_long)
    [(CPtr false CVoid, "dst"); (CScalar K_u32, "size"); (CPtr true CVoid,
     "user_ptr")]
    false false 148 R_zero_or_err.
Definition bpf_snprintf_btf : helper :=
  mk_helper "bpf_snprintf_btf" (CScalar K_long)
    [(CPtr false (CScalar K_char), "str"); (CScalar K_u32, "str_size"); (CPtr false
     (CNamed "btf_ptr"), "ptr"); (CScalar K_u32, "btf_ptr_size"); (CScalar K_u64,
     "flags")]
    false false 149 R_nonneg_or_err.
Definition bpf_seq_printf_btf : helper :=
  mk_helper "bpf_seq_printf_btf" (CScalar K_long)
    [(CPtr false (CNamed "seq_file"), "m"); (CPtr false (CNamed "btf_ptr"), "ptr");
     (CScalar K_u32, "ptr_size"); (CScalar K_u64, "flags")]
    false false 150 R_zero_or_err.
Definition bpf_skb_cgroup_classid : helper :=
  mk_helper "bpf_skb_cgroup_classid" (CScalar K_u64)
    [(CPtr false (CNamed "__sk_buff"), "skb")]
    false false 151 R_value.
Definition bpf_redirect_neigh : helper :=
  mk_helper "bpf_redirect_neigh" (CScalar K_long)
    [(CScalar K_u32, "ifindex"); (CPtr false (CNamed "bpf_redir_neigh"), "params");
     (CScalar K_int, "plen"); (CScalar K_u64, "flags")]
    false false 152 R_verdict.
Definition bpf_per_cpu_ptr : helper :=
  mk_helper "bpf_per_cpu_ptr" (CPtr false CVoid)
    [(CPtr true CVoid, "percpu_ptr"); (CScalar K_u32, "cpu")]
    false false 153 R_ptr_or_null.
Definition bpf_this_cpu_ptr : helper :=
  mk_helper "bpf_this_cpu_ptr" (CPtr false CVoid)
    [(CPtr true CVoid, "percpu_ptr")]
    false false 154 R_ptr.
Definition bpf_redirect_peer : helper :=
  mk_helper "bpf_redirect_peer" (CScalar K_long)
    [(CScalar K_u32, "ifindex"); (CScalar K_u64, "flags")]
    false false 155 R_verdict.
Definition bpf_task_storage_get : helper :=
  mk_helper "bpf_task_storage_get" (CPtr false CVoid)
    [(CPtr false CVoid, "map"); (CPtr false (CNamed "task_struct"), "task"); (CPtr
     false CVoid, "value"); (CScalar K_u64, "flags")]
    false false 156 R_ptr_or_null.
Definition bpf_task_storage_delete : helper :=
  mk_helper "bpf_task_storage_delete" (CScalar K_long)
    [(CPtr false CVoid, "map"); (CPtr false (CNamed "task_struct"), "task")]
    false false 157 R_zero_or_err.
Definition bpf_get_current_task_btf : helper :=
  mk_helper "bpf_get_current_task_btf" (CPtr false (CNamed "task_struct"))
    []
    false false 158 R_ptr.
Definition bpf_bprm_opts_set : helper :=
  mk_helper "bpf_bprm_opts_set" (CScalar K_long)
    [(CPtr false (CNamed "linux_binprm"), "bprm"); (CScalar K_u64, "flags")]
    false false 159 R_zero_or_err.
Definition bpf_ktime_get_coarse_ns : helper :=
  mk_helper "bpf_ktime_get_coarse_ns" (CScalar K_u64)
    []
    false false 160 R_value.
Definition bpf_ima_inode_hash : helper :=
  mk_helper "bpf_ima_inode_hash" (CScalar K_long)
    [(CPtr false (CNamed "inode"), "inode"); (CPtr false CVoid, "dst"); (CScalar
     K_u32, "size")]
    false false 161 R_nonneg_or_err.
Definition bpf_sock_from_file : helper :=
  mk_helper "bpf_sock_from_file" (CPtr false (CNamed "socket"))
    [(CPtr false (CNamed "file"), "file")]
    false false 162 R_ptr_or_null.
Definition bpf_check_mtu : helper :=
  mk_helper "bpf_check_mtu" (CScalar K_long)
    [(CPtr false CVoid, "ctx"); (CScalar K_u32, "ifindex"); (CPtr false (CScalar
     K_u32), "mtu_len"); (CScalar K_s32, "len_diff"); (CScalar K_u64, "flags")]
    false false 163 R_value.
Definition bpf_for_each_map_elem : helper :=
  mk_helper "bpf_for_each_map_elem" (CScalar K_long)
    [(CPtr false CVoid, "map"); (CPtr false CVoid, "callback_fn"); (CPtr false CVoid,
     "callback_ctx"); (CScalar K_u64, "flags")]
    false false 164 R_nonneg_or_err.
Definition bpf_snprintf : helper :=
  mk_helper "bpf_snprintf" (CScalar K_long)
    [(CPtr false (CScalar K_char), "str"); (CScalar K_u32, "str_size"); (CPtr true
     (CScalar K_char), "fmt"); (CPtr false (CScalar K_u64), "data"); (CScalar K_u32,
     "data_len")]
    false false 165 R_pos_or_err.
Definition bpf_sys_bpf : helper :=
  mk_helper "bpf_sys_bpf" (CScalar K_long)
    [(CScalar K_u32, "cmd"); (CPtr false CVoid, "attr"); (CScalar K_u32, "attr_size")]
    false false 166 R_value.
Definition bpf_btf_find_by_name_kind : helper :=
  mk_helper "bpf_btf_find_by_name_kind" (CScalar K_long)
    [(CPtr false (CScalar K_char), "name"); (CScalar K_int, "name_sz"); (CScalar
     K_u32, "kind"); (CScalar K_int, "flags")]
    false false 167 R_value.
Definition bpf_sys_close : helper :=
  mk_helper "bpf_sys_close" (CScalar K_long)
    [(CScalar K_u32, "fd")]
    false false 168 R_value.
Definition bpf_timer_init : helper :=
  mk_helper "bpf_timer_init" (CScalar K_long)
    [(CPtr false (CNamed "bpf_timer"), "timer"); (CPtr false CVoid, "map"); (CScalar
     K_u64, "flags")]
    false false 169 R_zero_or_err.
Definition bpf_timer_set_callback : helper :=
  mk_helper "bpf_timer_set_callback" (CScalar K_long)
    [(CPtr false (CNamed "bpf_timer"), "timer"); (CPtr false CVoid, "callback_fn")]
    false false 170 R_zero_or_err.
Definition bpf_timer_start : helper :=
  mk_helper "bpf_timer_start" (CScalar K_long)
    [(CPtr false (CNamed "bpf_timer"), "timer"); (CScalar K_u64, "nsecs"); (CScalar
     K_u64, "flags")]
    false false 171 R_zero_or_err.
Definition bpf_timer_cancel : helper :=
  mk_helper "bpf_timer_cancel" (CScalar K_long)
    [(CPtr false (CNamed "bpf_timer"), "timer")]
    false false 172 R_bool_or_err.
Definition bpf_get_func_ip : helper :=
  mk_helper "bpf_get_func_ip" (CScalar K_u64)
    [(CPtr false CVoid, "ctx")]
    false false 173 R_value.
Definition bpf_get_attach_cookie : helper :=
  mk_helper "bpf_get_attach_cookie" (CScalar K_u64)
    [(CPtr false CVoid, "ctx")]
    false false 174 R_value.
Definition bpf_task_pt_regs : helper :=
  mk_helper "bpf_task_pt_regs" (CScalar K_long)
    [(CPtr false (CNamed "task_struct"), "task")]
    false false 175 R_value.
Definition bpf_get_branch_snapshot : helper :=
  mk_helper "bpf_get_branch_snapshot" (CScalar K_long)
    [(CPtr false CVoid, "entries"); (CScalar K_u32, "size"); (CScalar K_u64, "flags")]
    false false 176 R_nonneg_or_err.
Definition bpf_trace_vprintk : helper :=
  mk_helper "bpf_trace_vprintk" (CScalar K_long)
    [(CPtr true (CScalar K_char), "fmt"); (CScalar K_u32, "fmt_size"); (CPtr true
     CVoid, "data"); (CScalar K_u32, "data_len")]
    false false 177 R_nonneg_or_err.
Definition bpf_skc_to_unix_sock : helper :=
  mk_helper "bpf_skc_to_unix_sock" (CPtr false (CNamed "unix_sock"))
    [(CPtr false CVoid, "sk")]
    false false 178 R_ptr_or_null.
Definition bpf_kallsyms_lookup_name : helper :=
  mk_helper "bpf_kallsyms_lookup_name" (CScalar K_long)
    [(CPtr true (CScalar K_char), "name"); (CScalar K_int, "name_sz"); (CScalar K_int,
     "flags"); (CPtr false (CScalar K_u64), "res")]
    false false 179 R_zero_or_err.
Definition bpf_find_vma : helper :=
  mk_helper "bpf_find_vma" (CScalar K_long)
    [(CPtr false (CNamed "task_struct"), "task"); (CScalar K_u64, "addr"); (CPtr false
     CVoid, "callback_fn"); (CPtr false CVoid, "callback_ctx"); (CScalar K_u64,
     "flags")]
    false false 180 R_zero_or_err.
Definition bpf_loop : helper :=
  mk_helper "bpf_loop" (CScalar K_long)
    [(CScalar K_u32, "nr_loops"); (CPtr false CVoid, "callback_fn"); (CPtr false
     CVoid, "callback_ctx"); (CScalar K_u64, "flags")]
    false false 181 R_nonneg_or_err.
Definition bpf_strncmp : helper :=
  mk_helper "bpf_strncmp" (CScalar K_long)
    [(CPtr true (CScalar K_char), "s1"); (CScalar K_u32, "s1_sz"); (CPtr true (CScalar
     K_char), "s2")]
    false false 182 R_value.
Definition bpf_get_func_arg : helper :=
  mk_helper "bpf_get_func_arg" (CScalar K_long)
    [(CPtr false CVoid, "ctx"); (CScalar K_u32, "n"); (CPtr false (CScalar K_u64),
     "value")]
    false false 183 R_zero_or_err.
Definition bpf_get_func_ret : helper :=
  mk_helper "bpf_get_func_ret" (CScalar K_long)
    [(CPtr false CVoid, "ctx"); (CPtr false (CScalar K_u64), "value")]
    false false 184 R_zero_or_err.
Definition bpf_get_func_arg_cnt : helper :=
  mk_helper "bpf_get_func_arg_cnt" (CScalar K_long)
    [(CPtr false CVoid, "ctx")]
    false false 185 R_value.
Definition bpf_get_retval : helper :=
  mk_helper "bpf_get_retval" (CScalar K_int)
    []
    false false 186 R_value.
Definition bpf_set_retval : helper :=
  mk_helper "bpf_set_retval" (CScalar K_int)
    [(CScalar K_int, "retval")]
    false false 187 R_zero_or_err.
Definition bpf_xdp_get_buff_len : helper :=
  mk_helper "bpf_xdp_get_buff_len" (CScalar K_u64)
    [(CPtr false (CNamed "xdp_md"), "xdp_md")]
    false false 188 R_value.
Definition bpf_xdp_load_bytes : helper :=
  mk_helper "bpf_xdp_load_bytes" (CScalar K_long)
    [(CPtr false (CNamed "xdp_md"), "xdp_md"); (CScalar K_u32, "offset"); (CPtr false
     CVoid, "buf"); (CScalar K_u32, "len")]
    false false 189 R_zero_or_err.
Definition bpf_xdp_store_bytes : helper :=
  mk_helper "bpf_xdp_store_bytes" (CScalar K_long)
    [(CPtr false (CNamed "xdp_md"), "xdp_md"); (CScalar K_u32, "offset"); (CPtr false
     CVoid, "buf"); (CScalar K_u32, "len")]
    false false 190 R_zero_or_err.
Definition bpf_copy_from_user_task : helper :=
  mk_helper "bpf_copy_from_user_task" (CScalar K_long)
    [(CPtr false CVoid, "dst"); (CScalar K_u32, "size"); (CPtr true CVoid,
     "user_ptr"); (CPtr false (CNamed "task_struct"), "tsk"); (CScalar K_u64,
     "flags")]
    false false 191 R_zero_or_err.
Definition bpf_skb_set_tstamp : helper :=
  mk_helper "bpf_skb_set_tstamp" (CScalar K_long)
    [(CPtr false (CNamed "__sk_buff"), "skb"); (CScalar K_u64, "tstamp"); (CScalar
     K_u32, "tstamp_type")]
    false false 192 R_zero_or_err.
Definition bpf_ima_file_hash : helper :=
  mk_helper "bpf_ima_file_hash" (CScalar K_long)
    [(CPtr false (CNamed "file"), "file"); (CPtr false CVoid, "dst"); (CScalar K_u32,
     "size")]
    false false 193 R_nonneg_or_err.
Definition bpf_kptr_xchg : helper :=
  mk_helper "bpf_kptr_xchg" (CPtr false CVoid)
    [(CPtr false CVoid, "dst"); (CPtr false CVoid, "ptr")]
    false false 194 R_ptr_or_null.
Definition bpf_map_lookup_percpu_elem : helper :=
  mk_helper "bpf_map_lookup_percpu_elem" (CPtr false CVoid)
    [(CPtr false CVoid, "map"); (CPtr true CVoid, "key"); (CScalar K_u32, "cpu")]
    false false 195 R_ptr_or_null.
Definition bpf_skc_to_mptcp_sock : helper :=
  mk_helper "bpf_skc_to_mptcp_sock" (CPtr false (CNamed "mptcp_sock"))
    [(CPtr false CVoid, "sk")]
    false false 196 R_ptr_or_null.
Definition bpf_dynptr_from_mem : helper :=
  mk_helper "bpf_dynptr_from_mem" (CScalar K_long)
    [(CPtr false CVoid, "data"); (CScalar K_u64, "size"); (CScalar K_u64, "flags");
     (CPtr false (CNamed "bpf_dynptr"), "ptr")]
    false false 197 R_zero_or_err.
Definition bpf_ringbuf_reserve_dynptr : helper :=
  mk_helper "bpf_ringbuf_reserve_dynptr" (CScalar K_long)
    [(CPtr false CVoid, "ringbuf"); (CScalar K_u32, "size"); (CScalar K_u64, "flags");
     (CPtr false (CNamed "bpf_dynptr"), "ptr")]
    false false 198 R_zero_or_err.
Definition bpf_ringbuf_submit_dynptr : helper :=
  mk_helper "bpf_ringbuf_submit_dynptr" CVoid
    [(CPtr false (CNamed "bpf_dynptr"), "ptr"); (CScalar K_u64, "flags")]
    false false 199 R_nothing.
Definition bpf_ringbuf_discard_dynptr : helper :=
  mk_helper "bpf_ringbuf_discard_dynptr" CVoid
    [(CPtr false (CNamed "bpf_dynptr"), "ptr"); (CScalar K_u64, "flags")]
    false false 200 R_nothing.
Definition bpf_dynptr_read : helper :=
  mk_helper "bpf_dynptr_read" (CScalar K_long)
    [(CPtr false CVoid, "dst"); (CScalar K_u64, "len"); (CPtr true (CNamed
     "bpf_dynptr"), "src"); (CScalar K_u64, "offset"); (CScalar K_u64, "flags")]
    false false 201 R_zero_or_err.
Definition bpf_dynptr_write : helper :=
  mk_helper "bpf_dynptr_write" (CScalar K_long)
    [(CPtr true (CNamed "bpf_dynptr"), "dst"); (CScalar K_u64, "offset"); (CPtr false
     CVoid, "src"); (CScalar K_u64, "len"); (CScalar K_u64, "flags")]
    false false 202 R_zero_or_err.
Definition bpf_dynptr_data : helper :=
  mk_helper "bpf_dynptr_data" (CPtr false CVoid)
    [(CPtr true (CNamed "bpf_dynptr"), "ptr"); (CScalar K_u64, "offset"); (CScalar
     K_u64, "len")]
    false false 203 R_ptr_or_null.
Definition bpf_tcp_raw_gen_syncookie_ipv4 : helper :=
  mk_helper "bpf_tcp_raw_gen_syncookie_ipv4" (CScalar K_s64)
    [(CPtr false (CNamed "iphdr"), "iph"); (CPtr false (CNamed "tcphdr"), "th");
     (CScalar K_u32, "th_len")]
    false false 204 R_nonneg_or_err.
Definition bpf_tcp_raw_gen_syncookie_ipv6 : helper :=
  mk_helper "bpf_tcp_raw_gen_syncookie_ipv6" (CScalar K_s64)
    [(CPtr false (CNamed "ipv6hdr"), "iph"); (CPtr false (CNamed "tcphdr"), "th");
     (CScalar K_u32, "th_len")]
    false false 205 R_nonneg_or_err.
Definition bpf_tcp_raw_check_syncookie_ipv4 : helper :=
  mk_helper "bpf_tcp_raw_check_syncookie_ipv4" (CScalar K_long)
    [(CPtr false (CNamed "iphdr"), "iph"); (CPtr false (CNamed "tcphdr"), "th")]
    false false 206 R_zero_or_err.
Definition bpf_tcp_raw_check_syncookie_ipv6 : helper :=
  mk_helper "bpf_tcp_raw_check_syncookie_ipv6" (CScalar K_long)
    [(CPtr false (CNamed "ipv6hdr"), "iph"); (CPtr false (CNamed "tcphdr"), "th")]
    false false 207 R_zero_or_err.
Definition bpf_ktime_get_tai_ns : helper :=
  mk_helper "bpf_ktime_get_tai_ns" (CScalar K_u64)
    []
    false false 208 R_value.
Definition bpf_user_ringbuf_drain : helper :=
  mk_helper "bpf_user_ringbuf_drain" (CScalar K_long)
    [(CPtr false CVoid, "map"); (CPtr false CVoid, "callback_fn"); (CPtr false CVoid,
     "ctx"); (CScalar K_u64, "flags")]
    false false 209 R_nonneg_or_err.
Definition bpf_cgrp_storage_get : helper :=
  mk_helper "bpf_cgrp_storage_get" (CPtr false CVoid)
    [(CPtr false CVoid, "map"); (CPtr false (CNamed "cgroup"), "cgroup"); (CPtr false
     CVoid, "value"); (CScalar K_u64, "flags")]
    false false 210 R_ptr_or_null.
Definition bpf_cgrp_storage_delete : helper :=
  mk_helper "bpf_cgrp_storage_delete" (CScalar K_long)
    [(CPtr false CVoid, "map"); (CPtr false (CNamed "cgroup"), "cgroup")]
    false false 211 R_zero_or_err.

(** The whole table, in the order of the header. *)
Definition helpers : list helper :=
  [bpf_map_lookup_elem; bpf_map_update_elem; bpf_map_delete_elem; bpf_probe_read;
    bpf_ktime_get_ns; bpf_trace_printk; bpf_get_prandom_u32;
    bpf_get_smp_processor_id; bpf_skb_store_bytes; bpf_l3_csum_replace;
    bpf_l4_csum_replace; bpf_tail_call; bpf_clone_redirect;
    bpf_get_current_pid_tgid; bpf_get_current_uid_gid; bpf_get_current_comm;
    bpf_get_cgroup_classid; bpf_skb_vlan_push; bpf_skb_vlan_pop;
    bpf_skb_get_tunnel_key; bpf_skb_set_tunnel_key; bpf_perf_event_read;
    bpf_redirect; bpf_get_route_realm; bpf_perf_event_output; bpf_skb_load_bytes;
    bpf_get_stackid; bpf_csum_diff; bpf_skb_get_tunnel_opt; bpf_skb_set_tunnel_opt;
    bpf_skb_change_proto; bpf_skb_change_type; bpf_skb_under_cgroup;
    bpf_get_hash_recalc; bpf_get_current_task; bpf_probe_write_user;
    bpf_current_task_under_cgroup; bpf_skb_change_tail; bpf_skb_pull_data;
    bpf_csum_update; bpf_set_hash_invalid; bpf_get_numa_node_id;
    bpf_skb_change_head; bpf_xdp_adjust_head; bpf_probe_read_str;
    bpf_get_socket_cookie; bpf_get_socket_uid; bpf_set_hash; bpf_setsockopt;
    bpf_skb_adjust_room; bpf_redirect_map; bpf_sk_redirect_map; bpf_sock_map_update;
    bpf_xdp_adjust_meta; bpf_perf_event_read_value; bpf_perf_prog_read_value;
    bpf_getsockopt; bpf_override_return; bpf_sock_ops_cb_flags_set;
    bpf_msg_redirect_map; bpf_msg_apply_bytes; bpf_msg_cork_bytes;
    bpf_msg_pull_data; bpf_bind; bpf_xdp_adjust_tail; bpf_skb_get_xfrm_state;
    bpf_get_stack; bpf_skb_load_bytes_relative; bpf_fib_lookup;
    bpf_sock_hash_update; bpf_msg_redirect_hash; bpf_sk_redirect_hash;
    bpf_lwt_push_encap; bpf_lwt_seg6_store_bytes; bpf_lwt_seg6_adjust_srh;
    bpf_lwt_seg6_action; bpf_rc_repeat; bpf_rc_keydown; bpf_skb_cgroup_id;
    bpf_get_current_cgroup_id; bpf_get_local_storage; bpf_sk_select_reuseport;
    bpf_skb_ancestor_cgroup_id; bpf_sk_lookup_tcp; bpf_sk_lookup_udp;
    bpf_sk_release; bpf_map_push_elem; bpf_map_pop_elem; bpf_map_peek_elem;
    bpf_msg_push_data; bpf_msg_pop_data; bpf_rc_pointer_rel; bpf_spin_lock;
    bpf_spin_unlock; bpf_sk_fullsock; bpf_tcp_sock; bpf_skb_ecn_set_ce;
    bpf_get_listener_sock; bpf_skc_lookup_tcp; bpf_tcp_check_syncookie;
    bpf_sysctl_get_name; bpf_sysctl_get_current_value; bpf_sysctl_get_new_value;
    bpf_sysctl_set_new_value; bpf_strtol; bpf_strtoul; bpf_sk_storage_get;
    bpf_sk_storage_delete; bpf_send_signal; bpf_tcp_gen_syncookie; bpf_skb_output;
    bpf_probe_read_user; bpf_probe_read_kernel; bpf_probe_read_user_str;
    bpf_probe_read_kernel_str; bpf_tcp_send_ack; bpf_send_signal_thread;
    bpf_jiffies64; bpf_read_branch_records; bpf_get_ns_current_pid_tgid;
    bpf_xdp_output; bpf_get_netns_cookie; bpf_get_current_ancestor_cgroup_id;
    bpf_sk_assign; bpf_ktime_get_boot_ns; bpf_seq_printf; bpf_seq_write;
    bpf_sk_cgroup_id; bpf_sk_ancestor_cgroup_id; bpf_ringbuf_output;
    bpf_ringbuf_reserve; bpf_ringbuf_submit; bpf_ringbuf_discard; bpf_ringbuf_query;
    bpf_csum_level; bpf_skc_to_tcp6_sock; bpf_skc_to_tcp_sock;
    bpf_skc_to_tcp_timewait_sock; bpf_skc_to_tcp_request_sock; bpf_skc_to_udp6_sock;
    bpf_get_task_stack; bpf_load_hdr_opt; bpf_store_hdr_opt; bpf_reserve_hdr_opt;
    bpf_inode_storage_get; bpf_inode_storage_delete; bpf_d_path; bpf_copy_from_user;
    bpf_snprintf_btf; bpf_seq_printf_btf; bpf_skb_cgroup_classid;
    bpf_redirect_neigh; bpf_per_cpu_ptr; bpf_this_cpu_ptr; bpf_redirect_peer;
    bpf_task_storage_get; bpf_task_storage_delete; bpf_get_current_task_btf;
    bpf_bprm_opts_set; bpf_ktime_get_coarse_ns; bpf_ima_inode_hash;
    bpf_sock_from_file; bpf_check_mtu; bpf_for_each_map_elem; bpf_snprintf;
    bpf_sys_bpf; bpf_btf_find_by_name_kind; bpf_sys_close; bpf_timer_init;
    bpf_timer_set_callback; bpf_timer_start; bpf_timer_cancel; bpf_get_func_ip;
    bpf_get_attach_cookie; bpf_task_pt_regs; bpf_get_branch_snapshot;
    bpf_trace_vprintk; bpf_skc_to_unix_sock; bpf_kallsyms_lookup_name; bpf_find_vma;
    bpf_loop; bpf_strncmp; bpf_get_func_arg; bpf_get_func_ret; bpf_get_func_arg_cnt;
    bpf_get_retval; bpf_set_retval; bpf_xdp_get_buff_len; bpf_xdp_load_bytes;
    bpf_xdp_store_bytes; bpf_copy_from_user_task; bpf_skb_set_tstamp;
    bpf_ima_file_hash; bpf_kptr_xchg; bpf_map_lookup_percpu_elem;
    bpf_skc_to_mptcp_sock; bpf_dynptr_from_mem; bpf_ringbuf_reserve_dynptr;
    bpf_ringbuf_submit_dynptr; bpf_ringbuf_discard_dynptr; bpf_dynptr_read;
    bpf_dynptr_write; bpf_dynptr_data; bpf_tcp_raw_gen_syncookie_ipv4;
    bpf_tcp_raw_gen_syncookie_ipv6; bpf_tcp_raw_check_syncookie_ipv4;
    bpf_tcp_raw_check_syncookie_ipv6; bpf_ktime_get_tai_ns; bpf_user_ringbuf_drain;
    bpf_cgrp_storage_get; bpf_cgrp_storage_delete].


(** ** Rendering a declaration back to C *)

Definition render_ikind (k : ikind) : string :=
  match k with
  | K_u8 => "__u8" | K_u16 => "__u16" | K_u32 => "__u32" | K_u64 => "__u64"
  | K_s32 => "__s32" | K_s64 => "__s64" | K_be16 => "__be16" | K_be32 => "__be32"
  | K_wsum => "__wsum" | K_int => "int" | K_long => "long"
  | K_ulong => "unsigned long" | K_char => "char"
  end.

Definition render_type (t : ctype) : string :=
  let base t := match t with
    | CVoid => "void"
    | CScalar k => render_ikind k
    | CNamed tag => "struct " ++ tag
    | _ => "?"
    end in
  match t with
  | CPtr c t => (if c then "const " else "") ++ base t ++ " *"
  | CScalar _ => base t ++ " "
  | _ => base t ++ " "
  end.

Fixpoint render_params (ps : list (ctype * string)) : string :=
  match ps with
  | [] => ""
  | [(t, n)] => render_type t ++ n
  | (t, n) :: ps => render_type t ++ n ++ ", " ++ render_params ps
  end.

(** ** Looking a helper up by its number *)

Definition helper_of_id (n : Z) : option helper :=
  if decide (1 <= n) then helpers !! Z.to_nat (n - 1) else None.

(** ** Checks over the table *)

Definition is_pointer (t : ctype) : bool :=
  match t with CPtr _ _ => true | _ => false end.

(** A type that travels in one 64-bit register. *)
Definition register_type (t : ctype) : bool :=
  match t with CScalar _ | CPtr _ _ => true | _ => false end.

Fixpoint type_tags (t : ctype) : list string :=
  match t with
  | CNamed tag => [tag]
  | CPtr _ t => type_tags t
  | _ => []
  end.

Definition helper_tags (h : helper) : list string :=
  type_tags (h_ret h) ++ concat (map (fun p => type_tags (fst p)) (h_params h)).

Definition contract_has_error (c : ret_contract) : bool :=
  match c with
  | R_zero_or_err | R_nonneg_or_err | R_pos_or_err | R_value_or_err | R_bool_or_err => true
  | _ => false
  end.

Definition signed_type (t : ctype) : bool :=
  match t with CScalar k => ikind_signed k | _ => false end.

(** The return type can carry what the contract promises. *)
Definition ret_type_ok (h : helper) : bool :=
  match h_returns h with
  | R_nothing => match h_ret h with CVoid => true | _ => false end
  | R_ptr | R_ptr_or_null => is_pointer (h_ret h)
  | c => negb (is_pointer (h_ret h)) && register_type (h_ret h)
         && (if contract_has_error c then signed_type (h_ret h) else true)
  end.

(** The C declaration of a table entry, character for character as in the
    header; [render_helper_sample] below shows a few. *)
Definition render_helper (h : helper) : string :=
  "static " ++ (if h_fastcall h then "__bpf_fastcall " else "")
  ++ render_type (h_ret h) ++ "(* const " ++ h_name h ++ ")("
  ++ match h_params h with [] => "void" | ps => render_params ps end
  ++ (if h_variadic h then ", ..." else "") ++ ") = (void *) " ++ pretty (h_id h) ++ ";".

(** ** Typing a call of a helper

    C converts arguments as if by assignment: any object pointer to [void *]
    without dropping [const], and integers among themselves. *)
Definition assignable (arg param : ctype) : bool :=
  match arg, param with
  | CScalar _, CScalar _ => true
  | CPtr ca ta, CPtr cp tp =>
      implb ca cp
      && match tp, ta with
         | CVoid, _ | _, CVoid => true
         | CNamed s, CNamed s' => bool_decide (s = s')
         | CScalar k, CScalar k' => bool_decide (k = k')
         | _, _ => false
         end
  | _, _ => false
  end.

Fixpoint args_ok (args : list ctype) (ps : list (ctype * string)) (variadic : bool) : bool :=
  match args, ps with
  | [], [] => true
  | a :: args, (p, _) :: ps => assignable a p && args_ok args ps variadic
  | args, [] => variadic && forallb register_type args
  | [], _ => false
  end.

(** A call compiles: the arguments fit the prototype and the five argument
    registers. *)
Definition call_ok (h : helper) (args : list ctype) : bool :=
  args_ok args (h_params h) (h_variadic h) && (length args <=? 5)%nat.

(** ** Theorems *)

Lemma forallb_elem {A} (P : A -> bool) (l : list A) x :
  forallb P l = true -> x ∈ l -> P x = true.
Proof. intros H Hx. apply list_elem_of_In in Hx. by eapply forallb_forall in H. Qed.

Lemma helper_ids_dense : map h_id helpers = seqZ 1 211.
Proof. vm_compute. reflexivity. Qed.

Lemma helper_lookup_id i h : helpers !! i = Some h -> h_id h = Z.of_nat i + 1.
Proof.
  intros Hi. assert (map h_id helpers !! i = Some (h_id h)) as Hm.
  { change (map h_id helpers) with (h_id <$> helpers). by rewrite list_lookup_fmap, Hi. }
  rewrite helper_ids_dense in Hm. apply lookup_seqZ in Hm. lia.
Qed.

Lemma helper_of_id_some n h :
  helper_of_id n = Some h <-> h ∈ helpers /\ h_id h = n.
Proof.
  unfold helper_of_id. split.
  - case_decide; [|done]. intros Hl. split; [by eapply list_elem_of_lookup_2|].
    apply helper_lookup_id in Hl. lia.
  - intros [Hin <-]. apply list_elem_of_lookup in Hin as [i Hi].
    pose proof (helper_lookup_id _ _ Hi) as E. rewrite E, decide_True by lia.
    by replace (Z.to_nat (Z.of_nat i + 1 - 1)) with i by lia.
Qed.

(** The helper numbers are a bijection with 1..211: a call number in that
    range names exactly one helper, any other number none, and no two helpers
    share a number or a name. *)
Theorem helper_numbering n :
  (1 <= n <= 211 <-> is_Some (helper_of_id n))
  /\ (forall h, helper_of_id n = Some h <-> h ∈ helpers /\ h_id h = n)
  /\ NoDup (map h_name helpers).
Proof.
  split_and!; [| apply helper_of_id_some |].
  - unfold helper_of_id. case_decide as Hn.
    + rewrite lookup_lt_is_Some. change (length helpers) with 211%nat. lia.
    + split; [lia | by intros [? ?]].
  - apply (bool_decide_unpack (NoDup (map h_name helpers))). vm_compute. exact I.
Qed.

Definition fits_registers (h : helper) : bool :=
  (length (h_params h) <=? 5)%nat
  && forallb (fun p => register_type (fst p)) (h_params h)
  && implb (h_variadic h) (bool_decide (h_name h = "bpf_trace_printk")).

(** Every prototype fits the BPF calling convention: at most five
    parameters, each a scalar or a pointer, and only [bpf_trace_printk] is
    variadic, so a call needs no stack arguments. *)
Theorem helper_calling_convention h :
  h ∈ helpers ->
  (length (h_params h) <= 5)%nat
  /\ Forall (fun p => register_type (fst p) = true) (h_params h)
  /\ (h_variadic h = true -> h_name h = "bpf_trace_printk").
Proof.
  intros Hh. assert (fits_registers h = true) as Hf.
  { apply (forallb_elem fits_registers helpers); [by vm_compute|done]. }
  unfold fits_registers in Hf.
  apply andb_true_iff in Hf as [Hf Hv]. apply andb_true_iff in Hf as [Hl Hp].
  split_and!.
  - by apply Nat.leb_le.
  - apply Forall_forall. intros p Hin. by apply (forallb_elem _ _ _ Hp).
  - intros E. rewrite E in Hv. by apply bool_decide_eq_true in Hv.
Qed.

Lemma helper_calling_convention_witness :
  bpf_perf_event_output ∈ helpers /\ (length (h_params bpf_perf_event_output) <= 5)%nat.
Proof.
  assert (bpf_perf_event_output ∈ helpers) as H.
  { apply helper_of_id_some with (n := 25). vm_compute. reflexivity. }
  split; [exact H | exact (proj1 (helper_calling_convention _ H))].
Defined.

Definition ret_type_as_listed (h : helper) : bool :=
  Bool.eqb (ret_type_ok h) (negb (bool_decide (h_name h = "bpf_perf_event_read"))).

Definition tags_declared (h : helper) : bool :=
  forallb (fun t => bool_decide (t ∈ forward_structs)) (helper_tags h).

(** The declared return types carry what the comments promise: pointers
    for the pointer-or-NULL helpers, no value for the ones that return nothing,
    and a signed type wherever a negative error is documented, with the single
    exception of [bpf_perf_event_read], declared to return [__u64]; and every
    struct a prototype mentions is declared before it. *)
Theorem helper_return_types h :
  h ∈ helpers ->
  (ret_type_ok h = negb (bool_decide (h_name h = "bpf_perf_event_read")))
  /\ (forall tag, tag ∈ helper_tags h -> tag ∈ forward_structs).
Proof.
  intros Hh. split.
  - apply Bool.eqb_prop. change (ret_type_as_listed h = true).
    apply (forallb_elem _ helpers); [by vm_compute|done].
  - intros tag Ht. assert (forallb (fun t => bool_decide (t ∈ forward_structs)) (helper_tags h) = true) as Hf.
    { apply (forallb_elem (fun h => forallb (fun t => bool_decide (t ∈ forward_structs))
        (helper_tags h)) helpers); [by vm_compute|done]. }
    apply (forallb_elem _ _ _ Hf) in Ht. by apply bool_decide_eq_true in Ht.
Qed.

Lemma helper_return_types_witness :
  bpf_ringbuf_reserve ∈ helpers /\ ret_type_ok bpf_ringbuf_reserve = true.
Proof.
  assert (bpf_ringbuf_reserve ∈ helpers) as H.
  { apply helper_of_id_some with (n := 131). vm_compute. reflexivity. }
  split; [exact H|]. rewrite (proj1 (helper_return_types _ H)). vm_compute. reflexivity.
Defined.

Example render_helper_sample :
  map render_helper [bpf_map_lookup_elem; bpf_trace_printk; bpf_get_smp_processor_id]
  = ["static void *(* const bpf_map_lookup_elem)(void *map, const void *key) = (void *) 1;";
     "static long (* const bpf_trace_printk)(const char *fmt, __u32 fmt_size, ...) = (void *) 6;";
     "static __bpf_fastcall __u32 (* const bpf_get_smp_processor_id)(void) = (void *) 8;"].
Proof. vm_compute. reflexivity. Qed.
