(* ===== verification/AkilC.v ===== *)
(** * The eBPF probes ([pkg/ebpf/akil.c])

    The event struct with its C layout, the two maps ([events], a ring buffer,
    and [lock_starts], a hash map) and the five programs attached to kernel
    hooks.  The helpers the programs call are kernel code: they are the fields
    of [BpfKernel], with the behaviour their comments document as
    [BpfKernelLaws].  A program is a function from the state of the two maps
    and the context of the hook that fired to the new state and its return
    value; a run is a list of firings.  Programs run to completion on their
    CPU, so firings are atomic in the model.  The layout is that of the
    little-endian build ([bpf_bpfel.o]). *)
From S2P Require Import Prelude CTypes BpfHelperDefs.

(** ** Data *)

Definition EVENT_TYPE_PAGE_FAULT : Z := 1.
Definition EVENT_TYPE_CACHE_MISS : Z := 2.
Definition EVENT_TYPE_LOCK_CONTENTION : Z := 3.
Definition EVENT_TYPE_CTX_SWITCH : Z := 4.

Definition ringbuf_max_entries : Z := Z.shiftl 1 24.
Definition lock_starts_max_entries : Z := 65536.

Definition event_payload : ctype := CUnion
  [("page_fault", CStruct [("address", CScalar K_u64)]);
   ("ctx_switch", CStruct [("prev_cgroup_id", CScalar K_u64); ("next_cgroup_id", CScalar K_u64)]);
   ("lock_contention", CStruct [("duration_ns", CScalar K_u64)]);
   ("cache_miss", CStruct [("miss_count_delta", CScalar K_u64)])].

Definition event_t : ctype := CStruct
  [("event_type", CScalar K_u8);
   ("cgroup_id", CScalar K_u64);
   ("timestamp_ns", CScalar K_u64);
   ("", event_payload)].

Definition off_event_type : nat := Z.to_nat (default 0 (offsetof_ event_t "event_type")).
Definition off_cgroup_id : nat := Z.to_nat (default 0 (offsetof_ event_t "cgroup_id")).
Definition off_timestamp_ns : nat := Z.to_nat (default 0 (offsetof_ event_t "timestamp_ns")).
Definition off_payload : nat := Z.to_nat (default 0 (offsetof_ event_t "")).

(** [e->field = v] on the bytes of the reservation. *)
Definition set_u8 (off : nat) (v : Z) (e : list Z) : list Z := put_bytes off (le_bytes 1 v) e.
Definition set_u64 (off : nat) (v : Z) (e : list Z) : list Z := put_bytes off (le_bytes 8 v) e.

(** ** The kernel the programs run in *)

(** What a hook provides when it fires: [bpf_get_current_cgroup_id],
    [bpf_get_current_pid_tgid] and [bpf_ktime_get_ns]. *)
Record hook := mk_hook { cur_cgroup : Z; cur_pid_tgid : Z; ktime : Z }.

Definition hook_ok (c : hook) : Prop :=
  inU 64 (cur_cgroup c) /\ inU 64 (cur_pid_tgid c) /\ inU 64 (ktime c).

(** The maps as the helpers see them.  [bpf_ringbuf_reserve] gives the bytes of
    the reservation (whatever they hold) or NULL. *)
Class BpfKernel := {
  ring : Type;
  hmap : Type;
  ringbuf_reserve : ring -> Z -> ring * option (list Z);
  ringbuf_submit : ring -> list Z -> ring;
  ring_records : ring -> list (list Z);         (* what user space reads *)
  map_lookup_elem : hmap -> Z -> option Z;
  map_update_elem : hmap -> Z -> Z -> hmap * Z; (* flags BPF_ANY *)
  map_delete_elem : hmap -> Z -> hmap * Z;
  hmap_contents : hmap -> gmap Z Z
}.

Class BpfKernelLaws (K : BpfKernel) : Prop := {
  reserve_size r n r' bs :
    0 <= n -> ringbuf_reserve r n = (r', Some bs) -> Z.of_nat (length bs) = n;
  reserve_records r n : ring_records (fst (ringbuf_reserve r n)) = ring_records r;
  submit_records r bs : ring_records (ringbuf_submit r bs) = ring_records r ++ [bs];
  lookup_contents m k : map_lookup_elem m k = hmap_contents m !! k;
  update_contents m k v :
    hmap_contents (fst (map_update_elem m k v))
    = if decide (snd (map_update_elem m k v) = 0) then <[k := v]> (hmap_contents m)
      else hmap_contents m;
  delete_contents m k :
    hmap_contents (fst (map_delete_elem m k))
    = if decide (snd (map_delete_elem m k) = 0) then delete k (hmap_contents m)
      else hmap_contents m
}.

Record kst `{K : BpfKernel} := mk_kst { k_events : ring; k_lock_starts : hmap }.
Arguments mk_kst {K} : rename.

(** ** The programs *)
Section programs.
Context `{K : BpfKernel}.

(** Set by the loader before the programs are loaded. *)
Variable cache_miss_sample_period : Z.

Definition handle_page_fault (c : hook) (s : kst) : kst * Z :=
  match ringbuf_reserve (k_events s) (sizeof event_t) with
  | (r, None) => (mk_kst r (k_lock_starts s), 0)
  | (r, Some e) =>
      let e := set_u8 off_event_type EVENT_TYPE_PAGE_FAULT e in
      let e := set_u64 off_cgroup_id (cur_cgroup c) e in
      let e := set_u64 off_timestamp_ns (ktime c) e in
      (mk_kst (ringbuf_submit r e) (k_lock_starts s), 0)
  end.

Definition handle_sched_switch (c : hook) (s : kst) : kst * Z :=
  match ringbuf_reserve (k_events s) (sizeof event_t) with
  | (r, None) => (mk_kst r (k_lock_starts s), 0)
  | (r, Some e) =>
      let e := set_u8 off_event_type EVENT_TYPE_CTX_SWITCH e in
      let e := set_u64 off_cgroup_id (cur_cgroup c) e in
      let e := set_u64 off_timestamp_ns (ktime c) e in
      (mk_kst (ringbuf_submit r e) (k_lock_starts s), 0)
  end.

Definition handle_cache_miss (c : hook) (s : kst) : kst * Z :=
  match ringbuf_reserve (k_events s) (sizeof event_t) with
  | (r, None) => (mk_kst r (k_lock_starts s), 0)
  | (r, Some e) =>
      let e := set_u8 off_event_type EVENT_TYPE_CACHE_MISS e in
      let e := set_u64 off_cgroup_id (cur_cgroup c) e in
      let e := set_u64 off_timestamp_ns (ktime c) e in
      let e := set_u64 off_payload cache_miss_sample_period e in
      (mk_kst (ringbuf_submit r e) (k_lock_starts s), 0)
  end.

Definition handle_contention_begin (c : hook) (s : kst) : kst * Z :=
  let id := cur_pid_tgid c in
  let ts := ktime c in
  (mk_kst (k_events s) (fst (map_update_elem (k_lock_starts s) id ts)), 0).

Definition handle_contention_end (c : hook) (s : kst) : kst * Z :=
  let id := cur_pid_tgid c in
  match map_lookup_elem (k_lock_starts s) id with
  | None => (s, 0)
  | Some start =>
      let now := ktime c in
      let duration := u64! (now - start) in
      let m := fst (map_delete_elem (k_lock_starts s) id) in
      match ringbuf_reserve (k_events s) (sizeof event_t) with
      | (r, None) => (mk_kst r m, 0)
      | (r, Some e) =>
          let e := set_u8 off_event_type EVENT_TYPE_LOCK_CONTENTION e in
          let e := set_u64 off_cgroup_id (cur_cgroup c) e in
          let e := set_u64 off_timestamp_ns now e in
          let e := set_u64 off_payload duration e in
          (mk_kst (ringbuf_submit r e) m, 0)
      end
  end.

(** The hooks the programs are attached to, and a run of firings. *)
Inductive probe := PageFault | SchedSwitch | CacheMiss | ContentionBegin | ContentionEnd.

Definition run_probe (p : probe) : hook -> kst -> kst * Z :=
  match p with
  | PageFault => handle_page_fault
  | SchedSwitch => handle_sched_switch
  | CacheMiss => handle_cache_miss
  | ContentionBegin => handle_contention_begin
  | ContentionEnd => handle_contention_end
  end.

Fixpoint run_probes (tr : list (probe * hook)) (s : kst) : kst :=
  match tr with
  | [] => s
  | (p, c) :: tr => run_probes tr (fst (run_probe p c s))
  end.
End programs.

#[global] Instance probe_eq_dec : EqDecision probe.
Proof. solve_decision. Defined.

(** ** The helper calls of the programs, with the types of their arguments *)
Definition akil_calls : list (helper * list ctype) :=
  let event_ptr := CPtr false (CNamed "event_t") in
  let map_ptr := CPtr false CVoid in
  let u64_ptr := CPtr false (CScalar K_u64) in
  [(bpf_ringbuf_reserve, [map_ptr; CScalar K_ulong; CScalar K_int]);
   (bpf_ringbuf_submit, [event_ptr; CScalar K_int]);
   (bpf_get_current_cgroup_id, []);
   (bpf_ktime_get_ns, []);
   (bpf_get_current_pid_tgid, []);
   (bpf_map_update_elem, [map_ptr; u64_ptr; u64_ptr; CScalar K_int]);
   (bpf_map_lookup_elem, [map_ptr; u64_ptr]);
   (bpf_map_delete_elem, [map_ptr; u64_ptr])].

(** The results the programs dereference, and whether they test them first
    ([if (!e) return 0;], [if (!start) return 0;]). *)
Definition akil_derefs : list (helper * bool) :=
  [(bpf_ringbuf_reserve, true); (bpf_map_lookup_elem, true)].

(** ** What the probes are meant to report

    The ideal stream of a run: one event per firing of the counting probes, and
    one per contention interval, with no capacity limits. *)
Record event := mk_event {
  ev_type : Z; ev_cgroup : Z; ev_time : Z; ev_value : option Z
}.

Section ideal.
Variable period : Z.

Definition ideal_step (p : probe) (c : hook) (w : gmap Z Z) : gmap Z Z * list event :=
  match p with
  | PageFault => (w, [mk_event EVENT_TYPE_PAGE_FAULT (cur_cgroup c) (ktime c) None])
  | SchedSwitch => (w, [mk_event EVENT_TYPE_CTX_SWITCH (cur_cgroup c) (ktime c) None])
  | CacheMiss => (w, [mk_event EVENT_TYPE_CACHE_MISS (cur_cgroup c) (ktime c) (Some period)])
  | ContentionBegin => (<[cur_pid_tgid c := ktime c]> w, [])
  | ContentionEnd =>
      match w !! cur_pid_tgid c with
      | None => (w, [])
      | Some t0 => (delete (cur_pid_tgid c) w,
          [mk_event EVENT_TYPE_LOCK_CONTENTION (cur_cgroup c) (ktime c)
             (Some (u64! (ktime c - t0)))])
      end
  end.

Fixpoint ideal_events (tr : list (probe * hook)) (w : gmap Z Z) : list event :=
  match tr with
  | [] => []
  | (p, c) :: tr =>
      let '(w', evs) := ideal_step p c w in evs ++ ideal_events tr w'
  end.

Fixpoint ideal_waiting (tr : list (probe * hook)) (w : gmap Z Z) : gmap Z Z :=
  match tr with
  | [] => w
  | (p, c) :: tr => ideal_waiting tr (fst (ideal_step p c w))
  end.
End ideal.

(** A ring buffer record as the struct it holds. *)
Definition decode_event (bs : list Z) : event :=
  let ty := get_le 1 off_event_type bs in
  mk_event ty (get_le 8 off_cgroup_id bs) (get_le 8 off_timestamp_ns bs)
    (if decide (ty = EVENT_TYPE_CACHE_MISS \/ ty = EVENT_TYPE_LOCK_CONTENTION)
     then Some (get_le 8 off_payload bs) else None).

(** ** Layout of the event *)

Lemma event_t_size : sizeof event_t = 40 /\ 0 <= sizeof event_t.
Proof. by vm_compute. Qed.

(** [sizeof(struct event_t)] is 40: the type byte is at offset 0, the
    cgroup id at 8, the timestamp at 16 and the payload union, 16 bytes, at 24. *)
Theorem event_t_layout :
  sizeof event_t = 40 /\ alignof event_t = 8 /\ sizeof event_payload = 16
  /\ off_event_type = 0%nat /\ off_cgroup_id = 8%nat
  /\ off_timestamp_ns = 16%nat /\ off_payload = 24%nat.
Proof. vm_compute. auto 10. Qed.

(** Every helper call of the programs type-checks against the helper table
    (arity, argument conversions, argument registers), and every result that is
    dereferenced is tested against NULL first when its helper may return NULL. *)
Theorem akil_calls_check :
  Forall (fun ha => call_ok (fst ha) (snd ha) = true) akil_calls
  /\ Forall (fun hb => h_returns (fst hb) = R_ptr_or_null -> snd hb = true) akil_derefs
  /\ Forall (fun h => is_pointer (h_ret h) = true -> h ∈ map fst akil_derefs) (map fst akil_calls).
Proof.
  split_and!.
  - apply Forall_forall. intros ha Hin.
    by apply (forallb_elem (fun ha => call_ok (fst ha) (snd ha)) akil_calls); [vm_compute|].
  - by repeat constructor.
  - repeat (constructor; [cbn; intros; try discriminate; set_solver|]). constructor.
Qed.

(** Every C program reads and writes bytes at these offsets. *)
Lemma off_eqs :
  off_event_type = 0%nat /\ off_cgroup_id = 8%nat /\ off_timestamp_ns = 16%nat
  /\ off_payload = 24%nat.
Proof. vm_compute. auto. Qed.

Lemma length_set_u8 off v e : (off < length e)%nat -> length (set_u8 off v e) = length e.
Proof. intros. apply length_put_bytes. simpl. lia. Qed.

Lemma length_set_u64 off v e : (off + 8 <= length e)%nat -> length (set_u64 off v e) = length e.
Proof. intros. apply length_put_bytes. simpl. lia. Qed.

Lemma get_set_u64_same off v e :
  (off + 8 <= length e)%nat -> get_le 8 off (set_u64 off v e) = u64! v.
Proof. intros. unfold set_u64. rewrite get_le_put_same by lia. reflexivity. Qed.

Lemma get_set_u8_same off v e :
  (off < length e)%nat -> get_le 1 off (set_u8 off v e) = u8! v.
Proof. intros. unfold set_u8. rewrite get_le_put_same by lia. reflexivity. Qed.

Lemma get_set_u64_ne n off off' v e :
  (off' + 8 <= length e)%nat -> (off + n <= off')%nat \/ (off' + 8 <= off)%nat ->
  get_le n off (set_u64 off' v e) = get_le n off e.
Proof. intros. unfold set_u64. apply get_le_put_ne; rewrite length_le_bytes; lia. Qed.

Lemma get_set_u8_ne n off off' v e :
  (off' < length e)%nat -> (off + n <= off')%nat \/ (off' + 1 <= off)%nat ->
  get_le n off (set_u8 off' v e) = get_le n off e.
Proof. intros. unfold set_u8. apply get_le_put_ne; rewrite length_le_bytes; lia. Qed.

(** Filling the three header fields, and the payload, of a 40-byte record. *)
Definition fill_header (ty cg ts : Z) (e : list Z) : list Z :=
  set_u64 off_timestamp_ns ts (set_u64 off_cgroup_id cg (set_u8 off_event_type ty e)).

Lemma length_fill_header ty cg ts e :
  length e = 40%nat -> length (fill_header ty cg ts e) = 40%nat.
Proof.
  intros. unfold fill_header. destruct off_eqs as (-> & -> & -> & _).
  assert (length (set_u8 0 ty e) = 40%nat) by (rewrite length_set_u8; lia).
  assert (length (set_u64 8 cg (set_u8 0 ty e)) = 40%nat) by (rewrite length_set_u64; lia).
  rewrite length_set_u64; lia.
Qed.

Lemma header_fields ty cg ts e :
  length e = 40%nat ->
  get_le 1 off_event_type (fill_header ty cg ts e) = u8! ty
  /\ get_le 8 off_cgroup_id (fill_header ty cg ts e) = u64! cg
  /\ get_le 8 off_timestamp_ns (fill_header ty cg ts e) = u64! ts.
Proof.
  intros. unfold fill_header. destruct off_eqs as (-> & -> & -> & _).
  assert (length (set_u8 0 ty e) = 40%nat) by (rewrite length_set_u8; lia).
  assert (length (set_u64 8 cg (set_u8 0 ty e)) = 40%nat) by (rewrite length_set_u64; lia).
  split_and!.
  - rewrite !get_set_u64_ne, get_set_u8_same by lia. done.
  - rewrite get_set_u64_ne, get_set_u64_same by lia. done.
  - by rewrite get_set_u64_same by lia.
Qed.

Lemma decode_plain ty cg ts e :
  length e = 40%nat -> inU 8 ty -> inU 64 cg -> inU 64 ts ->
  ty <> EVENT_TYPE_CACHE_MISS -> ty <> EVENT_TYPE_LOCK_CONTENTION ->
  decode_event (fill_header ty cg ts e) = mk_event ty cg ts None.
Proof.
  intros Hl Hty Hcg Hts Hne1 Hne2. unfold decode_event.
  destruct (header_fields ty cg ts e Hl) as (-> & -> & ->).
  rewrite !wrapU_id by done. rewrite decide_False; [done|]. by intros [?|?].
Qed.

Lemma decode_valued ty cg ts v e :
  length e = 40%nat -> inU 8 ty -> inU 64 cg -> inU 64 ts -> inU 64 v ->
  ty = EVENT_TYPE_CACHE_MISS \/ ty = EVENT_TYPE_LOCK_CONTENTION ->
  decode_event (set_u64 off_payload v (fill_header ty cg ts e)) = mk_event ty cg ts (Some v).
Proof.
  intros Hl Hty Hcg Hts Hv Ht. unfold decode_event.
  pose proof (length_fill_header ty cg ts e Hl) as Hl'.
  pose proof (header_fields ty cg ts e Hl) as Hf.
  destruct off_eqs as (E1 & E2 & E3 & E4). rewrite E1, E2, E3, E4 in *.
  destruct Hf as (F1 & F2 & F3).
  rewrite get_set_u64_same by lia.
  rewrite !get_set_u64_ne, F1, F2, F3 by lia. rewrite !wrapU_id by done.
  by rewrite decide_True.
Qed.

(** ** What one firing does *)
Section firing.
Context `{K : BpfKernel} `{L : !BpfKernelLaws K}.
Variable period : Z.
Hypothesis period_ok : inU 64 period.

Implicit Types (s : kst) (c : hook) (tr : list (probe * hook)).

Definition waiting (s : kst) : gmap Z Z := hmap_contents (k_lock_starts s).
Definition reported (s : kst) : list event := decode_event <$> ring_records (k_events s).

(** The ring buffer always has room for an event. *)
Definition ring_has_room : Prop :=
  forall r, exists r' bs, ringbuf_reserve r (sizeof event_t) = (r', Some bs).

(** The table does what is asked of it unless it is full: deleting a present key
    and overwriting one do not fail, and a new key is only refused when there is
    no room.  The helpers promise less ("a negative error in case of failure"), so
    this is not among the laws but a hypothesis of the theorems that need it. *)
Definition table_works : Prop := forall (m : hmap) k,
  (is_Some (hmap_contents m !! k) -> snd (map_delete_elem m k) = 0)
  /\ forall v, is_Some (hmap_contents m !! k) \/ Z.of_nat (size (hmap_contents m)) < lock_starts_max_entries ->
       snd (map_update_elem m k v) = 0.

(** Reserve, fill with [fill], submit: the shape shared by the programs. *)
Lemma emit_spec (r : ring) (fill : list Z -> list Z) (ev : event) :
  (forall e, length e = 40%nat -> decode_event (fill e) = ev) ->
  let '(r', o) := ringbuf_reserve r (sizeof event_t) in
  let r'' := match o with None => r' | Some e => ringbuf_submit r' (fill e) end in
  exists evs, decode_event <$> ring_records r'' = (decode_event <$> ring_records r) ++ evs
    /\ evs `sublist_of` [ev] /\ (ring_has_room -> evs = [ev]).
Proof using L.
  intros Hfill. pose proof (reserve_records r (sizeof event_t)) as Hr.
  destruct (ringbuf_reserve r (sizeof event_t)) as [r' [e|]] eqn:E; simpl in Hr.
  - apply reserve_size in E; [|done]. rewrite (proj1 event_t_size) in E.
    exists [ev]. rewrite submit_records, fmap_app, Hr. simpl. rewrite Hfill by lia. done.
  - exists []. rewrite Hr, app_nil_r. split_and!; [done | apply sublist_nil_l |].
    intros Hroom. destruct (Hroom r) as (? & ? & ?). congruence.
Qed.

Definition header_of (ty : Z) (c : hook) (e : list Z) : list Z :=
  fill_header ty (cur_cgroup c) (ktime c) e.

Lemma emit_plain (r : ring) ty c :
  hook_ok c -> ty = EVENT_TYPE_PAGE_FAULT \/ ty = EVENT_TYPE_CTX_SWITCH ->
  let '(r', o) := ringbuf_reserve r (sizeof event_t) in
  let r'' := match o with None => r' | Some e => ringbuf_submit r' (header_of ty c e) end in
  exists evs, decode_event <$> ring_records r'' = (decode_event <$> ring_records r) ++ evs
    /\ evs `sublist_of` [mk_event ty (cur_cgroup c) (ktime c) None]
    /\ (ring_has_room -> evs = [mk_event ty (cur_cgroup c) (ktime c) None]).
Proof using L.
  intros (Hcg & _ & Hts) Hty. apply emit_spec. intros e He.
  apply decode_plain; try done; by destruct Hty as [-> | ->].
Qed.

Lemma emit_valued (r : ring) ty c v :
  hook_ok c -> inU 64 v -> ty = EVENT_TYPE_CACHE_MISS \/ ty = EVENT_TYPE_LOCK_CONTENTION ->
  let '(r', o) := ringbuf_reserve r (sizeof event_t) in
  let r'' := match o with None => r'
             | Some e => ringbuf_submit r' (set_u64 off_payload v (header_of ty c e)) end in
  exists evs, decode_event <$> ring_records r'' = (decode_event <$> ring_records r) ++ evs
    /\ evs `sublist_of` [mk_event ty (cur_cgroup c) (ktime c) (Some v)]
    /\ (ring_has_room -> evs = [mk_event ty (cur_cgroup c) (ktime c) (Some v)]).
Proof using L.
  intros (Hcg & _ & Hts) Hv Hty.
  apply (emit_spec r (fun e => set_u64 off_payload v (header_of ty c e))). intros e He.
  apply decode_valued; try done; by destruct Hty as [-> | ->].
Qed.

(** The reported events of a firing, and the waiting threads after it.  The
    only way a working table can deviate from the ideal step is a failed
    insertion. *)
Lemma run_probe_spec p c s :
  hook_ok c ->
  let s' := fst (run_probe period p c s) in
  let '(w', ideal) := ideal_step period p c (waiting s) in
  (exists evs, reported s' = reported s ++ evs /\ evs `sublist_of` ideal
     /\ (ring_has_room -> evs = ideal))
  /\ (table_works -> waiting s' = w' \/ p = ContentionBegin /\ waiting s' = waiting s
       /\ waiting s !! cur_pid_tgid c = None
       /\ lock_starts_max_entries <= Z.of_nat (size (waiting s)))
  /\ snd (run_probe period p c s) = 0.
Proof using L period_ok.
  intros Hc. unfold reported, waiting. destruct p; cbn [run_probe ideal_step].
  - pose proof (emit_plain (k_events s) EVENT_TYPE_PAGE_FAULT c Hc ltac:(auto)) as He.
    unfold handle_page_fault. destruct (ringbuf_reserve _ _) as [r [e|]]; simpl; eauto.
  - pose proof (emit_plain (k_events s) EVENT_TYPE_CTX_SWITCH c Hc ltac:(auto)) as He.
    unfold handle_sched_switch. destruct (ringbuf_reserve _ _) as [r [e|]]; simpl; eauto.
  - pose proof (emit_valued (k_events s) EVENT_TYPE_CACHE_MISS c period Hc period_ok
      ltac:(auto)) as He.
    unfold handle_cache_miss. destruct (ringbuf_reserve _ _) as [r [e|]]; simpl; eauto.
  - unfold handle_contention_begin. simpl. split_and!; [exists []; rewrite app_nil_r; auto| |done].
    intros Hwork. rewrite update_contents. case_decide as Hu; [by left|]. right. split_and!; try done.
    + apply eq_None_not_Some. intros Hs. apply Hu, Hwork. auto.
    + apply Z.nlt_ge. intros Hs. apply Hu, Hwork. auto.
  - unfold handle_contention_end. rewrite lookup_contents.
    destruct (hmap_contents (k_lock_starts s) !! cur_pid_tgid c) as [t0|] eqn:El.
    2: { simpl. split_and!; [exists []; rewrite app_nil_r; auto | by left | done]. }
    pose proof (emit_valued (k_events s) EVENT_TYPE_LOCK_CONTENTION c (u64! (ktime c - t0)) Hc
      (wrapU_range 64 _ ltac:(done)) ltac:(auto)) as He.
    assert (table_works -> hmap_contents (fst (map_delete_elem (k_lock_starts s) (cur_pid_tgid c)))
      = delete (cur_pid_tgid c) (hmap_contents (k_lock_starts s))) as Hdel.
    { intros Hwork. rewrite delete_contents, decide_True; [done|]. apply Hwork. eauto. }
    destruct (ringbuf_reserve _ _) as [r [e|]]; simpl in *; eauto.
Qed.
End firing.

(** ** Runs *)
Section runs.
Context `{K : BpfKernel} `{L : !BpfKernelLaws K}.
Variable period : Z.
Hypothesis period_ok : inU 64 period.

Implicit Types (s : kst) (c : hook) (tr : list (probe * hook)) (w : gmap Z Z).

Definition hooks_ok (tr : list (probe * hook)) : Prop := Forall (fun pc => hook_ok (snd pc)) tr.

(** No insertion of the run can find the table full. *)
Fixpoint table_room (tr : list (probe * hook)) (w : gmap Z Z) : Prop :=
  match tr with
  | [] => True
  | (p, c) :: tr =>
      (p = ContentionBegin ->
         is_Some (w !! cur_pid_tgid c) \/ Z.of_nat (size w) < lock_starts_max_entries)
      /\ table_room tr (fst (ideal_step period p c w))
  end.

Lemma ideal_step_mono p c w w' :
  w ⊆ w' ->
  fst (ideal_step period p c w) ⊆ fst (ideal_step period p c w')
  /\ snd (ideal_step period p c w) `sublist_of` snd (ideal_step period p c w').
Proof.
  intros Hw. destruct p; simpl; try by split.
  - split; [by apply insert_mono | done].
  - destruct (w !! cur_pid_tgid c) as [t0|] eqn:E; simpl.
    + rewrite (lookup_weaken _ _ _ _ E Hw). simpl. split; [by apply delete_mono | done].
    + destruct (w' !! cur_pid_tgid c); simpl; (split; [|apply sublist_nil_l]); [|done].
      rewrite <- (delete_id w (cur_pid_tgid c)) by done. by apply delete_mono.
Qed.

(** After a firing the table is included in the ideal one. *)
Lemma run_probe_waiting_mono p c s w :
  table_works -> hook_ok c -> waiting s ⊆ w ->
  waiting (fst (run_probe period p c s)) ⊆ fst (ideal_step period p c w).
Proof using L period_ok.
  intros Hwork Hc Hw. pose proof (run_probe_spec period period_ok p c s Hc) as H.
  pose proof (proj1 (ideal_step_mono p c _ _ Hw)) as Hm. cbv zeta in H.
  destruct (ideal_step period p c (waiting s)) as [w' evs]; simpl in Hm.
  destruct H as (_ & Hwait & _). destruct (Hwait Hwork) as [-> | (-> & -> & Hn & _)]; [done|].
  simpl. by apply insert_subseteq_r.
Qed.

(** An event of a probe that only counts. *)
Definition counting (ev : event) : Prop := ev_type ev <> EVENT_TYPE_LOCK_CONTENTION.
#[local] Instance counting_dec ev : Decision (counting ev).
Proof. unfold counting. apply _. Defined.

Lemma counting_step p c w w' :
  filter counting (snd (ideal_step period p c w)) = filter counting (snd (ideal_step period p c w')).
Proof.
  destruct p; simpl; try done.
  assert (forall t, filter counting (snd (match t with
    | None => (w, [])
    | Some t0 => (delete (cur_pid_tgid c) w, [mk_event EVENT_TYPE_LOCK_CONTENTION (cur_cgroup c) (ktime c)
                    (Some (u64! (ktime c - t0)))]) end)) = []) as H1 by (intros [t0|]; reflexivity).
  rewrite H1. destruct (w' !! cur_pid_tgid c); reflexivity.
Qed.

(** C19: capacity limits lose events and never invent, reorder or alter one.
    Whatever the kernel refuses, page faults, context switches and cache misses
    are reported as a subsequence of the ideal stream, in order; if the table fails
    only to add a key when it is full, so is everything that is reported. *)
Theorem reports_sublist_ideal tr s w :
  hooks_ok tr -> waiting s ⊆ w ->
  exists evs, reported (run_probes period tr s) = reported s ++ evs
    /\ filter counting evs `sublist_of` filter counting (ideal_events period tr w)
    /\ (table_works -> evs `sublist_of` ideal_events period tr w
          /\ waiting (run_probes period tr s) ⊆ ideal_waiting period tr w).
Proof using L period_ok.
  intros Htr Hw.
  cut (exists evs, reported (run_probes period tr s) = reported s ++ evs
    /\ (forall w, filter counting evs `sublist_of` filter counting (ideal_events period tr w))
    /\ (forall w, waiting s ⊆ w -> table_works -> evs `sublist_of` ideal_events period tr w
          /\ waiting (run_probes period tr s) ⊆ ideal_waiting period tr w)).
  { intros (evs & H1 & H2 & H3). exists evs. auto. }
  clear w Hw. revert s. induction Htr as [|[p c] tr Hc _ IH]; intros s.
  { exists []. simpl. rewrite app_nil_r. auto. }
  cbn [run_probes ideal_events ideal_waiting].
  destruct (IH (fst (run_probe period p c s))) as (evs & Hr & Hcount & Hs).
  pose proof (run_probe_spec period period_ok p c s Hc) as H. cbv zeta in H.
  pose proof (counting_step p c (waiting s)) as Hfilter. pose proof (ideal_step_mono p c (waiting s)) as Hm.
  destruct (ideal_step period p c (waiting s)) as [w1 id1].
  destruct H as ((evs1 & Hr1 & Hs1 & _) & _). exists (evs1 ++ evs).
  split; [by rewrite Hr, Hr1, app_assoc|]. split.
  - intros w. specialize (Hfilter w). destruct (ideal_step period p c w) as [w2 id2]. simpl in *.
    rewrite !filter_app. apply sublist_app; [|apply Hcount]. rewrite <- Hfilter. by apply filter_sublist_mono.
  - intros w Hw Hwork. destruct (Hs (fst (ideal_step period p c w))) as [Hsub Hwait];
      [by apply run_probe_waiting_mono|done|].
    pose proof (proj2 (Hm w Hw)). destruct (ideal_step period p c w) as [w2 id2]. simpl in *.
    split; [|done]. apply sublist_app; [by etrans|done].
Qed.

Lemma reports_ideal_aux tr s :
  hooks_ok tr -> ring_has_room -> table_works -> table_room tr (waiting s) ->
  reported (run_probes period tr s) = reported s ++ ideal_events period tr (waiting s)
  /\ waiting (run_probes period tr s) = ideal_waiting period tr (waiting s).
Proof using L period_ok.
  intros Htr Hroom Hwork. revert s. induction Htr as [|[p c] tr Hc _ IH]; intros s Ht.
  { simpl. by rewrite app_nil_r. }
  destruct Ht as [Ht1 Ht]. cbn [run_probes ideal_events ideal_waiting].
  pose proof (run_probe_spec period period_ok p c s Hc) as H. cbv zeta in H.
  destruct (ideal_step period p c (waiting s)) as [w1 id1] eqn:E.
  destruct H as ((evs1 & Hr1 & _ & Hx) & Hw & _). simpl in Hc, Ht. specialize (Hx Hroom).
  assert (waiting (fst (run_probe period p c s)) = w1) as Hw1.
  { destruct (Hw Hwork) as [|(Hp & _ & Hn & Hfull)]; [done|].
    destruct (Ht1 Hp) as [[? ?]|]; [congruence|lia]. }
  rewrite <- Hw1 in Ht |- *. destruct (IH _ Ht) as [-> ->].
  rewrite Hr1, Hx, <- app_assoc, Hw1. done.
Qed.

(** C4: with room in the ring buffer and in [lock_starts], whose updates then
    succeed and whose deletes take effect, the probes report exactly the ideal
    stream, and the table holds exactly the threads that are waiting. *)
Theorem reports_ideal tr s :
  hooks_ok tr -> ring_has_room -> table_works -> table_room tr (waiting s) ->
  reported (run_probes period tr s) = reported s ++ ideal_events period tr (waiting s)
  /\ waiting (run_probes period tr s) = ideal_waiting period tr (waiting s).
Proof using L period_ok. apply reports_ideal_aux. Qed.

(** Firings of other threads leave a waiting thread's entry alone. *)
Definition other_thread (id : Z) (pc : probe * hook) : Prop :=
  (fst pc = ContentionBegin \/ fst pc = ContentionEnd) -> cur_pid_tgid (snd pc) <> id.

Lemma ideal_waiting_other id tr w :
  Forall (other_thread id) tr -> ideal_waiting period tr w !! id = w !! id.
Proof.
  intros Htr. revert w. induction Htr as [|[p c] tr Ho _ IH]; intros w; [done|].
  cbn [ideal_waiting]. rewrite IH. unfold other_thread in Ho. simpl in Ho.
  destruct p; simpl; try done.
  - by rewrite lookup_insert_ne by auto.
  - destruct (w !! cur_pid_tgid c); simpl; [|done]. by rewrite lookup_delete_ne by auto.
Qed.

Lemma ideal_events_app tr1 tr2 w :
  ideal_events period (tr1 ++ tr2) w
  = ideal_events period tr1 w ++ ideal_events period tr2 (ideal_waiting period tr1 w).
Proof.
  revert w. induction tr1 as [|[p c] tr1 IH]; intros w; [done|].
  cbn [app ideal_events ideal_waiting]. destruct (ideal_step period p c w) as [w' evs] eqn:E.
  simpl. by rewrite IH, app_assoc.
Qed.

Lemma ideal_waiting_app tr1 tr2 w :
  ideal_waiting period (tr1 ++ tr2) w = ideal_waiting period tr2 (ideal_waiting period tr1 w).
Proof. revert w. induction tr1 as [|[p c] tr1 IH]; intros w; simpl; auto. Qed.

(** C20: a contention interval is reported once, at its end, with its exact
    length: if a thread starts waiting at [t0] and stops at [t1 >= t0], and no
    other begin or end of the same thread falls between, the last event
    reported has duration [t1 - t0] and the thread's entry is gone. *)
Theorem contention_interval_reported s c0 mid c1 :
  let tr := (ContentionBegin, c0) :: mid ++ [(ContentionEnd, c1)] in
  hooks_ok tr -> ring_has_room -> table_works -> table_room tr (waiting s) ->
  cur_pid_tgid c0 = cur_pid_tgid c1 -> ktime c0 <= ktime c1 ->
  Forall (other_thread (cur_pid_tgid c1)) mid ->
  last (reported (run_probes period tr s))
    = Some (mk_event EVENT_TYPE_LOCK_CONTENTION (cur_cgroup c1) (ktime c1)
              (Some (ktime c1 - ktime c0)))
  /\ waiting (run_probes period tr s) !! cur_pid_tgid c1 = None.
Proof using L period_ok.
  intros tr Htr Hroom Hwork Ht Hid Hle Hmid.
  destruct (reports_ideal_aux tr s Htr Hroom Hwork Ht) as [-> ->].
  apply Forall_cons in Htr as [(_ & _ & Hc0) Htr].
  apply Forall_app in Htr as [_ Htr]. apply Forall_singleton in Htr as (_ & _ & Hc1).
  unfold tr. cbn [ideal_events ideal_waiting ideal_step fst].
  rewrite ideal_events_app, ideal_waiting_app.
  cbn [ideal_events ideal_waiting ideal_step].
  rewrite ideal_waiting_other, Hid, lookup_insert_eq by done.
  rewrite wrapU_sub_le by (simpl in *; done). simpl. split.
  - by rewrite !app_assoc, last_snoc.
  - apply lookup_delete_eq.
Qed.
End runs.

(** ** A concrete kernel, for the witnesses

    An unbounded ring buffer whose reservations hold stale bytes, and a table
    bounded by [lock_starts_max_entries] that refuses new keys when full. *)
Definition E2BIG : Z := 7.

#[local] Instance toy_kernel : BpfKernel := {
  ring := list (list Z);
  hmap := gmap Z Z;
  ringbuf_reserve r n := (r, Some (replicate (Z.to_nat n) 170));
  ringbuf_submit r bs := r ++ [bs];
  ring_records r := r;
  map_lookup_elem m k := m !! k;
  map_update_elem m k v :=
    if decide (is_Some (m !! k) \/ Z.of_nat (size m) < lock_starts_max_entries)
    then (<[k := v]> m, 0) else (m, - E2BIG);
  map_delete_elem m k := (delete k m, 0);
  hmap_contents m := m
}.

#[local] Instance toy_kernel_laws : BpfKernelLaws toy_kernel.
Proof.
  split; simpl; try done.
  - intros r n r' bs Hn [= _ <-]. rewrite length_replicate. lia.
  - intros m k v. case_decide; reflexivity.
Qed.

Lemma toy_table_works : table_works (K := toy_kernel).
Proof. intros m k. split; [done|]. intros v Hr. simpl. by rewrite decide_True. Qed.

Definition toy_init : kst := mk_kst (K := toy_kernel) [] ∅.

(** Thread 7 waits from 100 to 350 while thread 9 faults and misses. *)
Definition toy_run : list (probe * hook) :=
  [(ContentionBegin, mk_hook 4026 7 100);
   (PageFault, mk_hook 5000 9 120);
   (CacheMiss, mk_hook 5000 9 130);
   (ContentionEnd, mk_hook 4026 7 350)].

Lemma toy_hooks_ok : hooks_ok toy_run.
Proof. apply (bool_decide_unpack (Forall (fun pc => hook_ok (snd pc)) toy_run)). vm_compute. exact I. Qed.

Lemma toy_has_room : ring_has_room (K := toy_kernel).
Proof. intros r. eauto. Qed.

Lemma toy_table_room : table_room 10000 toy_run ∅.
Proof. vm_compute. split_and!; auto; by right. Qed.

Example toy_reported :
  reported (run_probes 10000 toy_run toy_init)
  = [mk_event 1 5000 120 None; mk_event 2 5000 130 (Some 10000); mk_event 3 4026 350 (Some 250)].
Proof. vm_compute. reflexivity. Qed.

Lemma reports_sublist_ideal_witness :
  exists evs, reported (run_probes (K := toy_kernel) 10000 toy_run toy_init) = reported toy_init ++ evs
    /\ evs `sublist_of` ideal_events 10000 toy_run ∅
    /\ waiting (run_probes (K := toy_kernel) 10000 toy_run toy_init) ⊆ ideal_waiting 10000 toy_run ∅.
Proof.
  destruct (reports_sublist_ideal (K := toy_kernel) 10000 ltac:(done) toy_run toy_init ∅ toy_hooks_ok ltac:(apply map_subseteq_po))
    as (evs & E & _ & H). exists evs. split; [exact E|exact (H toy_table_works)].
Defined.

Lemma reports_ideal_witness :
  reported (run_probes 10000 toy_run toy_init)
    = reported toy_init ++ ideal_events 10000 toy_run ∅
  /\ waiting (run_probes 10000 toy_run toy_init) = ideal_waiting 10000 toy_run ∅.
Proof.
  apply (reports_ideal 10000 ltac:(done) toy_run toy_init).
  - apply toy_hooks_ok.
  - apply toy_has_room.
  - apply toy_table_works.
  - apply toy_table_room.
Defined.

Lemma contention_interval_reported_witness :
  last (reported (run_probes 10000 toy_run toy_init))
    = Some (mk_event EVENT_TYPE_LOCK_CONTENTION 4026 350 (Some 250)).
Proof.
  apply (contention_interval_reported 10000 ltac:(done) toy_init (mk_hook 4026 7 100)
    [(PageFault, mk_hook 5000 9 120); (CacheMiss, mk_hook 5000 9 130)] (mk_hook 4026 7 350)).
  - apply toy_hooks_ok.
  - apply toy_has_room.
  - apply toy_table_works.
  - apply toy_table_room.
  - reflexivity.
  - vm_compute. discriminate.
  - repeat constructor; intros [|]; discriminate.
Defined.

(** A kernel whose table never deletes: it reports the wait of thread 7 twice. *)
Definition stuck_kernel : BpfKernel := {|
  ring := list (list Z);
  hmap := gmap Z Z;
  ringbuf_reserve r n := (r, Some (replicate (Z.to_nat n) 0));
  ringbuf_submit r bs := r ++ [bs];
  ring_records r := r;
  map_lookup_elem m k := m !! k;
  map_update_elem m k v := (<[k := v]> m, 0);
  map_delete_elem m k := (m, -16);
  hmap_contents m := m
|}.

Lemma stuck_kernel_laws : BpfKernelLaws stuck_kernel.
Proof. split; simpl; try done. intros r n r' bs Hn [= _ <-]. rewrite length_replicate. lia. Qed.

Definition toy_run_twice : list (probe * hook) := toy_run ++ [(ContentionEnd, mk_hook 4026 7 400)].

(** So without [table_works] a lock event can be invented. *)
Example stuck_invents :
  reported (run_probes (K := stuck_kernel) 10000 toy_run_twice (mk_kst (K := stuck_kernel) [] ∅))
    = [mk_event 1 5000 120 None; mk_event 2 5000 130 (Some 10000); mk_event 3 4026 350 (Some 250);
       mk_event 3 4026 400 (Some 300)]
  /\ length (ideal_events 10000 toy_run_twice ∅) = 3%nat.
Proof. split; vm_compute; reflexivity. Qed.
