(* ===== verification/BpfHelpers.v ===== *)
(** * BPF program helpers ([pkg/ebpf/headers/bpf/bpf_helpers.h])

    [Module Printk]: the variadic printing macros, which count their arguments,
    pick a helper and pack the arguments.  [Module Loop]: the [for]-like macros
    over the kernel's open-coded iterators, with the cleanup attribute.
    [KERNEL_VERSION], [container_of] and the tail call.  Attributes and pragmas
    have no run-time meaning and are left out. *)
From S2P Require Import Prelude CTypes BpfHelperDefs.
#[local] Open Scope string_scope.
#[local] Open Scope list_scope.
#[local] Open Scope Z_scope.

Definition KERNEL_VERSION (a b c : Z) : Z :=
  Z.shiftl a 16 + Z.shiftl b 8 + (if 255 <? c then 255 else c).

(** [container_of(ptr, type, member)], given [offsetof(type, member)]. *)
Definition container_of (ptr offset : Z) : Z := u64! (ptr - offset).

(** The registers the tail call sets, and the helper it calls. *)
Record call_insn := mk_call_insn { ci_regs : list Z; ci_id : Z }.

Definition bpf_tail_call_static (ctx map slot : Z) : call_insn := mk_call_insn [ctx; map; slot] 12.

Inductive libbpf_pin_type := LIBBPF_PIN_NONE | LIBBPF_PIN_BY_NAME.
Inductive libbpf_tristate := TRI_NO | TRI_YES | TRI_MODULE.

Definition libbpf_tristate_value (t : libbpf_tristate) : Z :=
  match t with TRI_NO => 0 | TRI_YES => 1 | TRI_MODULE => 2 end.

Module Printk.

(** A macro argument, a number or macro name of the selection lists, or [_]. *)
Inductive printer := bpf_printk_ | bpf_vprintk_.
Inductive tok (A : Type) := TArg (a : A) | TNum (n : nat) | TName (p : printer) | TPlaceholder.
Arguments TArg {A} a.
Arguments TNum {A} n.
Arguments TName {A} p.
Arguments TPlaceholder {A}.

(** [___bpf_nth(_, _1, ..., _9, _a, _b, _c, N, ...)]: the fourteenth argument. *)
Definition bpf_nth {A} (args : list (tok A)) : option (tok A) := args !! 13%nat.

Definition bpf_narg {A} (args : list A) : option (tok A) :=
  bpf_nth (TPlaceholder :: map TArg args ++ map TNum [12; 11; 10; 9; 8; 7; 6; 5; 4; 3; 2; 1; 0]%nat).

Definition bpf_pick_printk {A} (args : list A) : option (tok A) :=
  bpf_nth (TPlaceholder :: map TArg args ++ replicate 9 (TName bpf_vprintk_) ++ replicate 4 (TName bpf_printk_)).

(** [arr[p] = x] on the array of parameters; out of bounds is [None]. *)
Definition assign (arr : list Z) (p : nat) (x : Z) : option (list Z) :=
  if decide (p < length arr)%nat then Some (<[p := u64! x]> arr) else None.

(** [___bpf_fill0] to [___bpf_fill12]; [None] where no macro of that name exists
    or it is given the wrong number of arguments. *)
Fixpoint bpf_fill_k (k : nat) (arr : list Z) (p : nat) (args : list Z) : option (list Z) :=
  match k, args with
  | O, [] => Some arr
  | S O, [x] => assign arr p x
  | S (S _ as k), x :: args => arr ← assign arr p x; bpf_fill_k k arr (p + 1) args
  | _, _ => None
  end.

Definition bpf_fill (arr args : list Z) : option (list Z) :=
  match bpf_narg args with
  | Some (TNum k) => if decide (k <= 12)%nat then bpf_fill_k k arr 0 args else None
  | _ => None
  end.

(** What the expansion passes to a helper. *)
Inductive carg :=
  | AFormat (fmt : string) | ASize (n : Z) | AValue (z : Z) | AParams (vs : list Z)
  | AOut | ASeq.

Definition carg_type (a : carg) : ctype :=
  match a with
  | AFormat _ => CPtr true (CScalar K_char)
  | ASize _ | AValue _ => CScalar K_u64
  | AParams _ => CPtr false (CScalar K_u64)
  | AOut => CPtr false (CScalar K_char)
  | ASeq => CPtr false (CNamed "seq_file")
  end.

Record call := mk_call { c_helper : helper; c_args : list carg }.

(** [sizeof] of the format array, the terminator included. *)
Definition fmt_size (fmt : string) : Z := Z.of_nat (String.length fmt) + 1.

(** [unsigned long long ___param[n]], filled; [stale] is what the stack held. *)
Definition with_params {C} (stale : nat -> Z) (args : list Z) (k : list Z -> C) : option C :=
  match bpf_narg args with
  | Some (TNum n) => arr ← bpf_fill (map stale (seq 0 n)) args; Some (k arr)
  | _ => None
  end.

Definition sizeof_params (arr : list Z) : Z := 8 * Z.of_nat (length arr).

Section macros.
Variable stale : nat -> Z.

Definition bpf_printk3 (fmt : string) (args : list Z) : option call :=
  Some (mk_call bpf_trace_printk (AFormat fmt :: ASize (fmt_size fmt) :: map AValue args)).

Definition bpf_vprintk (fmt : string) (args : list Z) : option call :=
  with_params stale args (fun arr =>
    mk_call bpf_trace_vprintk [AFormat fmt; ASize (fmt_size fmt); AParams arr; ASize (sizeof_params arr)]).

Definition bpf_printk (fmt : string) (args : list Z) : option call :=
  match bpf_pick_printk args with
  | Some (TName bpf_printk_) => bpf_printk3 fmt args
  | Some (TName bpf_vprintk_) => bpf_vprintk fmt args
  | _ => None
  end.

Definition BPF_SEQ_PRINTF (fmt : string) (args : list Z) : option call :=
  with_params stale args (fun arr =>
    mk_call bpf_seq_printf [ASeq; AFormat fmt; ASize (fmt_size fmt); AParams arr; ASize (sizeof_params arr)]).

Definition BPF_SNPRINTF (out_size : Z) (fmt : string) (args : list Z) : option call :=
  with_params stale args (fun arr =>
    mk_call bpf_snprintf [AOut; ASize out_size; AFormat fmt; AParams arr; ASize (sizeof_params arr)]).

(** The arguments for the kernel function [bpf_stream_vprintk]. *)
Definition bpf_stream_printk (stream_id : Z) (fmt : string) (args : list Z) : option (Z * string * list Z * Z) :=
  with_params stale args (fun arr => (stream_id, fmt, arr, sizeof_params arr)).
End macros.

(** ** Counting and filling *)
Lemma narg_count {A} (args : list A) : (length args <= 12)%nat -> bpf_narg args = Some (TNum (length args)).
Proof.
  intros Hn. unfold bpf_narg, bpf_nth.
  do 13 (destruct args as [|? args]; [reflexivity|]). simpl in Hn. lia.
Qed.

Lemma narg_too_many {A} (args : list A) : (12 < length args)%nat -> exists x, bpf_narg args = Some (TArg x).
Proof.
  intros Hn. unfold bpf_narg, bpf_nth. do 12 (destruct args as [|? args]; [simpl in Hn; lia|]).
  destruct args as [|x args]; [simpl in Hn; lia|]. exists x. reflexivity.
Qed.

Lemma pick_few {A} (args : list A) : (length args <= 12)%nat ->
  bpf_pick_printk args = Some (TName (if decide (length args <= 3)%nat then bpf_printk_ else bpf_vprintk_)).
Proof.
  intros Hn. unfold bpf_pick_printk, bpf_nth.
  do 13 (destruct args as [|? args]; [reflexivity|]). simpl in Hn. lia.
Qed.

Lemma pick_too_many {A} (args : list A) : (12 < length args)%nat -> exists x, bpf_pick_printk args = Some (TArg x).
Proof.
  intros Hn. unfold bpf_pick_printk, bpf_nth. do 12 (destruct args as [|? args]; [simpl in Hn; lia|]).
  destruct args as [|x args]; [simpl in Hn; lia|]. exists x. reflexivity.
Qed.

Lemma assign_app pre stale x rest :
  assign (pre ++ stale :: rest) (length pre) x = Some ((pre ++ [u64! x]) ++ rest).
Proof.
  unfold assign. rewrite decide_True by (rewrite length_app; simpl; lia).
  rewrite <- (Nat.add_0_r (length pre)), insert_app_r, <- app_assoc. done.
Qed.

Lemma fill_k_spec args : forall pre stale, length stale = length args ->
  bpf_fill_k (length args) (pre ++ stale) (length pre) args = Some (pre ++ map (wrapU 64) args).
Proof.
  induction args as [|x args IH]; intros pre stale Hl.
  - destruct stale; [|done]. reflexivity.
  - destruct stale as [|y stale]; [done|]. simpl in Hl. injection Hl as Hl. cbn [length bpf_fill_k].
    destruct args as [|x' args].
    + destruct stale; [|done]. rewrite assign_app. by rewrite app_nil_r.
    + rewrite assign_app. cbn [mbind option_bind length].
      specialize (IH (pre ++ [u64! x]) stale Hl). rewrite length_app in IH. cbn [length] in IH.
      rewrite IH. by rewrite <- app_assoc.
Qed.

Lemma with_params_spec {C} stale args (k : list Z -> C) : (length args <= 12)%nat ->
  with_params stale args k = Some (k (map (wrapU 64) args)).
Proof.
  intros Hn. unfold with_params, bpf_fill. rewrite narg_count, decide_True by done.
  pose proof (fill_k_spec args [] (map stale (seq 0 (length args)))) as H. simpl in H.
  rewrite H by by rewrite length_map, length_seq. done.
Qed.

Lemma with_params_too_many {C} stale args (k : list Z -> C) : (12 < length args)%nat -> with_params stale args k = None.
Proof. intros Hn. unfold with_params. by destruct (narg_too_many args Hn) as [x ->]. Qed.

(** [bpf_stream_printk] packs like the others. *)
Lemma stream_printk_packs stale stream_id fmt args :
  bpf_stream_printk stale stream_id fmt args
  = if decide (length args <= 12)%nat
    then Some (stream_id, fmt, map (wrapU 64) args, 8 * Z.of_nat (length args)) else None.
Proof.
  unfold bpf_stream_printk, sizeof_params. case_decide.
  - rewrite with_params_spec by done. by rewrite length_map.
  - apply with_params_too_many. lia.
Qed.

Definition types_ok (c : call) : bool := call_ok (c_helper c) (map carg_type (c_args c)).

(** C32: the printing macros.  With up to twelve arguments [bpf_printk] calls
    [bpf_trace_printk] with the arguments themselves when there are at most three,
    and otherwise [bpf_trace_vprintk] with an array that holds each of them as 64
    bits and nothing stale; [BPF_SEQ_PRINTF] and [BPF_SNPRINTF] always pack; every
    call fits its helper's prototype and the five registers.  With more than
    twelve arguments none of them expands. *)
Theorem printing_macros stale fmt out_size args :
  let packed := map (wrapU 64) args in
  let tail := [AParams packed; ASize (8 * Z.of_nat (length args))] in
  if decide (length args <= 12)%nat then
    (exists c, bpf_printk stale fmt args = Some c /\ types_ok c = true
       /\ c = if decide (length args <= 3)%nat
              then mk_call bpf_trace_printk (AFormat fmt :: ASize (fmt_size fmt) :: map AValue args)
              else mk_call bpf_trace_vprintk (AFormat fmt :: ASize (fmt_size fmt) :: tail))
    /\ (exists c, BPF_SEQ_PRINTF stale fmt args = Some c /\ types_ok c = true
       /\ c = mk_call bpf_seq_printf (ASeq :: AFormat fmt :: ASize (fmt_size fmt) :: tail))
    /\ (exists c, BPF_SNPRINTF stale out_size fmt args = Some c /\ types_ok c = true
       /\ c = mk_call bpf_snprintf (AOut :: ASize out_size :: AFormat fmt :: tail))
  else bpf_printk stale fmt args = None /\ BPF_SEQ_PRINTF stale fmt args = None
    /\ BPF_SNPRINTF stale out_size fmt args = None.
Proof.
  intros packed tail. case_decide as Hn.
  - unfold bpf_printk, bpf_vprintk, BPF_SEQ_PRINTF, BPF_SNPRINTF, sizeof_params.
    rewrite pick_few by done. rewrite !with_params_spec by done. rewrite !length_map.
    split_and!; [|by eexists|by eexists]. destruct (decide (length args <= 3)%nat) as [H3|H3]; [|by eexists].
    eexists. split; [done|]. split; [|done]. do 4 (destruct args as [|? args]; [reflexivity|]). simpl in H3. lia.
  - unfold bpf_printk, bpf_vprintk, BPF_SEQ_PRINTF, BPF_SNPRINTF.
    rewrite !with_params_too_many by lia. by destruct (pick_too_many args ltac:(lia)) as [x ->].
Qed.
End Printk.

Module Loop.

(** An open-coded iterator of the kernel ([bpf_iter_<type>_new], [_next],
    [_destroy]) over arguments [A], giving elements [E]: its state, and the
    elements it has still to give. *)
Class OpenIter (A E : Type) := {
  iter : Type;
  iter_new : A -> iter -> iter * Z;
  iter_next : iter -> iter * option E;
  iter_destroy : iter -> iter;
  remaining : iter -> list E }.

(** The constructor either succeeds, with the items its arguments stand for, or
    fails and leaves an iterator that gives nothing. *)
Class OpenIterLaws {A E} (I : OpenIter A E) (items : A -> list E) : Prop := {
  iter_new_law a it : let r := iter_new a it in
    remaining (fst r) = if snd r =? 0 then items a else [];
  iter_next_law it : match remaining it with
    | [] => snd (iter_next it) = None
    | x :: xs => snd (iter_next it) = Some x /\ remaining (fst (iter_next it)) = xs
    end }.

(** The number iterator gives the integers from [start] to [end] excluded. *)
Abbreviation IterNum := (OpenIter (Z * Z) Z).
Abbreviation IterNumLaws I := (OpenIterLaws I (fun r => seqZ (fst r) (snd r - fst r))).

(** How a loop body ends. *)
Inductive flow := Continue | Break | Return.

(** The calls of the iterator, as they happen. *)
Inductive iter_call := CallNew | CallNext | CallDestroy.

Section iterators.
Context {A E : Type} `{I : OpenIter A E} {S : Type}.

(** [for (init; cond; ) body] after the initialisation: [cond] steps the iterator
    and may stop the loop; the last component is whether the body returned from
    the enclosing function. *)
Fixpoint for_loop (fuel : nat) (cond : option E -> option E) (body : E -> S -> S * flow)
  (it : iter) (s : S) (log : list iter_call) : option (iter * S * list iter_call * bool) :=
  match fuel with
  | O => None
  | Datatypes.S fuel =>
      let '(it, t) := iter_next it in
      let log := log ++ [CallNext] in
      match cond t with
      | None => Some (it, s, log, false)
      | Some i =>
          match body i s with
          | (s, Continue) => for_loop fuel cond body it s log
          | (s, Break) => Some (it, s, log, false)
          | (s, Return) => Some (it, s, log, true)
          end
      end
  end.

(** The iterator variable of the macros, with its cleanup attribute: it is created
    once, and destroyed when the loop is left, whichever way. *)
Definition with_iter (fuel : nat) (args : A) (cond : option E -> option E) (body : E -> S -> S * flow)
  (stale : iter) (s : S) : option (S * list iter_call * bool) :=
  let it := fst (iter_new args stale) in
  match for_loop fuel cond body it s [CallNew] with
  | None => None
  | Some (it, s, log, ret) => Some (s, log ++ [CallDestroy], ret)
  end.

(** [bpf_for_each(type, cur, args...)]: the test is that [cur] is not null. *)
Definition bpf_for_each (fuel : nat) (args : A) (body : E -> S -> S * flow) (stale : iter) (s : S) :
  option (S * list iter_call * bool) :=
  with_iter fuel args (fun t => t) body stale s.

(** ** The reference: a plain loop over the items *)
Fixpoint each (body : E -> S -> S * flow) (is_ : list E) (s : S) : S * nat * bool :=
  match is_ with
  | [] => (s, 1%nat, false)
  | i :: is_ =>
      match body i s with
      | (s, Continue) => let '(s, n, ret) := each body is_ s in (s, Datatypes.S n, ret)
      | (s, Break) => (s, 1%nat, false)
      | (s, Return) => (s, 1%nat, true)
      end
  end.

Context (items : A -> list E) `{L : !OpenIterLaws I items}.

Lemma for_loop_each cond body is_ : forall it s log fuel,
  remaining it = is_ -> Forall (fun i => cond (Some i) = Some i) is_ -> cond None = None ->
  (length is_ < fuel)%nat ->
  exists it', for_loop fuel cond body it s log
    = Some (it', fst (fst (each body is_ s)), log ++ replicate (snd (fst (each body is_ s))) CallNext,
            snd (each body is_ s)).
Proof.
  induction is_ as [|i is_ IH]; intros it s log fuel Hr Hc Hn Hf; (destruct fuel as [|fuel]; [simpl in Hf; lia|]);
    pose proof (iter_next_law it) as Hnext; rewrite Hr in Hnext; cbn [for_loop each];
    destruct (iter_next it) as [it' t]; simpl in Hnext.
  - subst t. rewrite Hn. by exists it'.
  - destruct Hnext as [-> Hr']. apply Forall_cons in Hc as [Hi Hc]. rewrite Hi.
    destruct (body i s) as [s' []]; [|by exists it'|by exists it'].
    destruct (IH it' s' (log ++ [CallNext]) fuel Hr' Hc Hn) as [it2 ->]; [simpl in Hf; lia|].
    exists it2. destruct (each body is_ s') as [[s2 n] ret]. simpl. by rewrite <- app_assoc.
Qed.

Lemma with_iter_each fuel args cond body stale s :
  let is_ := if snd (iter_new args stale) =? 0 then items args else [] in
  Forall (fun i => cond (Some i) = Some i) (items args) -> cond None = None ->
  (length (items args) < fuel)%nat ->
  with_iter fuel args cond body stale s
  = let '(s', n, ret) := each body is_ s in
    Some (s', CallNew :: replicate n CallNext ++ [CallDestroy], ret).
Proof.
  intros is_ Hc Hn Hf. unfold with_iter. pose proof (iter_new_law args stale) as Hr. cbv zeta in Hr.
  destruct (for_loop_each cond body is_ (fst (iter_new args stale)) s [CallNew] fuel Hr) as [it' ->].
  - unfold is_. case_match; [done|constructor].
  - done.
  - unfold is_. case_match; [done|simpl; lia].
  - by destruct (each body is_ s) as [[s' n] ret].
Qed.

(** [bpf_for_each] runs its body on every item in order. *)
Lemma for_each_runs_items fuel args body stale s : (length (items args) < fuel)%nat ->
  bpf_for_each fuel args body stale s
  = let '(s', n, ret) := each body (if snd (iter_new args stale) =? 0 then items args else []) s in
    Some (s', CallNew :: replicate n CallNext ++ [CallDestroy], ret).
Proof. intros Hf. apply with_iter_each; [by apply Forall_true|done|done]. Qed.
End iterators.

Section loops.
Context `{I : IterNum} {S : Type}.

(** [(___t && ((i) = *___t, (i) >= (start) && (i) < (end)))] *)
Definition bpf_for_cond (start end_ : Z) (t : option Z) : option Z :=
  match t with
  | Some i => if (start <=? i) && (i <? end_) then Some i else None
  | None => None
  end.

Definition bpf_for (fuel : nat) (start end_ : Z) (body : Z -> S -> S * flow) (stale : iter) (s : S) :
  option (S * list iter_call * bool) :=
  with_iter fuel (start, end_) (bpf_for_cond start end_) body stale s.

(** The body of [bpf_repeat] does not see the number. *)
Definition bpf_repeat (fuel : nat) (n : Z) (body : S -> S * flow) (stale : iter) (s : S) :
  option (S * list iter_call * bool) :=
  with_iter fuel (0, n) (fun t => t) (fun _ => body) stale s.

Context `{L : !IterNumLaws I}.

(** C33: the loops mean what they say.  [bpf_for(i, start, end)] runs its body for
    [start], [start + 1], up to [end] excluded, in order, until the body breaks or
    returns, and [bpf_repeat(n)] runs its body [n] times; the iterator is created
    once, stepped once per test, and destroyed exactly once, at the end, also when
    the body breaks or returns.  If the kernel refuses the range the body never
    runs.  One test more than there are integers is fuel enough. *)
Theorem loops_run_their_range fuel start end_ body (body' : S -> S * flow) stale s :
  (Z.to_nat (end_ - start) < fuel)%nat ->
  let range lo hi := if snd (iter_new (lo, hi) stale) =? 0 then seqZ lo (hi - lo) else [] in
  bpf_for fuel start end_ body stale s
    = (let '(s', n, ret) := each body (range start end_) s in
       Some (s', CallNew :: replicate n CallNext ++ [CallDestroy], ret))
  /\ ((Z.to_nat end_ < fuel)%nat ->
      bpf_repeat fuel end_ body' stale s
      = (let '(s', n, ret) := each (fun _ => body') (range 0 end_) s in
         Some (s', CallNew :: replicate n CallNext ++ [CallDestroy], ret))).
Proof.
  intros Hf range. split.
  - apply (with_iter_each (fun r => seqZ (fst r) (snd r - fst r)) fuel (start, end_)); [|done|by rewrite length_seqZ].
    apply Forall_forall. intros i Hi%elem_of_seqZ. simpl in Hi.
    unfold bpf_for_cond. by rewrite (proj2 (Z.leb_le _ _)), (proj2 (Z.ltb_lt _ _)) by lia.
  - intros Hf'. apply (with_iter_each (fun r => seqZ (fst r) (snd r - fst r)) fuel (0, end_)); [by apply Forall_true|done|].
    by rewrite length_seqZ, Z.sub_0_r.
Qed.
End loops.

(** ** Witness: an iterator that counts, and refuses empty or huge ranges *)
#[local] Instance counter : IterNum := {
  iter := Z * Z;
  iter_new r _ := let '(start, end_) := r in
    if (end_ <? start) || (2 ^ 23 <? end_ - start) then ((0, 0), -22) else ((start, end_), 0);
  iter_next it := if fst it <? snd it then ((fst it + 1, snd it), Some (fst it)) else (it, None);
  iter_destroy _ := (0, 0);
  remaining it := seqZ (fst it) (snd it - fst it) }.

#[local] Instance counter_laws : IterNumLaws counter.
Proof.
  constructor; simpl.
  - intros [start end_] it. simpl. by destruct ((end_ <? start) || (2 ^ 23 <? end_ - start)).
  - intros [lo hi]. simpl. destruct (Z.ltb_spec lo hi).
    + rewrite seqZ_cons by lia. simpl. split; [done|]. f_equal; lia.
    + by rewrite seqZ_nil by lia.
Qed.

(** Summing until 3 is met: 0, 1, 2. *)
Definition sum_body (i : Z) (s : Z) : Z * flow := if i =? 3 then (s, Break) else (s + i, Continue).

Lemma loops_run_their_range_witness :
  bpf_for 11 0 10 sum_body (0, 0) 0
  = Some (3, [CallNew; CallNext; CallNext; CallNext; CallNext; CallDestroy], false).
Proof.
  exact (proj1 (loops_run_their_range 11 0 10 sum_body (fun s => (s, Continue)) (0, 0) 0 ltac:(simpl; lia))).
Defined.
End Loop.

(** Kernel versions compare as they should: for patch levels and minor versions
    that fit a byte (larger patch levels count as 255), [KERNEL_VERSION] orders
    versions lexicographically. *)
Theorem kernel_version_order a b c a' b' c' :
  0 <= b < 256 -> 0 <= b' < 256 -> 0 <= c -> 0 <= c' ->
  KERNEL_VERSION a b c <= KERNEL_VERSION a' b' c'
  <-> a < a' \/ a = a' /\ (b < b' \/ b = b' /\ Z.min c 255 <= Z.min c' 255).
Proof.
  intros. unfold KERNEL_VERSION. rewrite !Z.shiftl_mul_pow2 by lia.
  destruct (Z.ltb_spec 255 c), (Z.ltb_spec 255 c'); lia.
Qed.

Lemma kernel_version_order_witness : KERNEL_VERSION 5 4 300 <= KERNEL_VERSION 5 10 0.
Proof. apply (kernel_version_order 5 4 300 5 10 0); lia. Defined.

(** The tail call's number and registers are those of the helper table. *)
Lemma tail_call_is_helper ctx map slot :
  helper_of_id (ci_id (bpf_tail_call_static ctx map slot)) = Some bpf_tail_call
  /\ length (ci_regs (bpf_tail_call_static ctx map slot)) = length (h_params bpf_tail_call).
Proof. split; vm_compute; reflexivity. Qed.

Lemma container_of_member ptr offset : inU 64 ptr -> container_of (u64! (ptr + offset)) offset = ptr.
Proof.
  intros Hp. unfold container_of, wrapU in *. rewrite Zminus_mod_idemp_l.
  replace (ptr + offset - offset) with ptr by lia. by apply Z.mod_small.
Qed.
