(* ===== verification/Bits.v ===== *)
(** * Bit-level lemmas on machine integers

    [wrapU] and [wrapS] bit by bit, and [bitwise], a tactic that proves
    equalities of shift, mask and wrap expressions by comparing their bits. *)
From S2P Require Import Prelude.

Lemma testbit_wrapU w z i :
  0 <= w -> 0 <= i -> Z.testbit (wrapU w z) i = (i <? w) && Z.testbit z i.
Proof.
  intros Hw Hi. unfold wrapU. destruct (Z.ltb_spec i w).
  - by rewrite Z.mod_pow2_bits_low by lia.
  - by rewrite Z.mod_pow2_bits_high by lia.
Qed.

(** In a signed range all bits from the sign bit on are equal. *)
Lemma testbit_sign w x i j :
  0 < w -> inS w x -> w - 1 <= i -> w - 1 <= j -> Z.testbit x i = Z.testbit x j.
Proof.
  intros Hw Hx Hi Hj.
  assert (forall k, w - 1 <= k -> Z.testbit x k = (x <? 0)) as Hk; [|by rewrite !Hk].
  intros k Hk. rewrite Z.testbit_odd, Z.shiftr_div_pow2 by lia.
  pose proof (Z.pow_le_mono_r 2 (w - 1) k ltac:(lia) Hk). unfold inS in Hx.
  destruct (Z.ltb_spec x 0).
  - replace (x / 2 ^ k) with (-1); [done|].
    apply Z.div_unique with (r := x + 2 ^ k); lia.
  - by rewrite Z.div_small by lia.
Qed.

Lemma testbit_wrapS w z i :
  0 < w -> 0 <= i ->
  Z.testbit (wrapS w z) i = Z.testbit z (if i <? w then i else w - 1).
Proof.
  intros Hw Hi.
  assert (forall j, 0 <= j < w -> Z.testbit (wrapS w z) j = Z.testbit z j) as Hlow.
  { intros j Hj. pose proof (testbit_wrapU w (wrapS w z) j ltac:(lia) ltac:(lia)) as H1.
    pose proof (testbit_wrapU w z j ltac:(lia) ltac:(lia)) as H2.
    rewrite wrapU_wrapS in H1 by done. rewrite H1 in H2.
    replace (j <? w) with true in H2 by lia. by simpl in H2. }
  destruct (Z.ltb_spec i w); [apply Hlow; lia|].
  rewrite (testbit_sign w _ i (w - 1)); try lia; [apply Hlow; lia | by apply wrapS_range].
Qed.

Lemma testbit_ones_u64 i : 0 <= i -> Z.testbit (2 ^ 64 - 1) i = (i <? 64).
Proof.
  intros. change (2 ^ 64 - 1) with (Z.ones 64).
  destruct (Z.ltb_spec i 64); [by rewrite Z.ones_spec_low by lia | by rewrite Z.ones_spec_high by lia].
Qed.

Lemma testbit_ones w i : 0 <= w -> 0 <= i -> Z.testbit (Z.ones w) i = (i <? w).
Proof.
  intros. destruct (Z.ltb_spec i w);
    [by rewrite Z.ones_spec_low by lia | by rewrite Z.ones_spec_high by lia].
Qed.

Lemma testbit_shiftr a n i : 0 <= i -> Z.testbit (Z.shiftr a n) i = Z.testbit a (i + n).
Proof. apply Z.shiftr_spec. Qed.

Lemma testbit_shiftl a n i : 0 <= i -> Z.testbit (Z.shiftl a n) i = Z.testbit a (i - n).
Proof. apply Z.shiftl_spec. Qed.

(** Decide every comparison of indices left in the goal. *)
Ltac index_cases :=
  repeat (cbn [andb orb negb];
    first
      [ match goal with |- context [?a <? ?b] => destruct (Z.ltb_spec a b); try lia end
      | match goal with |- context [Z.testbit ?x ?i] =>
          rewrite (Z.testbit_neg_r x i) by lia end ]).

(** One rewriting pass over the bits; [testbit_*] lemmas need [0 <= index]. *)
Ltac bit_rewrite :=
  repeat first
    [ rewrite Z.lor_spec | rewrite Z.land_spec | rewrite Z.ldiff_spec
    | rewrite Z.lnot_spec by lia
    | rewrite testbit_wrapU by lia | rewrite testbit_wrapS by lia
    | rewrite testbit_ones_u64 by lia | rewrite testbit_ones by lia
    | rewrite testbit_shiftr by lia | rewrite testbit_shiftl by lia ].

(** Split on the sign of a bit index that is not settled yet. *)
Ltac index_sign :=
  match goal with |- context [Z.testbit ?x ?j] =>
    assert_fails (assert (0 <= j) by lia); assert_fails (assert (j < 0) by lia);
    destruct (Z.lt_ge_cases j 0) end.

Ltac bitwise :=
  apply Z.bits_inj'; intros ?i ?Hi;
  repeat (bit_rewrite; index_cases; try index_sign);
  cbn [andb orb negb];
  rewrite ?andb_true_r, ?andb_false_r, ?orb_false_r, ?andb_true_l, ?orb_false_l;
  try reflexivity; try (repeat f_equal; lia).
