(* ===== verification/BpfCoreRead.v ===== *)
(** * CO-RE reads ([pkg/ebpf/headers/bpf/bpf_core_read.h])

    [Module Bitfield]: reading and writing a bitfield through its relocation
    values, on either byte order, with direct loads or with
    [bpf_probe_read_kernel].
    [Module Chase]: the variadic macros that turn [BPF_CORE_READ(s, a, b, c)]
    into one probe read per accessor.
    Relocation values and accessor offsets come from libbpf, which matches the
    program's BTF against the kernel's; they are inputs here, and [relo_ok] says
    what a relocation of a bitfield of [width] bits at bit [pos] is. *)
From S2P Require Import Prelude Bits.

Module Bitfield.

(** The constants passed to the relocation built-ins. *)
Inductive bpf_field_info_kind :=
  | BPF_FIELD_BYTE_OFFSET | BPF_FIELD_BYTE_SIZE | BPF_FIELD_EXISTS
  | BPF_FIELD_SIGNED | BPF_FIELD_LSHIFT_U64 | BPF_FIELD_RSHIFT_U64.

Definition bpf_field_info_kind_value (k : bpf_field_info_kind) : Z :=
  match k with
  | BPF_FIELD_BYTE_OFFSET => 0 | BPF_FIELD_BYTE_SIZE => 1 | BPF_FIELD_EXISTS => 2
  | BPF_FIELD_SIGNED => 3 | BPF_FIELD_LSHIFT_U64 => 4 | BPF_FIELD_RSHIFT_U64 => 5
  end.

Inductive bpf_type_id_kind := BPF_TYPE_ID_LOCAL | BPF_TYPE_ID_TARGET.

Definition bpf_type_id_kind_value (k : bpf_type_id_kind) : Z :=
  match k with BPF_TYPE_ID_LOCAL => 0 | BPF_TYPE_ID_TARGET => 1 end.

Inductive bpf_type_info_kind := BPF_TYPE_EXISTS | BPF_TYPE_SIZE | BPF_TYPE_MATCHES.

Definition bpf_type_info_kind_value (k : bpf_type_info_kind) : Z :=
  match k with BPF_TYPE_EXISTS => 0 | BPF_TYPE_SIZE => 1 | BPF_TYPE_MATCHES => 2 end.

Inductive bpf_enum_value_kind := BPF_ENUMVAL_EXISTS | BPF_ENUMVAL_VALUE.

Definition bpf_enum_value_kind_value (k : bpf_enum_value_kind) : Z :=
  match k with BPF_ENUMVAL_EXISTS => 0 | BPF_ENUMVAL_VALUE => 1 end.

(** [__builtin_preserve_field_info((src)->field, kind)], resolved at load. *)
Definition field_relo : Type := bpf_field_info_kind -> Z.

Definition CORE_RELO (relo : field_relo) (info : bpf_field_info_kind) : Z := relo info.

(** ** Memory: bytes by address; loads and stores in the target's byte order *)
Inductive endian := LittleEndian | BigEndian.

Definition mem := Z -> Z.

Definition load_bytes (m : mem) (p : Z) (n : nat) : list Z :=
  map (fun i => m (p + Z.of_nat i)) (seq 0 n).

Definition native_val (e : endian) (bs : list Z) : Z :=
  match e with LittleEndian => le_val bs | BigEndian => le_val (reverse bs) end.

Definition native_bytes (e : endian) (n : nat) (v : Z) : list Z :=
  match e with LittleEndian => le_bytes n v | BigEndian => reverse (le_bytes n v) end.

Definition load (e : endian) (m : mem) (p : Z) (n : nat) : Z := native_val e (load_bytes m p n).

Definition store (e : endian) (m : mem) (p : Z) (n : nat) (v : Z) : mem :=
  fun a => match native_bytes e n v !! Z.to_nat (a - p) with
           | Some b => if decide (p <= a) then b else m a
           | None => m a
           end.

(** ** The macros *)
Section macros.
Variable e : endian.
(** [bpf_probe_read_kernel(dst, size, src)]: the bytes left in [dst], and the
    return value. *)
Variable probe_read_kernel : mem -> Z -> Z -> list Z * Z.

Definition CORE_BITFIELD_PROBE_READ (m : mem) (s : Z) (relo : field_relo) : Z :=
  let size := CORE_RELO relo BPF_FIELD_BYTE_SIZE in
  let dst := replicate 8 0 in                      (* unsigned long long val = 0; *)
  let off := match e with LittleEndian => 0 | BigEndian => 8 - size end in
  let bs := fst (probe_read_kernel m (s + CORE_RELO relo BPF_FIELD_BYTE_OFFSET) size) in
  native_val e (put_bytes (Z.to_nat off) bs dst).

(** The shifts both read macros end with; [>>] on [long long] is arithmetic. *)
Definition extract (relo : field_relo) (val : Z) : Z :=
  let val := u64! (Z.shiftl val (CORE_RELO relo BPF_FIELD_LSHIFT_U64)) in
  if decide (CORE_RELO relo BPF_FIELD_SIGNED <> 0)
  then u64! (Z.shiftr (i64! val) (CORE_RELO relo BPF_FIELD_RSHIFT_U64))
  else Z.shiftr val (CORE_RELO relo BPF_FIELD_RSHIFT_U64).

Definition BPF_CORE_READ_BITFIELD_PROBED (m : mem) (s : Z) (relo : field_relo) : Z :=
  extract relo (CORE_BITFIELD_PROBE_READ m s relo).

Definition BPF_CORE_READ_BITFIELD (m : mem) (s : Z) (relo : field_relo) : Z :=
  let p := s + CORE_RELO relo BPF_FIELD_BYTE_OFFSET in
  let size := CORE_RELO relo BPF_FIELD_BYTE_SIZE in
  let val :=
    if decide (size = 1) then load e m p 1
    else if decide (size = 2) then load e m p 2
    else if decide (size = 4) then load e m p 4
    else if decide (size = 8) then load e m p 8
    else 0 in
  extract relo val.

(** A storage size outside 1, 2, 4, 8 matches no case of either switch: [val]
    stays unset and nothing is stored. *)
Definition BPF_CORE_WRITE_BITFIELD (m : mem) (s : Z) (relo : field_relo) (new_val : Z) : mem :=
  let p := s + CORE_RELO relo BPF_FIELD_BYTE_OFFSET in
  let byte_size := CORE_RELO relo BPF_FIELD_BYTE_SIZE in
  let lshift := CORE_RELO relo BPF_FIELD_LSHIFT_U64 in
  let rshift := CORE_RELO relo BPF_FIELD_RSHIFT_U64 in
  let nval := u64! new_val in
  let rpad := u32! (rshift - lshift) in
  let mask := Z.shiftr (u64! (Z.shiftl (2 ^ 64 - 1) rshift)) lshift in
  let merge val := Z.lor (Z.ldiff val mask) (Z.land (u64! (Z.shiftl nval rpad)) mask) in
  if decide (byte_size = 1) then store e m p 1 (merge (load e m p 1))
  else if decide (byte_size = 2) then store e m p 2 (merge (load e m p 2))
  else if decide (byte_size = 4) then store e m p 4 (merge (load e m p 4))
  else if decide (byte_size = 8) then store e m p 8 (merge (load e m p 8))
  else m.
End macros.

(** ** The specification: bits [pos, pos + width) of the storage unit *)
Record relo_ok (relo : field_relo) (pos width : Z) (size : nat) : Prop := {
  ro_size : size ∈ [1; 2; 4; 8]%nat;
  ro_byte_size : relo BPF_FIELD_BYTE_SIZE = Z.of_nat size;
  ro_width : 0 < width;
  ro_pos : 0 <= pos;
  ro_inside : pos + width <= 8 * Z.of_nat size;
  ro_lshift : relo BPF_FIELD_LSHIFT_U64 = 64 - (pos + width);
  ro_rshift : relo BPF_FIELD_RSHIFT_U64 = 64 - width
}.

Definition field_bits (pos width v : Z) : Z := wrapU width (Z.shiftr v pos).

Definition field_value (relo : field_relo) (pos width v : Z) : Z :=
  if decide (relo BPF_FIELD_SIGNED <> 0)
  then u64! (wrapS width (field_bits pos width v)) else field_bits pos width v.

(** The storage with the field's bits replaced by the low bits of [x]. *)
Definition field_update (pos width x v : Z) : Z :=
  Z.lor (Z.ldiff v (Z.shiftl (Z.ones width) pos)) (Z.shiftl (wrapU width x) pos).

Definition storage (e : endian) (m : mem) (s : Z) (relo : field_relo) (size : nat) : Z :=
  load e m (s + relo BPF_FIELD_BYTE_OFFSET) size.

(** ** Lemmas *)

Lemma relo_sizes relo pos width size :
  relo_ok relo pos width size ->
  (size = 1 \/ size = 2 \/ size = 4 \/ size = 8)%nat /\ pos + width <= 64.
Proof. intros [Hs _ _ _ Hin _ _]. set_unfold in Hs. lia. Qed.

Lemma wrapS_field_bits pos width v :
  0 < width -> 0 <= pos -> wrapS width (field_bits pos width v) = wrapS width (Z.shiftr v pos).
Proof. intros. unfold field_bits. by rewrite wrapS_wrapU. Qed.

Lemma extract_spec relo pos width size v :
  relo_ok relo pos width size -> extract relo v = field_value relo pos width v.
Proof.
  intros Hrelo. pose proof (proj2 (relo_sizes _ _ _ _ Hrelo)).
  destruct Hrelo as [_ _ Hw Hp _ Hl Hr]. unfold extract, field_value, CORE_RELO. rewrite Hl, Hr.
  case_decide.
  - rewrite wrapS_field_bits by lia. rewrite wrapS_wrapU by lia. bitwise.
  - unfold field_bits. bitwise.
Qed.

Lemma merge_spec relo pos width size v x :
  relo_ok relo pos width size ->
  let lshift := relo BPF_FIELD_LSHIFT_U64 in
  let rshift := relo BPF_FIELD_RSHIFT_U64 in
  let mask := Z.shiftr (u64! (Z.shiftl (2 ^ 64 - 1) rshift)) lshift in
  Z.lor (Z.ldiff v mask) (Z.land (u64! (Z.shiftl (u64! x) (u32! (rshift - lshift)))) mask)
  = field_update pos width x v.
Proof.
  intros Hrelo. pose proof (proj2 (relo_sizes _ _ _ _ Hrelo)).
  destruct Hrelo as [_ _ Hw Hp _ Hl Hr]. cbv zeta. rewrite Hl, Hr.
  replace (u32! (64 - width - (64 - (pos + width)))) with pos
    by (rewrite wrapU_id; [lia | unfold inU; lia]).
  unfold field_update. bitwise.
Qed.

(** ** Memory lemmas *)

Definition mem_ok (m : mem) : Prop := forall a, is_byte (m a).

Lemma length_load_bytes m p n : length (load_bytes m p n) = n.
Proof. unfold load_bytes. by rewrite length_map, length_seq. Qed.

Lemma load_bytes_lookup m p n i :
  (i < n)%nat -> load_bytes m p n !! i = Some (m (p + Z.of_nat i)).
Proof.
  intros. unfold load_bytes.
  change (map ?f (seq 0 n)) with (f <$> seq 0 n).
  by rewrite list_lookup_fmap, lookup_seq_lt by done.
Qed.

Lemma load_bytes_ok m p n : mem_ok m -> Forall is_byte (load_bytes m p n).
Proof.
  intros Hm. unfold load_bytes. apply Forall_forall. intros b Hb.
  apply list_elem_of_In, in_map_iff in Hb as (i & <- & _). apply Hm.
Qed.

Lemma length_native_bytes e n v : length (native_bytes e n v) = n.
Proof. destruct e; simpl; rewrite ?length_reverse; apply length_le_bytes. Qed.

Lemma native_val_bytes e n v : native_val e (native_bytes e n v) = v mod 256 ^ Z.of_nat n.
Proof. destruct e; simpl; rewrite ?reverse_involutive; apply le_val_bytes. Qed.

Lemma native_val_range e bs :
  Forall is_byte bs -> 0 <= native_val e bs < 256 ^ Z.of_nat (length bs).
Proof.
  intros. destruct e; simpl; [by apply le_val_range|].
  rewrite <- length_reverse. apply le_val_range. by apply Forall_reverse.
Qed.

Lemma load_range e m p n : mem_ok m -> 0 <= load e m p n < 256 ^ Z.of_nat n.
Proof.
  intros Hm. pose proof (native_val_range e _ (load_bytes_ok m p n Hm)) as H.
  by rewrite length_load_bytes in H.
Qed.

Lemma load_bytes_store e m p n v :
  load_bytes (store e m p n v) p n = native_bytes e n v.
Proof.
  apply list_eq_same_length with (n := n);
    [by rewrite length_native_bytes | by rewrite length_load_bytes |].
  intros i x y Hi Hx Hy. rewrite load_bytes_lookup in Hx by done. simplify_eq.
  unfold store. replace (Z.to_nat (p + Z.of_nat i - p)) with i by lia.
  rewrite Hy. rewrite decide_True by lia. done.
Qed.

Lemma load_store e m p n v : load e (store e m p n v) p n = v mod 256 ^ Z.of_nat n.
Proof. unfold load. rewrite load_bytes_store. apply native_val_bytes. Qed.

Lemma store_outside e m p n v a :
  a < p \/ p + Z.of_nat n <= a -> store e m p n v a = m a.
Proof.
  intros Ha. unfold store. destruct (native_bytes e n v !! Z.to_nat (a - p)) eqn:E; [|done].
  apply lookup_lt_Some in E. rewrite length_native_bytes in E.
  rewrite decide_False by lia. done.
Qed.

Lemma pow256 (n : nat) : 256 ^ Z.of_nat n = 2 ^ (8 * Z.of_nat n).
Proof. rewrite Z.pow_mul_r by lia. reflexivity. Qed.

Lemma field_update_bound pos width x v n :
  0 <= pos -> 0 < width -> pos + width <= n -> 0 <= v < 2 ^ n ->
  field_update pos width x v mod 2 ^ n = field_update pos width x v.
Proof.
  intros Hp Hw Hn Hv. change (?a mod 2 ^ n) with (wrapU n a).
  rewrite <- (wrapU_id n v) by done. unfold field_update. bitwise.
Qed.

(** Replacing a field and reading it back; reading another field. *)
Lemma field_bits_update pos width x v :
  0 <= pos -> 0 < width -> field_bits pos width (field_update pos width x v) = wrapU width x.
Proof. intros. unfold field_bits, field_update. bitwise. Qed.

Lemma field_bits_update_ne pos width x v pos' width' :
  0 <= pos -> 0 < width -> 0 <= pos' -> 0 < width' ->
  pos + width <= pos' \/ pos' + width' <= pos ->
  field_bits pos' width' (field_update pos width x v) = field_bits pos' width' v.
Proof. intros ? ? ? ? [?|?]; unfold field_bits, field_update; bitwise. Qed.

(** ** Correctness *)
Section correctness.
Variable e : endian.
Variables (relo : field_relo) (pos width : Z) (size : nat).
Hypothesis relo_is : relo_ok relo pos width size.

Lemma read_bitfield_value m s :
  BPF_CORE_READ_BITFIELD e m s relo = field_value relo pos width (storage e m s relo size).
Proof using relo_is.
  unfold BPF_CORE_READ_BITFIELD. rewrite (extract_spec relo pos width size) by done.
  f_equal. destruct (relo_sizes _ _ _ _ relo_is) as [Hs _].
  unfold CORE_RELO. rewrite (ro_byte_size _ _ _ _ relo_is). unfold storage.
  destruct Hs as [-> | [-> | [-> | ->]]]; reflexivity.
Qed.

(** The direct read of a bitfield gives the [width] bits at [pos] of the
    storage unit, sign-extended to 64 bits when the field is signed, on
    either byte order. *)
Theorem read_bitfield_correct m s :
  BPF_CORE_READ_BITFIELD e m s relo
  = let v := wrapU width (Z.shiftr (storage e m s relo size) pos) in
    if decide (relo BPF_FIELD_SIGNED <> 0) then u64! (wrapS width v) else v.
Proof using relo_is. apply read_bitfield_value. Qed.

(** C25: reading through [bpf_probe_read_kernel] gives the same value as the
    direct loads whenever the probe copied the storage unit. *)
Theorem read_bitfield_probed_agrees probe m s :
  mem_ok m ->
  fst (probe m (s + relo BPF_FIELD_BYTE_OFFSET) (Z.of_nat size))
    = load_bytes m (s + relo BPF_FIELD_BYTE_OFFSET) size ->
  BPF_CORE_READ_BITFIELD_PROBED e probe m s relo = BPF_CORE_READ_BITFIELD e m s relo.
Proof using relo_is.
  intros Hm Hp. rewrite read_bitfield_value. unfold BPF_CORE_READ_BITFIELD_PROBED.
  rewrite (extract_spec relo pos width size) by done. f_equal.
  unfold CORE_BITFIELD_PROBE_READ, CORE_RELO, storage, load.
  rewrite (ro_byte_size _ _ _ _ relo_is), Hp.
  set (bs := load_bytes m _ size).
  assert (length bs = size) as Hl by apply length_load_bytes.
  destruct (relo_sizes _ _ _ _ relo_is) as [Hs _]. clearbody bs. clear Hp.
  destruct Hs as [Hs | [Hs | [Hs | Hs]]]; rewrite Hs in *;
    repeat (destruct bs as [|? bs]; try discriminate); destruct e; simpl; lia.
Qed.

Lemma write_bitfield_storage m s x :
  BPF_CORE_WRITE_BITFIELD e m s relo x
  = store e m (s + relo BPF_FIELD_BYTE_OFFSET) size
      (field_update pos width x (storage e m s relo size)).
Proof using relo_is.
  unfold BPF_CORE_WRITE_BITFIELD, CORE_RELO.
  rewrite !(merge_spec relo pos width size) by done.
  destruct (relo_sizes _ _ _ _ relo_is) as [Hs _].
  rewrite (ro_byte_size _ _ _ _ relo_is). unfold storage.
  destruct Hs as [-> | [-> | [-> | ->]]]; reflexivity.
Qed.

Lemma storage_after_write m s x :
  mem_ok m ->
  storage e (BPF_CORE_WRITE_BITFIELD e m s relo x) s relo size
  = field_update pos width x (storage e m s relo size).
Proof using relo_is.
  intros Hm. rewrite write_bitfield_storage. unfold storage at 1. rewrite load_store, pow256.
  destruct relo_is. apply field_update_bound; try done.
  rewrite <- pow256. by apply load_range.
Qed.

(** C24: writing a bitfield and reading it back gives the value written,
    truncated to the field's width (and sign-extended when signed). *)
Theorem write_read_bitfield m s x :
  mem_ok m ->
  BPF_CORE_READ_BITFIELD e (BPF_CORE_WRITE_BITFIELD e m s relo x) s relo
  = if decide (relo BPF_FIELD_SIGNED <> 0) then u64! (wrapS width x) else wrapU width x.
Proof using relo_is.
  intros Hm. rewrite read_bitfield_value, storage_after_write by done.
  unfold field_value. destruct relo_is. rewrite field_bits_update by done.
  case_decide; [by rewrite wrapS_wrapU | done].
Qed.

(** A write changes only its own bits: bytes outside the storage unit are
    untouched, and any disjoint field of the same unit keeps its value. *)
Theorem write_bitfield_frame m s x :
  mem_ok m ->
  (forall a, a < s + relo BPF_FIELD_BYTE_OFFSET
             \/ s + relo BPF_FIELD_BYTE_OFFSET + Z.of_nat size <= a ->
     BPF_CORE_WRITE_BITFIELD e m s relo x a = m a)
  /\ (forall relo' pos' width',
        relo_ok relo' pos' width' size ->
        relo' BPF_FIELD_BYTE_OFFSET = relo BPF_FIELD_BYTE_OFFSET ->
        pos + width <= pos' \/ pos' + width' <= pos ->
        BPF_CORE_READ_BITFIELD e (BPF_CORE_WRITE_BITFIELD e m s relo x) s relo'
        = BPF_CORE_READ_BITFIELD e m s relo').
Proof using relo_is.
  intros Hm. split.
  - intros a Ha. rewrite write_bitfield_storage. by apply store_outside.
  - intros relo' pos' width' Hr' Hoff Hdis.
    assert (forall m', BPF_CORE_READ_BITFIELD e m' s relo'
      = field_value relo' pos' width' (storage e m' s relo size)) as Hread.
    { intros m'. unfold BPF_CORE_READ_BITFIELD. rewrite (extract_spec relo' pos' width' size) by done.
      f_equal. unfold CORE_RELO, storage. rewrite (ro_byte_size _ _ _ _ Hr'), Hoff.
      destruct (relo_sizes _ _ _ _ Hr') as [Hs _].
      destruct Hs as [-> | [-> | [-> | ->]]]; reflexivity. }
    rewrite !Hread, storage_after_write by done. unfold field_value.
    destruct relo_is, Hr'. by rewrite field_bits_update_ne.
Qed.
End correctness.
End Bitfield.

(** ** Witnesses: a signed 5-bit field at bit 9 of a 2-byte unit *)
Module BitfieldExample.
Import Bitfield.

Definition relo5 : field_relo := fun k =>
  match k with
  | BPF_FIELD_BYTE_OFFSET => 4 | BPF_FIELD_BYTE_SIZE => 2 | BPF_FIELD_EXISTS => 1
  | BPF_FIELD_SIGNED => 1 | BPF_FIELD_LSHIFT_U64 => 50 | BPF_FIELD_RSHIFT_U64 => 59
  end.

(** An unsigned 9-bit field at bit 0 of the same unit. *)
Definition relo9 : field_relo := fun k =>
  match k with
  | BPF_FIELD_BYTE_OFFSET => 4 | BPF_FIELD_BYTE_SIZE => 2 | BPF_FIELD_EXISTS => 1
  | BPF_FIELD_SIGNED => 0 | BPF_FIELD_LSHIFT_U64 => 55 | BPF_FIELD_RSHIFT_U64 => 55
  end.

Definition mem0 : mem := fun a => a mod 256.
Definition probe0 (m : mem) (src size : Z) : list Z * Z :=
  (load_bytes m src (Z.to_nat size), 0).

Lemma relo5_ok : relo_ok relo5 9 5 2.
Proof. split; try reflexivity; try lia; set_solver. Qed.
Lemma relo9_ok : relo_ok relo9 0 9 2.
Proof. split; try reflexivity; try lia; set_solver. Qed.
Lemma mem0_ok : mem_ok mem0.
Proof. intros a. apply Z.mod_pos_bound. lia. Qed.

Lemma read_bitfield_correct_witness :
  BPF_CORE_READ_BITFIELD BigEndian mem0 58 relo5
  = u64! (wrapS 5 (wrapU 5 (Z.shiftr (62 * 256 + 63) 9))).
Proof. exact (read_bitfield_correct BigEndian relo5 9 5 2 relo5_ok mem0 58). Defined.

Lemma read_bitfield_probed_agrees_witness :
  BPF_CORE_READ_BITFIELD_PROBED BigEndian probe0 mem0 58 relo5
  = BPF_CORE_READ_BITFIELD BigEndian mem0 58 relo5.
Proof.
  apply (read_bitfield_probed_agrees BigEndian relo5 9 5 2 relo5_ok);
    [exact mem0_ok | reflexivity].
Defined.

Lemma write_read_bitfield_witness :
  BPF_CORE_READ_BITFIELD LittleEndian
    (BPF_CORE_WRITE_BITFIELD LittleEndian mem0 58 relo5 29) 58 relo5 = 2 ^ 64 - 3.
Proof. exact (write_read_bitfield LittleEndian relo5 9 5 2 relo5_ok mem0 58 29 mem0_ok). Defined.

Lemma write_bitfield_frame_witness :
  BPF_CORE_READ_BITFIELD LittleEndian
    (BPF_CORE_WRITE_BITFIELD LittleEndian mem0 58 relo5 29) 58 relo9
  = BPF_CORE_READ_BITFIELD LittleEndian mem0 58 relo9.
Proof.
  apply (proj2 (write_bitfield_frame LittleEndian relo5 9 5 2 relo5_ok mem0 58 29 mem0_ok)
    relo9 0 9 relo9_ok); [reflexivity | lia].
Defined.
End BitfieldExample.

Module Chase.

(** ** Counting and selecting macro arguments

    A macro argument is an accessor, the digits and letters the counting macros
    append, or the placeholder [_]. *)
Inductive tok (A : Type) := TArg (a : A) | TNum (n : nat) | TN | TPlaceholder.
Arguments TArg {A} a.
Arguments TNum {A} n.
Arguments TN {A}.
Arguments TPlaceholder {A}.

(** [___nth(_1, ..., _10, __11, N, ...)]: the twelfth argument. *)
Definition nth_ {A} (args : list (tok A)) : option (tok A) := args !! 11%nat.

Definition narg {A} (args : list A) : option (tok A) :=
  nth_ (TPlaceholder :: map TArg args ++ map TNum [10; 9; 8; 7; 6; 5; 4; 3; 2; 1; 0]%nat).

Definition empty_ {A} (args : list A) : option (tok A) :=
  nth_ (TPlaceholder :: map TArg args ++ replicate 10 TN ++ [TNum 0%nat]).

(** [___last1] to [___last10], [___nolast2] to [___nolast10]. *)
Definition last_k {A} (k : nat) (args : list A) : option A :=
  match k, args with
  | 1, [x] => Some x
  | 2, [a; x] => Some x
  | 3, [a; b; x] => Some x
  | 4, [a; b; c; x] => Some x
  | 5, [a; b; c; d; x] => Some x
  | 6, [a; b; c; d; e; x] => Some x
  | 7, [a; b; c; d; e; f; x] => Some x
  | 8, [a; b; c; d; e; f; g; x] => Some x
  | 9, [a; b; c; d; e; f; g; h; x] => Some x
  | 10, [a; b; c; d; e; f; g; h; i; x] => Some x
  | _, _ => None
  end%nat.

Definition nolast_k {A} (k : nat) (args : list A) : option (list A) :=
  match k, args with
  | 2, [a; _] => Some [a]
  | 3, [a; b; _] => Some [a; b]
  | 4, [a; b; c; _] => Some [a; b; c]
  | 5, [a; b; c; d; _] => Some [a; b; c; d]
  | 6, [a; b; c; d; e; _] => Some [a; b; c; d; e]
  | 7, [a; b; c; d; e; f; _] => Some [a; b; c; d; e; f]
  | 8, [a; b; c; d; e; f; g; _] => Some [a; b; c; d; e; f; g]
  | 9, [a; b; c; d; e; f; g; h; _] => Some [a; b; c; d; e; f; g; h]
  | 10, [a; b; c; d; e; f; g; h; i; _] => Some [a; b; c; d; e; f; g; h; i]
  | _, _ => None
  end%nat.

(** [___apply(fn, n)(args)]: paste the count and expand, if [fn##n] exists. *)
Definition apply_ {A B} (fn : nat -> list A -> option B) (n : option (tok A)) (args : list A) :
  option B := match n with Some (TNum k) => fn k args | _ => None end.

Definition last_ {A} (args : list A) : option A := apply_ last_k (narg args) args.
Definition nolast {A} (args : list A) : option (list A) := apply_ nolast_k (narg args) args.

(** [___arrow(a, b, c)] is [a->b->c]; [___type] takes its type, so it only has
    to expand: [___arrow1] to [___arrow10] are defined. *)
Definition arrow_k {A} (k : nat) (args : list A) : option (list A) :=
  if decide (1 <= k <= 10 /\ length args = k)%nat then Some args else None.
Definition arrow {A} (args : list A) : option (list A) := apply_ arrow_k (narg args) args.

(** ** Pointer chasing

    An argument of the macros is the source pointer or a field accessor (its
    relocated offset); a step reads into [__t] from [&src->a] or [&__t->a]. *)
Inductive chase_arg := Src | Field (off : Z).
Inductive step := FromSrc (a : chase_arg) | FromT (a : chase_arg).

Definition rd_last (args : list chase_arg) : option step :=
  _ ← nolast args ≫= arrow; a ← last_ args; Some (FromT a).

(** [___rd_p1] to [___rd_p9]. *)
Fixpoint rd_p (k : nat) (args : list chase_arg) : option (list step) :=
  match k with
  | O => None
  | S O => match args with [src; a] => _ ← arrow [src]; Some [FromSrc a] | _ => None end
  | S k => init ← nolast args; steps ← rd_p k init; s ← rd_last args; Some (steps ++ [s])
  end.

Definition rd_p_defined (k : nat) (args : list chase_arg) : option (list step) :=
  if decide (k <= 9)%nat then rd_p k args else None.

Definition read_ptrs (src : chase_arg) (accs : list chase_arg) : option (list step) :=
  match narg accs with
  | Some (TNum k) => rd_p_defined k (src :: accs)
  | _ => None
  end.

(** [___core_read]: the intermediate reads, with [fn_ptr], and the last, with
    [fn], into [dst]. *)
Definition core_read (src : chase_arg) (accs : list chase_arg) : option (list step * step) :=
  match accs with
  | [] => None
  | a :: rest =>
      match empty_ rest with
      | Some (TNum 0) => _ ← arrow [src]; Some ([], FromSrc a)
      | Some TN =>
          init ← nolast accs;
          ptrs ← read_ptrs src init;
          _ ← arrow (src :: init);
          l ← last_ accs;
          Some (ptrs, FromT l)
      | _ => None
      end
  end.

(** What the reads do: [fn] and [fn_ptr] take the bytes already in the
    destination, since a failed probe read may leave any value there. *)
Section exec.
Variables fn fn_ptr : Z -> Z -> Z.   (* old contents of dst, address; new contents *)
Variable src : Z.

Definition arg_off (a : chase_arg) : Z := match a with Field o => o | Src => 0 end.

Definition step_addr (t : Z) (s : step) : Z :=
  match s with FromSrc a => src + arg_off a | FromT a => t + arg_off a end.

Fixpoint run_steps (ss : list step) (t : Z) : Z :=
  match ss with [] => t | s :: ss => run_steps ss (fn_ptr t (step_addr t s)) end.

Definition BPF_CORE_READ_INTO (accs : list Z) (dst t : Z) : option Z :=
  '(ss, l) ← core_read Src (map Field accs);
  Some (fn dst (step_addr (run_steps ss t) l)).

(** The result variable has the type of [src->a->...], which must expand. *)
Definition BPF_CORE_READ (accs : list Z) (r t : Z) : option Z :=
  _ ← arrow (Src :: map Field accs); BPF_CORE_READ_INTO accs r t.
End exec.

(** The C expression [src->a->b->c], by offsets, on a memory of pointers. *)
Fixpoint deref_chain (deref : Z -> option Z) (p : Z) (accs : list Z) : option Z :=
  match accs with
  | [] => Some p
  | o :: accs => q ← deref (p + o); deref_chain deref q accs
  end.

(** ** The selecting macros agree with the list operations they stand for *)

Lemma narg_small {A} (args : list A) :
  (length args <= 10)%nat -> narg args = Some (TNum (length args)).
Proof. intros. do 11 (destruct args as [|? args]; [reflexivity|]). simpl in *. lia. Qed.

Lemma narg_large {A} (args : list A) :
  (10 < length args)%nat -> exists a, narg args = Some (TArg a).
Proof.
  intros H. destruct (lookup_lt_is_Some_2 args 10 H) as [a Ha]. exists a.
  unfold narg, nth_. rewrite lookup_cons_ne_0 by done.
  change (map TArg args) with (TArg <$> args). change (pred 11) with 10%nat.
  rewrite lookup_app_l by (rewrite length_fmap; lia). by rewrite list_lookup_fmap, Ha.
Qed.

Lemma last_small {A} (args : list A) : (1 <= length args <= 10)%nat -> last_ args = last args.
Proof.
  intros. unfold last_. rewrite narg_small by lia.
  do 11 (destruct args as [|? args]; [try reflexivity; simpl in *; lia|]). simpl in *. lia.
Qed.

Lemma nolast_small {A} (args : list A) :
  (2 <= length args <= 10)%nat -> nolast args = Some (take (length args - 1) args).
Proof.
  intros. unfold nolast. rewrite narg_small by lia.
  do 11 (destruct args as [|? args]; [try reflexivity; simpl in *; lia|]). simpl in *. lia.
Qed.

(** The argument-counting macros are right for the up to ten arguments they
    support: [___narg] counts, [___last] gives the last argument and
    [___nolast] all the others; with more than ten arguments [___narg] gives
    back one of the arguments, and none of the dispatched macros expands. *)
Theorem argument_macros {A} (args : list A) :
  ((1 <= length args <= 10)%nat ->
     narg args = Some (TNum (length args))
     /\ exists x, last_ args = Some x
        /\ ((2 <= length args)%nat ->
             exists init, nolast args = Some init /\ args = init ++ [x]))
  /\ ((10 < length args)%nat ->
     (exists a, narg args = Some (TArg a)) /\ last_ args = None /\ nolast args = None
     /\ arrow args = None).
Proof.
  split.
  - intros H. split; [apply narg_small; lia|].
    rewrite last_small by lia.
    destruct (exists_last (l := args)) as (init & x & ->); [by intros ->; simpl in *; lia|].
    exists x. rewrite last_snoc. split; [done|]. intros H2. exists init.
    rewrite nolast_small by lia. split; [|done]. f_equal.
    rewrite length_app. simpl. by rewrite Nat.add_sub, take_app_length.
  - intros H. destruct (narg_large args H) as [a Ha].
    unfold last_, nolast, arrow. rewrite Ha. eauto.
Qed.

(** The reads an expansion performs. *)
Definition plan (a : Z) (rest : list Z) : list step * step :=
  match last rest with
  | None => ([], FromSrc (Field a))
  | Some l => (FromSrc (Field a) :: map (fun o => FromT (Field o)) (take (length rest - 1) rest),
               FromT (Field l))
  end.

Lemma core_read_plan a rest :
  (length rest <= 9)%nat -> core_read Src (map Field (a :: rest)) = Some (plan a rest).
Proof. intros. do 10 (destruct rest as [|? rest]; [reflexivity|]). simpl in *. lia. Qed.

Section chase.
Variables fn fn_ptr : Z -> Z -> Z.
Variable deref : Z -> option Z.
(** A read of a readable address leaves what is there in the destination. *)
Hypothesis fn_reads : forall old a w, deref a = Some w -> fn old a = w.
Hypothesis fn_ptr_reads : forall old a w, deref a = Some w -> fn_ptr old a = w.

Lemma run_steps_chain src accs t v :
  deref_chain deref t accs = Some v ->
  run_steps fn_ptr src (map (fun o => FromT (Field o)) accs) t = v.
Proof using fn_ptr_reads.
  revert t. induction accs as [|o accs IH]; simpl; intros t H; [by simplify_eq|].
  destruct (deref (t + o)) as [q|] eqn:E; [|done]. simpl in H.
  rewrite (fn_ptr_reads t _ q) by done. by apply IH.
Qed.

Lemma deref_chain_snoc p accs l v :
  deref_chain deref p (accs ++ [l]) = Some v <->
  exists q, deref_chain deref p accs = Some q /\ deref (q + l) = Some v.
Proof using.
  revert p. induction accs as [|o accs IH]; simpl; intros p.
  - split.
    + intros H. exists p. split; [done|]. by destruct (deref (p + l)).
    + intros (q & [= <-] & H). by rewrite H.
  - destruct (deref (p + o)) as [q|]; simpl; [apply IH|].
    split; [done | by intros (? & ? & ?)].
Qed.

(** [BPF_CORE_READ(src, a1, ..., an)] for one to nine accessors expands
    and evaluates to [src->a1->...->an] whenever every address on the way is
    readable, whatever the destination and the pointer temporary held before;
    with no accessor or more than nine it does not expand. *)
Theorem core_read_dereferences src accs r t :
  (forall v, (1 <= length accs <= 9)%nat -> deref_chain deref src accs = Some v ->
     BPF_CORE_READ fn fn_ptr src accs r t = Some v)
  /\ ((length accs = 0 \/ 9 < length accs)%nat ->
      BPF_CORE_READ fn fn_ptr src accs r t = None).
Proof using fn_reads fn_ptr_reads.
  split.
  - intros v Hl Hd. destruct accs as [|a rest]; [simpl in *; lia|]. simpl in Hl.
    unfold BPF_CORE_READ, BPF_CORE_READ_INTO. rewrite core_read_plan by lia.
    unfold arrow. rewrite narg_small by (simpl; rewrite length_map; lia).
    simpl. unfold arrow_k.
    rewrite decide_True by (simpl; rewrite length_map; lia). simpl. f_equal.
    destruct rest as [|y ys].
    { simpl in *. destruct (deref (src + a)) eqn:E; simplify_eq/=. f_equal. by apply fn_reads. }
    destruct (exists_last (l := y :: ys)) as (init & l & E); [done|]. rewrite E in *.
    unfold plan. rewrite last_snoc. cbn [run_steps step_addr arg_off].
    rewrite length_app. simpl length. rewrite Nat.add_sub, take_app_length.
    cbn [deref_chain] in Hd. destruct (deref (src + a)) as [q|] eqn:Eq; [|done]. simpl in Hd.
    apply deref_chain_snoc in Hd as (q' & Hq' & Hv).
    f_equal. apply fn_reads. rewrite (fn_ptr_reads t _ q) by done.
    by rewrite (run_steps_chain src init q q' Hq').
  - intros [Hl|Hl]; unfold BPF_CORE_READ.
    + destruct accs; [reflexivity | done].
    + destruct (narg_large (Src :: map Field accs)) as [a Ha];
        [simpl; rewrite length_map; lia|].
      unfold arrow. by rewrite Ha.
Qed.
End chase.

Lemma argument_macros_witness :
  narg [10; 20; 30] = Some (TNum 3) /\ last_ (seq 0 11) = None.
Proof.
  split.
  - exact (proj1 (proj1 (argument_macros [10; 20; 30]) ltac:(simpl; lia))).
  - exact (proj1 (proj2 (proj2 (argument_macros (seq 0 11)) ltac:(simpl; lia)))).
Defined.

(** A memory in which every address [a] below 1000 holds [a + 100]. *)
Definition deref0 (a : Z) : option Z := if decide (a < 1000) then Some (a + 100) else None.
Definition probe0 (old a : Z) : Z := default 0 (deref0 a).

Lemma probe0_reads old a w : deref0 a = Some w -> probe0 old a = w.
Proof. unfold probe0. by intros ->. Qed.

Lemma core_read_dereferences_witness :
  BPF_CORE_READ probe0 probe0 16 [8; 0; 24] 0 77 = Some 348.
Proof.
  apply (core_read_dereferences probe0 probe0 deref0 probe0_reads probe0_reads 16 [8; 0; 24]).
  - simpl. lia.
  - vm_compute. reflexivity.
Defined.
End Chase.
