(* ===== verification/BpfTracing.v ===== *)
(** * Tracing macros ([pkg/ebpf/headers/bpf/bpf_tracing.h])

    The choice of the target architecture, its register tables, the [PT_REGS]
    accessors, and the macros that declare a tracing program and hand it typed
    arguments.  A macro expands to a C expression ([expr]); [eval] runs it on a
    memory, with the layout of the kernel's register structs as a parameter.
    [Module Regs] has the registers and accessors, [Module Prog] the program
    macros over a context of 64-bit slots, [Module Kprobe] those over a
    [struct pt_regs]. *)
From S2P Require Import Prelude CTypes BpfHelpers BpfCoreRead.
#[local] Open Scope string_scope.
#[local] Open Scope list_scope.
#[local] Open Scope Z_scope.

Module Regs.

(** ** The target *)
Inductive arch := x86 | s390 | arm | arm64 | mips | powerpc | sparc | riscv | arc | loongarch.

#[global] Instance arch_eq_dec : EqDecision arch.
Proof. solve_decision. Defined.

(** The preprocessor symbols the header tests: [__TARGET_ARCH_<arch>], the
    compiler's own [__x86_64__], [__s390__], ..., and the flags of the x86,
    powerpc and sparc tables. *)
Inductive macro :=
  | TARGET_ARCH (a : arch) | COMPILER (a : arch) | KERNEL | VMLINUX_H | I386 | ARCH64.

Record cpp := mk_cpp { defined : macro -> bool; riscv_xlen : Z }.

(** The order of the two [#if] chains. *)
Definition archs : list arch := [x86; s390; arm; arm64; mips; powerpc; sparc; riscv; arc; loongarch].

Definition bpf_target (c : cpp) : option arch :=
  match List.find (fun a => defined c (TARGET_ARCH a)) archs with
  | Some a => Some a
  | None => List.find (fun a => defined c (COMPILER a)
                           && (if decide (a = riscv) then riscv_xlen c =? 64 else true)) archs
  end.

(** ** The register tables *)

(** A member designator: [di], [gprs[2]], [u_regs[UREG_I0]], [psw.addr]. *)
Inductive reg :=
  | R (member : string) | RI (array : string) (i : nat) | RN (array index : string) | RD (outer member : string).

#[global] Instance reg_eq_dec : EqDecision reg.
Proof. solve_decision. Defined.

(** The struct a designator applies to: [struct pt_regs], the types some
    architectures substitute for it, and the CO-RE flavours declared here. *)
Inductive pt_struct :=
  | pt_regs | user_pt_regs_typedef | user_pt_regs | user_regs_struct
  | pt_regs___s390 | pt_regs___arm64 | pt_regs___riscv.

Definition unsupported : reg := R "__unsupported__".

(** One architecture's definitions.  [t_parm] and [t_syscall_parm] list the
    [__PT_PARM<n>_REG] and [__PT_PARM<n>_SYSCALL_REG] it defines, from 1 on;
    [t_syscall1_struct] is the struct of its own [PT_REGS_PARM1_SYSCALL], if it
    has one; [t_syscall_regs_is_ctx] whether it overrides [PT_REGS_SYSCALL_REGS]. *)
Record table := mk_table {
  t_cast : pt_struct;
  t_parm : list reg;
  t_syscall_parm : list reg;
  t_syscall1_struct : option pt_struct;
  t_syscall_regs_is_ctx : bool;
  t_ret : reg; t_fp : reg; t_rc : reg; t_sp : reg; t_ip : reg }.

Definition x86_kernel : table :=
  let p := map R ["di"; "si"; "dx"; "cx"; "r8"; "r9"] in
  mk_table pt_regs p (<[3%nat := R "r10"]> p) None false (R "sp") (R "bp") (R "ax") (R "sp") (R "ip").

Definition x86_i386 : table :=
  mk_table pt_regs (map R ["eax"; "edx"; "ecx"]) (map R ["ebx"; "ecx"; "edx"; "esi"; "edi"; "ebp"])
    None false (R "esp") (R "ebp") (R "eax") (R "esp") (R "eip").

Definition x86_64_user : table :=
  let p := map R ["rdi"; "rsi"; "rdx"; "rcx"; "r8"; "r9"] in
  mk_table pt_regs p (<[3%nat := R "r10"]> p) None false (R "rsp") (R "rbp") (R "rax") (R "rsp") (R "rip").

Definition s390_regs : table :=
  let p := map (RI "gprs") [2; 3; 4; 5; 6]%nat in
  mk_table user_pt_regs_typedef p (<[0%nat := R "orig_gpr2"]> p ++ [RI "gprs" 7]) (Some pt_regs___s390) false
    (RI "gprs" 14) (RI "gprs" 11) (RI "gprs" 2) (RI "gprs" 15) (RD "psw" "addr").

Definition arm_regs : table :=
  let p := map (RI "uregs") [0; 1; 2; 3]%nat in
  mk_table pt_regs p (p ++ map (RI "uregs") [4; 5; 6]%nat) None false
    (RI "uregs" 14) (RI "uregs" 11) (RI "uregs" 0) (RI "uregs" 13) (RI "uregs" 12).

Definition arm64_regs : table :=
  let p := map (RI "regs") [0; 1; 2; 3; 4; 5; 6; 7]%nat in
  mk_table user_pt_regs p (<[0%nat := R "orig_x0"]> (take 6 p)) (Some pt_regs___arm64) false
    (RI "regs" 30) (RI "regs" 29) (RI "regs" 0) (R "sp") (R "pc").

Definition mips_regs : table :=
  let p := map (RI "regs") [4; 5; 6; 7; 8; 9; 10; 11]%nat in
  mk_table pt_regs p (take 6 p) None false
    (RI "regs" 31) (RI "regs" 30) (RI "regs" 2) (RI "regs" 29) (R "cp0_epc").

Definition powerpc_regs (arch64 : bool) : table :=
  let p := map (RI "gpr") [3; 4; 5; 6; 7; 8; 9; 10]%nat in
  mk_table pt_regs p (<[0%nat := R "orig_gpr3"]> (take (if arch64 then 6 else 7) p)) None true
    (RI "regs" 31) unsupported (RI "gpr" 3) (RI "gpr" 1) (R "nip").

Definition sparc_regs (arch64 : bool) : table :=
  let p := map (RN "u_regs") ["UREG_I0"; "UREG_I1"; "UREG_I2"; "UREG_I3"; "UREG_I4"; "UREG_I5"] in
  mk_table pt_regs p p None false
    (RN "u_regs" "UREG_I7") unsupported (RN "u_regs" "UREG_I0") (RN "u_regs" "UREG_FP")
    (if arch64 then R "tpc" else R "pc").

Definition riscv_regs : table :=
  let p := map R ["a0"; "a1"; "a2"; "a3"; "a4"; "a5"; "a6"; "a7"] in
  mk_table user_regs_struct p (<[0%nat := R "orig_a0"]> (take 6 p)) (Some pt_regs___riscv) false
    (R "ra") (R "s0") (R "a0") (R "sp") (R "pc").

Definition arc_regs : table :=
  let p := map (RD "scratch") ["r0"; "r1"; "r2"; "r3"; "r4"; "r5"; "r6"; "r7"] in
  mk_table user_regs_struct p (take 6 p) None true
    (RD "scratch" "blink") (RD "scratch" "fp") (RD "scratch" "r0") (RD "scratch" "sp") (RD "scratch" "ret").

Definition loongarch_regs : table :=
  let p := map (RI "regs") [4; 5; 6; 7; 8; 9; 10; 11]%nat in
  mk_table user_pt_regs p (take 6 p) None true
    (RI "regs" 1) (RI "regs" 22) (RI "regs" 4) (RI "regs" 3) (R "csr_era").

Definition table_of (c : cpp) (a : arch) : table :=
  match a with
  | x86 => if defined c KERNEL || defined c VMLINUX_H then x86_kernel
           else if defined c I386 then x86_i386 else x86_64_user
  | s390 => s390_regs
  | arm => arm_regs
  | arm64 => arm64_regs
  | mips => mips_regs
  | powerpc => powerpc_regs (defined c ARCH64)
  | sparc => sparc_regs (defined c ARCH64)
  | riscv => riscv_regs
  | arc => arc_regs
  | loongarch => loongarch_regs
  end.

(** The defaults: a register an architecture does not define is [__unsupported__]. *)
Definition PARM_REG (t : table) (n : nat) : reg := default unsupported (t_parm t !! (n - 1)%nat).
Definition PARM_SYSCALL_REG (t : table) (n : nat) : reg := default unsupported (t_syscall_parm t !! (n - 1)%nat).

(** ** The accessors *)

(** The C expressions the macros expand to.  [TargetMissing] is the statement
    expression with the pragma that stops the compilation. *)
Inductive expr :=
  | Ctx | RegsVar                                     (* the variables [ctx] and [regs] *)
  | CtxElem (i : Z)                                   (* [ctx[i]] *)
  | Member (s : pt_struct) (x : expr) (r : reg)       (* [((const s * )(x))->r] *)
  | CoreRead (s : pt_struct) (x : expr) (r : reg)     (* [BPF_CORE_READ((const s * )(x), r)] *)
  | TargetMissing.

(** Which register an accessor names. *)
Inductive which := PARM (n : nat) | RET | FP | RC | SP | IP.

Definition which_reg (t : table) (w : which) : reg :=
  match w with
  | PARM n => PARM_REG t n
  | RET => t_ret t
  | FP => t_fp t
  | RC => t_rc t
  | SP => t_sp t
  | IP => t_ip t
  end.

Section accessors.
Variable c : cpp.

(** [k] of the target's table, or the error when there is no target. *)
Definition with_target (k : arch -> table -> expr) : expr :=
  match bpf_target c with Some a => k a (table_of c a) | None => TargetMissing end.

(** [PT_REGS_PARM1(x)] to [PT_REGS_PARM8(x)], [PT_REGS_RET(x)], ...; [..._CORE(x)] *)
Definition PT_REGS (w : which) (x : expr) : expr :=
  with_target (fun _ t => Member (t_cast t) x (which_reg t w)).
Definition PT_REGS_CORE (w : which) (x : expr) : expr :=
  with_target (fun _ t => CoreRead (t_cast t) x (which_reg t w)).

(** [PT_REGS_PARM1_SYSCALL(x)] to [PT_REGS_PARM7_SYSCALL(x)] and the CORE variants. *)
Definition syscall_struct (t : table) (n : nat) : pt_struct :=
  if decide (n = 1%nat) then default (t_cast t) (t_syscall1_struct t) else t_cast t.

Definition PT_REGS_SYSCALL (n : nat) (x : expr) : expr :=
  with_target (fun _ t => Member (syscall_struct t n) x (PARM_SYSCALL_REG t n)).
Definition PT_REGS_CORE_SYSCALL (n : nat) (x : expr) : expr :=
  with_target (fun _ t => CoreRead (syscall_struct t n) x (PARM_SYSCALL_REG t n)).

(** [PT_REGS_SYSCALL_REGS(ctx)] *)
Definition PT_REGS_SYSCALL_REGS (x : expr) : expr :=
  match bpf_target c with
  | Some a => if t_syscall_regs_is_ctx (table_of c a) then x else PT_REGS (PARM 1) x
  | None => PT_REGS (PARM 1) x
  end.

(** [BPF_KPROBE_READ_RET_IP(ip, ctx)]: an assignment, or a probe read of
    [sizeof(ip)] bytes from an address, given as an expression and an offset. *)
Inductive read_ip := Assign (e : expr) | ProbeRead (e : expr) (plus : Z) | NoTarget.

Definition BPF_KPROBE_READ_RET_IP : read_ip :=
  match bpf_target c with
  | None => NoTarget
  | Some powerpc => Assign (Member pt_regs Ctx (R "link"))
  | Some sparc | Some arm64 => Assign (PT_REGS RET Ctx)
  | Some _ => ProbeRead (PT_REGS RET Ctx) 0
  end.

Definition BPF_KRETPROBE_READ_RET_IP (sizeof_ip : Z) : read_ip :=
  match bpf_target c with
  | None => NoTarget
  | Some powerpc | Some sparc | Some arm64 => BPF_KPROBE_READ_RET_IP
  | Some _ => ProbeRead (PT_REGS FP Ctx) sizeof_ip
  end.
End accessors.

(** ** Running an expression *)
Section eval.
(** The kernel's struct layouts; what a load of the program gives; what a probe
    read leaves in its destination, which held the first argument. *)
Variable offset : pt_struct -> reg -> option Z.
Variable load : Z -> option Z.
Variable probe : Z -> Z -> Z.

(** Whether the compiler accepts it: the members exist and there is a target. *)
Fixpoint compiles (e : expr) : bool :=
  match e with
  | Ctx | RegsVar | CtxElem _ => true
  | Member s x r | CoreRead s x r => compiles x && bool_decide (is_Some (offset s r))
  | TargetMissing => false
  end.

(** [ctx] and [regs] are pointers; the two last arguments of [BPF_CORE_READ] are
    what its temporaries held before. *)
Fixpoint eval (ctx regs : Z) (e : expr) : option Z :=
  match e with
  | Ctx => Some ctx
  | RegsVar => Some regs
  | CtxElem i => load (ctx + 8 * i)
  | Member s x r => v ← eval ctx regs x; o ← offset s r; load (v + o)
  | CoreRead s x r => v ← eval ctx regs x; o ← offset s r; Chase.BPF_CORE_READ probe probe v [o] 0 0
  | TargetMissing => None
  end.
End eval.

(** ** The tables *)
Lemma archs_complete a : a ∈ archs.
Proof. destruct a; set_solver. Qed.

(** The target is the architecture named by [__TARGET_ARCH_...], whatever the
    compiler says, provided only one is named. *)
Lemma bpf_target_named c a :
  (forall b, defined c (TARGET_ARCH b) = bool_decide (b = a)) -> bpf_target c = Some a.
Proof.
  intros H. unfold bpf_target. cbn [archs List.find]. rewrite !H. destruct a; reflexivity.
Qed.

(** How many argument registers each target has. *)
Definition parm_count (c : cpp) (a : arch) : nat :=
  match a with
  | x86 => if negb (defined c KERNEL || defined c VMLINUX_H) && defined c I386 then 3 else 6
  | arm => 4
  | s390 => 5
  | sparc => 6
  | _ => 8
  end.

Definition syscall_count (c : cpp) (a : arch) : nat :=
  match a with
  | arm => 7
  | powerpc => if defined c ARCH64 then 6 else 7
  | _ => 6
  end.

(** Case analysis on the architecture and the flags its table depends on. *)
Ltac table_cases c a :=
  unfold table_of, parm_count, syscall_count; destruct a;
  repeat match goal with |- context [defined c ?m] => destruct (defined c m) end.

Lemma table_sound c a : let t := table_of c a in
  length (t_parm t) = parm_count c a /\ length (t_syscall_parm t) = syscall_count c a
  /\ NoDup (t_parm t) /\ NoDup (t_syscall_parm t)
  /\ (t_sp t ∉ t_parm t ++ t_syscall_parm t) /\ (t_ip t ∉ t_parm t ++ t_syscall_parm t)
  /\ (unsupported ∉ t_parm t) /\ (unsupported ∉ t_syscall_parm t).
Proof. cbv zeta. table_cases c a; apply (bool_decide_unpack _); vm_compute; exact I. Qed.

Lemma parm_le_8 c a : (length (t_parm (table_of c a)) <= 8)%nat.
Proof. destruct (table_sound c a) as [-> _]. table_cases c a; simpl; lia. Qed.

Lemma syscall_le_7 c a : (length (t_syscall_parm (table_of c a)) <= 7)%nat.
Proof. destruct (table_sound c a) as (_ & -> & _). table_cases c a; simpl; lia. Qed.

End Regs.

(** ** Passing arguments

    All the program macros call an inner function declared with the user's
    parameters, as [____name(ctx, a1, ..., an)]. *)
Module Prog.
Import Regs.

(** [___bpf_apply(fn, ___bpf_narg(args))(args)], for [fn0] to [fn<max>]. *)
Definition bpf_apply {A B} (max : nat) (fn : nat -> list A -> option B) (args : list A) : option B :=
  match Printk.bpf_narg args with
  | Some (Printk.TNum k) => if decide (k <= max)%nat then fn k args else None
  | _ => None
  end.

(** The family [fn0() = ctx], [fn<k>(x, args...) = fn<k-1>(args), elem<k-1>]. *)
Fixpoint args_k {A} (elem : nat -> expr) (k : nat) (args : list A) : option (list expr) :=
  match k, args with
  | O, [] => Some [Ctx]
  | S k, _ :: args => es ← args_k elem k args; Some (es ++ [elem k])
  | _, _ => None
  end.

(** Initialising a parameter with an [unsigned long long]: integers are truncated
    to their width, pointers hold 64 bits, a struct cannot be initialised. *)
Definition conv (t : ctype) (z : Z) : option Z :=
  match t with
  | CScalar k => Some ((if ikind_signed k then wrapS else wrapU) (8 * ikind_size k) (u64! z))
  | CPtr _ _ => Some (u64! z)
  | _ => None
  end.

Fixpoint pass (ev : expr -> option Z) (params : list ctype) (es : list expr) : option (list Z) :=
  match params, es with
  | [], [] => Some []
  | t :: params, e :: es => z ← ev e; v ← conv t z; vs ← pass ev params es; Some (v :: vs)
  | _, _ => None
  end.

(** The call of the inner function: the context it gets, and its parameters. *)
Definition call_inner (ev : expr -> option Z) (params : list ctype) (es : list expr) : option (Z * list Z) :=
  match es with
  | e :: es => ctx ← ev e; vs ← pass ev params es; Some (ctx, vs)
  | [] => None
  end.

(** [___bpf_ctx_cast], and the call [BPF_PROG] makes, on a context of 64-bit
    slots. *)
Definition bpf_ctx_cast {A} (args : list A) : option (list expr) :=
  bpf_apply 12 (args_k (fun i => CtxElem (Z.of_nat i))) args.

Definition BPF_PROG (load : Z -> option Z) (ctx : Z) (params : list ctype) : option (Z * list Z) :=
  es ← bpf_ctx_cast params; call_inner (eval (fun _ _ => None) load (fun _ _ => 0) ctx 0) params es.

(** ** [BPF_PROG2]: typed arguments of one or two slots *)

(** The macro's arguments, types and names alternating. *)
Inductive parg := PType (t : ctype) | PName (x : string).

Definition bpf_nth2 {A} (args : list (Printk.tok A)) : option (Printk.tok A) := args !! 25%nat.

Definition bpf_narg2 {A} (args : list A) : option (Printk.tok A) :=
  bpf_nth2 (Printk.TPlaceholder :: map Printk.TArg args
    ++ map Printk.TNum [12; 12; 11; 11; 10; 10; 9; 9; 8; 8; 7; 7; 6; 6; 5; 5; 4; 4; 3; 3; 2; 2; 1; 1; 0]%nat).

Definition bpf_apply2 {B} (fn : nat -> list parg -> option B) (args : list parg) : option B :=
  match bpf_narg2 args with
  | Some (Printk.TNum k) => if decide (k <= 12)%nat then fn k args else None
  | _ => None
  end.

(** [___bpf_treg_cnt(t)]; [None] is [(void)0], which cannot be added. *)
Definition bpf_treg_cnt (t : ctype) : option Z :=
  if sizeof t =? 1 then Some 1 else if sizeof t =? 2 then Some 1
  else if sizeof t =? 4 then Some 1 else if sizeof t =? 8 then Some 1
  else if sizeof t =? 16 then Some 2 else None.

Fixpoint bpf_reg_cnt_k (k : nat) (args : list parg) : option Z :=
  match k, args with
  | O, [] => Some 0
  | S k, PType t :: PName _ :: args => r ← bpf_reg_cnt_k k args; c ← bpf_treg_cnt t; Some (r + c)
  | _, _ => None
  end.
Definition bpf_reg_cnt (args : list parg) : option Z := bpf_apply2 bpf_reg_cnt_k args.

(** [___bpf_union_arg(t, x, n)]: a union of [t] and an array of unsigned integers
    of the given width, initialised from these slots. *)
Record union_arg := mk_union_arg { ua_type : ctype; ua_width : Z; ua_slots : list Z }.

Definition bpf_union_arg (t : ctype) (n : Z) : option union_arg :=
  if sizeof t =? 1 then Some (mk_union_arg t 8 [n])
  else if sizeof t =? 2 then Some (mk_union_arg t 16 [n])
  else if sizeof t =? 4 then Some (mk_union_arg t 32 [n])
  else if sizeof t =? 8 then Some (mk_union_arg t 64 [n])
  else if sizeof t =? 16 then Some (mk_union_arg t 64 [n; n + 1])
  else None.

Fixpoint bpf_ctx_arg_k (n : Z) (k : nat) (args : list parg) : option (list union_arg) :=
  match k, args with
  | O, [] => Some []
  | S k', PType t :: PName _ :: rest =>
      r ← bpf_reg_cnt_k k args; u ← bpf_union_arg t (n - r); us ← bpf_ctx_arg_k n k' rest; Some (u :: us)
  | _, _ => None
  end.
Definition bpf_ctx_arg (args : list parg) : option (list union_arg) :=
  n ← bpf_reg_cnt args; bpf_apply2 (bpf_ctx_arg_k n) args.

Fixpoint bpf_ctx_decl_k (k : nat) (args : list parg) : option (list (string * ctype)) :=
  match k, args with
  | O, [] => Some []
  | S k, PType t :: PName x :: args => ds ← bpf_ctx_decl_k k args; Some ((x, t) :: ds)
  | _, _ => None
  end.
Definition bpf_ctx_decl (args : list parg) : option (list (string * ctype)) := bpf_apply2 bpf_ctx_decl_k args.

(** The declared parameters and the arguments of the inner call. *)
Definition BPF_PROG2 (args : list parg) : option (list (string * ctype) * list union_arg) :=
  ds ← bpf_ctx_decl args; us ← bpf_ctx_arg args; Some (ds, us).

(** What the array member of the union holds. *)
Definition eval_union (load : Z -> option Z) (ctx : Z) (u : union_arg) : option (list Z) :=
  mapM (fun n => wrapU (ua_width u) <$> load (ctx + 8 * n)) (ua_slots u).

Definition BPF_PROG2_run (load : Z -> option Z) (ctx : Z) (args : list parg) : option (list (list Z)) :=
  '(_, us) ← BPF_PROG2 args; mapM (eval_union load ctx) us.

(** ** Counting and passing *)
Lemma apply_count {A B} max (f : nat -> list A -> option B) args : (max <= 12)%nat ->
  bpf_apply max f args = if decide (length args <= max)%nat then f (length args) args else None.
Proof.
  intros Hm. unfold bpf_apply. destruct (decide (length args <= 12)%nat) as [H|H].
  - by rewrite Printk.narg_count.
  - destruct (Printk.narg_too_many args) as [x ->]; [lia|]. by rewrite decide_False by lia.
Qed.

Lemma args_k_spec {A} elem (args : list A) :
  args_k elem (length args) args = Some (Ctx :: map elem (seq 0 (length args))).
Proof.
  induction args as [|x args IH]; [done|]. cbn [length args_k]. rewrite IH.
  cbn [mbind option_bind]. by rewrite seq_S, map_app.
Qed.

Lemma args_expand {A} max elem (args : list A) : (max <= 12)%nat ->
  bpf_apply max (args_k elem) args
  = if decide (length args <= max)%nat then Some (Ctx :: map elem (seq 0 (length args))) else None.
Proof. intros Hm. rewrite apply_count by done. case_decide; [by rewrite args_k_spec|done]. Qed.

(** The parameters of a function called with these values. *)
Definition converted (params : list ctype) (vals : list Z) : option (list Z) :=
  mapM (fun p => conv (fst p) (snd p)) (zip params vals).

Lemma pass_spec ev params : forall es vals,
  Forall2 (fun e v => ev e = Some v) es vals -> length params = length es ->
  pass ev params es = converted params vals.
Proof.
  induction params as [|t params IH]; intros es vals HF Hl; destruct HF as [|e v es vals He HF]; try done.
  cbn [pass]. rewrite He. cbn [mbind option_bind]. injection Hl as Hl. rewrite (IH es vals HF Hl).
  unfold converted. simpl. by destruct (conv t v).
Qed.

Lemma zip_take_r {A B} (xs : list A) (ys : list B) : zip xs (take (length xs) ys) = zip xs ys.
Proof. revert ys. induction xs as [|x xs IH]; intros [|y ys]; simpl; [done..|]. by rewrite IH. Qed.

(** A call whose argument expressions have these values. *)
Lemma call_spec ev params elem vals ctx : ev Ctx = Some ctx -> (length params <= length vals)%nat ->
  (forall i v, (i < length params)%nat -> vals !! i = Some v -> ev (elem i) = Some v) ->
  call_inner ev params (Ctx :: map elem (seq 0 (length params)))
  = vs ← converted params vals; Some (ctx, vs).
Proof.
  intros Hc Hl He. cbn [call_inner]. rewrite Hc. cbn [mbind option_bind].
  rewrite (pass_spec ev params _ (take (length params) vals)).
  - unfold converted. by rewrite zip_take_r.
  - apply Forall2_lookup. intros i. rewrite list_lookup_fmap.
    destruct (decide (i < length params)%nat) as [Hi|Hi].
    + rewrite lookup_seq_lt, lookup_take by done.
      destruct (lookup_lt_is_Some_2 vals i) as [v Hv]; [lia|]. rewrite decide_True by done. rewrite Hv.
      constructor. by apply He.
    + rewrite lookup_seq_ge, lookup_take_ge by lia. constructor.
  - by rewrite length_map, length_seq.
Qed.

Lemma prog_spec load ctx params slots :
  (length params <= length slots)%nat ->
  (forall i v, slots !! i = Some v -> load (ctx + 8 * Z.of_nat i) = Some v) ->
  BPF_PROG load ctx params
  = if decide (length params <= 12)%nat then vs ← converted params slots; Some (ctx, vs) else None.
Proof.
  intros Hl Hs. unfold BPF_PROG, bpf_ctx_cast. rewrite args_expand by lia.
  case_decide as Hn; [|done]. cbn [mbind option_bind]. apply call_spec; [done..|].
  intros i v _ Hv. by apply Hs.
Qed.

(** ** The slots of [BPF_PROG2] *)

(** A parameter list as the macro receives it. *)
Definition flatten (ps : list (string * ctype)) : list parg :=
  concat (map (fun p => [PType (snd p); PName (fst p)]) ps).

Lemma flatten_cons x t ps : flatten ((x, t) :: ps) = PType t :: PName x :: flatten ps.
Proof. done. Qed.

Lemma flatten_length ps : length (flatten ps) = (2 * length ps)%nat.
Proof. induction ps as [|[x t] ps IH]; [done|]. rewrite flatten_cons. simpl. rewrite IH. lia. Qed.

Lemma narg2_flatten ps : (length ps <= 12)%nat -> bpf_narg2 (flatten ps) = Some (Printk.TNum (length ps)).
Proof. intros Hn. do 13 (destruct ps as [|[??] ps]; [reflexivity|]). simpl in Hn. lia. Qed.

Lemma narg2_too_many {A} (args : list A) : (24 < length args)%nat ->
  exists x, bpf_narg2 args = Some (Printk.TArg x).
Proof.
  intros Hn. destruct (lookup_lt_is_Some_2 args 24 Hn) as [x Hx]. exists x.
  unfold bpf_narg2, bpf_nth2. rewrite lookup_cons_ne_0 by done. change (pred 25) with 24%nat.
  change (map Printk.TArg args) with (Printk.TArg <$> args).
  rewrite lookup_app_l by (rewrite length_fmap; lia). by rewrite list_lookup_fmap, Hx.
Qed.

Lemma apply2_flatten {B} (f : nat -> list parg -> option B) ps :
  bpf_apply2 f (flatten ps) = if decide (length ps <= 12)%nat then f (length ps) (flatten ps) else None.
Proof.
  unfold bpf_apply2. case_decide as Hn.
  - by rewrite narg2_flatten, decide_True.
  - destruct (narg2_too_many (flatten ps)) as [x ->]; [rewrite flatten_length; lia|done].
Qed.

(** The reference: parameters one after the other, each in its slots. *)
Fixpoint layout (start : Z) (ps : list (string * ctype)) : option (list union_arg) :=
  match ps with
  | [] => Some []
  | (_, t) :: ps => u ← bpf_union_arg t start; c ← bpf_treg_cnt t; us ← layout (start + c) ps; Some (u :: us)
  end.

Fixpoint slot_count (ps : list (string * ctype)) : option Z :=
  match ps with [] => Some 0 | (_, t) :: ps => c ← bpf_treg_cnt t; r ← slot_count ps; Some (c + r) end.

Lemma reg_cnt_spec ps : bpf_reg_cnt_k (length ps) (flatten ps) = slot_count ps.
Proof.
  induction ps as [|[x t] ps IH]; [done|]. rewrite flatten_cons. cbn [length bpf_reg_cnt_k slot_count].
  rewrite IH.
  destruct (slot_count ps) as [r|], (bpf_treg_cnt t) as [c|]; simpl; try done. by rewrite Z.add_comm.
Qed.

Lemma ctx_arg_spec ps : forall start total, slot_count ps = Some total ->
  bpf_ctx_arg_k (start + total) (length ps) (flatten ps) = layout start ps.
Proof.
  induction ps as [|[x t] ps IH]; intros start total Hc; [done|].
  pose proof (reg_cnt_spec ((x, t) :: ps)) as Hr. rewrite Hc in Hr.
  cbn [slot_count] in Hc. destruct (bpf_treg_cnt t) as [c|] eqn:Ec; [|done].
  destruct (slot_count ps) as [r|] eqn:Er; [|done]. simpl in Hc. injection Hc as <-.
  cbn [layout]. rewrite Ec.
  rewrite flatten_cons in *. cbn [length] in *. cbn [bpf_ctx_arg_k]. rewrite Hr. cbn [mbind option_bind].
  replace (start + (c + r) - (c + r)) with start by lia.
  destruct (bpf_union_arg t start) as [u|]; [|done]. cbn [mbind option_bind].
  by rewrite Z.add_assoc, (IH (start + c) r eq_refl).
Qed.

Lemma ctx_decl_spec ps : bpf_ctx_decl_k (length ps) (flatten ps) = Some ps.
Proof.
  induction ps as [|[x t] ps IH]; [done|]. rewrite flatten_cons. cbn [length bpf_ctx_decl_k]. by rewrite IH.
Qed.

Lemma union_treg t start : is_Some (bpf_union_arg t start) <-> is_Some (bpf_treg_cnt t).
Proof. unfold bpf_union_arg, bpf_treg_cnt. repeat case_match; split; eauto; by intros []. Qed.

Lemma layout_slot_count ps start : slot_count ps = None -> layout start ps = None.
Proof.
  revert start. induction ps as [|[x t] ps IH]; intros start; [done|]. cbn [slot_count layout].
  destruct (bpf_treg_cnt t) as [c|]; [|by destruct (bpf_union_arg t start)].
  destruct (slot_count ps); [done|]. intros _. simpl. rewrite IH by done. by destruct (bpf_union_arg t start).
Qed.

Lemma prog2_layout ps :
  BPF_PROG2 (flatten ps)
  = if decide (length ps <= 12)%nat then us ← layout 0 ps; Some (ps, us) else None.
Proof.
  unfold BPF_PROG2, bpf_ctx_decl, bpf_ctx_arg, bpf_reg_cnt. rewrite !apply2_flatten.
  case_decide; [|done]. rewrite ctx_decl_spec, reg_cnt_spec. cbn [mbind option_bind].
  destruct (slot_count ps) as [n|] eqn:E; cbn [mbind option_bind].
  - rewrite apply2_flatten, decide_True by done. change n with (0 + n). by rewrite (ctx_arg_spec ps 0 n E).
  - by rewrite layout_slot_count.
Qed.

(** How the kernel leaves an argument in its slots, and the value it has: the
    upper part of a slot that holds a shorter value is arbitrary. *)
Inductive stored : ctype -> list Z -> list Z -> Prop :=
  | stored_one t w : sizeof t ∈ [1; 2; 4; 8] -> stored t [w] [wrapU (8 * sizeof t) w]
  | stored_two t w1 w2 : sizeof t = 16 -> stored t [w1; w2] [u64! w1; u64! w2].

Lemma stored_union t ws v start load ctx : stored t ws v ->
  (forall i w, ws !! i = Some w -> load (ctx + 8 * (start + Z.of_nat i)) = Some w) ->
  exists u, bpf_union_arg t start = Some u /\ bpf_treg_cnt t = Some (Z.of_nat (length ws))
    /\ eval_union load ctx u = Some v.
Proof.
  intros H Hm. destruct H as [t w Hs|t w1 w2 Hs]; unfold bpf_union_arg, bpf_treg_cnt.
  - pose proof (Hm 0%nat w eq_refl) as H0. rewrite Z.add_0_r in H0.
    rewrite !elem_of_cons, elem_of_nil in Hs.
    destruct Hs as [E|[E|[E|[E|[]]]]]; rewrite E; eexists; (split; [done|]); (split; [done|]);
      unfold eval_union; simpl; by rewrite H0.
  - pose proof (Hm 0%nat w1 eq_refl) as H0. pose proof (Hm 1%nat w2 eq_refl) as H1.
    rewrite Z.add_0_r in H0. rewrite Hs. eexists. split; [done|]. split; [done|].
    unfold eval_union. simpl. rewrite H0. simpl. change (Z.of_nat 1) with 1 in H1. by rewrite H1.
Qed.

Lemma layout_reads load ctx ps : forall stack start,
  Forall2 (fun p wv => stored (snd p) (fst wv) (snd wv)) ps stack ->
  (forall i w, concat (map fst stack) !! i = Some w -> load (ctx + 8 * (start + Z.of_nat i)) = Some w) ->
  exists us, layout start ps = Some us /\ mapM (eval_union load ctx) us = Some (map snd stack).
Proof.
  induction ps as [|[x t] ps IH]; intros stack start HF Hm.
  - inversion HF. by exists [].
  - inversion HF as [|? [ws v] ? stack' Hp HF']; subst. cbn [map concat fst snd] in *.
    destruct (stored_union t ws v start load ctx Hp) as (u & Hu & Hc & He).
    { intros i w Hi. apply Hm. by apply lookup_app_l_Some. }
    destruct (IH stack' (start + Z.of_nat (length ws)) HF') as (us & Hl & Hr).
    { intros i w Hi. rewrite <- Z.add_assoc, <- Nat2Z.inj_add. apply Hm.
      by rewrite lookup_app_r, Nat.add_comm, Nat.add_sub by lia. }
    exists (u :: us). cbn [layout]. rewrite Hu, Hc. cbn [mbind option_bind]. rewrite Hl. split; [done|].
    simpl. rewrite He. simpl. by rewrite Hr.
Qed.

Lemma bad_size_no_count ps : Exists (fun p => sizeof (snd p) ∉ [1; 2; 4; 8; 16]) ps -> slot_count ps = None.
Proof.
  induction 1 as [[x t] ps H|[x t] ps _ IH]; cbn [slot_count].
  - assert (bpf_treg_cnt t = None) as ->; [|done]. unfold bpf_treg_cnt. simpl in H.
    rewrite !elem_of_cons in H.
    repeat (destruct (_ =? _) eqn:E; [apply Z.eqb_eq in E; tauto|clear E]). done.
  - rewrite IH. by destruct (bpf_treg_cnt t).
Qed.

Lemma ctx_decl_flatten k : forall args ds, bpf_ctx_decl_k k args = Some ds -> args = flatten ds.
Proof.
  induction k as [|k IH]; intros args ds H; destruct args as [|[t|x] args]; simpl in H; try done.
  - by simplify_eq.
  - destruct args as [|[t'|x] args]; try done.
    destruct (bpf_ctx_decl_k k args) as [ds'|] eqn:E; [|done]. simpl in H. simplify_eq.
    by rewrite flatten_cons, (IH args ds' E).
Qed.

Lemma union_typed t start u : bpf_union_arg t start = Some u -> exists c,
  bpf_treg_cnt t = Some c /\ 0 <= c /\ ua_type u = t /\ ua_slots u = seqZ start c
  /\ ua_width u * Z.of_nat (length (ua_slots u)) = 8 * sizeof (ua_type u).
Proof.
  unfold bpf_union_arg, bpf_treg_cnt. intros H.
  assert (forall n, [n] = seqZ n 1) as H1 by (intros n; by rewrite seqZ_cons by lia).
  assert (forall n, [n; n + 1] = seqZ n 2) as H2 by (intros n; by rewrite !seqZ_cons by lia).
  repeat (destruct (sizeof t =? _) eqn:E; [apply Z.eqb_eq in E; simplify_eq/=; eexists; split_and!; eauto; lia|clear E]).
  done.
Qed.

Lemma layout_typed ps : forall start us, layout start ps = Some us ->
  map ua_type us = map snd ps /\ (exists n, 0 <= n /\ concat (map ua_slots us) = seqZ start n)
  /\ Forall (fun u => ua_width u * Z.of_nat (length (ua_slots u)) = 8 * sizeof (ua_type u)) us.
Proof.
  induction ps as [|[x t] ps IH]; intros start us H; cbn [layout] in H.
  - simplify_eq. split_and!; [done|by exists 0|constructor].
  - destruct (bpf_union_arg t start) as [u|] eqn:Eu; [|done].
    destruct (union_typed t start u Eu) as (c & Hc & Hp & Ht & Hs & Hw). rewrite Hc in H. simpl in H.
    destruct (layout (start + c) ps) as [us'|] eqn:E; [|done]. simpl in H. simplify_eq.
    destruct (IH _ _ E) as (HT & (n & Hn & HS) & HW). simpl. split_and!.
    + by rewrite HT.
    + exists (c + n). split; [lia|]. rewrite Hs, HS. by rewrite seqZ_app by lia.
    + by constructor.
Qed.

(** C28: [BPF_PROG2] is the inverse of the kernel's argument layout: whatever is in
    the upper parts of the slots, every argument of one or two slots is read back
    with its value, for up to twelve of them; with more arguments, or one whose
    size is not 1, 2, 4, 8 or 16, the macro does not expand. *)
Theorem prog2_reads_arguments load ctx ps :
  (forall stack, Forall2 (fun p wv => stored (snd p) (fst wv) (snd wv)) ps stack ->
     (forall i w, concat (map fst stack) !! i = Some w -> load (ctx + 8 * Z.of_nat i) = Some w) ->
     BPF_PROG2_run load ctx (flatten ps)
     = if decide (length ps <= 12)%nat then Some (map snd stack) else None)
  /\ (Exists (fun p => sizeof (snd p) ∉ [1; 2; 4; 8; 16]) ps -> BPF_PROG2 (flatten ps) = None).
Proof.
  split.
  - intros stack HF Hm. unfold BPF_PROG2_run. rewrite prog2_layout. case_decide; [|done].
    by destruct (layout_reads load ctx ps stack 0 HF) as (us & -> & Hr).
  - intros Hx. rewrite prog2_layout. case_decide; [|done].
    rewrite layout_slot_count; [done|]. by apply bad_size_no_count.
Qed.

(** A scalar or pointer parameter fits one slot, and its conversion looks only at
    the bytes of its width. *)
Lemma conv_one t w : is_Some (conv t 0) ->
  stored t [w] [wrapU (8 * sizeof t) w] /\ conv t (wrapU (8 * sizeof t) w) = conv t w.
Proof.
  intros [v Hv]. destruct t as [|k|b t| | |]; try done; (split; [constructor|cbn [conv]; f_equal]).
  - unfold sizeof. destruct k; set_solver.
  - change (sizeof (CScalar k)) with (ikind_size k).
    assert (0 < 8 * ikind_size k <= 64) by (destruct k; simpl; lia).
    destruct (ikind_signed k); by rewrite ?wrapS_wrapU_le, ?wrapU_wrapU by lia.
  - set_solver.
  - change (8 * sizeof (CPtr b t)) with 64. by rewrite !wrapU_wrapU by lia.
Qed.

Lemma converted_values (ps : list (string * ctype)) : forall slots,
  Forall (fun p => is_Some (conv (snd p) 0)) ps -> (length ps <= length slots)%nat ->
  exists vs, converted (map snd ps) slots = Some vs
    /\ converted (map snd ps) (map (hd 0) (zip_with (fun p w => [wrapU (8 * sizeof (snd p)) w]) ps slots)) = Some vs.
Proof.
  unfold converted. induction ps as [|[x t] ps IH]; intros slots Hp Hl; [by exists []|].
  destruct slots as [|w slots]; [simpl in Hl; lia|]. apply Forall_cons in Hp as [Ht Hp]. simpl in Hl.
  destruct (IH slots Hp ltac:(lia)) as (vs & H1 & H2). destruct (conv_one t w Ht) as [_ Hc].
  simpl in *. rewrite Hc, H1, H2. destruct Ht as [v Hv].
  assert (is_Some (conv t w)) as [v' ->] by by destruct t. by exists (v' :: vs).
Qed.

Lemma stored_slots (ps : list (string * ctype)) : forall slots, Forall (fun p => is_Some (conv (snd p) 0)) ps -> length slots = length ps ->
  Forall2 (fun p wv => stored (snd p) (fst wv) (snd wv)) ps
    (zip (map (fun w => [w]) slots) (zip_with (fun p w => [wrapU (8 * sizeof (snd p)) w]) ps slots)).
Proof.
  induction ps as [|[x t] ps IH]; intros [|w slots] Hp Hl; try done; simpl; constructor; apply Forall_cons in Hp as [Ht Hp].
  - by apply conv_one.
  - apply IH; [done|]. by injection Hl.
Qed.

Lemma singletons_concat {A} (l : list A) : concat (map (fun w => [w]) l) = l.
Proof. induction l as [|x l IH]; [done|]. simpl. by rewrite IH. Qed.

(** On integer and pointer parameters [BPF_PROG2] is [BPF_PROG]: converting
    the value it reads for each parameter gives the argument [BPF_PROG] passes. *)
Theorem prog2_agrees_with_prog load ctx ps slots :
  Forall (fun p => is_Some (conv (snd p) 0)) ps ->
  length slots = length ps -> (length ps <= 12)%nat ->
  (forall i v, slots !! i = Some v -> load (ctx + 8 * Z.of_nat i) = Some v) ->
  exists vs us, BPF_PROG load ctx (map snd ps) = Some (ctx, vs)
    /\ BPF_PROG2_run load ctx (flatten ps) = Some us
    /\ converted (map snd ps) (map (hd 0) us) = Some vs.
Proof.
  intros Hp Hl Hn Hm.
  set (us := zip_with (fun p w => [wrapU (8 * sizeof (snd p)) w]) ps slots).
  destruct (converted_values ps slots Hp ltac:(lia)) as (vs & Hv & Hu).
  exists vs, us. rewrite (prog_spec load ctx (map snd ps) slots); [|by rewrite length_map; lia|done].
  rewrite length_map, decide_True, Hv by done. split_and!; [done| |done].
  unfold BPF_PROG2_run. rewrite prog2_layout, decide_True by done.
  destruct (layout_reads load ctx ps (zip (map (fun w => [w]) slots) us) 0) as (l & -> & Hr).
  - apply stored_slots; [done|lia].
  - intros i w Hi. apply Hm. rewrite <- Hi. f_equal. unfold us.
    rewrite (fst_zip (map (fun w => [w]) slots)), singletons_concat; [done|]. rewrite length_map, length_zip_with. lia.
  - simpl. rewrite Hr. f_equal. rewrite (snd_zip (map (fun w => [w]) slots)); [done|]. unfold us. rewrite length_map, length_zip_with. lia.
Qed.

(** C29: the call [BPF_PROG2] makes type checks: when it expands, every macro
    argument belongs to a declaration, the arguments passed have the declared
    types in order, each is built from exactly the bytes of its type, and together
    they use each slot of the context once, in order. *)
Theorem prog2_well_typed args ds us :
  BPF_PROG2 args = Some (ds, us) ->
  args = flatten ds /\ (length ds <= 12)%nat /\ map ua_type us = map snd ds
  /\ (exists n, 0 <= n /\ concat (map ua_slots us) = seqZ 0 n)
  /\ Forall (fun u => ua_width u * Z.of_nat (length (ua_slots u)) = 8 * sizeof (ua_type u)) us.
Proof.
  intros H. assert (exists k, bpf_ctx_decl_k k args = Some ds) as [k Hk].
  { unfold BPF_PROG2, bpf_ctx_decl, bpf_apply2 in H. destruct (bpf_narg2 args) as [[]|]; try done.
    case_decide; [|done]. destruct (bpf_ctx_decl_k n args) as [ds'|] eqn:E; [|done].
    simpl in H. destruct (bpf_ctx_arg args); [|done]. simpl in H. simplify_eq. eauto. }
  apply ctx_decl_flatten in Hk. subst args. rewrite prog2_layout in H.
  case_decide as Hn; [|done]. destruct (layout 0 ds) as [us'|] eqn:E; [|done]. simpl in H. simplify_eq.
  destruct (layout_typed ds 0 us E) as (Ht & Hs & Hw). eauto.
Qed.
End Prog.

Module Kprobe.
Import Regs Prog.
Section macros.
Variable c : cpp.
Variable offset : pt_struct -> reg -> option Z.
Variable load : Z -> option Z.
Variable probe : Z -> Z -> Z.
Abbreviation ev := (eval offset load probe).
Abbreviation compiles := (compiles offset).

(** The arguments the macros build. *)
Definition bpf_kprobe_args {A} (args : list A) : option (list expr) :=
  bpf_apply 8 (args_k (fun i => PT_REGS c (PARM (i + 1)) Ctx)) args.
Definition bpf_kretprobe_args {A} (args : list A) : option (list expr) :=
  bpf_apply 1 (args_k (fun _ => PT_REGS c RC Ctx)) args.
Definition bpf_syscall_args {A} (args : list A) : option (list expr) :=
  bpf_apply 7 (args_k (fun i => PT_REGS_SYSCALL c (i + 1) RegsVar)) args.
Definition bpf_syswrap_args {A} (args : list A) : option (list expr) :=
  bpf_apply 7 (args_k (fun i => PT_REGS_CORE_SYSCALL c (i + 1) RegsVar)) args.

(** A declared program: it expands and compiles, or it does not. *)
Definition compiled (es : option (list expr)) : option (list expr) :=
  match es with Some es => if forallb compiles es then Some es else None | None => None end.

Definition BPF_KPROBE (params : list ctype) (ctx : Z) : option (Z * list Z) :=
  es ← compiled (bpf_kprobe_args params); call_inner (ev ctx 0) params es.
Definition BPF_KRETPROBE (params : list ctype) (ctx : Z) : option (Z * list Z) :=
  es ← compiled (bpf_kretprobe_args params); call_inner (ev ctx 0) params es.

(** Both calls of [BPF_KSYSCALL] are compiled; [LINUX_HAS_SYSCALL_WRAPPER] picks
    one when the program is loaded. *)
Definition BPF_KSYSCALL (wrapper : bool) (params : list ctype) (ctx : Z) : option (Z * list Z) :=
  wrapped ← compiled (bpf_syswrap_args params);
  direct ← compiled (bpf_syscall_args params);
  inner_regs ← compiled (Some [PT_REGS c (PARM 1) Ctx]);
  regs ← (if wrapper then ev ctx 0 (PT_REGS c (PARM 1) Ctx) else Some ctx);
  call_inner (ev ctx regs) params (if wrapper then wrapped else direct).

Definition BPF_KPROBE_SYSCALL := BPF_KSYSCALL.
Definition BPF_UPROBE := BPF_KPROBE.
Definition BPF_URETPROBE := BPF_KRETPROBE.
End macros.

(** ** What the programs get *)
Section correct.
Variables (c : cpp) (a : arch).
Variable offset : pt_struct -> reg -> option Z.
Variable mem : Z -> option Z.
Variable probe : Z -> Z -> Z.
Abbreviation t := (table_of c a).

Hypothesis target : bpf_target c = Some a.
(** No struct has a member named [__unsupported__]; a probe read of readable
    memory gives what is there. *)
Hypothesis unsupported_member : forall s, offset s unsupported = None.
Hypothesis probe_reads : forall old x w, mem x = Some w -> probe old x = w.

(** The expansion of a macro of the kprobe family, when each argument it builds
    reads one of [n] registers of a struct. *)
Lemma compiled_args {A} max elem n (args : list A) : (n <= max <= 12)%nat ->
  (forall i, (i < n)%nat -> compiles offset (elem i) = true) ->
  ((n < max)%nat -> compiles offset (elem n) = false) ->
  compiled offset (bpf_apply max (args_k elem) args)
  = if decide (length args <= n)%nat then Some (Ctx :: map elem (seq 0 (length args))) else None.
Proof using.
  intros Hn Ht Hf. rewrite args_expand by lia. destruct (decide (length args <= n)%nat) as [H|H].
  - rewrite decide_True by lia. unfold compiled.
    replace (forallb _ _) with true; [done|]. symmetry. simpl. apply forallb_forall.
    intros e He. apply in_map_iff in He as (i & <- & Hi). apply in_seq in Hi. apply Ht. lia.
  - case_decide as Hm; [|done]. unfold compiled.
    replace (forallb _ _) with false; [done|]. symmetry. apply not_true_iff_false.
    intros Hall. simpl in Hall. rewrite forallb_forall in Hall.
    rewrite Hall in Hf; [by specialize (Hf ltac:(lia))|]. apply in_map, in_seq. lia.
Qed.

Lemma compiles_parm i (s : nat -> pt_struct) rs x sel : compiles offset x = true ->
  (forall n, sel n = default unsupported (rs !! (n - 1)%nat)) ->
  (forall r, rs !! i = Some r -> is_Some (offset (s (i + 1)%nat) r)) ->
  compiles offset (Member (s (i + 1)%nat) x (sel (i + 1)%nat)) = bool_decide (i < length rs)%nat
  /\ compiles offset (CoreRead (s (i + 1)%nat) x (sel (i + 1)%nat)) = bool_decide (i < length rs)%nat.
Proof using unsupported_member.
  intros Hx Hsel Hm. cbn [compiles]. rewrite Hx, Hsel, Nat.add_sub. cbn [andb].
  assert (forall b, b = bool_decide (i < length rs)%nat -> b = bool_decide (i < length rs)%nat
    /\ b = bool_decide (i < length rs)%nat) as H2 by auto.
  apply H2, bool_decide_ext. destruct (rs !! i) as [r|] eqn:E; simpl.
  - pose proof (lookup_lt_Some _ _ _ E). split; [done|]. intros _. by apply Hm.
  - apply lookup_ge_None in E. rewrite unsupported_member. split; [by intros []|lia].
Qed.

Lemma with_target_is k : with_target c k = k a t.
Proof using target. unfold with_target. by rewrite target. Qed.

(** ** Functions *)
Section entry.
Variables (ctx : Z) (args : list Z).
(** The argument registers are members of the struct, and at the entry of the
    probed function hold its arguments. *)
Hypothesis parms_known : forall r, r ∈ t_parm t -> is_Some (offset (t_cast t) r).
Hypothesis args_in_regs : forall i v r o,
  args !! i = Some v -> t_parm t !! i = Some r -> offset (t_cast t) r = Some o -> mem (ctx + o) = Some v.

(** C27: [BPF_KPROBE].  With as many parameters as the target has argument
    registers, or fewer, the program is called with the context and the probed
    function's arguments, in order, converted to the declared types; with more it
    does not compile. *)
Theorem kprobe_passes_arguments params : (length params <= length args)%nat ->
  BPF_KPROBE c offset mem probe params ctx
  = if decide (length params <= parm_count c a)%nat then vs ← converted params args; Some (ctx, vs) else None.
Proof using target unsupported_member parms_known args_in_regs.
  intros Hl. destruct (table_sound c a) as (<- & _). unfold BPF_KPROBE, bpf_kprobe_args.
  assert (forall i, PT_REGS c (PARM (i + 1)) Ctx = Member (t_cast t) Ctx (PARM_REG t (i + 1))) as HP.
  { intros i. apply with_target_is. }
  assert (forall i, compiles offset (PT_REGS c (PARM (i + 1)) Ctx) = bool_decide (i < length (t_parm t))%nat) as HC.
  { intros i. rewrite HP. apply (compiles_parm i (fun _ => t_cast t) (t_parm t)); [done..|].
    intros r Hr. by apply parms_known, (list_elem_of_lookup_2 _ i). }
  rewrite (compiled_args 8 _ (length (t_parm t))).
  2:{ split; [apply parm_le_8|lia]. }
  2:{ intros i Hi. rewrite HC. by apply bool_decide_eq_true. }
  2:{ intros _. rewrite HC. apply bool_decide_eq_false. lia. }
  case_decide as Hn; [|done]. cbn [mbind option_bind]. apply call_spec; [done..|].
  intros i v Hi Hv. rewrite HP. cbn [eval mbind option_bind]. unfold PARM_REG. rewrite Nat.add_sub.
  destruct (lookup_lt_is_Some_2 (t_parm t) i ltac:(lia)) as [r Hr]. rewrite Hr. cbn [default].
  destruct (parms_known r (list_elem_of_lookup_2 _ i _ Hr)) as [o Ho]. simpl. rewrite Ho.
  by apply (args_in_regs i v r o).
Qed.
End entry.

(** [BPF_KRETPROBE] hands over at most the return value. *)
Lemma kretprobe_passes_return_value params ctx rc o :
  offset (t_cast t) (t_rc t) = Some o -> mem (ctx + o) = Some rc ->
  BPF_KRETPROBE c offset mem probe params ctx
  = if decide (length params <= 1)%nat then vs ← converted params [rc]; Some (ctx, vs) else None.
Proof using target.
  intros Ho Hm. unfold BPF_KRETPROBE, bpf_kretprobe_args. unfold PT_REGS. rewrite with_target_is.
  rewrite (compiled_args 1 _ 1); [|lia| |lia].
  2:{ intros i _. simpl. by rewrite Ho. }
  case_decide as Hn; [|done]. cbn [mbind option_bind]. apply call_spec; [done|done|].
  intros i v Hi Hv. destruct i; [|simpl in *; lia]. simpl in Hv. injection Hv as <-.
  cbn [eval mbind option_bind which_reg]. by rewrite Ho.
Qed.

(** ** System calls *)
Section syscall.
Variables (ctx regs : Z) (args : list Z) (wrapper : bool).
Hypothesis syscall_parms_known : forall i r, t_syscall_parm t !! i = Some r ->
  is_Some (offset (syscall_struct t (i + 1)) r).
(** The system call's registers: with a syscall wrapper, the probed function's
    only argument points to them; without one, they are the probed context. *)
Hypothesis syscall_regs : exists o, offset (t_cast t) (PARM_REG t 1) = Some o
  /\ if wrapper then mem (ctx + o) = Some regs else regs = ctx.
Hypothesis args_in_regs : forall i v r o,
  args !! i = Some v -> t_syscall_parm t !! i = Some r -> offset (syscall_struct t (i + 1)) r = Some o ->
  mem (regs + o) = Some v.

Lemma syscall_register i v : (i < length (t_syscall_parm t))%nat -> args !! i = Some v ->
  exists o, offset (syscall_struct t (i + 1)) (PARM_SYSCALL_REG t (i + 1)) = Some o /\ mem (regs + o) = Some v.
Proof using syscall_parms_known args_in_regs.
  intros Hi Hv. destruct (lookup_lt_is_Some_2 (t_syscall_parm t) i Hi) as [r Hr].
  destruct (syscall_parms_known i r Hr) as [o Ho]. exists o. unfold PARM_SYSCALL_REG.
  rewrite Nat.add_sub, Hr. cbn [default]. eauto.
Qed.

(** Either list of arguments compiles when the target has enough registers. *)
Lemma syscall_compiled (acc : pt_struct -> expr -> reg -> expr) (params : list ctype) :
  acc = Member \/ acc = CoreRead ->
  compiled offset (bpf_apply 7
    (args_k (fun i => with_target c (fun _ t => acc (syscall_struct t (i + 1)) RegsVar (PARM_SYSCALL_REG t (i + 1))))) params)
  = if decide (length params <= syscall_count c a)%nat
    then Some (Ctx :: map (fun i => acc (syscall_struct t (i + 1)) RegsVar (PARM_SYSCALL_REG t (i + 1)))
                        (seq 0 (length params)))
    else None.
Proof using target unsupported_member syscall_parms_known.
  intros Hacc. destruct (table_sound c a) as (_ & <- & _).
  assert (forall i, compiles offset (acc (syscall_struct t (i + 1)) RegsVar (PARM_SYSCALL_REG t (i + 1)))
                    = bool_decide (i < length (t_syscall_parm t))%nat) as HC.
  { intros i. pose proof (compiles_parm i (syscall_struct t) (t_syscall_parm t) RegsVar (PARM_SYSCALL_REG t)
      eq_refl ltac:(done) (syscall_parms_known i)) as [H1 H2]. by destruct Hacc as [-> | ->]. }
  rewrite (compiled_args 7 _ (length (t_syscall_parm t))).
  - case_decide; [|done]. do 2 f_equal. apply map_ext. intros i. apply with_target_is.
  - split; [apply syscall_le_7|lia].
  - intros i Hi. rewrite with_target_is, HC. by apply bool_decide_eq_true.
  - intros _. rewrite with_target_is, HC. apply bool_decide_eq_false. lia.
Qed.

(** C26: [BPF_KSYSCALL].  Whether the kernel wraps its system calls or not, the
    program gets the context and the system call's arguments, in order, converted
    to the declared types, for up to the six or seven the target passes in
    registers; with more parameters it does not compile.  [PT_REGS_SYSCALL_REGS]
    finds the same registers on a kernel that is as the header assumes for the
    target. *)
Theorem ksyscall_passes_arguments params : (length params <= length args)%nat ->
  BPF_KSYSCALL c offset mem probe wrapper params ctx
  = (if decide (length params <= syscall_count c a)%nat then vs ← converted params args; Some (ctx, vs) else None)
  /\ (wrapper = negb (t_syscall_regs_is_ctx t) ->
      eval offset mem probe ctx 0 (PT_REGS_SYSCALL_REGS c Ctx) = Some regs).
Proof using All.
  intros Hl. destruct syscall_regs as (o1 & Ho1 & Hr). split.
  - unfold BPF_KSYSCALL, bpf_syscall_args, bpf_syswrap_args, PT_REGS_SYSCALL, PT_REGS_CORE_SYSCALL.
    rewrite (syscall_compiled CoreRead), (syscall_compiled Member) by auto.
    case_decide as Hn; [|done]. cbn [mbind option_bind]. unfold PT_REGS. rewrite !with_target_is.
    cbn [compiled compiles forallb andb which_reg]. rewrite Ho1. cbn [eval mbind option_bind].
    rewrite Ho1. cbn [mbind option_bind].
    assert (forall i v, (i < length params)%nat -> args !! i = Some v -> exists o,
      offset (syscall_struct t (i + 1)) (PARM_SYSCALL_REG t (i + 1)) = Some o /\ mem (regs + o) = Some v) as HA.
    { intros i v Hi. apply syscall_register. destruct (table_sound c a) as (_ & -> & _). lia. }
    destruct wrapper; [rewrite Hr|subst regs]; cbn [mbind option_bind]; (apply call_spec; [done|done|]);
      intros i v Hi Hv; destruct (HA i v Hi Hv) as (o & Ho & Hm); simpl; rewrite Ho; [|done].
    change (Some (probe 0 (regs + o)) = Some v). f_equal. by apply probe_reads.
  - intros ->. unfold PT_REGS_SYSCALL_REGS. rewrite target. destruct (t_syscall_regs_is_ctx t); simpl in *.
    + by subst regs.
    + unfold PT_REGS. rewrite with_target_is. simpl. by rewrite Ho1.
Qed.
End syscall.
End correct.

(** Without a target architecture no register can be read: no system call
    program compiles, and of the others only those that declare no parameter;
    [BPF_PROG] needs no target. *)
Theorem no_target_no_registers c offset mem probe params ctx wrapper :
  bpf_target c = None ->
  BPF_KSYSCALL c offset mem probe wrapper params ctx = None
  /\ (is_Some (BPF_KPROBE c offset mem probe params ctx) <-> params = [])
  /\ (is_Some (BPF_KRETPROBE c offset mem probe params ctx) <-> params = []).
Proof.
  intros H. unfold BPF_KSYSCALL, BPF_KPROBE, BPF_KRETPROBE, bpf_kprobe_args, bpf_kretprobe_args, PT_REGS, with_target.
  rewrite H. split_and!.
  - destruct (compiled offset (bpf_syswrap_args c params)); [|done].
    by destruct (compiled offset (bpf_syscall_args c params)).
  - rewrite args_expand by lia. destruct params as [|t ps]; [by split; eauto|].
    split; [|done]. intros [x Hx]. by case_decide.
  - rewrite args_expand by lia. destruct params as [|t ps]; [by split; eauto|].
    split; [|done]. intros [x Hx]. by case_decide.
Qed.

(** Where [BPF_KPROBE_READ_RET_IP] probes memory, it probes at the register that
    [PT_REGS_RET] names; only on x86 is that the stack pointer, with the return
    address on top of the stack.  Elsewhere it holds the return address itself,
    and the macro reads the instructions there. *)
Lemma ret_ip_probed c a : bpf_target c = Some a ->
  let t := table_of c a in
  (BPF_KPROBE_READ_RET_IP c = ProbeRead (Member (t_cast t) Ctx (t_ret t)) 0 <-> a ∉ [powerpc; sparc; arm64])
  /\ (t_ret t = t_sp t <-> a = x86).
Proof.
  intros H t. unfold t, BPF_KPROBE_READ_RET_IP, PT_REGS, with_target. rewrite !H. split.
  - destruct a; split; try done; try (intros _; set_solver); intros Hn; exfalso; apply Hn; set_solver.
  - table_cases c a; split; done.
Qed.
End Kprobe.

(** ** Witnesses: an x86 kernel *)
Module Example.
Import Regs Prog Kprobe.

Definition cpp0 : cpp :=
  mk_cpp (fun m => match m with TARGET_ARCH x86 | KERNEL | COMPILER x86 => true | _ => false end) 0.

Definition offset0 (s : pt_struct) (r : reg) : option Z :=
  match r with
  | R "r10" => Some 56 | R "r9" => Some 64 | R "r8" => Some 72 | R "ax" => Some 80
  | R "cx" => Some 88 | R "dx" => Some 96 | R "si" => Some 104 | R "di" => Some 112
  | _ => None
  end.

(** A probed function called with three arguments, at context 1000; and the
    registers of a system call, at 5000, passed to its wrapper at context 2000. *)
Definition mem0 (x : Z) : option Z :=
  match x with
  | 1112 | 5112 => Some (2 ^ 32 - 1) | 1104 | 5104 => Some 77 | 1096 | 5096 => Some 5 | 2112 => Some 5000 | _ => None
  end.
Definition probe0 (old x : Z) : Z := default old (mem0 x).
Definition params0 : list ctype := [CScalar K_int; CPtr false CVoid; CScalar K_u64].
Definition args0 : list Z := [2 ^ 32 - 1; 77; 5].

Lemma mem0_probed old x w : mem0 x = Some w -> probe0 old x = w.
Proof. unfold probe0. by intros ->. Qed.

Lemma parm0_known i r : t_parm x86_kernel !! i = Some r -> is_Some (offset0 pt_regs r).
Proof. intros H. do 6 (destruct i as [|i]; [simpl in H; simplify_eq; simpl; eauto|]). done. Qed.

Lemma syscall0_known i r : t_syscall_parm x86_kernel !! i = Some r ->
  is_Some (offset0 (syscall_struct x86_kernel (i + 1)) r).
Proof. intros H. do 6 (destruct i as [|i]; [simpl in H; simplify_eq; simpl; eauto|]). done. Qed.

Lemma kprobe_passes_arguments_witness :
  BPF_KPROBE cpp0 offset0 mem0 probe0 params0 1000 = Some (1000, [-1; 77; 5]).
Proof.
  rewrite (kprobe_passes_arguments cpp0 x86 offset0 mem0 probe0 eq_refl (fun _ => eq_refl) 1000 args0).
  - vm_compute. reflexivity.
  - intros r [i Hi]%list_elem_of_lookup. by apply (parm0_known i).
  - intros i v r o Hv Hr Ho. destruct i as [|[|[|i]]]; simpl in *; simplify_eq; simpl in *; simplify_eq; done.
  - simpl. lia.
Defined.

Lemma ksyscall_passes_arguments_witness :
  BPF_KSYSCALL cpp0 offset0 mem0 probe0 true params0 2000 = Some (2000, [-1; 77; 5]).
Proof.
  rewrite (proj1 (ksyscall_passes_arguments cpp0 x86 offset0 mem0 probe0 eq_refl (fun _ => eq_refl)
    mem0_probed 2000 5000 args0 true syscall0_known (ex_intro _ 112 (conj eq_refl eq_refl))
    ltac:(intros i v r o Hv Hr Ho; destruct i as [|[|[|i]]]; simpl in *; simplify_eq; simpl in *; simplify_eq; done)
    params0 ltac:(simpl; lia))).
  vm_compute. reflexivity.
Defined.

Lemma no_target_no_registers_witness :
  BPF_KSYSCALL (mk_cpp (fun _ => false) 64) offset0 mem0 probe0 true [] 2000 = None.
Proof.
  exact (proj1 (no_target_no_registers (mk_cpp (fun _ => false) 64) offset0 mem0 probe0 [] 2000 true eq_refl)).
Defined.

(** [BPF_PROG2(f, struct pair, a, int, b)] on a context of three slots. *)
Definition pair0 : ctype := CStruct [("x", CScalar K_u64); ("y", CScalar K_u64)].
Definition ps0 : list (string * ctype) := [("a", pair0); ("b", CScalar K_int)].
Definition slots0 (x : Z) : option Z :=
  match x with 0 => Some 11 | 8 => Some 22 | 16 => Some (2 ^ 40 + 33) | _ => None end.

Lemma prog2_reads_arguments_witness : BPF_PROG2_run slots0 0 (flatten ps0) = Some [[11; 22]; [33]].
Proof.
  rewrite (proj1 (prog2_reads_arguments slots0 0 ps0) [([11; 22], [11; 22]); ([2 ^ 40 + 33], [33])]).
  - reflexivity.
  - constructor; [apply (stored_two pair0 11 22 eq_refl)|]. constructor; [|constructor].
    apply (stored_one (CScalar K_int) (2 ^ 40 + 33)). unfold sizeof. simpl. set_solver.
  - intros i w H. destruct i as [|[|[|i]]]; simpl in H; simplify_eq; done.
Defined.

Lemma prog2_expands : exists us, BPF_PROG2 (flatten ps0) = Some (ps0, us).
Proof. eexists. reflexivity. Qed.

Lemma prog2_well_typed_witness : exists us, BPF_PROG2 (flatten ps0) = Some (ps0, us) /\ map ua_type us = [pair0; CScalar K_int].
Proof.
  destruct prog2_expands as [us H]. exists us. split; [exact H|].
  exact (proj1 (proj2 (proj2 (prog2_well_typed (flatten ps0) ps0 us H)))).
Defined.

Lemma prog2_agrees_with_prog_witness : exists vs us,
  BPF_PROG slots0 0 [CScalar K_u8; CScalar K_int] = Some (0, vs)
  /\ BPF_PROG2_run slots0 0 (flatten [("a", CScalar K_u8); ("b", CScalar K_int)]) = Some us
  /\ converted [CScalar K_u8; CScalar K_int] (map (hd 0) us) = Some vs.
Proof.
  apply (prog2_agrees_with_prog slots0 0 [("a", CScalar K_u8); ("b", CScalar K_int)] [11; 22]).
  - repeat constructor; simpl; eauto.
  - reflexivity.
  - simpl. lia.
  - intros i w H. destruct i as [|[|i]]; simpl in H; simplify_eq; done.
Defined.
End Example.
