(* ===== verification/BpfCoreVariants.v ===== *)
(** * The other CO-RE macros ([pkg/ebpf/headers/bpf/bpf_core_read.h])

    [Module Relo]: the macros that ask libbpf about fields, types and enumerators
    of the running kernel; a macro expands to a relocation, and its answer is a
    parameter.  [Module Reads]: the readers [bpf_core_read], [..._user], [..._str]
    and the family of macros that chase pointers with them, kernel or user, string
    or not, relocated or not. *)
From S2P Require Import Prelude CTypes BpfHelperDefs BpfHelpers BpfCoreRead.
#[local] Open Scope string_scope.
#[local] Open Scope list_scope.
#[local] Open Scope Z_scope.

Module Relo.
Import Bitfield.

Inductive compiler := Clang | Gcc.

(** A macro argument: a field access [p->f], a type name, or a plain name. *)
Inductive marg := MArrow (p f : string) | MType (t : string) | MName (x : string).

(** The typed pointers [___bpf_typeof] makes: a null pointer, or a fresh external
    variable, numbered by [__COUNTER__]. *)
Inductive type_ptr := NullPtr (t : string) | ExternPtr (t : string) (nr : nat).

Definition bpf_typeof (cc : compiler) (counter : nat) (t : string) : type_ptr :=
  match cc with Clang => NullPtr t | Gcc => ExternPtr t counter end.

Definition pointee (q : type_ptr) : string := match q with NullPtr t | ExternPtr t _ => t end.

(** A field reference: a field of a variable or of a typed pointer, by name or by
    address. *)
Inductive field_ref :=
  | RefVar (by_address : bool) (p f : string) | RefType (by_address : bool) (q : type_ptr) (f : string).

Definition by_address (cc : compiler) : bool := match cc with Clang => false | Gcc => true end.

(** [___bpf_field_ref(args...)]: [___bpf_field_ref1] and [___bpf_field_ref2]. *)
Definition bpf_field_ref (cc : compiler) (counter : nat) (args : list marg) : option field_ref :=
  match Printk.bpf_narg args, args with
  | Some (Printk.TNum 1), [MArrow p f] => Some (RefVar (by_address cc) p f)
  | Some (Printk.TNum 2), [MType t; MName f] => Some (RefType (by_address cc) (bpf_typeof cc counter t) f)
  | _, _ => None
  end.

(** The relocations the built-ins produce. *)
Inductive relo :=
  | FieldInfo (r : field_ref) (k : bpf_field_info_kind)     (* __builtin_preserve_field_info *)
  | TypeId (t : string) (k : bpf_type_id_kind)              (* __builtin_btf_type_id *)
  | TypeInfo (t : string) (k : bpf_type_info_kind)          (* __builtin_preserve_type_info *)
  | EnumValue (t v : string) (k : bpf_enum_value_kind).     (* __builtin_preserve_enum_value *)

Section macros.
Variables (cc : compiler) (counter : nat).

Definition bpf_core_field_exists (args : list marg) : option relo :=
  r ← bpf_field_ref cc counter args; Some (FieldInfo r BPF_FIELD_EXISTS).
Definition bpf_core_field_size (args : list marg) : option relo :=
  r ← bpf_field_ref cc counter args; Some (FieldInfo r BPF_FIELD_BYTE_SIZE).
Definition bpf_core_field_offset (args : list marg) : option relo :=
  r ← bpf_field_ref cc counter args; Some (FieldInfo r BPF_FIELD_BYTE_OFFSET).

Definition bpf_core_type_id_local (t : string) : relo := TypeId (pointee (bpf_typeof cc counter t)) BPF_TYPE_ID_LOCAL.
Definition bpf_core_type_id_kernel (t : string) : relo := TypeId (pointee (bpf_typeof cc counter t)) BPF_TYPE_ID_TARGET.
Definition bpf_core_type_exists (t : string) : relo := TypeInfo (pointee (bpf_typeof cc counter t)) BPF_TYPE_EXISTS.
Definition bpf_core_type_matches (t : string) : relo := TypeInfo (pointee (bpf_typeof cc counter t)) BPF_TYPE_MATCHES.
Definition bpf_core_type_size (t : string) : relo := TypeInfo (pointee (bpf_typeof cc counter t)) BPF_TYPE_SIZE.

Definition enum_type (t : string) : string :=
  match cc with Clang => t | Gcc => pointee (bpf_typeof cc counter t) end.
Definition bpf_core_enum_value_exists (t v : string) : relo := EnumValue (enum_type t) v BPF_ENUMVAL_EXISTS.
Definition bpf_core_enum_value (t v : string) : relo := EnumValue (enum_type t) v BPF_ENUMVAL_VALUE.
End macros.

(** ** Answers *)
Section answers.
(** The declared struct type of a pointer variable, and what libbpf finds in the
    kernel's BTF for a field of a type. *)
Variable type_of : string -> string.
Variable field_info : string -> string -> bpf_field_info_kind -> Z.
Variable type_id : string -> bpf_type_id_kind -> Z.
Variable type_info : string -> bpf_type_info_kind -> Z.
Variable enum_info : string -> string -> bpf_enum_value_kind -> Z.

Definition resolve (r : relo) : Z :=
  match r with
  | FieldInfo (RefVar _ p f) k => field_info (type_of p) f k
  | FieldInfo (RefType _ q f) k => field_info (pointee q) f k
  | TypeId t k => type_id t k
  | TypeInfo t k => type_info t k
  | EnumValue t v k => enum_info t v k
  end.

(** [bpf_core_cast(ptr, type)]: [bpf_rdonly_cast] on the kernel's type id. *)
Definition bpf_core_cast (rdonly_cast : Z -> Z -> Z) (cc : compiler) (counter : nat) (ptr : Z) (t : string) : Z :=
  rdonly_cast ptr (resolve (bpf_core_type_id_kernel cc counter t)).

(** The two forms of the field macros are interchangeable, and every macro gives
    the same answer with either compiler and any counter. *)
Theorem field_macros_two_forms cc cc' n n' p f k :
  let ask c i args := resolve <$> (r ← bpf_field_ref c i args; Some (FieldInfo r k)) in
  ask cc n [MArrow p f] = Some (field_info (type_of p) f k)
  /\ ask cc' n' [MType (type_of p); MName f] = ask cc n [MArrow p f]
  /\ (forall args, (2 < length args)%nat -> ask cc n args = None).
Proof.
  cbv zeta. split_and!; [done|by destruct cc'|].
  intros args Hn. unfold bpf_field_ref. destruct args as [|a [|b [|c args]]]; simpl in Hn; try lia.
  destruct (Printk.bpf_narg _) as [[|[|[|[]]]| |]|]; simpl; destruct a, b; done.
Qed.
End answers.
End Relo.

(** ** Reading through pointers *)
Module Reads.
Import Chase.

(** A reader: the helper it calls, and whether [__builtin_preserve_access_index]
    makes its source address relocatable. *)
Record reader := mk_reader { r_helper : helper; r_relocated : bool }.

Definition bpf_core_read : reader := mk_reader bpf_probe_read_kernel true.
Definition bpf_core_read_user : reader := mk_reader bpf_probe_read_user true.
Definition bpf_core_read_str : reader := mk_reader bpf_probe_read_kernel_str true.
Definition bpf_core_read_user_str : reader := mk_reader bpf_probe_read_user_str true.

(** The helpers used as readers by the non-CO-RE macros. *)
Definition plain (h : helper) : reader := mk_reader h false.

(** One [___read(read_fn, dst, src_type, src, accessor)]: it fills the pointer
    temporary [__t] or the destination, with [sizeof] of what it fills, from an
    accessor of the source or of [__t]. *)
Inductive dest := T | Dst.
Record read := mk_read { rd_fn : reader; rd_dst : dest; rd_size : Z; rd_from : step }.

(** The expansion of [___core_read(fn, fn_ptr, dst, src, a, ...)]. *)
Definition reads (fn fn_ptr : reader) (sizeof_dst : Z) (accs : list Z) : option (list read) :=
  '(ss, l) ← core_read Src (map Field accs);
  Some (map (mk_read fn_ptr T 8) ss ++ [mk_read fn Dst sizeof_dst l]).

(** What a helper leaves in its destination and returns, given the size, the
    address and what the destination held, for the two kinds of destination. *)
Section exec.
Context {D : Type}.
Variable read_ptr : helper -> Z -> Z -> Z.
Variable read_dst : helper -> Z -> Z -> D -> D * Z.

(** The reads in order: the temporary, the destination, and the value of the
    statement expression, the last read's return value. *)
Fixpoint run_reads (rs : list read) (src t : Z) (dst : D) (ret : Z) : Z * D * Z :=
  match rs with
  | [] => (t, dst, ret)
  | r :: rs =>
      let addr := step_addr src t (rd_from r) in
      match rd_dst r with
      | T => run_reads rs src (read_ptr (r_helper (rd_fn r)) t addr) dst ret
      | Dst => let '(dst, ret) := read_dst (r_helper (rd_fn r)) (rd_size r) addr dst in
               run_reads rs src t dst ret
      end
  end.

Definition into (fn fn_ptr : reader) (sizeof_dst src : Z) (accs : list Z) (t : Z) (dst : D) : option (D * Z) :=
  rs ← reads fn fn_ptr sizeof_dst accs;
  let '(_, dst, ret) := run_reads rs src t dst 0 in Some (dst, ret).

Definition BPF_CORE_READ_INTO := into bpf_core_read bpf_core_read.
Definition BPF_CORE_READ_USER_INTO := into bpf_core_read_user bpf_core_read_user.
Definition BPF_PROBE_READ_INTO := into (plain bpf_probe_read_kernel) (plain bpf_probe_read_kernel).
Definition BPF_PROBE_READ_USER_INTO := into (plain bpf_probe_read_user) (plain bpf_probe_read_user).
Definition BPF_CORE_READ_STR_INTO := into bpf_core_read_str bpf_core_read.
Definition BPF_CORE_READ_USER_STR_INTO := into bpf_core_read_user_str bpf_core_read_user.
Definition BPF_PROBE_READ_STR_INTO := into (plain bpf_probe_read_kernel_str) (plain bpf_probe_read_kernel).
Definition BPF_PROBE_READ_USER_STR_INTO := into (plain bpf_probe_read_user_str) (plain bpf_probe_read_user).

(** [___type((src), a, ...) __r; INTO(&__r, (src), a, ...); __r;] *)
Definition value (INTO : Z -> Z -> list Z -> Z -> D -> option (D * Z)) (sizeof_r src : Z) (accs : list Z) (t : Z)
  (r : D) : option D :=
  _ ← arrow (Src :: map Field accs); '(r, _) ← INTO sizeof_r src accs t r; Some r.

Definition BPF_CORE_READ := value BPF_CORE_READ_INTO.
Definition BPF_CORE_READ_USER := value BPF_CORE_READ_USER_INTO.
Definition BPF_PROBE_READ := value BPF_PROBE_READ_INTO.
Definition BPF_PROBE_READ_USER := value BPF_PROBE_READ_USER_INTO.

(** ** The reference *)

(** The macro of each combination. *)
Definition into_macro (core user str : bool) :=
  match core, user, str with
  | true, false, false => BPF_CORE_READ_INTO
  | true, true, false => BPF_CORE_READ_USER_INTO
  | false, false, false => BPF_PROBE_READ_INTO
  | false, true, false => BPF_PROBE_READ_USER_INTO
  | true, false, true => BPF_CORE_READ_STR_INTO
  | true, true, true => BPF_CORE_READ_USER_STR_INTO
  | false, false, true => BPF_PROBE_READ_STR_INTO
  | false, true, true => BPF_PROBE_READ_USER_STR_INTO
  end.

Definition value_macro (core user : bool) :=
  match core, user with
  | true, false => BPF_CORE_READ
  | true, true => BPF_CORE_READ_USER
  | false, false => BPF_PROBE_READ
  | false, true => BPF_PROBE_READ_USER
  end.

Definition helper_of (user str : bool) : helper :=
  match user, str with
  | false, false => bpf_probe_read_kernel
  | true, false => bpf_probe_read_user
  | false, true => bpf_probe_read_kernel_str
  | true, true => bpf_probe_read_user_str
  end.

(** The two memories, as far as pointers can be read from them. *)
Variable deref : bool -> Z -> option Z.
Hypothesis read_ptr_reads : forall user old a w,
  deref user a = Some w -> read_ptr (helper_of user false) old a = w.

Lemma run_ptr_reads user core accs : forall src t v rest dst ret,
  deref_chain (deref user) t accs = Some v ->
  run_reads (map (mk_read (mk_reader (helper_of user false) core) T 8) (map (fun o => FromT (Field o)) accs) ++ rest)
    src t dst ret
  = run_reads rest src v dst ret.
Proof using read_ptr_reads.
  induction accs as [|o accs IH]; intros src t v rest dst ret H; simpl in H; [by simplify_eq|].
  destruct (deref user (t + o)) as [q|] eqn:E; [|done]. simpl in H.
  cbn [map app run_reads rd_dst rd_fn rd_from r_helper step_addr arg_off].
  rewrite (read_ptr_reads user t _ q E). by apply IH.
Qed.

Lemma into_runs user str core sz src init l t dst v : (length init <= 9)%nat ->
  deref_chain (deref user) src init = Some v ->
  into (mk_reader (helper_of user str) core) (mk_reader (helper_of user false) core) sz src (init ++ [l]) t dst
  = Some (read_dst (helper_of user str) sz (v + l) dst).
Proof using read_ptr_reads.
  intros Hl Hd. unfold into, reads. destruct init as [|a init].
  - simpl in Hd. injection Hd as <-. cbn [app]. rewrite (core_read_plan l []) by (simpl; lia).
    cbn. by destruct (read_dst _ sz (src + l) dst).
  - cbn [app]. rewrite (core_read_plan a (init ++ [l])) by (rewrite length_app; simpl in *; lia).
    unfold plan. rewrite last_snoc, length_app. simpl length. rewrite Nat.add_sub, take_app_length.
    cbn [mbind option_bind map app]. simpl in Hd. destruct (deref user (src + a)) as [q|] eqn:E; [|done].
    simpl in Hd. cbn [run_reads rd_dst rd_fn rd_from r_helper step_addr arg_off].
    rewrite (read_ptr_reads user t _ q E), (run_ptr_reads user core init src q v) by done.
    cbn. by destruct (read_dst _ sz (v + l) dst).
Qed.

Lemma into_macro_readers core user str :
  into_macro core user str = into (mk_reader (helper_of user str) core) (mk_reader (helper_of user false) core).
Proof using. by destruct core, user, str. Qed.

Lemma core_read_bad_count accs : (length accs = 0 \/ 10 < length accs)%nat -> core_read Src (map Field accs) = None.
Proof using.
  intros [Hn|Hn]; [by destruct accs|]. destruct accs as [|a rest]; [done|]. simpl in Hn.
  do 10 (destruct rest as [|? rest]; [simpl in Hn; lia|]).
  destruct rest as [|? [|? rest]]; reflexivity.
Qed.

(** C31: the whole family.  With accessors [a1, ..., an, l], up to ten, each [INTO]
    macro follows [src->a1->...->an] in its own address space, kernel or user, and
    the final read, by the string reader exactly for the [STR] macros, fills the
    destination from the address of [->l] and gives its return value; with up to
    nine, the [BPF_CORE_READ]-like macros give what that read left.  Every access
    is relocated exactly in the CO-RE macros.  With no accessor or more than ten
    (nine) they do not expand. *)
Theorem read_family_dereferences core user str sz src t dst :
  (forall init l v, (length init <= 9)%nat -> deref_chain (deref user) src init = Some v ->
     into_macro core user str sz src (init ++ [l]) t dst = Some (read_dst (helper_of user str) sz (v + l) dst))
  /\ (forall init l v, (length init <= 8)%nat -> deref_chain (deref user) src init = Some v ->
     value_macro core user sz src (init ++ [l]) t dst = Some (fst (read_dst (helper_of user false) sz (v + l) dst)))
  /\ (forall accs rs, reads (mk_reader (helper_of user str) core) (mk_reader (helper_of user false) core) sz accs = Some rs ->
        Forall (fun r => r_relocated (rd_fn r) = core) rs)
  /\ (forall accs, (length accs = 0 \/ 10 < length accs)%nat -> into_macro core user str sz src accs t dst = None)
  /\ (forall accs, (length accs = 0 \/ 9 < length accs)%nat -> value_macro core user sz src accs t dst = None).
Proof using read_ptr_reads.
  assert (value_macro core user = value (into_macro core user false)) as -> by by destruct core, user.
  rewrite !into_macro_readers. split_and!.
  - intros init l v Hl Hd. by apply into_runs.
  - intros init l v Hl Hd. unfold value, arrow.
    rewrite narg_small by (simpl; rewrite length_map, length_app; simpl; lia).
    cbn [apply_]. unfold arrow_k.
    rewrite decide_True by (simpl; rewrite length_map, length_app; simpl; lia). cbn [mbind option_bind].
    rewrite (into_runs user false core sz src init l t dst v) by (done || lia). cbn [mbind option_bind].
    by destruct (read_dst _ sz (v + l) dst).
  - intros accs rs H. unfold reads in H. destruct (core_read Src (map Field accs)) as [[ss l]|]; [|done].
    simpl in H. simplify_eq. apply Forall_app. split; [|by repeat constructor].
    apply Forall_map, Forall_true. done.
  - intros accs Hn. unfold into, reads. by rewrite core_read_bad_count.
  - intros accs [Hn|Hn]; unfold value.
    + destruct accs; [|done]. unfold into, reads. rewrite core_read_bad_count by auto.
      by destruct (arrow _).
    + unfold arrow. destruct (narg_large (Src :: map Field accs)) as [x ->]; [simpl; rewrite length_map; lia|done].
Qed.
End exec.
End Reads.

(** ** Witness: user memory where every address [a] below 1000 holds [a + 100] *)
Module ReadsExample.
Import Chase Reads.

Definition deref0 (user : bool) (a : Z) : option Z :=
  if user then (if decide (a < 1000) then Some (a + 100) else None) else None.
Definition read_ptr0 (h : helper) (old a : Z) : Z :=
  if decide (h_id h = h_id bpf_probe_read_user) then default 0 (deref0 true a) else 0.
Definition read_dst0 (h : helper) (size a : Z) (old : Z) : Z * Z := (h_id h * 10000 + a, size).

Lemma read_ptr0_reads user old a w : deref0 user a = Some w -> read_ptr0 (helper_of user false) old a = w.
Proof. destruct user; [|done]. unfold read_ptr0. intros H. simpl helper_of. by rewrite decide_True, H by done. Qed.

Lemma read_family_dereferences_witness :
  BPF_CORE_READ_USER_STR_INTO read_ptr0 read_dst0 16 16 [8; 0; 24] 77 0 = Some (1140248, 16).
Proof.
  exact (proj1 (read_family_dereferences read_ptr0 read_dst0 deref0 read_ptr0_reads true true true 16 16 77 0)
    [8; 0] 24 224 ltac:(simpl; lia) eq_refl).
Defined.
End ReadsExample.
