(* ===== verification/Float64.v ===== *)
(** * IEEE 754 binary64, for the Go code's [float64]

    Every finite binary64 value is an integer multiple of 2^-1074, so a finite
    value is held as that integer; an operation is the exact one on rationals
    followed by one rounding to nearest, ties to even.  The file gives the
    operations the Go code uses ([+], [-], [*], [/], comparisons, conversions
    from and to [int64], [math.Round]) and what the scoring proofs need of them:
    results are representable, rounding is monotone and keeps representable
    values, and so the operations are monotone in each argument. *)
From S2P Require Import Prelude.

(** [Fin k] is [k * 2^-1074]; the negative zero is apart. *)
Inductive f64 := NaN | Inf (neg : bool) | NegZero | Fin (k : Z).

#[global] Instance f64_eq_dec : EqDecision f64.
Proof. solve_decision. Defined.

Definition one_units : Z := 2 ^ 1074.
(** 2^1024, the first magnitude that overflows. *)
Definition limit_units : Z := 2 ^ 2098.

(** ** Rounding *)

(** The integer nearest to [n / d], ties to even, for [0 <= n] and [0 < d]. *)
Definition rne (n d : Z) : Z :=
  let q := n / d in
  let r := n mod d in
  if 2 * r <? d then q else if d <? 2 * r then q + 1 else if Z.even q then q else q + 1.

(** The spacing of the binary64 values around [n / d] (in units). *)
Definition ulp_exp (n d : Z) : Z := Z.max 0 (Z.log2 (n / d) - 52).

Definition rnd_units (n d : Z) : Z := rne n (d * 2 ^ ulp_exp n d) * 2 ^ ulp_exp n d.

Definition signed_units (neg : bool) (k : Z) : f64 :=
  if k =? 0 then if neg then NegZero else Fin 0 else Fin (if neg then - k else k).

(** The binary64 value of [(-1)^neg * n / d] units. *)
Definition round (neg : bool) (n d : Z) : f64 :=
  let k := rnd_units n d in
  if k <? limit_units then signed_units neg k else Inf neg.

Definition units (x : f64) : Z := match x with Fin k => k | _ => 0 end.

Definition sign (x : f64) : bool :=
  match x with NaN => false | Inf s => s | NegZero => true | Fin k => k <? 0 end.

Definition is_zero (x : f64) : bool :=
  match x with NegZero => true | Fin k => k =? 0 | _ => false end.

(** ** Operations *)
Definition of_int64 (z : Z) : f64 := round (z <? 0) (Z.abs z * one_units) 1.

Definition fneg (x : f64) : f64 :=
  match x with
  | NaN => NaN
  | Inf s => Inf (negb s)
  | NegZero => Fin 0
  | Fin k => if k =? 0 then NegZero else Fin (- k)
  end.

Definition fadd (x y : f64) : f64 :=
  match x, y with
  | NaN, _ | _, NaN => NaN
  | Inf s, Inf t => if Bool.eqb s t then Inf s else NaN
  | Inf s, _ | _, Inf s => Inf s
  | NegZero, NegZero => NegZero
  | _, _ => let s := units x + units y in
            if s =? 0 then Fin 0 else round (s <? 0) (Z.abs s) 1
  end.

Definition fsub (x y : f64) : f64 := fadd x (fneg y).

Definition fmul (x y : f64) : f64 :=
  let s := xorb (sign x) (sign y) in
  match x, y with
  | NaN, _ | _, NaN => NaN
  | Inf _, _ => if is_zero y then NaN else Inf s
  | _, Inf _ => if is_zero x then NaN else Inf s
  | _, _ => round s (Z.abs (units x) * Z.abs (units y)) one_units
  end.

Definition fdiv (x y : f64) : f64 :=
  let s := xorb (sign x) (sign y) in
  match x, y with
  | NaN, _ | _, NaN => NaN
  | Inf _, Inf _ => NaN
  | Inf _, _ => Inf s
  | _, Inf _ => signed_units s 0
  | _, _ =>
      if is_zero y then (if is_zero x then NaN else Inf s)
      else round s (Z.abs (units x) * one_units) (Z.abs (units y))
  end.

(** Comparisons; all are false on a NaN. *)
Definition fleb (x y : f64) : bool :=
  match x, y with
  | NaN, _ | _, NaN => false
  | Inf true, _ | _, Inf false => true
  | Inf false, _ | _, Inf true => false
  | _, _ => units x <=? units y
  end.

Definition is_nan (x : f64) : bool := match x with NaN => true | _ => false end.
Definition fltb (x y : f64) : bool := negb (is_nan x) && negb (is_nan y) && negb (fleb y x).

(** [math.Round]: to the nearest integer, halves away from zero. *)
Definition math_round (x : f64) : f64 :=
  match x with
  | Fin k => signed_units (k <? 0)
               ((2 * Z.abs k + one_units) / (2 * one_units) * one_units)
  | _ => x
  end.

(** [int64(x)] truncates; for a NaN or a value out of range the result depends
    on the implementation, and is a parameter. *)
Definition to_int64 (undef : f64 -> Z) (x : f64) : Z :=
  let t := Z.quot (units x) one_units in
  if is_nan x || negb (bool_decide (inS 64 t)) || (match x with Inf _ => true | _ => false end)
  then undef x else t.

Definition representable (k : Z) : Prop :=
  exists m e, 0 <= e /\ Z.abs m < 2 ^ 53 /\ k = m * 2 ^ e /\ Z.abs k < limit_units.

Definition f64_ok (x : f64) : Prop :=
  match x with Fin k => representable k | _ => True end.

(** ** Rounding is monotone and exact on representable values *)
Section rounding.
Implicit Types (n d k u : Z).

Lemma rne_mono n1 d1 n2 d2 :
  0 <= n1 -> 0 < d1 -> 0 <= n2 -> 0 < d2 -> n1 * d2 <= n2 * d1 -> rne n1 d1 <= rne n2 d2.
Proof.
  intros Hn1 Hd1 Hn2 Hd2 H. unfold rne.
  pose proof (Z.div_mod n1 d1 ltac:(lia)). pose proof (Z.mod_pos_bound n1 d1 Hd1).
  pose proof (Z.div_mod n2 d2 ltac:(lia)). pose proof (Z.mod_pos_bound n2 d2 Hd2).
  set (q1 := n1 / d1) in *. set (q2 := n2 / d2) in *.
  set (r1 := n1 mod d1) in *. set (r2 := n2 mod d2) in *.
  assert (q1 < q2 \/ q1 = q2 /\ r1 * d2 <= r2 * d1) as [Hlt | [<- Hr]].
  { rewrite H0, H2 in H.
    destruct (Z.lt_trichotomy q1 q2) as [?|[->|?]]; [by left | right; split; [done | lia] | exfalso].
    assert (d1 * d2 * 1 <= d1 * d2 * (q1 - q2)) by (apply Z.mul_le_mono_nonneg_l; nia).
    assert (r2 * d1 < d2 * d1) by (apply Z.mul_lt_mono_pos_r; lia).
    assert (0 <= r1 * d2) by nia. lia. }
  - destruct (2 * r1 <? d1), (d1 <? 2 * r1), (Z.even q1), (2 * r2 <? d2), (d2 <? 2 * r2), (Z.even q2);
      lia.
  - destruct (Z.ltb_spec (2 * r1) d1), (Z.ltb_spec (2 * r2) d2), (Z.ltb_spec d1 (2 * r1)),
      (Z.ltb_spec d2 (2 * r2)), (Z.even q1); nia.
Qed.

Lemma rne_exact k d : 0 < d -> rne (k * d) d = k.
Proof.
  intros. unfold rne. rewrite Z.div_mul, Z.mod_mul by lia.
  by rewrite (proj2 (Z.ltb_lt (2 * 0) d)) by lia.
Qed.

Lemma rne_nonneg n d : 0 <= n -> 0 < d -> 0 <= rne n d.
Proof.
  intros. replace 0 with (rne (0 * d) d) by (by apply rne_exact).
  apply rne_mono; lia.
Qed.

Lemma rne_le n d k : 0 <= n -> 0 < d -> 0 <= k -> n <= k * d -> rne n d <= k.
Proof. intros. rewrite <- (rne_exact k d) by done. apply rne_mono; nia. Qed.

Lemma rne_ge n d k : 0 <= n -> 0 < d -> 0 <= k -> k * d <= n -> k <= rne n d.
Proof. intros. rewrite <- (rne_exact k d) by done. apply rne_mono; nia. Qed.

Lemma ulp_exp_nonneg n d : 0 <= ulp_exp n d.
Proof. unfold ulp_exp. lia. Qed.

Lemma ulp_exp_upper n d : 0 <= n -> 0 < d -> n < 2 ^ (53 + ulp_exp n d) * d.
Proof.
  intros Hn Hd. unfold ulp_exp. set (q := n / d).
  assert (q < 2 ^ (53 + Z.max 0 (Z.log2 q - 52))) as Hq.
  { destruct (decide (0 < q)) as [Hp|?].
    - pose proof (Z.log2_spec q Hp) as [_ Hs]. eapply Z.lt_le_trans; [exact Hs|].
      apply Z.pow_le_mono_r; lia.
    - apply Z.le_lt_trans with 0; [lia|]. apply Z.pow_pos_nonneg; lia. }
  pose proof (Z.div_mod n d ltac:(lia)). pose proof (Z.mod_pos_bound n d Hd).
  fold q in H. nia.
Qed.

Lemma ulp_exp_lower n d : 0 <= n -> 0 < d -> 0 < ulp_exp n d -> 2 ^ (52 + ulp_exp n d) * d <= n.
Proof.
  intros Hn Hd. unfold ulp_exp. set (q := n / d). intros Hu.
  assert (0 < q) as Hp.
  { destruct (decide (0 < q)); [done|]. rewrite Z.log2_nonpos in Hu by lia. lia. }
  pose proof (Z.log2_spec q Hp) as [Hs _].
  replace (52 + Z.max 0 (Z.log2 q - 52)) with (Z.log2 q) by lia.
  pose proof (Z.mul_div_le n d Hd). fold q in H. nia.
Qed.

Lemma ulp_exp_mono n1 d1 n2 d2 :
  0 <= n1 -> 0 < d1 -> 0 <= n2 -> 0 < d2 -> n1 * d2 <= n2 * d1 -> ulp_exp n1 d1 <= ulp_exp n2 d2.
Proof.
  intros. unfold ulp_exp.
  assert (n1 / d1 <= n2 / d2) as Hq.
  { apply Z.div_le_lower_bound; [done|].
    pose proof (Z.mul_div_le n1 d1 ltac:(done)). pose proof (Z.div_pos n1 d1). nia. }
  apply Z.log2_le_mono in Hq. lia.
Qed.

(** With the spacing fixed, rounding keeps within any bound on the grid. *)
Lemma rnd_units_le n d j :
  0 <= n -> 0 < d -> 0 <= j -> n <= 2 ^ (j + ulp_exp n d) * d -> rnd_units n d <= 2 ^ (j + ulp_exp n d).
Proof.
  intros Hn Hd Hj. unfold rnd_units. pose proof (ulp_exp_nonneg n d) as Hu.
  rewrite Z.pow_add_r by lia. pose proof (pow2_pos (ulp_exp n d) Hu).
  pose proof (pow2_pos j Hj). intros.
  apply Z.mul_le_mono_nonneg_r; [lia|]. apply rne_le; nia.
Qed.

Lemma rnd_units_ge n d j :
  0 <= n -> 0 < d -> 0 <= j -> 2 ^ (j + ulp_exp n d) * d <= n -> 2 ^ (j + ulp_exp n d) <= rnd_units n d.
Proof.
  intros Hn Hd Hj. unfold rnd_units. pose proof (ulp_exp_nonneg n d) as Hu.
  rewrite Z.pow_add_r by lia. pose proof (pow2_pos (ulp_exp n d) Hu).
  pose proof (pow2_pos j Hj). intros.
  apply Z.mul_le_mono_nonneg_r; [lia|]. apply rne_ge; nia.
Qed.

Lemma rnd_units_mono n1 d1 n2 d2 :
  0 <= n1 -> 0 < d1 -> 0 <= n2 -> 0 < d2 -> n1 * d2 <= n2 * d1 ->
  rnd_units n1 d1 <= rnd_units n2 d2.
Proof.
  intros Hn1 Hd1 Hn2 Hd2 H.
  pose proof (ulp_exp_mono _ _ _ _ Hn1 Hd1 Hn2 Hd2 H).
  pose proof (ulp_exp_nonneg n1 d1).
  destruct (decide (ulp_exp n1 d1 = ulp_exp n2 d2)) as [E|Hne].
  - unfold rnd_units. rewrite E. pose proof (pow2_pos (ulp_exp n2 d2) ltac:(lia)).
    apply Z.mul_le_mono_nonneg_r; [lia|]. apply rne_mono; nia.
  - transitivity (2 ^ (52 + ulp_exp n2 d2)).
    + set (j := 52 + ulp_exp n2 d2 - ulp_exp n1 d1).
      replace (52 + ulp_exp n2 d2) with (j + ulp_exp n1 d1) by lia.
      apply rnd_units_le; [done|done|lia|].
      pose proof (ulp_exp_upper n1 d1 Hn1 Hd1) as Hup.
      assert (2 ^ (53 + ulp_exp n1 d1) <= 2 ^ (j + ulp_exp n1 d1))
        by (apply Z.pow_le_mono_r; lia).
      nia.
    + apply rnd_units_ge; [done|done|lia|]. apply ulp_exp_lower; lia.
Qed.

Lemma rnd_units_nonneg n d : 0 <= n -> 0 < d -> 0 <= rnd_units n d.
Proof.
  intros. unfold rnd_units. pose proof (pow2_pos (ulp_exp n d) (ulp_exp_nonneg n d)).
  apply Z.mul_nonneg_nonneg; [|lia]. apply rne_nonneg; nia.
Qed.

Lemma rnd_units_exact k d : 0 <= k -> 0 < d -> representable k -> rnd_units (k * d) d = k.
Proof.
  intros Hk Hd (m & e & He & Hm & -> & _). unfold rnd_units.
  assert (exists j, m * 2 ^ e = j * 2 ^ ulp_exp (m * 2 ^ e * d) d) as [j Ej].
  { unfold ulp_exp. rewrite Z.div_mul by lia.
    destruct (decide (m = 0)) as [->|Hm0]; [by exists 0|].
    pose proof (pow2_pos e He). assert (0 < m) by nia.
    rewrite Z.log2_mul_pow2 by lia.
    assert (Z.log2 m < 53) by (apply Z.log2_lt_pow2; lia).
    set (u := Z.max 0 _). assert (u <= e) by lia. exists (m * 2 ^ (e - u)).
    rewrite <- Z.mul_assoc, <- Z.pow_add_r by lia. do 2 f_equal. lia. }
  set (u := ulp_exp _ _) in *. pose proof (pow2_pos u (ulp_exp_nonneg _ _)).
  rewrite Ej. replace (j * 2 ^ u * d) with (j * (d * 2 ^ u)) by lia.
  by rewrite rne_exact by nia.
Qed.

Lemma rnd_units_representable n d :
  0 <= n -> 0 < d -> rnd_units n d < limit_units -> representable (rnd_units n d).
Proof.
  intros Hn Hd Hlim. pose proof (rnd_units_nonneg n d Hn Hd) as Hpos.
  pose proof (ulp_exp_upper n d Hn Hd) as Hup. unfold rnd_units in *.
  pose proof (ulp_exp_nonneg n d) as Hu. set (u := ulp_exp n d) in *.
  pose proof (pow2_pos u Hu). rewrite Z.pow_add_r in Hup by lia.
  assert (rne n (d * 2 ^ u) <= 2 ^ 53) by (apply rne_le; nia).
  assert (0 <= rne n (d * 2 ^ u)) by (apply rne_nonneg; nia).
  destruct (decide (rne n (d * 2 ^ u) = 2 ^ 53)) as [E|?].
  - exists (2 ^ 52), (u + 1). split; [lia|]. split; [done|]. rewrite E in *.
    split; [|lia]. rewrite Z.pow_add_r by lia. lia.
  - exists (rne n (d * 2 ^ u)), u. split; [done|]. split; [lia|]. split; [done | lia].
Qed.
End rounding.

(** ** Order and monotonicity of the operations *)
Notation "x <=f y" := (fleb x y = true) (at level 70, no associativity) : akil_scope.

Definition finite (x : f64) : Prop := match x with Fin _ | NegZero => True | _ => False end.

Lemma fleb_finite x y : finite x -> finite y -> x <=f y <-> units x <= units y.
Proof. destruct x, y; simpl; try done; intros _ _; apply Z.leb_le. Qed.

Lemma fleb_refl x : x <> NaN -> x <=f x.
Proof. destruct x as [|[]| |]; try done. intros _. apply Z.leb_refl. Qed.

Lemma fleb_trans x y z : x <=f y -> y <=f z -> x <=f z.
Proof.
  destruct x as [|[]| |], y as [|[]| |], z as [|[]| |]; simpl; try done;
    rewrite ?Z.leb_le; lia.
Qed.

Lemma fleb_total x y : x <> NaN -> y <> NaN -> fleb x y = false -> y <=f x.
Proof.
  destruct x as [|[]| |], y as [|[]| |]; simpl; try done; rewrite ?Z.leb_gt, ?Z.leb_le; lia.
Qed.

Lemma fleb_not_nan x y : x <=f y -> x <> NaN /\ y <> NaN.
Proof. destruct x as [|[]| |], y as [|[]| |]; simpl; done. Qed.

Lemma fltb_spec x y : x <> NaN -> y <> NaN -> fltb x y = negb (fleb y x).
Proof. destruct x, y; done. Qed.

Lemma limit_pos : 0 < limit_units.
Proof. apply Z.pow_pos_nonneg; lia. Qed.

Lemma one_pos : 0 < one_units.
Proof. apply Z.pow_pos_nonneg; lia. Qed.

Lemma units_signed neg k : units (signed_units neg k) = if neg then - k else k.
Proof. unfold signed_units. destruct (Z.eqb_spec k 0) as [->|]; destruct neg; reflexivity. Qed.

Lemma finite_signed neg k : finite (signed_units neg k).
Proof. unfold signed_units. by destruct (k =? 0), neg. Qed.

Definition signed (neg : bool) (n : Z) : Z := if neg then - n else n.

Lemma round_mono b1 n1 d1 b2 n2 d2 :
  0 <= n1 -> 0 < d1 -> 0 <= n2 -> 0 < d2 -> signed b1 n1 * d2 <= signed b2 n2 * d1 ->
  round b1 n1 d1 <=f round b2 n2 d2.
Proof.
  intros Hn1 Hd1 Hn2 Hd2 H. unfold round.
  pose proof (rnd_units_nonneg n1 d1 Hn1 Hd1). pose proof (rnd_units_nonneg n2 d2 Hn2 Hd2).
  assert (b1 = false -> n1 * d2 <= signed b2 n2 * d1) as Hf by (by intros ->).
  destruct (Z.ltb_spec (rnd_units n1 d1) limit_units) as [L1|L1];
    destruct (Z.ltb_spec (rnd_units n2 d2) limit_units) as [L2|L2].
  - apply fleb_finite; [apply finite_signed..|]. rewrite !units_signed.
    destruct b1, b2; simpl in *; [| lia | | ].
    + apply Z.opp_le_mono. rewrite !Z.opp_involutive. apply rnd_units_mono; lia.
    + assert (n1 * d2 = 0 /\ n2 * d1 = 0) as [E1 E2] by nia.
      pose proof (rnd_units_mono n1 d1 0 1). pose proof (rnd_units_mono n2 d2 0 1).
      assert (rnd_units 0 1 = 0) by reflexivity. nia.
    + by apply rnd_units_mono.
  - destruct b2; simpl in *; [|by destruct (signed_units b1 (rnd_units n1 d1)) as [|[]| |] eqn:E;
      [by unfold signed_units in E; repeat case_match|..]].
    exfalso. assert (n2 * d1 <= n1 * d2) by (destruct b1; simpl in *; nia).
    pose proof (rnd_units_mono n2 d2 n1 d1 Hn2 Hd2 Hn1 Hd1 ltac:(done)). lia.
  - destruct b1; simpl in *; [by destruct (signed_units b2 (rnd_units n2 d2)) as [|[]| |] eqn:E;
      [by unfold signed_units in E; repeat case_match|..]|].
    exfalso. assert (n1 * d2 <= n2 * d1) by (destruct b2; simpl in *; nia).
    pose proof (rnd_units_mono n1 d1 n2 d2 Hn1 Hd1 Hn2 Hd2 ltac:(done)). lia.
  - destruct b1, b2; try done. exfalso. simpl in H.
    assert (n1 = 0) as -> by nia. assert (rnd_units 0 d1 <= 0); [|pose proof limit_pos; lia].
    change 0 with (rnd_units 0 1) at 2. apply rnd_units_mono; lia.
Qed.

(** A finite result: the exact ratio, rounded. *)
Definition rounds_to (z : f64) (s d : Z) : Prop :=
  exists b n, z = round b n d /\ 0 <= n /\ signed b n = s.

Lemma rounds_to_mono z1 s1 d1 z2 s2 d2 :
  rounds_to z1 s1 d1 -> rounds_to z2 s2 d2 -> 0 < d1 -> 0 < d2 -> s1 * d2 <= s2 * d1 -> z1 <=f z2.
Proof. intros (b1 & n1 & -> & ? & <-) (b2 & n2 & -> & ? & <-) ???. by apply round_mono. Qed.

Lemma round_not_nan b n d : round b n d <> NaN.
Proof. unfold round, signed_units. repeat case_match; done. Qed.

Lemma fadd_finite x y : finite x -> finite y -> rounds_to (fadd x y) (units x + units y) 1.
Proof.
  intros Hx Hy.
  assert (rounds_to (let s := units x + units y in
            if s =? 0 then Fin 0 else round (s <? 0) (Z.abs s) 1) (units x + units y) 1) as Hgen.
  { simpl. destruct (Z.eqb_spec (units x + units y) 0) as [->|?].
    - by exists false, 0.
    - exists (units x + units y <? 0), (Z.abs (units x + units y)). split; [done|]. split; [lia|].
      destruct (Z.ltb_spec (units x + units y) 0); simpl; lia. }
  destruct x, y; try done; try exact Hgen. by exists true, 0.
Qed.

Lemma signed_units_of x : finite x -> signed (sign x) (Z.abs (units x)) = units x.
Proof. destruct x as [| | |k]; simpl; try done. intros _. destruct (Z.ltb_spec k 0); simpl; lia. Qed.

Lemma fmul_finite x y : finite x -> finite y -> rounds_to (fmul x y) (units x * units y) one_units.
Proof.
  intros Hx Hy. exists (xorb (sign x) (sign y)), (Z.abs (units x) * Z.abs (units y)).
  split; [by destruct x, y|]. split; [lia|].
  rewrite <- (signed_units_of x), <- (signed_units_of y) by done.
  destruct (sign x), (sign y); simpl; lia.
Qed.

Lemma fdiv_finite x y : finite x -> finite y -> 0 < units y ->
  rounds_to (fdiv x y) (units x * one_units) (units y).
Proof.
  intros Hx Hy Hpos. pose proof one_pos. exists (sign x), (Z.abs (units x) * one_units).
  split; [|split; [lia|]].
  - destruct y as [| | |k]; try done. simpl in Hpos.
    assert ((k <? 0) = false) as E1 by lia. assert ((k =? 0) = false) as E2 by lia.
    assert (Z.abs k = k) as E3 by lia.
    destruct x; try done; unfold fdiv; cbn [is_zero sign units xorb];
      rewrite E1, E2, E3; [done | by rewrite xorb_false_r].
  - rewrite <- (signed_units_of x) at 2 by done. destruct (sign x); simpl; lia.
Qed.

(** Infinite arguments behave like arbitrarily large ones as long as no
    indeterminate form ([Inf - Inf], [0 * Inf]) arises. *)
Lemma finite_cases x : x <> NaN -> finite x \/ exists b, x = Inf b.
Proof. destruct x; try done; eauto; by left. Qed.

Lemma fleb_inf_top x : x <> NaN -> x <=f Inf false.
Proof. by destruct x as [|[]| |]. Qed.

Lemma fleb_inf_bot x : x <> NaN -> Inf true <=f x.
Proof. by destruct x as [|[]| |]. Qed.

Lemma fadd_inf_l b y : fadd (Inf b) y <> NaN -> fadd (Inf b) y = Inf b.
Proof. destruct y as [|c| |]; try done. by destruct b, c. Qed.

Lemma fadd_inf_r b x : fadd x (Inf b) <> NaN -> fadd x (Inf b) = Inf b.
Proof. destruct x as [|c| |]; try done. by destruct b, c. Qed.

Lemma fadd_mono x x' y y' :
  x <=f x' -> y <=f y' -> fadd x y <> NaN -> fadd x' y' <> NaN -> fadd x y <=f fadd x' y'.
Proof.
  intros Hx Hy N N'.
  destruct (fleb_not_nan _ _ Hx) as [X X'], (fleb_not_nan _ _ Hy) as [Y Y'].
  destruct (finite_cases x X) as [Fx|[[] ->]];
    [|by rewrite fadd_inf_l by done; apply fleb_inf_bot|
      destruct x' as [|[]| |]; try done; rewrite (fadd_inf_l _ y') by done; by apply fleb_inf_top].
  destruct (finite_cases y Y) as [Fy|[[] ->]];
    [|by rewrite fadd_inf_r by done; apply fleb_inf_bot|
      destruct y' as [|[]| |]; try done; rewrite (fadd_inf_r _ x') by done; by apply fleb_inf_top].
  destruct (finite_cases x' X') as [Fx'|[[] ->]];
    [|by destruct x|rewrite (fadd_inf_l _ y') by done; by apply fleb_inf_top].
  destruct (finite_cases y' Y') as [Fy'|[[] ->]];
    [|by destruct y|rewrite (fadd_inf_r _ x') by done; by apply fleb_inf_top].
  apply (rounds_to_mono _ _ _ _ _ _ (fadd_finite x y Fx Fy) (fadd_finite x' y' Fx' Fy')); [lia..|].
  apply fleb_finite in Hx, Hy; try done. lia.
Qed.

(** [pos_finite w]: a finite value above zero, such as the weights and the
    normalisation rates. *)
Definition pos_finite (w : f64) : Prop := finite w /\ 0 < units w.

Lemma pos_finite_fin w : pos_finite w -> exists k, w = Fin k /\ 0 < k.
Proof. intros [? ?]. destruct w; simpl in *; try done. eauto. Qed.

Lemma fmul_not_nan x w : x <> NaN -> pos_finite w -> fmul x w <> NaN.
Proof.
  intros Hx (k & -> & Hk)%pos_finite_fin. assert ((k =? 0) = false) as E by lia.
  destruct x; simpl; rewrite ?E; try done; apply round_not_nan.
Qed.

Lemma fdiv_not_nan x w : x <> NaN -> pos_finite w -> fdiv x w <> NaN.
Proof.
  intros Hx (k & -> & Hk)%pos_finite_fin. assert ((k =? 0) = false) as E by lia.
  destruct x; simpl; rewrite ?E; try done; apply round_not_nan.
Qed.

Lemma fmul_mono x x' w : x <=f x' -> pos_finite w -> fmul x w <=f fmul x' w.
Proof.
  intros Hx Hw. destruct (fleb_not_nan _ _ Hx) as [X X'].
  pose proof (fmul_not_nan x w X Hw) as N. pose proof (fmul_not_nan x' w X' Hw) as N'.
  destruct (pos_finite_fin w Hw) as (k & -> & Hk). assert ((k <? 0) = false) as E by lia.
  assert ((k =? 0) = false) as E0 by lia. pose proof one_pos.
  destruct (finite_cases x X) as [Fx|[b ->]]; destruct (finite_cases x' X') as [Fx'|[b' ->]].
  - apply (rounds_to_mono _ _ _ _ _ _ (fmul_finite x (Fin k) Fx I) (fmul_finite x' (Fin k) Fx' I)); [done..|].
    apply fleb_finite in Hx; try done. cbn [units].
    repeat (apply Z.mul_le_mono_nonneg_r; [lia|]). done.
  - destruct b'; [by destruct x|]. simpl. rewrite E0, E. by apply fleb_inf_top.
  - destruct b; [|by destruct x']. simpl. rewrite E0, E. by apply fleb_inf_bot.
  - simpl. rewrite E0, E. by destruct b, b'.
Qed.

Lemma fdiv_mono x x' w : x <=f x' -> pos_finite w -> fdiv x w <=f fdiv x' w.
Proof.
  intros Hx Hw. destruct (fleb_not_nan _ _ Hx) as [X X'].
  pose proof (fdiv_not_nan x w X Hw) as N. pose proof (fdiv_not_nan x' w X' Hw) as N'.
  destruct (pos_finite_fin w Hw) as (k & -> & Hk). assert ((k <? 0) = false) as E by lia.
  assert ((k =? 0) = false) as E0 by lia. pose proof one_pos.
  destruct (finite_cases x X) as [Fx|[b ->]]; destruct (finite_cases x' X') as [Fx'|[b' ->]].
  - apply (rounds_to_mono _ _ _ _ _ _ (fdiv_finite x (Fin k) Fx I Hk) (fdiv_finite x' (Fin k) Fx' I Hk)); [done..|].
    apply fleb_finite in Hx; try done. cbn [units].
    repeat (apply Z.mul_le_mono_nonneg_r; [lia|]). done.
  - destruct b'; [by destruct x|]. simpl. rewrite E. by apply fleb_inf_top.
  - destruct b; [|by destruct x']. simpl. rewrite E. by apply fleb_inf_bot.
  - simpl. rewrite E. by destruct b, b'.
Qed.

(** Non-negative values: closed under the operations, and never a NaN. *)
Definition nonneg (x : f64) : Prop := Fin 0 <=f x.

Lemma nonneg_not_nan x : nonneg x -> x <> NaN.
Proof. by intros [_ H]%fleb_not_nan. Qed.

Lemma fadd_nonneg x y : nonneg x -> nonneg y -> nonneg (fadd x y).
Proof.
  intros Hx Hy. change (fadd (Fin 0) (Fin 0) <=f fadd x y).
  apply fadd_mono; try done.
  destruct x as [|[]| |], y as [|[]| |]; simpl; try done; repeat case_match; try done;
    apply round_not_nan.
Qed.

Lemma round_zero b d : 0 < d -> round b 0 d = signed_units b 0.
Proof.
  intros Hd. unfold round.
  assert (rnd_units 0 d = 0) as ->.
  { pose proof (rnd_units_nonneg 0 d). pose proof (rnd_units_mono 0 d 0 1).
    assert (rnd_units 0 1 = 0) by reflexivity. lia. }
  by rewrite (proj2 (Z.ltb_lt 0 limit_units)) by apply limit_pos.
Qed.

Lemma signed_zero_nonneg b : nonneg (signed_units b 0).
Proof. by destruct b. Qed.

Lemma fmul_nonneg x w : nonneg x -> pos_finite w -> nonneg (fmul x w).
Proof.
  intros Hx Hw. eapply fleb_trans; [|exact (fmul_mono _ _ w Hx Hw)].
  destruct (pos_finite_fin w Hw) as (k & -> & Hk).
  unfold fmul. cbn [units Z.abs]. rewrite Z.mul_0_l, round_zero by apply one_pos.
  apply signed_zero_nonneg.
Qed.

Lemma fdiv_nonneg x w : nonneg x -> pos_finite w -> nonneg (fdiv x w).
Proof.
  intros Hx Hw. eapply fleb_trans; [|exact (fdiv_mono _ _ w Hx Hw)].
  destruct (pos_finite_fin w Hw) as (k & -> & Hk).
  unfold fdiv. cbn [units Z.abs is_zero]. rewrite (proj2 (Z.eqb_neq k 0)) by lia.
  rewrite Z.mul_0_l, round_zero by lia. apply signed_zero_nonneg.
Qed.

(** ** Clamping, rounding to an integer and converting *)

(** The whole number [z] as a value. *)
Definition whole (z : Z) : f64 := Fin (z * one_units).

Lemma units_fneg x : finite x -> finite (fneg x) /\ units (fneg x) = - units x.
Proof. destruct x as [| | |k]; simpl; try done. intros _. destruct (Z.eqb_spec k 0); simpl; lia. Qed.

Lemma fneg_not_nan x : x <> NaN -> fneg x <> NaN.
Proof. destruct x; simpl; try done; by case_match. Qed.

(** A map on values that fixes the infinities is monotone if it is on the finite ones. *)
Lemma lift_mono (f : f64 -> f64) x y :
  (forall b, f (Inf b) = Inf b) ->
  (forall z, finite z -> finite (f z)) ->
  (forall a b, finite a -> finite b -> units a <= units b -> units (f a) <= units (f b)) ->
  x <=f y -> f x <=f f y.
Proof.
  intros Hinf Hfin Hm H. destruct (fleb_not_nan _ _ H) as [X Y].
  assert (forall z, z <> NaN -> f z <> NaN) as Hn.
  { intros z [Fz|[b ->]]%finite_cases; [|by rewrite Hinf].
    pose proof (Hfin z Fz). by intros E; rewrite E in *. }
  destruct (finite_cases x X) as [Fx|[b ->]]; destruct (finite_cases y Y) as [Fy|[b' ->]].
  - apply fleb_finite in H; [|done..]. apply fleb_finite; auto.
  - destruct b'; [by destruct x|]. rewrite Hinf. by apply fleb_inf_top, Hn.
  - destruct b; [|by destruct y]. rewrite Hinf. by apply fleb_inf_bot, Hn.
  - by rewrite !Hinf.
Qed.

Lemma fneg_mono x y : x <=f y -> fneg y <=f fneg x.
Proof.
  intros H. destruct (fleb_not_nan _ _ H) as [X Y].
  destruct (finite_cases x X) as [Fx|[b ->]]; destruct (finite_cases y Y) as [Fy|[b' ->]].
  - destruct (units_fneg x Fx), (units_fneg y Fy).
    apply fleb_finite in H; [|done..]. apply fleb_finite; [done..|lia].
  - destruct b'; [by destruct x|]. by apply fleb_inf_bot, fneg_not_nan.
  - destruct b; [|by destruct y]. by apply fleb_inf_top, fneg_not_nan.
  - by destruct b, b'.
Qed.

(** The integer [math.Round] gives for [k] units. *)
Definition round_int (k : Z) : Z :=
  signed (k <? 0) ((2 * Z.abs k + one_units) / (2 * one_units)).

Lemma round_int_mono j k : j <= k -> round_int j <= round_int k.
Proof.
  intros H. unfold round_int. pose proof one_pos.
  assert (forall a, 0 <= (2 * Z.abs a + one_units) / (2 * one_units)) as Hp by
    (intros; apply Z.div_pos; lia).
  pose proof (Hp j). pose proof (Hp k).
  destruct (Z.ltb_spec j 0), (Z.ltb_spec k 0); cbn [signed]; [|lia|lia|].
  - apply Z.opp_le_mono. rewrite !Z.opp_involutive. apply Z.div_le_mono; lia.
  - apply Z.div_le_mono; lia.
Qed.

Lemma round_int_whole z : round_int (z * one_units) = z.
Proof.
  unfold round_int. pose proof one_pos.
  assert ((2 * Z.abs (z * one_units) + one_units) / (2 * one_units) = Z.abs z) as ->.
  { replace (2 * Z.abs (z * one_units) + one_units) with (one_units + Z.abs z * (2 * one_units)) by lia.
    rewrite Z.div_add by lia. rewrite Z.div_small by lia. lia. }
  destruct (Z.ltb_spec (z * one_units) 0); simpl; nia.
Qed.

Lemma math_round_finite x : finite x ->
  finite (math_round x) /\ units (math_round x) = round_int (units x) * one_units.
Proof.
  destruct x as [| | |k]; intros Fx; [destruct Fx|destruct Fx|..].
  - split; [exact I|]. change (units NegZero) with (0 * one_units). by rewrite round_int_whole.
  - unfold math_round. split; [apply finite_signed|]. rewrite units_signed.
    unfold round_int. cbn [units]. destruct (k <? 0); cbn [signed]; lia.
Qed.

Lemma math_round_mono x y : x <=f y -> math_round x <=f math_round y.
Proof.
  apply lift_mono; [done| |].
  - intros z Hz. by apply math_round_finite.
  - intros a b Ha Hb H. destruct (math_round_finite a Ha) as [_ ->], (math_round_finite b Hb) as [_ ->].
    apply Z.mul_le_mono_nonneg_r; [pose proof one_pos; lia|]. by apply round_int_mono.
Qed.

(** What [int64(math.Round(x))] is for a value between two small whole numbers. *)
Lemma to_int64_round undef x lo hi :
  inS 64 lo -> inS 64 hi -> whole lo <=f x -> x <=f whole hi ->
  to_int64 undef (math_round x) = round_int (units x) /\ lo <= round_int (units x) <= hi.
Proof.
  intros Hlo Hhi H1 H2. pose proof one_pos.
  assert (finite x) as Fx by (destruct x as [|[]| |]; done).
  apply fleb_finite in H1, H2; [|done..]. apply round_int_mono in H1, H2.
  unfold whole in *. cbn [units] in *. rewrite !round_int_whole in *.
  split; [|done]. destruct (math_round_finite x Fx) as [Fr Er].
  unfold to_int64. rewrite Er, Z.quot_mul by lia.
  rewrite bool_decide_true by (unfold inS in *; lia).
  by destruct (math_round x).
Qed.

(** ** Results are binary64 values *)
Lemma representable_opp k : representable k -> representable (- k).
Proof.
  intros (m & e & ? & ? & -> & ?). exists (- m), e. split; [done|]. split; [lia|]. split; lia.
Qed.

Lemma signed_units_ok b k : representable k -> f64_ok (signed_units b k).
Proof.
  intros H. unfold signed_units. destruct (Z.eqb_spec k 0) as [->|]; [by destruct b|].
  destruct b; [by apply representable_opp|done].
Qed.

Lemma round_ok b n d : 0 <= n -> 0 < d -> f64_ok (round b n d).
Proof.
  intros. unfold round. destruct (Z.ltb_spec (rnd_units n d) limit_units); [|done].
  by apply signed_units_ok, rnd_units_representable.
Qed.

(** Rounding a representable value changes nothing. *)
Lemma round_exact b k d : 0 <= k -> 0 < d -> representable k ->
  round b (k * d) d = signed_units b k.
Proof.
  intros Hk Hd Hr. unfold round. rewrite rnd_units_exact by done.
  destruct Hr as (m & e & ? & ? & ? & ?). by rewrite (proj2 (Z.ltb_lt k limit_units)) by lia.
Qed.

(** ** Integers as values *)
Lemma rnd_units_whole z : 0 <= z < 2 ^ 64 -> rnd_units (z * one_units) 1 < limit_units.
Proof.
  intros Hz. pose proof one_pos.
  assert (representable (2 ^ 64 * one_units)) as Hr.
  { exists 1, (64 + 1074). unfold one_units, limit_units. rewrite Z.mul_1_l, <- Z.pow_add_r by lia.
    split; [lia|]. split; [lia|]. split; [done|]. rewrite Z.abs_eq by (apply Z.pow_nonneg; lia).
    apply Z.pow_lt_mono_r; lia. }
  pose proof (rnd_units_exact (2 ^ 64 * one_units) 1 ltac:(lia) ltac:(lia) Hr) as Ex.
  pose proof (rnd_units_mono (z * one_units) 1 (2 ^ 64 * one_units * 1) 1) as Hm.
  rewrite Ex in Hm. destruct Hr as (? & ? & ? & ? & ? & ?). nia.
Qed.

Lemma of_int64_finite z : - 2 ^ 64 < z < 2 ^ 64 ->
  finite (of_int64 z) /\ rounds_to (of_int64 z) (z * one_units) 1.
Proof.
  intros Hz. pose proof one_pos. split.
  - unfold of_int64, round. rewrite (proj2 (Z.ltb_lt (rnd_units _ _) _)) by (apply rnd_units_whole; lia).
    apply finite_signed.
  - exists (z <? 0), (Z.abs z * one_units). split; [done|]. split; [lia|].
    destruct (Z.ltb_spec z 0); simpl; nia.
Qed.

Lemma of_int64_0 : of_int64 0 = Fin 0.
Proof. reflexivity. Qed.

(** Integers up to 2^53 convert exactly. *)
Lemma of_int64_exact z : Z.abs z < 2 ^ 53 -> of_int64 z = whole z.
Proof.
  intros Hz. pose proof one_pos. unfold of_int64, whole.
  rewrite <- (Z.mul_1_r (Z.abs z * one_units)), round_exact.
  - unfold signed_units. destruct (Z.eqb_spec (Z.abs z * one_units) 0), (Z.ltb_spec z 0);
      try nia; f_equal; nia.
  - lia.
  - lia.
  - exists (Z.abs z), 1074. split; [lia|]. split; [lia|]. split; [done|].
    rewrite Z.abs_eq by lia. apply Z.lt_trans with (2 ^ 53 * one_units); [nia|].
    unfold one_units, limit_units. rewrite <- Z.pow_add_r by lia. apply Z.pow_lt_mono_r; lia.
Qed.

Lemma of_int64_mono a b : - 2 ^ 64 < a -> a <= b -> b < 2 ^ 64 -> of_int64 a <=f of_int64 b.
Proof.
  intros. pose proof one_pos.
  destruct (of_int64_finite a ltac:(lia)) as [_ Ha], (of_int64_finite b ltac:(lia)) as [_ Hb].
  eapply rounds_to_mono; [exact Ha|exact Hb|lia|lia|nia].
Qed.

Lemma of_int64_nonneg z : 0 <= z < 2 ^ 64 -> nonneg (of_int64 z).
Proof. intros. unfold nonneg. change (Fin 0) with (of_int64 0). apply of_int64_mono; lia. Qed.

Lemma of_int64_pos z : 0 < z < 2 ^ 64 -> pos_finite (of_int64 z).
Proof.
  intros Hz. split; [apply of_int64_finite; lia|].
  pose proof (of_int64_mono 1 z ltac:(lia) ltac:(lia) ltac:(lia)) as H.
  rewrite (of_int64_exact 1) in H by lia. destruct (of_int64_finite z ltac:(lia)) as [F _].
  apply fleb_finite in H; [|done..]. cbn [units whole] in H. pose proof one_pos. unfold whole in H.
  cbn [units] in H. lia.
Qed.

(** Zero divided by anything positive is zero. *)
Lemma fdiv_zero w : w <> NaN -> fleb w (Fin 0) = false -> fdiv (Fin 0) w = Fin 0.
Proof.
  destruct w as [|[]| |k]; simpl; try done. intros _ Hk%Z.leb_gt.
  rewrite (proj2 (Z.eqb_neq k 0)), (proj2 (Z.ltb_ge k 0)) by lia. simpl.
  by rewrite round_zero by lia.
Qed.

(** A positive number stays positive when it is multiplied by one or more. *)
Lemma fmul_positive x k : x <> NaN -> fleb x (Fin 0) = false -> one_units <= k ->
  fmul x (Fin k) <> NaN /\ fleb (fmul x (Fin k)) (Fin 0) = false.
Proof.
  intros Hx Hx0 Hk. pose proof one_pos as H1.
  destruct x as [|[]| |j]; try done.
  - cbn [fmul is_zero sign xorb]. by rewrite (proj2 (Z.eqb_neq k 0)), (proj2 (Z.ltb_ge k 0)) by lia.
  - apply Z.leb_gt in Hx0. cbn [fmul sign units] in *. split; [apply round_not_nan|].
    rewrite (proj2 (Z.ltb_ge j 0)), (proj2 (Z.ltb_ge k 0)), !Z.abs_eq by lia. unfold round.
    assert (one_units <= j * k) as Hjk by (apply Z.le_trans with (1 * k); [lia|]; apply Z.mul_le_mono_nonneg_r; lia).
    assert (1 * one_units * one_units <= j * k * one_units) as Hle by (apply Z.mul_le_mono_nonneg_r; lia).
    pose proof (rnd_units_mono (1 * one_units) one_units (j * k) one_units ltac:(lia) H1 ltac:(lia) H1 Hle) as Hm.
    rewrite rnd_units_exact in Hm; [|lia|lia|by exists 1, 0].
    destruct (Z.ltb_spec (rnd_units (j * k) one_units) limit_units); [|done]. unfold signed_units.
    rewrite (proj2 (Z.eqb_neq _ 0)) by lia. simpl. apply Z.leb_gt. lia.
Qed.
