(* ===== verification/Window.v ===== *)
(** * pkg/profile/window.go: the sliding window of a workload

    [time.Time] is a number of nanoseconds since the zero [Time]; [time.Now()] is
    an argument of the operation that calls it.  Every method runs under the
    profile's mutex, so a concurrent execution is a sequence of these operations.
    An operation returns [None] where Go would panic.

    The first half of the file is the code; the second refines the circular
    buffer by a queue of the last [bucketCount] groups of recordings and bounds
    the age of what is counted. *)
From S2P Require Import Prelude Float64.
#[local] Open Scope string_scope.
#[local] Open Scope list_scope.
#[local] Open Scope Z_scope.

(** ** Time *)
Definition Time := Z.
Definition Duration := Z.
Definition zero_time : Time := 0.

(** [t.Sub(u)] saturates. *)
Definition time_Sub (t u : Time) : Duration :=
  Z.max (- 2 ^ 63) (Z.min (2 ^ 63 - 1) (t - u)).
Definition time_Add (t : Time) (d : Duration) : Time := t + d.
Definition Second : Duration := 1000000000.

(** [time.Time.UnixNano]: nanoseconds since 1970, as an int64. *)
Definition unix_epoch : Time := 62135596800 * Second.
Definition UnixNano (t : Time) : Z := i64! (t - unix_epoch).

(** [d.Seconds()] *)
Definition duration_Seconds (d : Duration) : f64 :=
  fadd (of_int64 (Z.quot d Second)) (fdiv (of_int64 (Z.rem d Second)) (of_int64 1000000000)).

Definition DefaultBucketCount : Z := 12.
Definition DefaultBucketDuration : Duration := 5 * Second.

(** ** Data *)
Record Bucket := mk_Bucket {
  EventCount : Z; PageFaults : Z; CacheMisses : Z; LockDurationNs : Z; CtxSwitches : Z;
  StartTime : Time }.

Definition Bucket_Reset (b : Bucket) (startTime : Time) : Bucket := mk_Bucket 0 0 0 0 0 startTime.

Definition Confidence := Z.
Definition ConfidenceUnknown : Confidence := 0.
Definition ConfidenceLow : Confidence := 1.
Definition ConfidenceMedium : Confidence := 2.
Definition ConfidenceHigh : Confidence := 3.

Definition Confidence_String (c : Confidence) : string :=
  if c =? ConfidenceLow then "LOW" else if c =? ConfidenceMedium then "MEDIUM"
  else if c =? ConfidenceHigh then "HIGH" else "UNKNOWN".

Record RuntimeProfile := mk_RuntimeProfile {
  WorkloadKey : string;
  PageFaultRate : f64; CacheMissRate : f64; LockContentionRatio : f64; ContextSwitchRate : f64;
  SampleCount : Z; WindowStart : Time; WindowEnd : Time; rp_Confidence : Confidence }.

Record WorkloadProfile := mk_WorkloadProfile {
  workloadKey : string;
  buckets : list Bucket;
  bucketCount : Z;
  bucketDuration : Duration;
  currentIdx : Z;
  lastRotation : Time;
  nodeLocations : gset string }.

Definition set_buckets (bs : list Bucket) (wp : WorkloadProfile) : WorkloadProfile :=
  mk_WorkloadProfile (workloadKey wp) bs (bucketCount wp) (bucketDuration wp) (currentIdx wp)
    (lastRotation wp) (nodeLocations wp).
Definition set_currentIdx (i : Z) (wp : WorkloadProfile) : WorkloadProfile :=
  mk_WorkloadProfile (workloadKey wp) (buckets wp) (bucketCount wp) (bucketDuration wp) i
    (lastRotation wp) (nodeLocations wp).
Definition set_lastRotation (t : Time) (wp : WorkloadProfile) : WorkloadProfile :=
  mk_WorkloadProfile (workloadKey wp) (buckets wp) (bucketCount wp) (bucketDuration wp)
    (currentIdx wp) t (nodeLocations wp).
Definition set_nodeLocations (ns : gset string) (wp : WorkloadProfile) : WorkloadProfile :=
  mk_WorkloadProfile (workloadKey wp) (buckets wp) (bucketCount wp) (bucketDuration wp)
    (currentIdx wp) (lastRotation wp) ns.

Definition NewWorkloadProfile (now : Time) (key : string) (count : Z) (duration : Duration) :
  WorkloadProfile :=
  let count := if count <=? 0 then DefaultBucketCount else count in
  let duration := if duration <=? 0 then DefaultBucketDuration else duration in
  mk_WorkloadProfile key (replicate (Z.to_nat count) (mk_Bucket 0 0 0 0 0 now))
    count duration 0 now ∅.

Definition ResetData (now : Time) (wp : WorkloadProfile) : WorkloadProfile :=
  set_lastRotation now
    (set_buckets ((fun b => Bucket_Reset b now) <$> buckets wp) wp).

(** ** Rotation *)
Fixpoint rotate_loop (rotations : nat) (now : Time) (wp : WorkloadProfile) :
  option WorkloadProfile :=
  match rotations with
  | O => Some wp
  | S rotations =>
      if bucketCount wp =? 0 then None else
      let idx := Z.rem (i64! (currentIdx wp + 1)) (bucketCount wp) in
      b ← slice_get (buckets wp) idx;
      bs ← slice_set (buckets wp) idx (Bucket_Reset b now);
      rotate_loop rotations now (set_buckets bs (set_currentIdx idx wp))
  end.

Definition maybeRotate (now : Time) (wp : WorkloadProfile) : option WorkloadProfile :=
  let elapsed := time_Sub now (lastRotation wp) in
  if bucketDuration wp =? 0 then None else
  let rotations := Z.quot elapsed (bucketDuration wp) in
  if rotations <=? 0 then Some wp else
  let rotations := if bucketCount wp <? rotations then bucketCount wp else rotations in
  wp ← rotate_loop (Z.to_nat rotations) now wp;
  Some (set_lastRotation now wp).

(** ** Recording *)

(** [wp.buckets[wp.currentIdx].F += ...] for the fields [upd] changes. *)
Definition update_current (upd : Bucket -> Bucket) (wp : WorkloadProfile) : option WorkloadProfile :=
  b ← slice_get (buckets wp) (currentIdx wp);
  bs ← slice_set (buckets wp) (currentIdx wp) (upd b);
  Some (set_buckets bs wp).

Definition add_node (nodeName : string) (wp : WorkloadProfile) : WorkloadProfile :=
  set_nodeLocations ({[nodeName]} ∪ nodeLocations wp) wp.

Definition RecordPageFault (now : Time) (nodeName : string) (wp : WorkloadProfile) :
  option WorkloadProfile :=
  wp ← maybeRotate now wp;
  wp ← update_current (fun b => mk_Bucket (i64! (EventCount b + 1)) (i64! (PageFaults b + 1))
         (CacheMisses b) (LockDurationNs b) (CtxSwitches b) (StartTime b)) wp;
  Some (add_node nodeName wp).

Definition RecordCacheMiss (now : Time) (delta : Z) (nodeName : string) (wp : WorkloadProfile) :
  option WorkloadProfile :=
  wp ← maybeRotate now wp;
  wp ← update_current (fun b => mk_Bucket (i64! (EventCount b + 1)) (PageFaults b)
         (i64! (CacheMisses b + delta)) (LockDurationNs b) (CtxSwitches b) (StartTime b)) wp;
  Some (add_node nodeName wp).

Definition RecordLockContention (now : Time) (durationNs : Z) (nodeName : string)
  (wp : WorkloadProfile) : option WorkloadProfile :=
  wp ← maybeRotate now wp;
  wp ← update_current (fun b => mk_Bucket (i64! (EventCount b + 1)) (PageFaults b)
         (CacheMisses b) (i64! (LockDurationNs b + durationNs)) (CtxSwitches b) (StartTime b)) wp;
  Some (add_node nodeName wp).

Definition RecordBulk (now : Time) (pageFaults cacheMisses ctxSwitches : Z) (lockNs : Z)
  (nodeName : string) (wp : WorkloadProfile) : option WorkloadProfile :=
  wp ← maybeRotate now wp;
  wp ← update_current (fun b =>
         let events := i64! (EventCount b + i64! (i64! (pageFaults + cacheMisses) + ctxSwitches)) in
         mk_Bucket (if 0 <? lockNs then i64! (events + 1) else events)
           (i64! (PageFaults b + pageFaults)) (i64! (CacheMisses b + cacheMisses))
           (i64! (LockDurationNs b + lockNs)) (i64! (CtxSwitches b + ctxSwitches)) (StartTime b)) wp;
  Some (add_node nodeName wp).

Definition RecordCtxSwitch (now : Time) (nodeName : string) (wp : WorkloadProfile) :
  option WorkloadProfile :=
  wp ← maybeRotate now wp;
  wp ← update_current (fun b => mk_Bucket (i64! (EventCount b + 1)) (PageFaults b)
         (CacheMisses b) (LockDurationNs b) (i64! (CtxSwitches b + 1)) (StartTime b)) wp;
  Some (add_node nodeName wp).

(** ** Reading *)

(** The accumulators of the loop of [ComputeProfile]. *)
Record totals := mk_totals {
  totalFaults : Z; totalMisses : Z; totalLockNs : Z; totalSwitches : Z; totalEvents : Z;
  tot_start : Time; tot_end : Time }.

Definition add_bucket (d : Duration) (a : totals) (ib : nat * Bucket) : totals :=
  let '(i, b) := ib in
  mk_totals (i64! (totalFaults a + PageFaults b)) (i64! (totalMisses a + CacheMisses b))
    (i64! (totalLockNs a + LockDurationNs b)) (i64! (totalSwitches a + CtxSwitches b))
    (i64! (totalEvents a + EventCount b))
    (if (i =? 0)%nat || (StartTime b <? tot_start a) then StartTime b else tot_start a)
    (if tot_end a <? StartTime b then time_Add (StartTime b) d else tot_end a).

Definition zero_totals : totals := mk_totals 0 0 0 0 0 zero_time zero_time.

Definition window_totals (wp : WorkloadProfile) : totals :=
  foldl (add_bucket (bucketDuration wp)) zero_totals (imap pair (buckets wp)).

Definition window_seconds (wp : WorkloadProfile) : f64 :=
  let w := fmul (of_int64 (bucketCount wp)) (duration_Seconds (bucketDuration wp)) in
  if fleb w (of_int64 0) then of_int64 1 else w.

Definition confidence_of (totalEvents : Z) : Confidence :=
  if 1000 <? totalEvents then ConfidenceHigh
  else if 100 <=? totalEvents then ConfidenceMedium
  else if 0 <? totalEvents then ConfidenceLow else ConfidenceUnknown.

Definition ComputeProfile (now : Time) (wp : WorkloadProfile) :
  option (WorkloadProfile * RuntimeProfile) :=
  wp ← maybeRotate now wp;
  let t := window_totals wp in
  let windowDuration := window_seconds wp in
  Some (wp, mk_RuntimeProfile (workloadKey wp)
    (fdiv (of_int64 (totalFaults t)) windowDuration)
    (fdiv (of_int64 (totalMisses t)) windowDuration)
    (fdiv (of_int64 (totalLockNs t)) (fmul windowDuration (of_int64 1000000000)))
    (fdiv (of_int64 (totalSwitches t)) windowDuration)
    (totalEvents t) (tot_start t) (tot_end t) (confidence_of (totalEvents t))).

(** The order of the names is that of a map iteration, which Go leaves open. *)
Definition NodeLocations (wp : WorkloadProfile) : list string := elements (nodeLocations wp).

(** ** Counter vectors *)
Record counts := mk_counts {
  n_events : Z; n_faults : Z; n_misses : Z; n_lock : Z; n_switches : Z }.

Definition czero : counts := mk_counts 0 0 0 0 0.
Definition cadd (a b : counts) : counts :=
  mk_counts (n_events a + n_events b) (n_faults a + n_faults b) (n_misses a + n_misses b)
    (n_lock a + n_lock b) (n_switches a + n_switches b).
Definition csum (cs : list counts) : counts := foldr cadd czero cs.
Definition cwrap (a : counts) : counts :=
  mk_counts (i64! (n_events a)) (i64! (n_faults a)) (i64! (n_misses a)) (i64! (n_lock a))
    (i64! (n_switches a)).

Definition bucket_counts (b : Bucket) : counts :=
  mk_counts (EventCount b) (PageFaults b) (CacheMisses b) (LockDurationNs b) (CtxSwitches b).
Definition totals_counts (t : totals) : counts :=
  mk_counts (totalEvents t) (totalFaults t) (totalMisses t) (totalLockNs t) (totalSwitches t).

Lemma counts_eq a b :
  n_events a = n_events b -> n_faults a = n_faults b -> n_misses a = n_misses b ->
  n_lock a = n_lock b -> n_switches a = n_switches b -> a = b.
Proof. destruct a, b; simpl; intros; by subst. Qed.

Ltac counts_eq := apply counts_eq; simpl; try lia.

Lemma cadd_assoc a b c : cadd a (cadd b c) = cadd (cadd a b) c.
Proof. counts_eq. Qed.
Lemma cadd_comm a b : cadd a b = cadd b a.
Proof. counts_eq. Qed.
Lemma cadd_zero_l a : cadd czero a = a.
Proof. counts_eq. Qed.
Lemma cadd_zero_r a : cadd a czero = a.
Proof. counts_eq. Qed.
Lemma cwrap_add_l a b : cwrap (cadd (cwrap a) b) = cwrap (cadd a b).
Proof. apply counts_eq; simpl; by rewrite wrapS_add_l. Qed.
Lemma cwrap_add_r a b : cwrap (cadd a (cwrap b)) = cwrap (cadd a b).
Proof. by rewrite cadd_comm, cwrap_add_l, cadd_comm. Qed.
Lemma cwrap_zero : cwrap czero = czero.
Proof. reflexivity. Qed.
Lemma cwrap_idem a : cwrap (cwrap a) = cwrap a.
Proof. pose proof (cwrap_add_l a czero) as H. by rewrite !cadd_zero_r in H. Qed.

Lemma csum_app xs ys : csum (xs ++ ys) = cadd (csum xs) (csum ys).
Proof. induction xs; simpl; [by rewrite cadd_zero_l | by rewrite IHxs, cadd_assoc]. Qed.

Lemma csum_perm xs ys : xs ≡ₚ ys -> csum xs = csum ys.
Proof.
  induction 1 as [|x xs ys _ IH|x y xs|xs ys zs _ IH1 _ IH2]; simpl;
    [done | by rewrite IH | by rewrite !cadd_assoc, (cadd_comm y) | congruence].
Qed.

(** Summing wrapped summands and wrapping is wrapping the exact sum. *)
Lemma cwrap_csum xs : cwrap (csum (cwrap <$> xs)) = cwrap (csum xs).
Proof.
  induction xs as [|x xs IH]; csimpl; [done|].
  by rewrite cwrap_add_l, <- (cwrap_add_r x), IH, cwrap_add_r.
Qed.

Lemma csum_concat xss : csum (concat xss) = csum (csum <$> xss).
Proof. induction xss; simpl; [done|]. by rewrite csum_app, IHxss. Qed.

(** ** Recordings and what they add *)
Inductive recording :=
  | RPageFault | RCacheMiss (delta : Z) | RLockContention (durationNs : Z) | RCtxSwitch
  | RBulk (pageFaults cacheMisses ctxSwitches lockNs : Z).

Definition record (now : Time) (r : recording) (nodeName : string) :
  WorkloadProfile -> option WorkloadProfile :=
  match r with
  | RPageFault => RecordPageFault now nodeName
  | RCacheMiss d => RecordCacheMiss now d nodeName
  | RLockContention d => RecordLockContention now d nodeName
  | RCtxSwitch => RecordCtxSwitch now nodeName
  | RBulk pf cm cs l => RecordBulk now pf cm cs l nodeName
  end.

Definition contribution (r : recording) : counts :=
  match r with
  | RPageFault => mk_counts 1 1 0 0 0
  | RCacheMiss d => mk_counts 1 0 d 0 0
  | RLockContention d => mk_counts 1 0 0 d 0
  | RCtxSwitch => mk_counts 1 0 0 0 1
  | RBulk pf cm cs l => mk_counts (pf + cm + cs + if 0 <? l then 1 else 0) pf cm l cs
  end.

(** Counters hold 64-bit values. *)
Definition bucket_ok (b : Bucket) : Prop := cwrap (bucket_counts b) = bucket_counts b.

(** Every recording is: rotate, add the contribution to the current bucket, and
    note the node. *)
Lemma record_shape now r node :
  exists upd, (forall wp, record now r node wp =
    (wp ← maybeRotate now wp; wp ← update_current upd wp; Some (add_node node wp)))
  /\ forall b, bucket_ok b ->
       bucket_counts (upd b) = cwrap (cadd (bucket_counts b) (contribution r))
       /\ StartTime (upd b) = StartTime b.
Proof.
  destruct r; (eexists; split; [reflexivity|]; intros b Hb; split; [|done];
    unfold bucket_ok, cwrap, bucket_counts in Hb; injection Hb as He Hf Hm Hl Hs;
    apply counts_eq; simpl in *; rewrite ?Z.add_0_r; try congruence).
  case_match; autorewrite with wrap; rewrite Z.add_assoc,
    (Z.add_comm (EventCount b)), <- ?Z.add_assoc, wrapS_add_l by lia; f_equal; lia.
Qed.

(** ** The window as a queue of groups

    The circular buffer holds the recordings of the last [bucketCount] groups;
    group 0 is the current bucket.  A group is its start time and the recordings
    made in it. *)
Record group := mk_group { g_start : Time; g_entries : list (Time * counts) }.
Definition group_sum (g : group) : counts := csum (snd <$> g_entries g).

(** The bucket that holds group [j]. *)
Definition slot (n : nat) (c : Z) (j : nat) : nat := Z.to_nat ((c - Z.of_nat j) mod Z.of_nat n).

(** Counting [k] steps of [d]: push [k] empty groups, keep [n]. *)
Definition push_groups (n k : nat) (now : Time) (gs : list group) : list group :=
  take n (replicate k (mk_group now []) ++ gs).

Record rep (n : nat) (d : Duration) (wp : WorkloadProfile) (gs : list group) (last : Time) : Prop := {
  rep_n : bucketCount wp = Z.of_nat n /\ 0 < bucketCount wp < 2 ^ 63 - 1;
  rep_d : bucketDuration wp = d /\ 0 < d < 2 ^ 63;
  rep_len : length (buckets wp) = n;
  rep_idx : 0 <= currentIdx wp < bucketCount wp;
  rep_last : lastRotation wp = last;
  rep_groups : length gs = n;
  rep_slot : forall j g, gs !! j = Some g -> exists b,
    buckets wp !! slot n (currentIdx wp) j = Some b
    /\ bucket_counts b = cwrap (group_sum g) /\ StartTime b = g_start g }.

Lemma slot_lt n c j : (0 < n)%nat -> (slot n c j < n)%nat.
Proof.
  intros. unfold slot. pose proof (Z.mod_pos_bound (c - Z.of_nat j) (Z.of_nat n)). lia.
Qed.

Lemma slot_0 n c : 0 <= c < Z.of_nat n -> slot n c 0 = Z.to_nat c.
Proof. intros. unfold slot. by rewrite Z.sub_0_r, Z.mod_small. Qed.

Lemma slot_next n c j : (0 < n)%nat -> slot n ((c + 1) mod Z.of_nat n) (S j) = slot n c j.
Proof.
  intros. unfold slot. rewrite Zminus_mod_idemp_l. do 2 f_equal. lia.
Qed.

Lemma slot_inj n c i j : (i < n)%nat -> (j < n)%nat -> slot n c i = slot n c j -> i = j.
Proof.
  intros Hi Hj H. unfold slot in H.
  pose proof (Z.mod_pos_bound (c - Z.of_nat i) (Z.of_nat n) ltac:(lia)) as Bi.
  pose proof (Z.mod_pos_bound (c - Z.of_nat j) (Z.of_nat n) ltac:(lia)) as Bj.
  apply Z2Nat.inj in H; [|lia..].
  pose proof (Z.div_mod (c - Z.of_nat i) (Z.of_nat n) ltac:(lia)) as Di.
  pose proof (Z.div_mod (c - Z.of_nat j) (Z.of_nat n) ltac:(lia)) as Dj.
  rewrite H in Di. clear H Bi.
  generalize dependent ((c - Z.of_nat j) mod Z.of_nat n). intros r ? ? ?.
  revert Di Dj. generalize ((c - Z.of_nat j) / Z.of_nat n), ((c - Z.of_nat i) / Z.of_nat n).
  intros y x Di Dj.
  assert (Z.of_nat n * (y - x) = Z.of_nat i - Z.of_nat j) as E by lia.
  assert (y - x < 1) by (apply (Z.mul_lt_mono_pos_l (Z.of_nat n)); lia).
  assert (-1 < y - x) by (apply (Z.mul_lt_mono_pos_l (Z.of_nat n)); lia).
  assert (y = x) as -> by lia. lia.
Qed.

Lemma length_push n k now gs : length gs = n -> length (push_groups n k now gs) = n.
Proof. intros. unfold push_groups. rewrite length_take, length_app, length_replicate. lia. Qed.

Lemma push_push n k now gs :
  push_groups n k now (push_groups n 1 now gs) = push_groups n (S k) now gs.
Proof.
  unfold push_groups. rewrite (replicate_S_end k), <- app_assoc. simpl.
  rewrite !take_app, take_take. by rewrite Nat.min_l by lia.
Qed.

Lemma slice_get_nonneg {A} (l : list A) i : 0 <= i -> slice_get l i = l !! Z.to_nat i.
Proof. intros. unfold slice_get. by rewrite decide_True. Qed.

(** One turn of the loop of [maybeRotate]. *)
Lemma rotate_once n d wp gs last now k :
  rep n d wp gs last ->
  exists wp', rotate_loop (S k) now wp = rotate_loop k now wp'
    /\ rep n d wp' (push_groups n 1 now gs) last
    /\ nodeLocations wp' = nodeLocations wp /\ workloadKey wp' = workloadKey wp.
Proof.
  intros [[Hn Hn'] Hd Hlen Hidx Hlast Hg Hslot]. cbn [rotate_loop].
  rewrite (proj2 (Z.eqb_neq (bucketCount wp) 0)) by lia.
  rewrite wrapS_small by lia. rewrite Z.rem_mod_nonneg by lia.
  set (idx := (currentIdx wp + 1) mod bucketCount wp).
  assert (0 <= idx < bucketCount wp) as Hi by (apply Z.mod_pos_bound; lia).
  rewrite slice_get_nonneg by lia.
  destruct (lookup_lt_is_Some_2 (buckets wp) (Z.to_nat idx)) as [b Hb]; [lia|]. rewrite Hb. simpl.
  destruct (slice_set (buckets wp) idx (Bucket_Reset b now)) as [bs|] eqn:Ebs; simpl.
  2: { unfold slice_set in Ebs. case_decide; [done|lia]. }
  eexists. split; [reflexivity|]. split; [|done].
  destruct (slice_set_lookup _ _ _ _ 0%nat Ebs) as [Hlen' _].
  constructor; simpl; try done; [lia|by apply length_push|].
  intros [|j] g Hgj; unfold push_groups in Hgj; apply lookup_take_Some in Hgj as [Hgj Hjn].
  - injection Hgj as <-. rewrite slot_0 by lia.
    destruct (slice_set_lookup _ _ _ _ (Z.to_nat idx) Ebs) as [_ ->].
    rewrite decide_True by done. by eexists.
  - destruct (Hslot j g Hgj) as (b' & Hb' & Hrest). exists b'.
    assert (slot n idx (S j) = slot n (currentIdx wp) j) as Es.
    { unfold idx. rewrite Hn. apply slot_next. lia. }
    rewrite Es.
    destruct (slice_set_lookup _ _ _ _ (slot n (currentIdx wp) j) Ebs) as [_ ->].
    rewrite decide_False; [done|]. intros E.
    assert (slot n idx (S j) = slot n idx 0) as E' by (rewrite (slot_0 n idx) by lia; congruence).
    apply slot_inj in E'; lia.
Qed.

(** [maybeRotate] on groups: push one group per elapsed [d]. *)
Definition sync_groups (n : nat) (d : Duration) (now last : Time) (gs : list group) :
  list group * Time :=
  let k := (now - last) / d in
  if k <=? 0 then (gs, last) else (push_groups n (Z.to_nat k) now gs, now).

Definition same_identity (wp wp' : WorkloadProfile) : Prop :=
  nodeLocations wp' = nodeLocations wp /\ workloadKey wp' = workloadKey wp.

Lemma rotate_loop_rep n d k now : forall wp gs last,
  rep n d wp gs last ->
  exists wp', rotate_loop k now wp = Some wp' /\ rep n d wp' (push_groups n k now gs) last
    /\ same_identity wp wp'.
Proof.
  induction k as [|k IH]; intros wp gs last H.
  - exists wp. split; [done|]. split; [|done]. unfold push_groups. simpl.
    rewrite take_ge; [done|]. destruct H. lia.
  - destruct (rotate_once n d wp gs last now k H) as (wp1 & -> & H1 & E1 & E2).
    destruct (IH _ _ _ H1) as (wp2 & -> & H2 & E3 & E4). rewrite push_push in H2.
    exists wp2. split; [done|]. split; [done|]. split; congruence.
Qed.

Lemma push_groups_cap n k now gs : (n <= k)%nat -> push_groups n k now gs = push_groups n n now gs.
Proof.
  intros. unfold push_groups. rewrite !take_app_le by (rewrite length_replicate; lia).
  rewrite !take_replicate. f_equal. lia.
Qed.

Lemma maybeRotate_rep n d now wp gs last :
  rep n d wp gs last -> last <= now < last + 2 ^ 63 ->
  exists wp', maybeRotate now wp = Some wp'
    /\ rep n d wp' (fst (sync_groups n d now last gs)) (snd (sync_groups n d now last gs))
    /\ same_identity wp wp'.
Proof.
  intros H Hnow. pose proof H as [Hn [Hd Hd'] Hlen Hidx Hlast Hg Hslot]. unfold maybeRotate.
  rewrite Hd, Hlast. rewrite (proj2 (Z.eqb_neq d 0)) by lia.
  assert (time_Sub now last = now - last) as -> by (unfold time_Sub; lia).
  rewrite Z.quot_div_nonneg by lia. unfold sync_groups.
  destruct (Z.leb_spec ((now - last) / d) 0) as [Hk|Hk]; [by exists wp|].
  set (k := (now - last) / d) in *.
  destruct (rotate_loop_rep n d (Z.to_nat (if bucketCount wp <? k then bucketCount wp else k))
    now wp gs last H) as (wp' & -> & H' & Hsame).
  eexists. split; [reflexivity|]. split; [|done]. simpl.
  assert (push_groups n (Z.to_nat k) now gs
    = push_groups n (Z.to_nat (if bucketCount wp <? k then bucketCount wp else k)) now gs) as ->.
  { destruct (Z.ltb_spec (bucketCount wp) k) as [Hc|]; [|done].
    rewrite (proj1 Hn) in *. rewrite Nat2Z.id. apply push_groups_cap. lia. }
  by destruct H'.
Qed.

Definition record_groups (e : Time * counts) (gs : list group) : list group :=
  match gs with
  | [] => []
  | g :: gs => mk_group (g_start g) (g_entries g ++ [e]) :: gs
  end.

Lemma group_sum_snoc g e :
  group_sum (mk_group (g_start g) (g_entries g ++ [e])) = cadd (group_sum g) (snd e).
Proof. unfold group_sum. simpl. rewrite fmap_app, csum_app. simpl. by rewrite cadd_zero_r. Qed.

Lemma update_current_rep n d wp gs last upd e :
  rep n d wp gs last ->
  (forall b, bucket_ok b -> bucket_counts (upd b) = cwrap (cadd (bucket_counts b) (snd e))
                            /\ StartTime (upd b) = StartTime b) ->
  exists wp', update_current upd wp = Some wp' /\ rep n d wp' (record_groups e gs) last
    /\ same_identity wp wp'.
Proof.
  intros [[Hn Hn'] Hd Hlen Hidx Hlast Hg Hslot] Hupd. unfold update_current.
  destruct gs as [|g gs]; [simpl in Hg; lia|].
  destruct (Hslot 0%nat g eq_refl) as (b & Hb & Hc & Hs). rewrite slot_0 in Hb by lia.
  rewrite slice_get_nonneg, Hb by lia. simpl.
  destruct (slice_set (buckets wp) (currentIdx wp) (upd b)) as [bs|] eqn:Ebs; simpl.
  2: { unfold slice_set in Ebs. case_decide; [done|lia]. }
  assert (bucket_ok b) as Hok by (unfold bucket_ok; by rewrite Hc, cwrap_idem).
  destruct (Hupd b Hok) as [Hcu Hsu]. rewrite Hc, cwrap_add_l in Hcu.
  destruct (slice_set_lookup _ _ _ _ 0%nat Ebs) as [Hlen' _].
  eexists. split; [reflexivity|]. split; [|done].
  constructor; simpl; try done; [lia|]. intros [|j] g' Hj.
  - injection Hj as <-. rewrite slot_0 by lia.
    destruct (slice_set_lookup _ _ _ _ (Z.to_nat (currentIdx wp)) Ebs) as [_ ->].
    rewrite decide_True by done. exists (upd b). rewrite group_sum_snoc.
    split; [done|]. split; [done|]. simpl. congruence.
  - destruct (Hslot (S j) g' Hj) as (b' & Hb' & Hrest). exists b'.
    destruct (slice_set_lookup _ _ _ _ (slot n (currentIdx wp) (S j)) Ebs) as [_ ->].
    rewrite decide_False; [done|]. intros E.
    assert (slot n (currentIdx wp) (S j) = slot n (currentIdx wp) 0) as E'
      by (rewrite (slot_0 n (currentIdx wp)) by lia; congruence).
    apply lookup_lt_Some in Hj. simpl in Hj, Hg. apply slot_inj in E'; lia.
Qed.

Lemma ResetData_rep n d wp gs last now :
  rep n d wp gs last -> rep n d (ResetData now wp) (replicate n (mk_group now [])) now.
Proof.
  intros [Hn Hd Hlen Hidx Hlast Hg Hslot]. constructor; simpl; try done.
  - by rewrite length_fmap.
  - apply length_replicate.
  - intros j g Hj. apply lookup_replicate in Hj as [-> Hj].
    destruct (lookup_lt_is_Some_2 gs j) as [g Hgj]; [lia|].
    destruct (Hslot j g Hgj) as (b & Hb & _). exists (Bucket_Reset b now).
    by rewrite list_lookup_fmap, Hb.
Qed.

Lemma NewWorkloadProfile_rep now key count d :
  0 < count < 2 ^ 63 - 1 -> 0 < d < 2 ^ 63 ->
  rep (Z.to_nat count) d (NewWorkloadProfile now key count d)
    (replicate (Z.to_nat count) (mk_group now [])) now.
Proof.
  intros Hc Hd. unfold NewWorkloadProfile.
  rewrite (proj2 (Z.leb_gt count 0)), (proj2 (Z.leb_gt d 0)) by lia.
  constructor; simpl; try apply length_replicate; try lia.
  intros j g Hj. apply lookup_replicate in Hj as [-> Hj]. eexists.
  rewrite lookup_replicate_2; [done|]. apply slot_lt. lia.
Qed.

(** ** What is counted, and for how long *)

(** The recordings the groups hold, oldest first. *)
Definition flat (gs : list group) : list (Time * counts) := concat (g_entries <$> reverse gs).

Lemma flat_app gs1 gs2 : flat (gs1 ++ gs2) = flat gs2 ++ flat gs1.
Proof. unfold flat. by rewrite reverse_app, fmap_app, concat_app. Qed.

Lemma flat_cons g gs : flat (g :: gs) = flat gs ++ g_entries g.
Proof. change (g :: gs) with ([g] ++ gs). rewrite flat_app. unfold flat at 2. simpl. by rewrite app_nil_r. Qed.

Lemma flat_empty k now : flat (replicate k (mk_group now [])) = [].
Proof. induction k as [|k IH]; [done|]. simpl replicate. by rewrite flat_cons, IH. Qed.

Lemma flat_record e gs : gs <> [] -> flat (record_groups e gs) = flat gs ++ [e].
Proof.
  destruct gs as [|g gs]; [done|]. intros _. simpl record_groups.
  rewrite !flat_cons. simpl. by rewrite app_assoc.
Qed.

Lemma flat_sum gs : csum (snd <$> flat gs) = csum (group_sum <$> gs).
Proof.
  induction gs as [|g gs IH]; [done|].
  rewrite flat_cons, fmap_app, csum_app, IH, cadd_comm. done.
Qed.

Lemma elem_of_flat e gs : e ∈ flat gs <-> exists j g, gs !! j = Some g /\ e ∈ g_entries g.
Proof.
  induction gs as [|g gs IH].
  - split; [by intros ?%elem_of_nil | by intros (? & ? & ? & _)].
  - rewrite flat_cons, elem_of_app, IH. split.
    + intros [(j & g' & ? & ?)|?]; [by exists (S j), g' | by exists 0%nat, g].
    + intros ([|j] & g' & Hj & ?); simpl in Hj; [right; by simplify_eq | left; eauto].
Qed.

(** Ages at the last rotation: an entry of group [j] was recorded between [j - 1]
    and [2 j] bucket durations before it, an entry already dropped at least
    [n - 1] before. *)
Record aged (n : nat) (d : Duration) (lo last : Time) (dropped : list (Time * counts))
  (gs : list group) : Prop := {
  aged_dropped : forall e, e ∈ dropped -> fst e + (Z.of_nat n - 1) * d < last;
  aged_start : forall g, g ∈ gs -> lo <= g_start g <= last;
  aged_group : forall j g e, gs !! j = Some g -> e ∈ g_entries g ->
    g_start g <= fst e /\ last <= fst e + 2 * Z.of_nat j * d
    /\ fst e + (Z.of_nat j - 1) * d < last }.

Lemma push_groups_split n k now gs :
  length gs = n ->
  push_groups n k now gs = replicate (k `min` n) (mk_group now []) ++ take (n - k) gs.
Proof.
  intros. unfold push_groups. rewrite take_app, take_replicate, length_replicate.
  by rewrite Nat.min_comm.
Qed.

Lemma sync_aged n d lo now last dropped gs gs' last' :
  length gs = n -> (0 < n)%nat -> 0 < d -> lo <= last <= now ->
  aged n d lo last dropped gs -> sync_groups n d now last gs = (gs', last') ->
  exists more, aged n d lo last' (dropped ++ more) gs' /\ flat gs = more ++ flat gs'
    /\ last <= last' <= now /\ now < last' + d.
Proof.
  intros Hlen Hn Hd Hnow [Hdrop Hstart Hgroup] Hsync. unfold sync_groups in Hsync.
  pose proof (Z.div_mod (now - last) d ltac:(lia)) as Hdm.
  pose proof (Z.mod_pos_bound (now - last) d Hd) as Hmb.
  set (k := (now - last) / d) in *.
  destruct (Z.leb_spec k 0) as [Hk|Hk]; injection Hsync as <- <-.
  - exists []. rewrite app_nil_r. split; [by constructor|]. split; [done|].
    split; [lia|]. assert (k = 0) as Ek by (pose proof (Z.div_pos (now - last) d); lia). nia.
  - rewrite push_groups_split by done. set (m := (n - Z.to_nat k)%nat).
    exists (flat (drop m gs)).
    rewrite flat_app, flat_empty, app_nil_r, <- flat_app, take_drop.
    split; [|split; [done|lia]]. constructor.
    + intros e [He|He]%elem_of_app; [pose proof (Hdrop e He); lia|].
      apply elem_of_flat in He as (j & g & Hj & He). rewrite lookup_drop in Hj.
      destruct (Hgroup _ g e Hj He) as (_ & _ & Hage).
      assert (Z.of_nat n <= Z.of_nat (m + j) + k) by lia. nia.
    + intros g [Hg|Hg]%elem_of_app.
      * apply elem_of_replicate in Hg as [-> _]. simpl. lia.
      * pose proof (Hstart g (subseteq_take _ _ _ Hg)). lia.
    + intros j g e Hj He. destruct (decide (j < Z.to_nat k `min` n)%nat) as [Hjk|Hjk].
      { rewrite lookup_app_l in Hj by (rewrite length_replicate; lia).
        apply lookup_replicate in Hj as [-> _]. by apply elem_of_nil in He. }
      rewrite lookup_app_r in Hj by (rewrite length_replicate; lia).
      rewrite length_replicate in Hj. apply lookup_take_Some in Hj as [Hj Hjm].
      destruct (Hgroup _ g e Hj He) as (Hs & Hup & Hlow).
      assert (Z.of_nat (j - Z.to_nat k `min` n) = Z.of_nat j - k) as E by lia. rewrite E in *.
      split; [done|]. split; nia.
Qed.

(** ** The totals of [ComputeProfile] *)
Lemma foldl_add_bucket_counts d ibs : forall a,
  cwrap (totals_counts a) = totals_counts a ->
  totals_counts (foldl (add_bucket d) a ibs)
    = cwrap (cadd (totals_counts a) (csum (bucket_counts <$> ibs.*2))).
Proof.
  induction ibs as [|[i b] ibs IH]; intros a Ha; [csimpl; by rewrite cadd_zero_r|].
  assert (totals_counts (add_bucket d a (i, b)) = cwrap (cadd (totals_counts a) (bucket_counts b)))
    as E by reflexivity.
  cbn [foldl]. rewrite IH by (by rewrite E, cwrap_idem). rewrite E, cwrap_add_l.
  csimpl. by rewrite cadd_assoc.
Qed.

Lemma snd_imap_pair {A} (l : list A) : (imap pair l).*2 = l.
Proof.
  apply list_eq. intros i. rewrite list_lookup_fmap, list_lookup_imap. by destruct (l !! i).
Qed.

Lemma window_totals_counts wp :
  totals_counts (window_totals wp) = cwrap (csum (bucket_counts <$> buckets wp)).
Proof.
  unfold window_totals. rewrite foldl_add_bucket_counts by done.
  by rewrite snd_imap_pair, cadd_zero_l.
Qed.

(** The window starts no later than any bucket. *)
Lemma window_totals_start d bs b :
  b ∈ bs -> tot_start (foldl (add_bucket d) zero_totals (imap pair bs)) <= StartTime b.
Proof.
  revert b. induction bs as [|x bs IH] using rev_ind; intros b Hb; [by apply elem_of_nil in Hb|].
  rewrite imap_app, foldl_app. simpl. rewrite Nat.add_0_r.
  set (t := foldl _ _ _) in *.
  apply elem_of_app in Hb as [Hb| ->%list_elem_of_singleton].
  - specialize (IH b Hb).
    assert ((length bs =? 0)%nat = false) as -> by (destruct bs; [by apply elem_of_nil in Hb|done]).
    destruct (Z.ltb_spec (StartTime x) (tot_start t)); simpl; lia.
  - destruct (Z.ltb_spec (StartTime x) (tot_start t)), (length bs =? 0)%nat; simpl; lia.
Qed.

Lemma Permutation_refl_eq {A} (l k : list A) : l = k -> l ≡ₚ k.
Proof. by intros ->. Qed.

Lemma rep_perm n d wp gs last :
  rep n d wp gs last -> bucket_counts <$> buckets wp ≡ₚ (cwrap ∘ group_sum) <$> gs.
Proof.
  intros [[Hn Hn'] Hd Hlen Hidx Hlast Hg Hslot].
  set (sl := slot n (currentIdx wp) <$> seq 0 n).
  assert (sl ≡ₚ seq 0 n) as Hperm.
  { apply submseteq_length_Permutation; [|unfold sl; by rewrite length_fmap].
    apply NoDup_submseteq.
    - unfold sl. apply NoDup_fmap_2_strong; [|apply NoDup_seq].
      intros x y [_ Hx]%elem_of_seq [_ Hy]%elem_of_seq. apply slot_inj; lia.
    - intros x. unfold sl. rewrite list_elem_of_fmap. intros (j & -> & Hj%elem_of_seq).
      apply elem_of_seq. pose proof (slot_lt n (currentIdx wp) j). lia. }
  transitivity ((fun i => default czero (bucket_counts <$> buckets wp !! i)) <$> seq 0 n).
  { apply Permutation_refl_eq, list_eq. intros i. rewrite !list_lookup_fmap.
    destruct (decide (i < n)%nat) as [Hi|Hi].
    - rewrite lookup_seq_lt by done. simpl.
      destruct (lookup_lt_is_Some_2 (buckets wp) i) as [b ->]; [lia|]. done.
    - rewrite (lookup_ge_None_2 (buckets wp)), (lookup_ge_None_2 (seq 0 n)); [done| |lia].
      rewrite length_seq. lia. }
  rewrite <- Hperm. unfold sl. rewrite <- list_fmap_compose.
  apply Permutation_refl_eq, list_eq. intros j. rewrite !list_lookup_fmap.
  destruct (decide (j < n)%nat) as [Hj|Hj].
  - rewrite lookup_seq_lt by done. simpl.
    destruct (lookup_lt_is_Some_2 gs j) as [g Hgj]; [lia|].
    destruct (Hslot j g Hgj) as (b & Hb & Hc & _). by rewrite Hb, Hgj; simpl; rewrite Hc.
  - rewrite (lookup_ge_None_2 gs), (lookup_ge_None_2 (seq 0 n)); [done| |lia].
    rewrite length_seq. lia.
Qed.

Lemma rep_totals n d wp gs last :
  rep n d wp gs last -> totals_counts (window_totals wp) = cwrap (csum (snd <$> flat gs)).
Proof.
  intros H. rewrite window_totals_counts, (csum_perm _ _ (rep_perm n d wp gs last H)).
  by rewrite list_fmap_compose, cwrap_csum, flat_sum.
Qed.

(** ** Histories *)
Inductive win_op := OpRecord (r : recording) (nodeName : string) | OpCompute | OpReset.

Definition win_step (now : Time) (op : win_op) (wp : WorkloadProfile) : option WorkloadProfile :=
  match op with
  | OpRecord r node => record now r node wp
  | OpCompute => fst <$> ComputeProfile now wp
  | OpReset => Some (ResetData now wp)
  end.

Fixpoint win_run (tr : list (Time * win_op)) (wp : WorkloadProfile) : option WorkloadProfile :=
  match tr with
  | [] => Some wp
  | (now, op) :: tr => wp ← win_step now op wp; win_run tr wp
  end.

(** ** Index safety, whatever the clock *)
Record win_wf (wp : WorkloadProfile) : Prop := {
  wf_count : 0 < bucketCount wp < 2 ^ 63 - 1;
  wf_length : Z.of_nat (length (buckets wp)) = bucketCount wp;
  wf_idx : 0 <= currentIdx wp < bucketCount wp;
  wf_duration : 0 < bucketDuration wp }.

Lemma NewWorkloadProfile_wf now key count duration :
  count < 2 ^ 63 - 1 -> win_wf (NewWorkloadProfile now key count duration).
Proof.
  intros Hc. unfold NewWorkloadProfile, DefaultBucketCount, DefaultBucketDuration, Second.
  constructor; simpl; rewrite ?length_replicate; destruct (Z.leb_spec count 0), (Z.leb_spec duration 0); lia.
Qed.

Lemma slice_wf wp (idx : Z) b : win_wf wp -> 0 <= idx < bucketCount wp ->
  (exists b0, slice_get (buckets wp) idx = Some b0)
  /\ exists bs, slice_set (buckets wp) idx b = Some bs /\ length bs = length (buckets wp).
Proof.
  intros [_ Hl _ _] Hi. unfold slice_get, slice_set. rewrite !decide_True by lia. split.
  - destruct (lookup_lt_is_Some_2 (buckets wp) (Z.to_nat idx)) as [b0 E]; [lia|eauto].
  - eexists. split; [reflexivity|]. apply length_insert.
Qed.

Lemma rotate_loop_wf now k : forall wp, win_wf wp -> exists wp', rotate_loop k now wp = Some wp' /\ win_wf wp'.
Proof.
  induction k as [|k IH]; intros wp Hwf; simpl; [eauto|]. pose proof Hwf as [Hc Hl Hi Hd].
  rewrite (proj2 (Z.eqb_neq (bucketCount wp) 0)) by lia.
  rewrite wrapS_id by (unfold inS; lia).
  pose proof (Z.rem_bound_pos (currentIdx wp + 1) (bucketCount wp) ltac:(lia) ltac:(lia)) as Hr.
  destruct (slice_wf wp (Z.rem (currentIdx wp + 1) (bucketCount wp))
    (Bucket_Reset (mk_Bucket 0 0 0 0 0 zero_time) now) Hwf Hr) as [[b0 Eb] _].
  destruct (slice_wf wp (Z.rem (currentIdx wp + 1) (bucketCount wp)) (Bucket_Reset b0 now) Hwf Hr)
    as [_ (bs & Ebs & Hbs)].
  rewrite Eb. simpl. rewrite Ebs. simpl. apply IH. constructor; simpl; lia.
Qed.

Lemma maybeRotate_wf now wp : win_wf wp -> exists wp', maybeRotate now wp = Some wp' /\ win_wf wp'.
Proof.
  intros Hwf. unfold maybeRotate. rewrite (proj2 (Z.eqb_neq (bucketDuration wp) 0)) by (destruct Hwf; lia).
  case_match; [eauto|].
  destruct (rotate_loop_wf now (Z.to_nat (if bucketCount wp <? Z.quot (time_Sub now (lastRotation wp)) (bucketDuration wp)
    then bucketCount wp else Z.quot (time_Sub now (lastRotation wp)) (bucketDuration wp))) wp Hwf) as (wp' & E & []).
  rewrite E. simpl. eexists. split; [reflexivity|]. by constructor.
Qed.

Lemma win_step_wf now op wp : win_wf wp -> exists wp', win_step now op wp = Some wp' /\ win_wf wp'.
Proof.
  intros Hwf. destruct op as [r node| |]; simpl.
  - destruct (record_shape now r node) as (upd & -> & _).
    destruct (maybeRotate_wf now wp Hwf) as (w & -> & Hw). simpl. unfold update_current.
    destruct (slice_wf w (currentIdx w) (mk_Bucket 0 0 0 0 0 zero_time) Hw) as [[b Eb] _]; [apply Hw|].
    destruct (slice_wf w (currentIdx w) (upd b) Hw) as [_ (bs & Ebs & Hbs)]; [apply Hw|].
    rewrite Eb. simpl. rewrite Ebs. simpl. eexists. split; [reflexivity|].
    destruct Hw. constructor; simpl; lia.
  - unfold ComputeProfile. destruct (maybeRotate_wf now wp Hwf) as (w & -> & Hw). simpl. eauto.
  - eexists. split; [reflexivity|]. destruct Hwf. constructor; simpl; [lia|by rewrite length_fmap|lia|done].
Qed.

Lemma ComputeProfile_wf now wp : win_wf wp -> exists wp' p, ComputeProfile now wp = Some (wp', p).
Proof. intros Hwf. unfold ComputeProfile. destruct (maybeRotate_wf now wp Hwf) as (w & -> & _). simpl. eauto. Qed.

(** No method of a window panics.  Whatever configuration a window is created
    with, any sequence of recordings, reads and resets runs, with no index out of
    range and no division by zero, even when the clock jumps back or forth by any
    amount between calls, and a read gives a profile at any time. *)
Theorem window_never_panics now key count duration tr now' :
  count < 2 ^ 63 - 1 ->
  exists wp wp' p, win_run tr (NewWorkloadProfile now key count duration) = Some wp
    /\ ComputeProfile now' wp = Some (wp', p).
Proof.
  intros Hc. pose proof (NewWorkloadProfile_wf now key count duration Hc) as Hwf.
  revert Hwf. generalize (NewWorkloadProfile now key count duration) as wp.
  induction tr as [|[t op] tr IH]; intros wp Hwf; simpl.
  - exists wp. destruct (ComputeProfile_wf now' wp Hwf) as (w & p & E). eauto.
  - destruct (win_step_wf t op wp Hwf) as (w & -> & Hw). by apply IH.
Qed.

Lemma window_never_panics_witness :
  exists wp wp' p,
    win_run [(100, OpCompute); (5, OpRecord RPageFault "n1"); (9 * 10 ^ 20, OpReset)]
      (NewWorkloadProfile 7 "w" (-3) 0) = Some wp
    /\ ComputeProfile 0 wp = Some (wp', p).
Proof. apply (window_never_panics 7 "w" (-3) 0 _ 0). lia. Defined.

(** The recordings since the last reset, and the nodes ever named. *)
Definition op_log (now : Time) (op : win_op) (log : list (Time * counts)) : list (Time * counts) :=
  match op with
  | OpRecord r _ => log ++ [(now, contribution r)]
  | OpCompute => log
  | OpReset => []
  end.

Fixpoint win_log (tr : list (Time * win_op)) (log : list (Time * counts)) : list (Time * counts) :=
  match tr with [] => log | (now, op) :: tr => win_log tr (op_log now op log) end.

Definition op_nodes (op : win_op) : gset string :=
  match op with OpRecord _ node => {[node]} | _ => ∅ end.

Definition win_nodes (tr : list (Time * win_op)) : gset string := ⋃ ((op_nodes ∘ snd) <$> tr).

(** The clock does not go back. *)
Fixpoint chronological (t : Time) (tr : list (Time * win_op)) (q : Time) : Prop :=
  match tr with
  | [] => t <= q
  | (now, _) :: tr => t <= now /\ chronological now tr q
  end.

Definition window_inv (n : nat) (d : Duration) (lo now : Time) (log : list (Time * counts))
  (wp : WorkloadProfile) : Prop :=
  exists gs last dropped, rep n d wp gs last /\ lo <= last <= now /\ now < last + d
    /\ log = dropped ++ flat gs /\ aged n d lo last dropped gs.

Lemma window_inv_sync n d lo t now log wp :
  window_inv n d lo t log wp -> t <= now < lo + 2 ^ 63 ->
  exists wp', maybeRotate now wp = Some wp' /\ window_inv n d lo now log wp'
    /\ same_identity wp wp'.
Proof.
  intros (gs & last & dropped & Hrep & Hlast & Hcur & -> & Haged) Ht.
  destruct (maybeRotate_rep n d now wp gs last Hrep ltac:(lia)) as (wp' & -> & Hrep' & Hid).
  exists wp'. split; [done|]. split; [|done].
  destruct (sync_groups n d now last gs) as [gs' last'] eqn:Es.
  destruct (rep_n _ _ _ _ _ Hrep) as [? ?], (rep_d _ _ _ _ _ Hrep) as [? ?].
  destruct (sync_aged n d lo now last dropped gs gs' last') as (more & Ha & Hf & ? & ?);
    [apply Hrep|lia|lia|lia|done|done|].
  exists gs', last', (dropped ++ more). split; [done|]. split; [lia|]. split; [lia|].
  split; [by rewrite Hf, app_assoc | done].
Qed.

Lemma window_inv_start now key count d :
  0 < count < 2 ^ 63 - 1 -> 0 < d < 2 ^ 63 ->
  window_inv (Z.to_nat count) d now now [] (NewWorkloadProfile now key count d).
Proof.
  intros Hc Hd. exists (replicate (Z.to_nat count) (mk_group now [])), now, [].
  split; [by apply NewWorkloadProfile_rep|]. split; [lia|]. split; [lia|].
  rewrite flat_empty. split; [done|]. constructor.
  - by intros e He%elem_of_nil.
  - intros g [-> _]%elem_of_replicate. simpl. lia.
  - intros j g e [-> _]%lookup_replicate He. by apply elem_of_nil in He.
Qed.

Lemma record_aged n d lo last now dropped gs c :
  0 < d -> lo <= last <= now -> now < last + d ->
  aged n d lo last dropped gs -> aged n d lo last dropped (record_groups (now, c) gs).
Proof.
  intros Hd Hl Hn [H1 H2 H3]. destruct gs as [|g gs]; [done|]. constructor; [done| |].
  - intros g' [->|Hg']%elem_of_cons; simpl; apply H2; [by left | by right].
  - intros [|j] g' e Hj He; simpl in Hj; [|by apply (H3 (S j) g')].
    injection Hj as <-. simpl in He |- *. apply elem_of_app in He as [He|He].
    + by apply (H3 0%nat g).
    + apply list_elem_of_singleton in He as ->. pose proof (H2 g ltac:(left)). simpl. lia.
Qed.

Lemma window_inv_step n d lo t now op log wp :
  window_inv n d lo t log wp -> t <= now < lo + 2 ^ 63 ->
  exists wp', win_step now op wp = Some wp' /\ window_inv n d lo now (op_log now op log) wp'
    /\ nodeLocations wp' = op_nodes op ∪ nodeLocations wp /\ workloadKey wp' = workloadKey wp.
Proof.
  intros Hinv Ht. destruct op as [r node| |]; simpl.
  - destruct (window_inv_sync _ _ _ _ _ _ _ Hinv Ht) as (wp1 & E1 & H1 & Hn1 & Hk1).
    destruct H1 as (gs & last & dropped & Hrep & Hlast & Hcur & -> & Haged).
    destruct (record_shape now r node) as (upd & Eshape & Hupd). rewrite Eshape, E1. simpl.
    destruct (update_current_rep n d wp1 gs last upd (now, contribution r) Hrep Hupd)
      as (wp2 & -> & Hrep2 & Hn2 & Hk2). simpl.
    eexists. split; [reflexivity|].
    split; [|split; [by unfold add_node; simpl; rewrite Hn2, Hn1 | simpl; congruence]].
    exists (record_groups (now, contribution r) gs), last, dropped.
    split; [by destruct Hrep2|]. split; [done|]. split; [done|]. split.
    + rewrite flat_record; [by rewrite app_assoc|]. intros ->.
      destruct Hrep as [[? ?] _ _ _ _ Hg _]. simpl in Hg. lia.
    + apply record_aged; try done. apply (rep_d _ _ _ _ _ Hrep).
  - destruct (window_inv_sync _ _ _ _ _ _ _ Hinv Ht) as (wp1 & E1 & H1 & Hn1 & Hk1).
    exists wp1. unfold ComputeProfile. rewrite E1. simpl. split; [done|]. split; [done|].
    rewrite Hn1. split; [set_solver|done].
  - destruct Hinv as (gs & last & dropped & Hrep & Hlast & Hcur & -> & Haged).
    eexists. split; [reflexivity|]. split; [|split; [simpl; set_solver | done]].
    exists (replicate n (mk_group now [])), now, []. split; [by apply (ResetData_rep n d wp gs last)|].
    pose proof (rep_d _ _ _ _ _ Hrep). split; [lia|]. split; [lia|].
    rewrite flat_empty. split; [done|]. constructor.
    + by intros e He%elem_of_nil.
    + intros g [-> _]%elem_of_replicate. simpl. lia.
    + intros j g e [-> _]%lookup_replicate He. by apply elem_of_nil in He.
Qed.

Lemma chronological_le t tr q : chronological t tr q -> t <= q.
Proof.
  revert t. induction tr as [|[now op] tr IH]; simpl; intros t; [done|].
  intros [? ?%IH]. lia.
Qed.

Lemma window_inv_run n d lo q tr : forall t log wp,
  window_inv n d lo t log wp -> chronological t tr q -> q < lo + 2 ^ 63 ->
  exists t' wp', win_run tr wp = Some wp' /\ t' <= q /\ window_inv n d lo t' (win_log tr log) wp'
    /\ nodeLocations wp' = win_nodes tr ∪ nodeLocations wp /\ workloadKey wp' = workloadKey wp.
Proof.
  induction tr as [|[now op] tr IH]; simpl; intros t log wp Hinv Hc Hq.
  - exists t, wp. split; [done|]. split; [done|]. split; [done|].
    unfold win_nodes. simpl. split; [set_solver|done].
  - destruct Hc as [Hle Hc]. pose proof (chronological_le _ _ _ Hc).
    destruct (window_inv_step n d lo t now op log wp Hinv ltac:(lia)) as (wp1 & -> & H1 & En & Ek).
    destruct (IH now _ wp1 H1 Hc Hq) as (t' & wp' & E' & ? & ? & En' & Ek').
    exists t', wp'. simpl. split; [done|]. split; [done|]. split; [done|].
    unfold win_nodes in *. csimpl. split; [|congruence]. rewrite En', En. set_solver.
Qed.

(** What a computed profile says, given the counters of the window. *)
Definition profile_reports (key : string) (c : counts) (seconds : f64) (p : RuntimeProfile) : Prop :=
  WorkloadKey p = key /\ SampleCount p = n_events c
  /\ PageFaultRate p = fdiv (of_int64 (n_faults c)) seconds
  /\ CacheMissRate p = fdiv (of_int64 (n_misses c)) seconds
  /\ LockContentionRatio p
     = fdiv (of_int64 (n_lock c)) (fmul seconds (of_int64 1000000000))
  /\ ContextSwitchRate p = fdiv (of_int64 (n_switches c)) seconds
  /\ rp_Confidence p = confidence_of (n_events c).

Lemma compute_reports n d lo t q log wp :
  window_inv n d lo t log wp -> t <= q < lo + 2 ^ 63 ->
  exists wp' p dropped kept,
    ComputeProfile q wp = Some (wp', p) /\ log = dropped ++ kept
    /\ window_inv n d lo q log wp' /\ same_identity wp wp'
    /\ (forall e, e ∈ dropped -> (Z.of_nat n - 1) * d < q - fst e)
    /\ (forall e, e ∈ kept -> WindowStart p <= fst e /\ q - fst e < (2 * Z.of_nat n - 1) * d)
    /\ profile_reports (workloadKey wp) (cwrap (csum (snd <$> kept))) (window_seconds wp') p.
Proof.
  intros Hinv Hq. destruct (window_inv_sync _ _ _ _ _ _ _ Hinv Hq) as (wp1 & E1 & H1 & Hn1 & Hk1).
  pose proof H1 as (gs & last & dropped & Hrep & Hlast & Hcur & Hlog & Haged).
  unfold ComputeProfile. rewrite E1. simpl.
  pose proof (rep_totals _ _ _ _ _ Hrep) as Ht. unfold totals_counts in Ht.
  do 2 eexists. exists dropped, (flat gs). split; [reflexivity|]. split; [done|]. split; [done|].
  split; [done|]. destruct Haged as [Ha1 Ha2 Ha3]. split; [|split].
  - intros e He. pose proof (Ha1 e He). lia.
  - intros e (j & g & Hj & He)%elem_of_flat. destruct (Ha3 j g e Hj He) as (Hs & Hup & _).
    destruct (rep_slot _ _ _ _ _ Hrep j g Hj) as (b & Hb & _ & Hst).
    pose proof (lookup_lt_Some _ _ _ Hj) as Hjn. rewrite (rep_groups _ _ _ _ _ Hrep) in Hjn.
    pose proof (proj2 (rep_d _ _ _ _ _ Hrep)). simpl. split; [|nia].
    transitivity (StartTime b); [|lia]. unfold window_totals.
    apply (window_totals_start (bucketDuration wp1) (buckets wp1) b).
    by apply list_elem_of_lookup_2 in Hb.
  - unfold profile_reports. rewrite <- Ht. simpl. by rewrite Hk1.
Qed.

(** ** Properties *)

Lemma duration_Seconds_nonneg d : 0 <= d < 2 ^ 63 -> nonneg (duration_Seconds d).
Proof.
  intros Hd. unfold duration_Seconds. apply fadd_nonneg.
  - apply of_int64_nonneg. pose proof (Z.mul_quot_le d Second). pose proof (Z.quot_pos d Second).
    unfold Second in *. lia.
  - apply fdiv_nonneg; [|apply of_int64_pos; lia]. apply of_int64_nonneg.
    pose proof (Z.rem_bound_pos d Second). unfold Second in *. lia.
Qed.

(** The divisor of the rates is a number above zero. *)
Lemma window_seconds_pos wp :
  0 < bucketCount wp < 2 ^ 63 -> 0 < bucketDuration wp < 2 ^ 63 ->
  window_seconds wp <> NaN /\ fleb (window_seconds wp) (Fin 0) = false.
Proof.
  intros Hc Hd. unfold window_seconds.
  change (of_int64 0) with (Fin 0). set (w := fmul _ _).
  assert (w <> NaN) as Hw.
  { unfold w. pose proof (duration_Seconds_nonneg (bucketDuration wp) ltac:(lia)) as Hs.
    destruct (of_int64_pos (bucketCount wp) ltac:(lia)) as [F P].
    destruct (of_int64 (bucketCount wp)) as [| | |k]; try done. simpl in P.
    pose proof (nonneg_not_nan _ Hs). destruct (duration_Seconds _); try done; simpl;
      rewrite ?(proj2 (Z.eqb_neq k 0)) by lia; try done; apply round_not_nan. }
  destruct (fleb w (Fin 0)) eqn:E; [|done].
  split; [by rewrite of_int64_exact by lia | by rewrite of_int64_exact by lia].
Qed.

(** So is the divisor of the lock ratio. *)
Lemma window_ns_pos wp :
  window_seconds wp <> NaN -> fleb (window_seconds wp) (Fin 0) = false ->
  fmul (window_seconds wp) (of_int64 1000000000) <> NaN
  /\ fleb (fmul (window_seconds wp) (of_int64 1000000000)) (Fin 0) = false.
Proof. intros Hw Hw0. rewrite of_int64_exact by lia. apply fmul_positive; [done..|]. pose proof one_pos. lia. Qed.

Section histories.
Context (t0 : Time) (key : string) (count : Z) (duration : Duration).
Context (Hcount : count < 2 ^ 63 - 1) (Hduration : duration < 2 ^ 63).

(** The configured window, with the defaults in place. *)
Let wp0 := NewWorkloadProfile t0 key count duration.
Let n := bucketCount wp0.
Let d := bucketDuration wp0.

Lemma new_inv :
  0 < n < 2 ^ 63 - 1 /\ 0 < d < 2 ^ 63 /\ window_inv (Z.to_nat n) d t0 t0 [] wp0.
Proof using Hcount Hduration.
  assert (0 < n < 2 ^ 63 - 1 /\ 0 < d < 2 ^ 63) as [Hn Hd].
  { unfold n, d, wp0, NewWorkloadProfile, DefaultBucketCount, DefaultBucketDuration, Second. simpl.
    destruct (Z.leb_spec count 0), (Z.leb_spec duration 0); lia. }
  split; [done|]. split; [done|].
  assert (wp0 = NewWorkloadProfile t0 key n d) as E.
  { unfold n, d, wp0, NewWorkloadProfile. simpl. destruct (Z.leb_spec count 0), (Z.leb_spec duration 0);
    rewrite ?(proj2 (Z.leb_gt count 0)), ?(proj2 (Z.leb_gt duration 0)) by lia; done. }
  pose proof (window_inv_start t0 key n d Hn Hd) as H. by rewrite <- E in H.
Qed.

Lemma window_facts tr q :
  chronological t0 tr q -> q < t0 + 2 ^ 63 ->
  exists wp wp' p dropped kept,
    win_run tr wp0 = Some wp /\ ComputeProfile q wp = Some (wp', p)
    /\ win_log tr [] = dropped ++ kept
    /\ (forall e, e ∈ dropped -> (n - 1) * d < q - fst e)
    /\ (forall e, e ∈ kept -> WindowStart p <= fst e /\ q - fst e < (2 * n - 1) * d)
    /\ profile_reports key (cwrap (csum (snd <$> kept))) (window_seconds wp0) p
    /\ nodeLocations wp' = win_nodes tr.
Proof using Hcount Hduration.
  intros Hc Hq. destruct new_inv as (Hn & Hd & Hinv).
  destruct (window_inv_run _ _ _ q tr _ _ _ Hinv Hc Hq) as (t' & wp & E & Ht' & Hi & Hnodes & Hk).
  assert (t0 <= t') by (destruct Hi as (? & ? & ? & ? & ? & _); lia).
  destruct (compute_reports _ _ _ _ q _ _ Hi ltac:(lia))
    as (wp' & p & dropped & kept & Ec & El & Hi' & [Hn' Hk'] & Hd1 & Hk1 & Hr).
  rewrite Z2Nat.id in * by lia.
  exists wp, wp', p, dropped, kept. split; [done|]. split; [done|]. split; [done|].
  split; [done|]. split; [done|]. split.
  - destruct Hi' as (gs & last & dr & Hrep & _). destruct (rep_n _ _ _ _ _ Hrep) as [E1 _].
    destruct (rep_d _ _ _ _ _ Hrep) as [E2 _]. rewrite Z2Nat.id in E1 by lia.
    unfold window_seconds in *. fold n d. rewrite <- E1, <- E2.
    rewrite Hk in Hr. exact Hr.
  - rewrite Hn', Hnodes. change (nodeLocations wp0) with (∅ : gset string). set_solver.
Qed.

(** C2: the sliding window counts right.  After any chronological history of
    recordings, reads and resets, no operation panics, and the computed profile
    reports exactly (modulo 2^64) the totals of a suffix of the recordings made
    since the last reset: everything recorded in the last [bucketCount - 1]
    bucket durations is in it, and nothing [2 bucketCount - 1] durations old or
    older.  The window start is no later than any recording counted. *)
Theorem window_counts tr q :
  chronological t0 tr q -> q < t0 + 2 ^ 63 ->
  exists wp wp' p dropped kept,
    win_run tr wp0 = Some wp /\ ComputeProfile q wp = Some (wp', p)
    /\ win_log tr [] = dropped ++ kept
    /\ (forall e, e ∈ dropped -> (n - 1) * d < q - fst e)
    /\ (forall e, e ∈ kept -> WindowStart p <= fst e /\ q - fst e < (2 * n - 1) * d)
    /\ profile_reports key (cwrap (csum (snd <$> kept))) (window_seconds wp0) p.
Proof using Hcount Hduration.
  intros Hc Hq. destruct (window_facts tr q Hc Hq)
    as (wp & wp' & p & dropped & kept & ? & ? & ? & ? & ? & ? & _).
  by exists wp, wp', p, dropped, kept.
Qed.

(** A workload that stops emitting ages out: once its last recording is
    [2 bucketCount - 1] bucket durations old, reading its profile gives no
    samples, all four rates zero, and unknown confidence. *)
Theorem idle_workload_ages_out tr q :
  chronological t0 tr q -> q < t0 + 2 ^ 63 ->
  (forall e, e ∈ win_log tr [] -> (2 * n - 1) * d <= q - fst e) ->
  exists wp wp' p,
    win_run tr wp0 = Some wp /\ ComputeProfile q wp = Some (wp', p)
    /\ SampleCount p = 0 /\ PageFaultRate p = Fin 0 /\ CacheMissRate p = Fin 0
    /\ LockContentionRatio p = Fin 0 /\ ContextSwitchRate p = Fin 0 /\ rp_Confidence p = ConfidenceUnknown.
Proof using Hcount Hduration.
  intros Hc Hq Hold. destruct (window_facts tr q Hc Hq)
    as (wp & wp' & p & dropped & kept & ? & ? & El & ? & Hkept & Hr & _).
  assert (kept = []) as ->.
  { destruct kept as [|e kept]; [done|]. exfalso.
    pose proof (Hkept e ltac:(left)). pose proof (Hold e). rewrite El in *.
    assert (e ∈ dropped ++ e :: kept) by (apply elem_of_app; right; left). naive_solver lia. }
  destruct new_inv as (Hn & Hd & _).
  destruct (window_seconds_pos wp0) as [Hw Hw0]; [fold n; lia | fold d; lia |].
  destruct (window_ns_pos wp0 Hw Hw0) as [Hns Hns0].
  change (cwrap (csum (snd <$> []))) with czero in Hr.
  destruct Hr as (_ & E1 & E2 & E3 & E6 & E4 & E5).
  cbn [n_events n_faults n_misses n_switches n_lock czero] in *.
  exists wp, wp', p. rewrite E1, E2, E3, E4, E5, E6, of_int64_0.
  rewrite !fdiv_zero by done. done.
Qed.

(** The node set only grows: after any history it is exactly the set of the
    node names recorded so far, resets included. *)
Theorem node_locations_recorded tr q :
  chronological t0 tr q -> q < t0 + 2 ^ 63 ->
  exists wp, win_run tr wp0 = Some wp
    /\ forall node, node ∈ NodeLocations wp <-> node ∈ win_nodes tr.
Proof using Hcount Hduration.
  intros Hc Hq. destruct new_inv as (_ & _ & Hinv).
  destruct (window_inv_run _ _ _ q tr _ _ _ Hinv Hc Hq) as (t' & wp & E & _ & _ & Hnodes & _).
  exists wp. split; [done|]. intros node. unfold NodeLocations. rewrite elem_of_elements, Hnodes.
  change (nodeLocations wp0) with (∅ : gset string). set_solver.
Qed.
End histories.

(** ** Batches of recordings *)
Definition bucket_of (c : counts) (start : Time) : Bucket :=
  mk_Bucket (n_events c) (n_faults c) (n_misses c) (n_lock c) (n_switches c) start.

Lemma bucket_of_counts b c t : bucket_counts b = c -> StartTime b = t -> b = bucket_of c t.
Proof. by intros <- <-; destruct b. Qed.

Lemma bucket_counts_of c t : bucket_counts (bucket_of c t) = c.
Proof. by destruct c. Qed.

(** The state after recordings that add up to [c]. *)
Definition bumped (c : counts) (node : string) (wp : WorkloadProfile) : option WorkloadProfile :=
  b ← slice_get (buckets wp) (currentIdx wp);
  bs ← slice_set (buckets wp) (currentIdx wp)
         (bucket_of (cwrap (cadd (bucket_counts b) c)) (StartTime b));
  Some (add_node node (set_buckets bs wp)).

Definition current_ok (wp : WorkloadProfile) : Prop :=
  exists b, slice_get (buckets wp) (currentIdx wp) = Some b /\ bucket_ok b.

Lemma record_synced now r node wp :
  maybeRotate now wp = Some wp -> current_ok wp ->
  record now r node wp = bumped (contribution r) node wp.
Proof.
  intros Hs (b & Hb & Hok). destruct (record_shape now r node) as (upd & Eshape & Hupd).
  rewrite Eshape, Hs. unfold bumped, update_current. simpl. rewrite Hb. simpl.
  destruct (Hupd b Hok) as [Hc Ht]. rewrite (bucket_of_counts _ _ _ Hc Ht).
  by destruct (slice_set _ _ _).
Qed.

(** Already rotated at [now]. *)
Record synced (now : Time) (wp : WorkloadProfile) : Prop := {
  synced_none : Z.quot (time_Sub now (lastRotation wp)) (bucketDuration wp) <= 0;
  synced_dur : bucketDuration wp <> 0;
  synced_current : current_ok wp }.

Lemma synced_rotate now wp : synced now wp -> maybeRotate now wp = Some wp.
Proof.
  intros [H1 H2 _]. unfold maybeRotate.
  by rewrite (proj2 (Z.eqb_neq _ _) H2), (proj2 (Z.leb_le _ _) H1).
Qed.

Lemma bumped_synced now c node wp :
  synced now wp ->
  exists wp', bumped c node wp = Some wp' /\ synced now wp'
    /\ forall c', bumped c' node wp' = bumped (cadd c c') node wp.
Proof.
  intros [H1 H2 (b & Hb & Hok)]. unfold bumped. rewrite Hb. simpl.
  unfold slice_get in Hb. case_decide as Hi; [|done].
  pose proof (lookup_lt_Some _ _ _ Hb) as Hlt.
  assert (forall x, slice_set (buckets wp) (currentIdx wp) x
    = Some (<[Z.to_nat (currentIdx wp) := x]> (buckets wp))) as Hset.
  { intros x. unfold slice_set. by rewrite decide_True by lia. }
  rewrite Hset. simpl. eexists. split; [reflexivity|].
  set (b' := bucket_of _ _).
  assert (slice_get (<[Z.to_nat (currentIdx wp):=b']> (buckets wp)) (currentIdx wp) = Some b') as Hb'.
  { unfold slice_get. rewrite decide_True by done. by rewrite list_lookup_insert_eq. }
  split.
  - constructor; simpl; try done. exists b'. split; [done|].
    unfold bucket_ok, b'. rewrite bucket_counts_of. apply cwrap_idem.
  - intros c'. simpl. rewrite Hb'. simpl. unfold slice_set. rewrite length_insert.
    rewrite !decide_True by lia. simpl. rewrite list_insert_insert_eq.
    unfold add_node, set_nodeLocations. simpl. rewrite union_assoc_L, union_idemp_L.
    do 4 f_equal. unfold b'.
    rewrite bucket_counts_of, cwrap_add_l, cadd_assoc. done.
Qed.

Definition records (now : Time) (node : string) (rs : list recording) : list (Time * win_op) :=
  (fun r => (now, OpRecord r node)) <$> rs.

Lemma run_records_synced now node r rs : forall wp,
  synced now wp ->
  win_run (records now node (r :: rs)) wp = bumped (csum (contribution <$> r :: rs)) node wp.
Proof.
  revert r. induction rs as [|r' rs IH]; intros r wp Hs; destruct Hs as [? ? ?] eqn:E; clear E.
  all: assert (synced now wp) as Hsy by done.
  all: unfold records; csimpl; rewrite (record_synced now r node wp) by (try done; by apply synced_rotate).
  all: destruct (bumped_synced now (contribution r) node wp Hsy) as (wp1 & E1 & Hs1 & Hadd).
  - rewrite cadd_zero_r, E1. done.
  - rewrite E1. simpl. specialize (IH r' wp1 Hs1). unfold records in IH. csimpl in IH.
    rewrite IH. by rewrite Hadd.
Qed.

Lemma window_inv_synced n d lo now log wp : window_inv n d lo now log wp -> now < lo + 2 ^ 63 -> synced now wp.
Proof.
  intros (gs & last & dropped & Hrep & Hlast & Hcur & _) Hlo.
  pose proof Hrep as [[Hn Hn'] [Hd Hd'] Hlen Hidx Hl Hg Hslot].
  constructor; [|lia|].
  - rewrite Hd, Hl. assert (time_Sub now last = now - last) as -> by (unfold time_Sub; lia).
    rewrite Z.quot_small by lia. done.
  - destruct gs as [|g gs]; [simpl in Hg; lia|].
    destruct (Hslot 0%nat g eq_refl) as (b & Hb & Hc & _). rewrite slot_0 in Hb by lia.
    exists b. rewrite slice_get_nonneg by lia. split; [done|].
    unfold bucket_ok. by rewrite Hc, cwrap_idem.
Qed.

Lemma win_run_app tr tr' wp : win_run (tr ++ tr') wp = (wp ← win_run tr wp; win_run tr' wp).
Proof.
  revert wp. induction tr as [|[now op] tr IH]; intros wp; [done|]. simpl.
  destruct (win_step now op wp); simpl; [apply IH | done].
Qed.

Lemma run_records_rotate now node r rs wp wp1 :
  maybeRotate now wp = Some wp1 -> maybeRotate now wp1 = Some wp1 ->
  win_run (records now node (r :: rs)) wp = win_run (records now node (r :: rs)) wp1.
Proof.
  intros H H1. unfold records. csimpl. destruct (record_shape now r node) as (upd & E & _).
  by rewrite !E, H, H1.
Qed.

Lemma bumped_wrap c c' node wp : cwrap c = cwrap c' -> bumped c node wp = bumped c' node wp.
Proof.
  intros H. unfold bumped. destruct (slice_get _ _) as [b|]; simpl; [|done].
  by rewrite <- (cwrap_add_r _ c), H, cwrap_add_r.
Qed.

Lemma run_records_sum n d lo t log wp now node rs rs' :
  window_inv n d lo t log wp -> t <= now < lo + 2 ^ 63 -> rs <> [] -> rs' <> [] ->
  cwrap (csum (contribution <$> rs)) = cwrap (csum (contribution <$> rs')) ->
  win_run (records now node rs) wp = win_run (records now node rs') wp.
Proof.
  intros Hinv Ht Hr Hr' Hc.
  destruct (window_inv_sync _ _ _ _ _ _ _ Hinv Ht) as (wp1 & E1 & H1 & _).
  pose proof (window_inv_synced _ _ _ _ _ _ H1 ltac:(lia)) as Hs.
  pose proof (synced_rotate _ _ Hs) as E2.
  destruct rs as [|r rs]; [done|]. destruct rs' as [|r' rs']; [done|].
  rewrite (run_records_rotate now node r rs wp wp1 E1 E2).
  rewrite (run_records_rotate now node r' rs' wp wp1 E1 E2).
  rewrite !run_records_synced by done. by apply bumped_wrap.
Qed.

(** C30: only the sums of a burst matter.  After any chronological history, two
    non-empty bursts of recordings of one node at one instant leave the same
    state when their contributions have the same sums (modulo 2^64): a
    [RecordBulk] can stand for single recordings, and their order is free. *)
Theorem recordings_add_up t0 key count duration tr now node rs rs' :
  let wp0 := NewWorkloadProfile t0 key count duration in
  count < 2 ^ 63 - 1 -> duration < 2 ^ 63 ->
  chronological t0 tr now -> now < t0 + 2 ^ 63 -> rs <> [] -> rs' <> [] ->
  cwrap (csum (contribution <$> rs)) = cwrap (csum (contribution <$> rs')) ->
  win_run (tr ++ records now node rs) wp0 = win_run (tr ++ records now node rs') wp0.
Proof.
  intros wp0 Hcount Hdur Hc Hnow Hr Hr' Hsum. rewrite !win_run_app.
  destruct (new_inv t0 key count duration Hcount Hdur) as (_ & _ & Hinv).
  destruct (window_inv_run _ _ _ now tr _ _ _ Hinv Hc Hnow) as (t' & wp & E & Ht' & Hi & _).
  fold wp0 in E. rewrite E. simpl.
  assert (t0 <= t') by (destruct Hi as (? & ? & ? & ? & ? & _); lia).
  eapply run_records_sum; [exact Hi | lia | done..].
Qed.

(** ** A window outlives its nominal length

    Twelve buckets of five seconds are meant to be a sixty-second window.  A
    bucket closes only when an operation finds it at least five seconds old, so
    with one operation every 9.9 seconds each bucket spans 9.9 seconds. *)
Definition ms (z : Z) : Z := z * 1000000.
Definition slow_day : Time := 63000000000000000000.

Definition slow_history : list (Time * win_op) :=
  (slow_day, OpRecord RPageFault "n1") ::
  ((fun i => (slow_day + ms (9900 * Z.of_nat i), OpRecord (RBulk 0 0 0 0) "n1")) <$> seq 1 11).

(** A page fault recorded 113.8 seconds ago is still counted by the
    60-second window, and the event rates are taken over 60 seconds. *)
Theorem stale_recording_counted :
  let q := slow_day + ms 113800 in
  exists wp, (win_run slow_history (NewWorkloadProfile slow_day "w" 12 (5 * Second))
                ≫= maybeRotate q) = Some wp
    /\ totalFaults (window_totals wp) = 1 /\ q - slow_day = 113800 * 1000000.
Proof. eexists. split; [vm_compute; reflexivity|]. by vm_compute. Qed.

(** ** Witnesses *)
Definition day : Time := 63000000000000000000.

Definition history : list (Time * win_op) :=
  [(day + ms 1000, OpRecord RPageFault "n1"); (day + ms 2000, OpRecord (RCacheMiss 10000) "n1");
   (day + ms 61000, OpRecord (RLockContention 250) "n2"); (day + ms 62000, OpRecord RCtxSwitch "n1")].

Lemma history_chronological q : day + ms 62000 <= q -> chronological day history q.
Proof. unfold history, ms. simpl. lia. Qed.

Lemma window_counts_witness :
  exists wp wp' p dropped kept,
    win_run history (NewWorkloadProfile day "w" 12 0) = Some wp
    /\ ComputeProfile (day + ms 64000) wp = Some (wp', p)
    /\ win_log history [] = dropped ++ kept
    /\ (forall e, e ∈ dropped -> (12 - 1) * (5 * Second) < day + ms 64000 - fst e)
    /\ (forall e, e ∈ kept -> WindowStart p <= fst e
          /\ day + ms 64000 - fst e < (2 * 12 - 1) * (5 * Second))
    /\ profile_reports "w" (cwrap (csum (snd <$> kept)))
         (window_seconds (NewWorkloadProfile day "w" 12 0)) p.
Proof.
  apply (window_counts day "w" 12 0 ltac:(lia) ltac:(lia) history (day + ms 64000)).
  - apply history_chronological. unfold ms. lia.
  - unfold day, ms. lia.
Defined.

Lemma node_locations_recorded_witness :
  exists wp, win_run history (NewWorkloadProfile day "w" 12 0) = Some wp
    /\ forall node, node ∈ NodeLocations wp <-> node ∈ win_nodes history.
Proof.
  apply (node_locations_recorded day "w" 12 0 ltac:(lia) ltac:(lia) history (day + ms 64000)).
  - apply history_chronological. unfold ms. lia.
  - unfold day, ms. lia.
Defined.

Lemma recordings_add_up_witness :
  let bulk := [RBulk 3 0 2 0] in
  let singles := [RCtxSwitch; RPageFault; RPageFault; RCtxSwitch; RPageFault] in
  win_run (history ++ records (day + ms 70000) "n3" bulk) (NewWorkloadProfile day "w" 12 0)
  = win_run (history ++ records (day + ms 70000) "n3" singles) (NewWorkloadProfile day "w" 12 0).
Proof.
  apply (recordings_add_up day "w" 12 0 history (day + ms 70000) "n3");
    [lia|lia| |unfold day, ms; lia|done|done|reflexivity].
  apply history_chronological. unfold ms. lia.
Defined.
