(* ===== verification/ProfileStore.v ===== *)
(** * The interface between the profile store and its clients

    What the aggregator relies on: a store of windows by key, handles that stay
    valid, methods that act on one key only.  Store.v implements it. *)
From S2P Require Import Prelude Float64 Window.
#[local] Open Scope string_scope.
#[local] Open Scope list_scope.
#[local] Open Scope Z_scope.

(** The zero value of [RuntimeProfile] with a key and a confidence. *)
Definition bare_profile (key : string) (c : Confidence) : RuntimeProfile :=
  mk_RuntimeProfile key (Fin 0) (Fin 0) (Fin 0) (Fin 0) 0 zero_time zero_time c.

Class ProfileStore (S : Type) := {
  handle : Type;                                    (* *WorkloadProfile *)
  ps_count : S -> Z;
  ps_duration : S -> Duration;
  ps_GetOrCreate : Time -> string -> S -> S * handle;
  ps_method : handle -> Time -> win_op -> S -> option S;
  ps_QueryProfile : Time -> string -> S -> option (S * RuntimeProfile);
  (** What a state means. *)
  ps_view : S -> gmap string WorkloadProfile;
  ps_ok : S -> Prop;
  ps_holds : S -> handle -> string -> Prop }.

Definition same_config {S} `{ProfileStore S} (s s' : S) : Prop :=
  ps_count s' = ps_count s /\ ps_duration s' = ps_duration s.

Class ProfileStoreLaws (S : Type) `{ProfileStore S} : Prop := {
  get_or_create_law now key s s' h :
    ps_ok s -> ps_GetOrCreate now key s = (s', h) ->
    ps_ok s' /\ ps_holds s' h key /\ same_config s s'
    /\ ps_view s' = match ps_view s !! key with
                    | Some _ => ps_view s
                    | None => <[key := NewWorkloadProfile now key (ps_count s) (ps_duration s)]> (ps_view s)
                    end;
  method_law h key now op s wp wp' :
    ps_ok s -> ps_holds s h key -> ps_view s !! key = Some wp -> win_step now op wp = Some wp' ->
    exists s', ps_method h now op s = Some s' /\ ps_ok s' /\ same_config s s'
      /\ ps_view s' = <[key := wp']> (ps_view s);
  query_law now key s :
    ps_ok s ->
    match ps_view s !! key with
    | None => ps_QueryProfile now key s = Some (s, bare_profile key ConfidenceUnknown)
    | Some wp => forall wp' p, ComputeProfile now wp = Some (wp', p) ->
        exists s', ps_QueryProfile now key s = Some (s', p) /\ ps_ok s' /\ same_config s s'
          /\ ps_view s' = <[key := wp']> (ps_view s)
    end }.
