(* ===== verification/Store.v ===== *)
(** * pkg/profile/store.go: the store of workload profiles

    A [sync.Map] from workload keys to pointers.  Callers keep the pointer that
    [GetOrCreate] returns and record through it, so the store is modelled with
    its heap: [profiles] maps keys to locations, [heap] locations to profiles.
    The view of a store is the plain map from keys to profiles it stands for; each
    operation is shown to act on the view, and concurrent callers of
    [GetOrCreate] to share one profile per key. *)
From S2P Require Import Prelude Float64 Window ProfileStore.
#[local] Open Scope string_scope.
#[local] Open Scope list_scope.
#[local] Open Scope Z_scope.

Abbreviation loc := nat (only parsing).

Record Store := mk_Store {
  profiles : gmap string loc;
  heap : gmap loc WorkloadProfile;
  st_bucketCount : Z;
  st_bucketDuration : Duration }.

Definition set_heap (h : gmap loc WorkloadProfile) (s : Store) : Store :=
  mk_Store (profiles s) h (st_bucketCount s) (st_bucketDuration s).
Definition set_profiles (ps : gmap string loc) (s : Store) : Store :=
  mk_Store ps (heap s) (st_bucketCount s) (st_bucketDuration s).

Definition NewStore (count : Z) (duration : Duration) : Store :=
  mk_Store ∅ ∅ (if count <=? 0 then DefaultBucketCount else count)
    (if duration <=? 0 then DefaultBucketDuration else duration).

(** ** The atomic actions *)

(** [&WorkloadProfile{...}] *)
Definition alloc (wp : WorkloadProfile) (s : Store) : Store * loc :=
  let l := fresh (dom (heap s)) in (set_heap (<[l := wp]> (heap s)) s, l).

Definition Load (key : string) (s : Store) : option loc := profiles s !! key.

Definition LoadOrStore (key : string) (l : loc) (s : Store) : Store * loc * bool :=
  match profiles s !! key with
  | Some actual => (s, actual, true)
  | None => (set_profiles (<[key := l]> (profiles s)) s, l, false)
  end.

(** ** The operations *)

(** What [GetOrCreate] does after its [Load] missed. *)
Definition create (now : Time) (key : string) (s : Store) : Store * loc :=
  let '(s, newProfile) := alloc (NewWorkloadProfile now key (st_bucketCount s) (st_bucketDuration s)) s in
  let '(s, actual, _) := LoadOrStore key newProfile s in
  (s, actual).

Definition GetOrCreate (now : Time) (key : string) (s : Store) : Store * loc :=
  match Load key s with
  | Some existing => (s, existing)
  | None => create now key s
  end.

Definition Get (key : string) (s : Store) : option loc := Load key s.

(** A method call on the profile at [l]. *)
Definition on_profile (l : loc) (f : WorkloadProfile -> option WorkloadProfile) (s : Store) :
  option Store :=
  wp ← heap s !! l; wp ← f wp; Some (set_heap (<[l := wp]> (heap s)) s).

Definition compute_at (now : Time) (l : loc) (s : Store) : option (Store * RuntimeProfile) :=
  wp ← heap s !! l; '(wp, p) ← ComputeProfile now wp;
  Some (set_heap (<[l := wp]> (heap s)) s, p).

Definition QueryProfile (now : Time) (key : string) (s : Store) : option (Store * RuntimeProfile) :=
  match Get key s with
  | None => Some (s, bare_profile key ConfidenceUnknown)
  | Some l => compute_at now l s
  end.

(** [QueryNodeProfiles]: [Range] visits the entries in an order it does not fix;
    [visits] is that order, with the time of each visit. *)
Fixpoint QueryNodeProfiles (nodeName : string) (visits : list (string * loc * Time)) (s : Store) :
  option (Store * list RuntimeProfile) :=
  match visits with
  | [] => Some (s, [])
  | (_, l, now) :: visits =>
      wp ← heap s !! l;
      if bool_decide (nodeName ∈ NodeLocations wp) then
        '(s, p) ← compute_at now l s;
        '(s, ps) ← QueryNodeProfiles nodeName visits s;
        Some (s, p :: ps)
      else QueryNodeProfiles nodeName visits s
  end.

Definition ActiveProfiles (s : Store) : Z := Z.of_nat (length (map_to_list (profiles s))).

Definition Delete (key : string) (s : Store) : Store := set_profiles (delete key (profiles s)) s.

Definition Keys (s : Store) : list string := (map_to_list (profiles s)).*1.

(** ** The view of a store *)
Definition view (s : Store) : gmap string WorkloadProfile := omap (fun l => heap s !! l) (profiles s).

Record store_ok (s : Store) : Prop := {
  ok_entry : forall key l, profiles s !! key = Some l ->
    exists wp, heap s !! l = Some wp /\ workloadKey wp = key }.

Lemma view_lookup s key l : profiles s !! key = Some l -> view s !! key = heap s !! l.
Proof. intros H. unfold view. by rewrite lookup_omap, H. Qed.

Lemma view_None s key : store_ok s -> view s !! key = None <-> profiles s !! key = None.
Proof.
  intros [H]. unfold view. rewrite lookup_omap. destruct (profiles s !! key) as [l|] eqn:E; [|done].
  destruct (H key l E) as (wp & E' & _). simpl. by rewrite E'.
Qed.

Lemma store_ok_inj s k k' l :
  store_ok s -> profiles s !! k = Some l -> profiles s !! k' = Some l -> k = k'.
Proof.
  intros [H] Hk Hk'. destruct (H _ _ Hk) as (wp & E & <-), (H _ _ Hk') as (wp' & E' & <-).
  congruence.
Qed.

Lemma NewStore_ok count duration : store_ok (NewStore count duration) /\ view (NewStore count duration) = ∅.
Proof. split; [by constructor | by apply omap_empty]. Qed.

Lemma create_spec now key s s' l :
  store_ok s -> create now key s = (s', l) ->
  store_ok s' /\ profiles s' !! key = Some l
  /\ (forall k v, profiles s !! k = Some v -> profiles s' !! k = Some v)
  /\ view s' = match view s !! key with
               | Some _ => view s
               | None => <[key := NewWorkloadProfile now key (st_bucketCount s) (st_bucketDuration s)]> (view s)
               end.
Proof.
  intros Hok. unfold create, alloc, LoadOrStore. simpl.
  set (n := fresh (dom (heap s))). set (wp := NewWorkloadProfile _ _ _ _).
  assert (heap s !! n = None) as Hn by (apply not_elem_of_dom, is_fresh).
  assert (forall k v, profiles s !! k = Some v -> v <> n) as Hne.
  { intros k v Hk ->. destruct (ok_entry s Hok k n Hk) as (? & ? & _). congruence. }
  destruct (profiles s !! key) as [a|] eqn:E; intros [= <- <-].
  - split; [|split; [done|split; [done|]]].
    + constructor. simpl. intros k v Hk. rewrite lookup_insert_ne by (by apply not_eq_sym, (Hne k)).
      by apply (ok_entry s Hok).
    + rewrite (view_lookup s key a E). destruct (ok_entry s Hok key a E) as (w & Ew & _). rewrite Ew.
      apply map_eq. intros k. unfold view. rewrite !lookup_omap. simpl.
      destruct (profiles s !! k) as [v|] eqn:Ek; [|done]. simpl.
      by rewrite lookup_insert_ne by (by apply not_eq_sym, (Hne k)).
  - rewrite (proj2 (view_None s key Hok) E). simpl. split; [|split; [|split]].
    + constructor. simpl. intros k v Hk. destruct (decide (k = key)) as [->|Hkk].
      * rewrite lookup_insert_eq in Hk. injection Hk as <-. exists wp. by rewrite lookup_insert_eq.
      * rewrite lookup_insert_ne in Hk by done.
        rewrite lookup_insert_ne by (by apply not_eq_sym, (Hne k)). by apply (ok_entry s Hok).
    + by rewrite lookup_insert_eq.
    + intros k v Hk. rewrite lookup_insert_ne; [done|]. intros ->. congruence.
    + apply map_eq. intros k. unfold view. rewrite lookup_omap. simpl.
      destruct (decide (k = key)) as [->|Hkk].
      * by rewrite !lookup_insert_eq; simpl; rewrite lookup_insert_eq.
      * rewrite !lookup_insert_ne, lookup_omap by done.
        destruct (profiles s !! k) as [v|] eqn:Ek; [|done]. simpl.
        by rewrite lookup_insert_ne by (by apply not_eq_sym, (Hne k)).
Qed.

(** Replacing the profile at a held location replaces it under its key, and
    under no other. *)
Lemma view_set_heap s key l wp' :
  store_ok s -> profiles s !! key = Some l -> workloadKey wp' = key ->
  let s' := set_heap (<[l := wp']> (heap s)) s in
  store_ok s' /\ view s' = <[key := wp']> (view s) /\ profiles s' = profiles s.
Proof.
  intros Hok Hk Hkey s'. split; [|split; [|done]].
  - constructor. simpl. intros k v Hv. destruct (decide (v = l)) as [->|Hne].
    + rewrite lookup_insert_eq. exists wp'. split; [done|]. rewrite Hkey.
      exact (store_ok_inj s _ _ l Hok Hk Hv).
    + rewrite lookup_insert_ne by done. by apply (ok_entry s Hok).
  - apply map_eq. intros k. unfold view. rewrite lookup_omap. simpl.
    destruct (decide (k = key)) as [->|Hne].
    + rewrite lookup_insert_eq, Hk. simpl. by rewrite lookup_insert_eq.
    + rewrite lookup_insert_ne, lookup_omap by done.
      destruct (profiles s !! k) as [v|] eqn:E; [|done]. simpl. apply lookup_insert_ne.
      intros ->. apply Hne. symmetry. exact (store_ok_inj s _ _ v Hok Hk E).
Qed.

Lemma on_profile_spec s key l f s' :
  store_ok s -> profiles s !! key = Some l ->
  (forall wp wp', f wp = Some wp' -> workloadKey wp' = workloadKey wp) ->
  on_profile l f s = Some s' ->
  exists wp wp', view s !! key = Some wp /\ f wp = Some wp'
    /\ store_ok s' /\ view s' = <[key := wp']> (view s) /\ profiles s' = profiles s.
Proof.
  intros Hok Hk Hf H. unfold on_profile in H. destruct (ok_entry s Hok key l Hk) as (wp & Ew & Hkey).
  rewrite Ew in H. simpl in H. destruct (f wp) as [wp'|] eqn:Ef; [|done]. injection H as <-.
  exists wp, wp'. rewrite (view_lookup s key l Hk). split; [done|]. split; [done|].
  apply view_set_heap; try done. rewrite (Hf _ _ Ef). done.
Qed.

Lemma rotate_loop_identity k now : forall wp wp',
  rotate_loop k now wp = Some wp' -> same_identity wp wp'.
Proof.
  induction k as [|k IH]; intros wp wp' H; simpl in H; [by simplify_eq|].
  case_match; [done|]. destruct (slice_get _ _) as [b|]; simpl in H; [|done].
  destruct (slice_set _ _ _) as [bs|]; simpl in H; [|done].
  by destruct (IH _ _ H).
Qed.

Lemma maybeRotate_identity now wp wp' : maybeRotate now wp = Some wp' -> same_identity wp wp'.
Proof.
  unfold maybeRotate. case_match; [done|]. case_match; [by intros [= ->]|].
  destruct (rotate_loop _ now wp) as [w|] eqn:E; simpl; [|done].
  intros [= <-]. by destruct (rotate_loop_identity _ _ _ _ E).
Qed.

Lemma ComputeProfile_identity now wp wp' p :
  ComputeProfile now wp = Some (wp', p) -> same_identity wp wp' /\ WorkloadKey p = workloadKey wp.
Proof.
  unfold ComputeProfile. destruct (maybeRotate now wp) as [w|] eqn:E; simpl; [|done].
  intros [= <- <-]. destruct (maybeRotate_identity _ _ _ E) as [? Hk]. by simpl.
Qed.

Lemma win_step_identity now op wp wp' :
  win_step now op wp = Some wp' -> workloadKey wp' = workloadKey wp.
Proof.
  destruct op as [r node| |]; simpl.
  - destruct (record_shape now r node) as (upd & -> & _).
    destruct (maybeRotate now wp) as [w|] eqn:E; simpl; [|done].
    destruct (maybeRotate_identity _ _ _ E) as [_ <-]. unfold update_current.
    destruct (slice_get _ _) as [b|]; simpl; [|done].
    destruct (slice_set _ _ _) as [bs|]; simpl; [|done]. by intros [= <-].
  - destruct (ComputeProfile now wp) as [[w p]|] eqn:E; simpl; [|done].
    intros [= <-]. by destruct (ComputeProfile_identity _ _ _ _ E) as [[_ ?] _].
  - by intros [= <-].
Qed.

(** ** The store implements the interface *)
#[export] Instance store_profile_store : ProfileStore Store := {
  handle := loc;
  ps_count := st_bucketCount;
  ps_duration := st_bucketDuration;
  ps_GetOrCreate := GetOrCreate;
  ps_method l now op := on_profile l (win_step now op);
  ps_QueryProfile := QueryProfile;
  ps_view := view;
  ps_ok := store_ok;
  ps_holds s l key := profiles s !! key = Some l }.

Lemma create_config now key s s' l :
  create now key s = (s', l) ->
  st_bucketCount s' = st_bucketCount s /\ st_bucketDuration s' = st_bucketDuration s.
Proof. unfold create, alloc, LoadOrStore. simpl. by destruct (profiles s !! key); intros [= <- <-]. Qed.

#[export] Instance store_profile_store_laws : ProfileStoreLaws Store.
Proof.
  constructor; simpl.
  - intros now key s s' h Hok H. unfold GetOrCreate, Load in H.
    destruct (profiles s !! key) as [l|] eqn:E.
    + injection H as <- <-. split; [done|]. split; [done|]. split; [done|].
      rewrite (view_lookup s key l E). by destruct (ok_entry s Hok key l E) as (wp & -> & _).
    + destruct (create_spec now key s s' h Hok H) as (? & ? & _ & ?).
      split; [done|]. split; [done|]. split; [by apply (create_config now key s s' h)|done].
  - intros l key now op s wp wp' Hok Hl Hv Hw. unfold on_profile.
    rewrite (view_lookup s key l Hl) in Hv. rewrite Hv. simpl. rewrite Hw. simpl.
    eexists. split; [reflexivity|]. destruct (ok_entry s Hok key l Hl) as (w & Ew & Hk).
    assert (w = wp) as -> by congruence.
    destruct (view_set_heap s key l wp' Hok Hl) as (? & ? & _); [|done].
    by rewrite (win_step_identity _ _ _ _ Hw).
  - intros now key s Hok. unfold QueryProfile, Get, Load.
    destruct (view s !! key) as [wp|] eqn:Ev.
    + intros wp' p Hc. destruct (profiles s !! key) as [l|] eqn:E.
      2: { apply view_None in E; [congruence|done]. }
      rewrite (view_lookup s key l E) in Ev. unfold compute_at. rewrite Ev. simpl. rewrite Hc. simpl.
      eexists. split; [reflexivity|]. destruct (ok_entry s Hok key l E) as (w & Ew & Hk).
      assert (w = wp) as -> by congruence.
      destruct (view_set_heap s key l wp' Hok E) as (? & ? & _); [|done].
      destruct (ComputeProfile_identity _ _ _ _ Hc) as [[_ ->] _]. done.
    + by rewrite (proj1 (view_None s key Hok) Ev).
Qed.

(** ** Concurrent callers

    A caller of [GetOrCreate] is before its [Load], between the [Load] that
    missed and the [LoadOrStore], or holds a profile and records through it.
    [Store.Delete] has no caller in the program. *)
Inductive caller := Calling (key : string) | Missed (key : string) | Holding (key : string) (l : loc).

(** What happens in a step: caller [i] enters [GetOrCreate], does its [Load] or its
    [LoadOrStore], calls a method on the profile it holds; or someone queries. *)
Inductive action :=
  | Enter (i : nat) (key : string) | DoLoad (i : nat) | DoCreate (i : nat) (now : Time)
  | Method (i : nat) (now : Time) (op : win_op) | Query (now : Time) (key : string).

(** The second index is what the step answers. *)
Inductive store_step : action -> option RuntimeProfile ->
    Store * gmap nat caller -> Store * gmap nat caller -> Prop :=
  | step_start s cs i key : cs !! i = None -> store_step (Enter i key) None (s, cs) (s, <[i := Calling key]> cs)
  | step_hit s cs i key l : cs !! i = Some (Calling key) -> Load key s = Some l ->
      store_step (DoLoad i) None (s, cs) (s, <[i := Holding key l]> cs)
  | step_miss s cs i key : cs !! i = Some (Calling key) -> Load key s = None ->
      store_step (DoLoad i) None (s, cs) (s, <[i := Missed key]> cs)
  | step_create s cs i key now s' l : cs !! i = Some (Missed key) -> create now key s = (s', l) ->
      store_step (DoCreate i now) None (s, cs) (s', <[i := Holding key l]> cs)
  | step_method s cs i key l now op s' : cs !! i = Some (Holding key l) ->
      on_profile l (win_step now op) s = Some s' -> store_step (Method i now op) None (s, cs) (s', cs)
  | step_query s cs now key s' p : QueryProfile now key s = Some (s', p) ->
      store_step (Query now key) (Some p) (s, cs) (s', cs).

Definition some_step (c c' : Store * gmap nat caller) : Prop := exists a o, store_step a o c c'.

Lemma step_some a o c c' : store_step a o c c' -> some_step c c'.
Proof. by exists a, o. Qed.

Definition callers_ok (c : Store * gmap nat caller) : Prop :=
  store_ok (fst c) /\ forall i key l, snd c !! i = Some (Holding key l) -> profiles (fst c) !! key = Some l.

Lemma QueryProfile_spec now key s s' p :
  store_ok s -> QueryProfile now key s = Some (s', p) ->
  store_ok s' /\ profiles s' = profiles s
  /\ match view s !! key with
     | None => s' = s /\ p = bare_profile key ConfidenceUnknown
     | Some wp => exists wp', ComputeProfile now wp = Some (wp', p) /\ view s' = <[key := wp']> (view s)
     end.
Proof.
  intros Hok. unfold QueryProfile, Get, Load.
  destruct (profiles s !! key) as [l|] eqn:E.
  - rewrite (view_lookup s key l E). unfold compute_at.
    destruct (ok_entry s Hok key l E) as (wp & Ew & Hkey). rewrite Ew. simpl.
    destruct (ComputeProfile now wp) as [[wp' p']|] eqn:Ec; simpl; [|done]. intros [= <- <-].
    destruct (ComputeProfile_identity _ _ _ _ Ec) as [[_ Hk'] _].
    destruct (view_set_heap s key l wp' Hok E ltac:(congruence)) as (? & ? & ?). eauto.
  - rewrite (proj2 (view_None s key Hok) E). by intros [= <- <-].
Qed.

Lemma store_step_ok a o c c' : store_step a o c c' -> callers_ok c -> callers_ok c'.
Proof.
  destruct 1 as [s cs i key Hi|s cs i key l Hi Hl|s cs i key Hi Hl|s cs i key now s' l Hi Hc
                |s cs i key l now op s' Hi Hm|s cs now key s' p Hq]; intros [Hok Hh]; simpl in *.
  - split; [done|]. intros j k l Hj. simpl in *. apply lookup_insert_Some in Hj as [[_ ?]|[_ Hj]]; [done|eauto].
  - split; [done|]. intros j k l' Hj. simpl in *.
    apply lookup_insert_Some in Hj as [[_ [= -> ->]]|[_ Hj]]; [done|eauto].
  - split; [done|]. intros j k l Hj. simpl in *. apply lookup_insert_Some in Hj as [[_ ?]|[_ Hj]]; [done|eauto].
  - destruct (create_spec now key s s' l Hok Hc) as (Hok' & Hk & Hmono & _). split; [done|].
    intros j k l' Hj. simpl in *. apply lookup_insert_Some in Hj as [[_ [= -> ->]]|[_ Hj]]; [done|eauto].
  - destruct (on_profile_spec s key l _ s' Hok (Hh _ _ _ Hi) (win_step_identity now op) Hm)
      as (? & ? & _ & _ & Hok' & _ & Hp).
    split; [done|]. simpl. intros j k l' Hj. rewrite Hp. eauto.
  - destruct (QueryProfile_spec _ _ _ _ _ Hok Hq) as (Hok' & Hp & _).
    split; [done|]. simpl. intros j k l' Hj. rewrite Hp. eauto.
Qed.

Definition reachable (count : Z) (duration : Duration) (c : Store * gmap nat caller) : Prop :=
  rtc some_step (NewStore count duration, ∅) c.

Lemma reachable_ok count duration c : reachable count duration c -> callers_ok c.
Proof.
  intros H. assert (callers_ok (NewStore count duration, ∅)) as H0.
  { split; [apply NewStore_ok|]. intros i key l Hi. simpl in Hi. by rewrite lookup_empty in Hi. }
  revert H0. induction H as [|c1 c2 c3 (a & o & Hs) _ IH]; [done|]. intros H0. by apply IH, (store_step_ok a o c1).
Qed.

(** C8: one profile per key.  In any interleaving of any number of concurrent
    [GetOrCreate] calls, recordings, reads and resets, all callers that hold a
    profile for a key hold the same one, it is the one the store serves for that
    key, and no profile is held for two keys. *)
Theorem one_profile_per_key count duration s cs i j key key' l l' :
  reachable count duration (s, cs) ->
  cs !! i = Some (Holding key l) -> cs !! j = Some (Holding key' l') ->
  Get key s = Some l /\ (key = key' <-> l = l').
Proof.
  intros [Hok Hh]%reachable_ok Hi Hj. simpl in *.
  pose proof (Hh _ _ _ Hi) as Ei. pose proof (Hh _ _ _ Hj) as Ej. split; [done|]. split.
  - intros ->. congruence.
  - intros ->. exact (store_ok_inj s _ _ l' Hok Ei Ej).
Qed.

(** ** The specification: a plain map of windows

    Callers know only their key.  The map answers each action in one way. *)
Inductive session := SCalling (key : string) | SMissed (key : string) | SHolding (key : string).

Record map_state := mk_map_state { ms_windows : gmap string WorkloadProfile; ms_sessions : gmap nat session }.

Definition empty_map : map_state := mk_map_state ∅ ∅.

Definition map_step (n : Z) (d : Duration) (a : action) (m : map_state) : option (map_state * option RuntimeProfile) :=
  let ws := ms_windows m in
  let ss := ms_sessions m in
  match a with
  | Enter i key => match ss !! i with None => Some (mk_map_state ws (<[i := SCalling key]> ss), None) | Some _ => None end
  | DoLoad i =>
      match ss !! i with
      | Some (SCalling key) =>
          Some (mk_map_state ws (<[i := match ws !! key with Some _ => SHolding key | None => SMissed key end]> ss), None)
      | _ => None
      end
  | DoCreate i now =>
      match ss !! i with
      | Some (SMissed key) =>
          Some (mk_map_state (match ws !! key with Some _ => ws | None => <[key := NewWorkloadProfile now key n d]> ws end)
                  (<[i := SHolding key]> ss), None)
      | _ => None
      end
  | Method i now op =>
      match ss !! i with
      | Some (SHolding key) => wp ← ws !! key; wp' ← win_step now op wp; Some (mk_map_state (<[key := wp']> ws) ss, None)
      | _ => None
      end
  | Query now key =>
      match ws !! key with
      | None => Some (m, Some (bare_profile key ConfidenceUnknown))
      | Some wp => '(wp', p) ← ComputeProfile now wp; Some (mk_map_state (<[key := wp']> ws) ss, Some p)
      end
  end.

Definition forget (c : caller) : session :=
  match c with Calling key => SCalling key | Missed key => SMissed key | Holding key _ => SHolding key end.

(** The map a store and its callers stand for. *)
Definition abstract (c : Store * gmap nat caller) : map_state := mk_map_state (view (fst c)) (forget <$> snd c).

Lemma on_profile_config l f s s' :
  on_profile l f s = Some s' ->
  st_bucketCount s' = st_bucketCount s /\ st_bucketDuration s' = st_bucketDuration s.
Proof.
  unfold on_profile. destruct (heap s !! l) as [wp|]; simpl; [|done].
  destruct (f wp) as [wp'|]; simpl; [|done]. by intros [= <-].
Qed.

Lemma QueryProfile_config now key s s' p :
  QueryProfile now key s = Some (s', p) ->
  st_bucketCount s' = st_bucketCount s /\ st_bucketDuration s' = st_bucketDuration s.
Proof.
  unfold QueryProfile. destruct (Get key s) as [l|]; [|by intros [= <- <-]].
  unfold compute_at. destruct (heap s !! l) as [wp|]; simpl; [|done].
  destruct (ComputeProfile now wp) as [[wp' p']|]; simpl; [|done]. by intros [= <- <-].
Qed.

Definition configured (n : Z) (d : Duration) (s : Store) : Prop := st_bucketCount s = n /\ st_bucketDuration s = d.

Lemma forget_lookup (cs : gmap nat caller) i : (forget <$> cs) !! i = forget <$> cs !! i.
Proof. apply lookup_fmap. Qed.

(** Each step of the store is the map's, with the same answer. *)
Lemma step_forward n d a o c c' : callers_ok c -> configured n d (fst c) -> store_step a o c c' ->
  map_step n d a (abstract c) = Some (abstract c', o) /\ configured n d (fst c').
Proof.
  intros [Hok Hh] [Hn Hd] Hs. unfold map_step, abstract.
  destruct Hs as [s cs i key Hi|s cs i key l Hi Hl|s cs i key Hi Hl|s cs i key now s' l Hi Hc
                 |s cs i key l now op s' Hi Hm|s cs now key s' p Hq]; cbn [fst snd ms_windows ms_sessions] in *;
    rewrite ?forget_lookup, ?Hi, ?fmap_insert; cbn [fmap option_fmap option_map forget].
  - by split.
  - unfold Load in Hl. destruct (view s !! key) eqn:E; [by split|]. apply view_None in E; [congruence|done].
  - apply view_None in Hl; [|done]. by rewrite Hl.
  - destruct (create_spec now key s s' l Hok Hc) as (_ & _ & _ & ->).
    destruct (create_config now key s s' l Hc) as [E1 E2]. rewrite Hn, Hd in *. by split.
  - destruct (on_profile_spec s key l _ s' Hok (Hh _ _ _ Hi) (win_step_identity now op) Hm)
      as (wp & wp' & Ew & Ew' & _ & -> & _). rewrite Ew. cbn [mbind option_bind]. rewrite Ew'.
    destruct (on_profile_config _ _ _ _ Hm). split; [done|]. split; congruence.
  - destruct (QueryProfile_spec _ _ _ _ _ Hok Hq) as (_ & _ & Hv).
    destruct (QueryProfile_config _ _ _ _ _ Hq). split; [|split; congruence].
    destruct (view s !! key) as [wp|]; [|by destruct Hv as [-> ->]].
    destruct Hv as (wp' & -> & ->). done.
Qed.

Lemma forget_inv (cs : gmap nat caller) i : forall x, (forget <$> cs) !! i = Some x ->
  match x with
  | SCalling key => cs !! i = Some (Calling key)
  | SMissed key => cs !! i = Some (Missed key)
  | SHolding key => exists l, cs !! i = Some (Holding key l)
  end.
Proof. intros x. rewrite forget_lookup. destruct (cs !! i) as [[]|]; simpl; intros [= <-]; eauto. Qed.

(** Whatever the map can do, the store can do, with the same answer. *)
Lemma step_backward n d a o c m : callers_ok c -> configured n d (fst c) ->
  map_step n d a (abstract c) = Some (m, o) -> exists c', store_step a o c c'.
Proof.
  destruct c as [s cs]. intros [Hok Hh] Hcfg H.
  destruct a as [i key|i|i now|i now op|now key]; unfold map_step, abstract in H; cbn [fst snd ms_windows ms_sessions] in *.
  1-4: destruct ((forget <$> cs) !! i) as [x|] eqn:Ei; [apply forget_inv in Ei; destruct x|]; simplify_eq.
  - rewrite forget_lookup in Ei. apply fmap_None in Ei. eexists. by apply step_start.
  - destruct (Load key s) as [l|] eqn:El; eexists; [by eapply step_hit|by eapply step_miss].
  - destruct (create now key s) as [s' l] eqn:Ec. eexists. by eapply step_create.
  - destruct Ei as [l Ei]. pose proof (Hh i key l Ei) as Hl. cbn [fst] in Hl.
    rewrite (view_lookup s key l Hl) in H. destruct (heap s !! l) as [wp|] eqn:Ew; [|done]. cbn [mbind option_bind] in H.
    destruct (win_step now op wp) as [wp'|] eqn:E; [|done]. simplify_eq/=. eexists. eapply step_method; [done|].
    unfold on_profile. rewrite Ew. simpl. by rewrite E.
  - destruct (view s !! key) as [wp|] eqn:Ev.
    + destruct (ComputeProfile now wp) as [[wp' p]|] eqn:Ec; simplify_eq/=.
      destruct (profiles s !! key) as [l|] eqn:El; [|by rewrite (proj2 (view_None s key Hok) El) in Ev].
      rewrite (view_lookup s key l El) in Ev. eexists. eapply step_query.
      unfold QueryProfile, Get, Load, compute_at. rewrite El, Ev. simpl. by rewrite Ec.
    + simplify_eq. exists (s, cs). apply step_query. unfold QueryProfile, Get, Load.
      by rewrite (proj1 (view_None s key Hok) Ev).
Qed.

(** Runs: the actions with their answers. *)
Inductive store_run : list action -> list (option RuntimeProfile) ->
    Store * gmap nat caller -> Store * gmap nat caller -> Prop :=
  | run_nil c : store_run [] [] c c
  | run_cons a o acts outs c c1 c2 : store_step a o c c1 -> store_run acts outs c1 c2 ->
      store_run (a :: acts) (o :: outs) c c2.

Fixpoint map_run (n : Z) (d : Duration) (acts : list action) (m : map_state) :
  option (map_state * list (option RuntimeProfile)) :=
  match acts with
  | [] => Some (m, [])
  | a :: acts => '(m, o) ← map_step n d a m; '(m, outs) ← map_run n d acts m; Some (m, o :: outs)
  end.

Lemma run_forward n d acts outs c c' : store_run acts outs c c' -> callers_ok c -> configured n d (fst c) ->
  map_run n d acts (abstract c) = Some (abstract c', outs).
Proof.
  induction 1 as [|a o acts outs c c1 c2 Hs _ IH]; intros Hok Hcfg; [done|].
  destruct (step_forward n d a o c c1 Hok Hcfg Hs) as [E Hcfg1]. simpl. rewrite E. cbn [mbind option_bind].
  by rewrite IH by (try done; by eapply store_step_ok).
Qed.

Lemma run_backward n d acts : forall outs c m, callers_ok c -> configured n d (fst c) ->
  map_run n d acts (abstract c) = Some (m, outs) -> exists c', store_run acts outs c c' /\ abstract c' = m.
Proof.
  induction acts as [|a acts IH]; intros outs c m Hok Hcfg H; simpl in H.
  { simplify_eq. exists c. split; [constructor|done]. }
  destruct (map_step n d a (abstract c)) as [[m1 o]|] eqn:E; [|done]. cbn [mbind option_bind] in H.
  destruct (step_backward n d a o c m1 Hok Hcfg E) as [c1 Hs].
  destruct (step_forward n d a o c c1 Hok Hcfg Hs) as [E1 Hcfg1]. rewrite E in E1. simplify_eq.
  destruct (map_run n d acts (abstract c1)) as [[m2 outs2]|] eqn:E2; [|done]. simplify_eq/=.
  destruct (IH outs2 c1 m (store_step_ok _ _ _ _ Hs Hok) Hcfg1 E2) as (c2 & Hr & Hm).
  exists c2. split; [by econstructor|done].
Qed.

(** C9: refinement.  However the calls of any number of callers interleave, from an
    empty store, the store and a plain map of windows, configured alike, can do
    exactly the same runs of actions with exactly the same answers, and end in the
    same map: a [Load] hits when the key has a window, a [LoadOrStore] adds a fresh
    window only if it still has none, a method acts on the window of the caller's
    key, a query rotates and reports the window of its key. *)
Theorem store_refines_map count duration acts outs :
  let s0 := NewStore count duration in
  let spec := map_run (st_bucketCount s0) (st_bucketDuration s0) acts empty_map in
  (forall c, store_run acts outs (s0, ∅) c -> spec = Some (abstract c, outs))
  /\ (forall m, spec = Some (m, outs) -> exists c, store_run acts outs (s0, ∅) c /\ abstract c = m).
Proof.
  intros s0 spec. pose proof (reachable_ok count duration _ (rtc_refl _ _)) as Hok.
  assert (abstract (s0, ∅) = empty_map) as E
    by (unfold abstract, empty_map, s0; cbn [fst snd]; by rewrite (proj2 (NewStore_ok count duration)), fmap_empty).
  unfold spec. rewrite <- E. split.
  - intros c Hr. by apply run_forward.
  - intros m. by apply run_backward.
Qed.

(** ** Nothing panics *)
Definition windows_wf (s : Store) : Prop :=
  st_bucketCount s < 2 ^ 63 - 1 /\ forall key wp, view s !! key = Some wp -> win_wf wp.

Lemma map_step_wf n d a m m' o :
  n < 2 ^ 63 - 1 -> (forall k wp, ms_windows m !! k = Some wp -> win_wf wp) -> map_step n d a m = Some (m', o) ->
  forall k wp, ms_windows m' !! k = Some wp -> win_wf wp.
Proof.
  intros Hn Hm Hs.
  assert (forall key wp', win_wf wp' -> forall k w, <[key := wp']> (ms_windows m) !! k = Some w -> win_wf w) as Hins.
  { intros key wp' Hw k w Hk. apply lookup_insert_Some in Hk as [[_ <-]|[_ Hk]]; [done|by eapply Hm]. }
  destruct a as [i key|i|i now|i now op|now key]; simpl in Hs.
  1-4: destruct (ms_sessions m !! i) as [[key'|key'|key']|]; simplify_eq/=; try exact Hm.
  - destruct (ms_windows m !! key'); [exact Hm|]. by apply Hins, NewWorkloadProfile_wf.
  - destruct (ms_windows m !! key') as [wp|] eqn:E; [|done]. simpl in Hs.
    destruct (win_step_wf now op wp (Hm _ _ E)) as (wp' & E' & Hw). rewrite E' in Hs. simplify_eq/=. by apply Hins.
  - destruct (ms_windows m !! key) as [wp|] eqn:E; [|by simplify_eq].
    destruct (win_step_wf now OpCompute wp (Hm _ _ E)) as (wp' & E' & Hw). simpl in E'.
    destruct (ComputeProfile now wp) as [[w p]|]; [|done]. simplify_eq/=. by apply Hins.
Qed.

Lemma reachable_wf count duration c :
  count < 2 ^ 63 - 1 -> reachable count duration c -> callers_ok c /\ windows_wf (fst c).
Proof.
  intros Hc H. unfold reachable in H. set (c0 := (NewStore count duration, ∅) : Store * gmap nat caller) in H.
  assert (callers_ok c0 /\ windows_wf (fst c0)) as H0.
  { split; [exact (reachable_ok count duration _ (rtc_refl _ _))|]. split.
    - simpl. unfold DefaultBucketCount. destruct (count <=? 0); lia.
    - intros k wp. unfold c0. cbn [fst]. by rewrite (proj2 (NewStore_ok count duration)), lookup_empty. }
  revert H0. clearbody c0. induction H as [|c1 c2 c3 (a & o & Hs) _ IH]; [done|].
  intros (Hok & Hn & Hw). apply IH.
  destruct (step_forward _ _ a o c1 c2 Hok (conj eq_refl eq_refl) Hs) as [E [En _]].
  split; [by apply (store_step_ok a o c1)|]. split; [lia|]. exact (map_step_wf _ _ a (abstract c1) _ o Hn Hw E).
Qed.

(** A method call on an entry's window returns. *)
Lemma on_profile_returns s key l now op :
  store_ok s -> windows_wf s -> profiles s !! key = Some l -> is_Some (on_profile l (win_step now op) s).
Proof.
  intros Hok [_ Hw] Hl. destruct (ok_entry s Hok key l Hl) as (wp & Ew & _).
  unfold on_profile. rewrite Ew. simpl. rewrite <- (view_lookup s key l Hl) in Ew.
  destruct (win_step_wf now op wp (Hw key wp Ew)) as (wp' & -> & _). simpl. eauto.
Qed.

Lemma compute_at_returns s key l now :
  store_ok s -> windows_wf s -> profiles s !! key = Some l ->
  exists s' p, compute_at now l s = Some (s', p)
    /\ store_ok s' /\ windows_wf s' /\ profiles s' = profiles s.
Proof.
  intros Hok [Hn Hw] Hl. destruct (ok_entry s Hok key l Hl) as (wp & Ew & Hk).
  unfold compute_at. rewrite Ew. simpl. rewrite <- (view_lookup s key l Hl) in Ew.
  destruct (ComputeProfile_wf now wp (Hw key wp Ew)) as (wp' & p & Ec). rewrite Ec. simpl.
  destruct (ComputeProfile_identity _ _ _ _ Ec) as [[_ Hk'] _].
  destruct (view_set_heap s key l wp' Hok Hl ltac:(congruence)) as (Hok' & Hv & Hp).
  do 2 eexists. split; [reflexivity|]. split; [done|]. split; [|done]. split; [done|].
  intros k w Hk2. rewrite Hv in Hk2. apply lookup_insert_Some in Hk2 as [[_ <-]|[_ Hk2]]; [|by eapply Hw].
  destruct (win_step_wf now OpCompute wp (Hw key wp Ew)) as (w & E & Hw'). simpl in E. rewrite Ec in E.
  by simplify_eq/=.
Qed.

Lemma query_node_returns nodeName visits : forall s,
  store_ok s -> windows_wf s -> (forall key l now, (key, l, now) ∈ visits -> profiles s !! key = Some l) ->
  exists s' ps, QueryNodeProfiles nodeName visits s = Some (s', ps).
Proof.
  induction visits as [|[[key l] now] visits IH]; intros s Hok Hw Hp; simpl; [eauto|].
  assert (profiles s !! key = Some l) as Hk by (apply (Hp key l now); left).
  destruct (ok_entry s Hok key l Hk) as (wp & Ew & _). rewrite Ew. simpl. case_bool_decide.
  - destruct (compute_at_returns s key l now Hok Hw Hk) as (s1 & p & E & Hok1 & Hw1 & Hps).
    rewrite E. simpl. destruct (IH s1 Hok1 Hw1) as (s2 & ps & E2).
    { intros k l' t Hin. rewrite Hps. apply (Hp k l' t). by right. }
    rewrite E2. simpl. eauto.
  - apply IH; [done..|]. intros k l' t Hin. apply (Hp k l' t). by right.
Qed.

(** C10: the store never panics.  In any interleaving of any number of callers, with
    any clock, a recording, read or reset on a held profile returns, and so does a
    query of any key. *)
Theorem store_never_panics count duration s cs :
  count < 2 ^ 63 - 1 -> reachable count duration (s, cs) ->
  (forall i key l now op, cs !! i = Some (Holding key l) -> is_Some (on_profile l (win_step now op) s))
  /\ forall now key, is_Some (QueryProfile now key s).
Proof.
  intros Hc Hr. destruct (reachable_wf count duration _ Hc Hr) as [[Hok Hh] Hw]. simpl in *. split.
  - intros i key l now op Hi. eapply on_profile_returns; eauto.
  - intros now key. unfold QueryProfile, Get, Load. destruct (profiles s !! key) as [l|] eqn:E; [|eauto].
    destruct (compute_at_returns s key l now Hok Hw E) as (s' & p & -> & _). eauto.
Qed.

(** ** Queries by node *)
Definition visit_profile (nodeName : string) (m : gmap string WorkloadProfile)
  (v : string * loc * Time) : option RuntimeProfile :=
  let '(key, _, now) := v in
  wp ← m !! key;
  if bool_decide (nodeName ∈ NodeLocations wp) then snd <$> ComputeProfile now wp else None.

Lemma query_node_spec nodeName visits : forall s s' ps,
  store_ok s -> NoDup visits.*1.*1 ->
  (forall key l now, (key, l, now) ∈ visits -> profiles s !! key = Some l) ->
  QueryNodeProfiles nodeName visits s = Some (s', ps) ->
  store_ok s' /\ profiles s' = profiles s
  /\ ps = omap (visit_profile nodeName (view s)) visits
  /\ (forall v wp, v ∈ visits -> view s !! v.1.1 = Some wp -> nodeName ∈ NodeLocations wp ->
        is_Some (visit_profile nodeName (view s) v)).
Proof.
  induction visits as [|[[key l] now] visits IH]; intros s s' ps Hok Hnd Hp H; simpl in H.
  { injection H as <- <-. split; [done|]. split; [done|]. split; [done|].
    by intros v wp Hv%elem_of_nil. }
  csimpl in Hnd. apply NoDup_cons in Hnd as [Hnot Hnd].
  assert (profiles s !! key = Some l) as Hk by (apply (Hp key l now); left).
  destruct (ok_entry s Hok key l Hk) as (wp & Ew & Hkey). rewrite Ew in H. simpl in H.
  assert (forall m, (forall k, k <> key -> m !! k = view s !! k) -> forall v, v ∈ visits ->
    visit_profile nodeName m v = visit_profile nodeName (view s) v /\ m !! v.1.1 = view s !! v.1.1) as Hv.
  { intros m Hm [[k l'] t] Hv. simpl. rewrite Hm; [done|]. intros E. apply Hnot. rewrite <- E.
    exact (list_elem_of_fmap_2' fst _ _ _ (list_elem_of_fmap_2' fst _ _ _ Hv eq_refl) eq_refl). }
  assert (forall m, (forall k, k <> key -> m !! k = view s !! k) ->
    omap (visit_profile nodeName m) visits = omap (visit_profile nodeName (view s)) visits) as Hext.
  { intros m Hm. apply list_omap_ext, Forall2_same_length_lookup_2; [done|].
    intros i v v' Hv1 Hv2. assert (v = v') as <- by congruence.
    apply (Hv m Hm). by apply list_elem_of_lookup_2 in Hv1. }
  csimpl. rewrite (view_lookup s key l Hk), Ew. simpl.
  case_bool_decide as Hnode.
  - unfold compute_at in H. rewrite Ew in H. simpl in H.
    destruct (ComputeProfile now wp) as [[wp' p]|] eqn:Ec; simpl in H; [|done].
    destruct (ComputeProfile_identity _ _ _ _ Ec) as [[_ Hk'] _].
    destruct (view_set_heap s key l wp' Hok Hk ltac:(congruence)) as (Hok' & Hview & Hps).
    destruct (QueryNodeProfiles nodeName visits _) as [[s2 ps2]|] eqn:Eq; simpl in H; [|done].
    injection H as <- <-.
    destruct (fun P => IH _ s2 ps2 Hok' Hnd P Eq) as (H1 & H2 & -> & H4).
    { intros k l' t Hin. rewrite Hps. apply (Hp k l' t). by right. }
    assert (forall k, k <> key -> view (set_heap (<[l:=wp']> (heap s)) s) !! k = view s !! k) as Hm
      by (intros k Hne; rewrite Hview; by apply lookup_insert_ne).
    split; [done|]. split; [congruence|]. split; [simpl; f_equal; by apply Hext|].
    intros v w [->|Hin]%elem_of_cons Hw Hn.
    + simpl. rewrite (view_lookup s key l Hk), Ew. simpl. by rewrite bool_decide_true, Ec.
    + destruct (Hv _ Hm v Hin) as [E1 E2]. rewrite <- E1. apply (H4 v w); [done|by rewrite E2|done].
  - destruct (fun P => IH s s' ps Hok Hnd P H) as (H1 & H2 & -> & H4).
    { intros k l' t Hin. apply (Hp k l' t). by right. }
    split; [done|]. split; [done|]. split; [done|].
    intros v w [->|Hin]%elem_of_cons Hw Hn; [|by apply (H4 v w)].
    simpl in Hw. rewrite (view_lookup s key l Hk), Ew in Hw. by simplify_eq.
Qed.

Lemma visit_profile_key nodeName m v p :
  (forall key wp, m !! key = Some wp -> workloadKey wp = key) ->
  visit_profile nodeName m v = Some p -> WorkloadKey p = v.1.1.
Proof.
  destruct v as [[key l] now]. simpl. intros Hm. destruct (m !! key) as [wp|] eqn:E; simpl; [|done].
  case_bool_decide; [|done]. destruct (ComputeProfile now wp) as [[wp' p']|] eqn:Ec; simpl; [|done].
  intros [= <-]. destruct (ComputeProfile_identity _ _ _ _ Ec) as [_ ->]. by apply Hm.
Qed.

Lemma visits_entries s (visits : list (string * loc * Time)) :
  visits.*1 ≡ₚ map_to_list (profiles s) ->
  forall key l now, (key, l, now) ∈ visits -> profiles s !! key = Some l.
Proof.
  intros Hperm key l now Hin. apply elem_of_map_to_list. rewrite <- Hperm.
  exact (list_elem_of_fmap_2' fst _ _ _ Hin eq_refl).
Qed.

Lemma query_node_exact nodeName visits s s' ps :
  store_ok s -> visits.*1 ≡ₚ map_to_list (profiles s) ->
  QueryNodeProfiles nodeName visits s = Some (s', ps) ->
  NoDup (WorkloadKey <$> ps)
  /\ (forall p, p ∈ ps -> exists wp now wp', view s !! WorkloadKey p = Some wp
        /\ nodeName ∈ NodeLocations wp /\ ComputeProfile now wp = Some (wp', p))
  /\ (forall key wp, view s !! key = Some wp -> nodeName ∈ NodeLocations wp -> key ∈ WorkloadKey <$> ps).
Proof.
  intros Hok Hperm H.
  assert (NoDup visits.*1.*1) as Hnd by (rewrite Hperm; apply NoDup_fst_map_to_list).
  pose proof (visits_entries s visits Hperm) as Hp.
  destruct (query_node_spec nodeName visits s s' ps Hok Hnd Hp H) as (_ & _ & -> & Hsome).
  assert (forall key wp, view s !! key = Some wp -> workloadKey wp = key) as Hkeys.
  { intros key wp. unfold view. rewrite lookup_omap. destruct (profiles s !! key) as [l|] eqn:E; [|done].
    simpl. destruct (ok_entry s Hok key l E) as (w & -> & ?). by intros [= <-]. }
  split; [|split].
  - clear H Hp Hperm Hsome. induction visits as [|v visits IH]; csimpl; [constructor|].
    csimpl in Hnd. apply NoDup_cons in Hnd as [Hnot Hnd].
    destruct (visit_profile nodeName (view s) v) as [p|] eqn:E; [|by apply IH]. csimpl.
    apply NoDup_cons. split; [|by apply IH].
    rewrite (visit_profile_key _ _ _ _ Hkeys E). intros (p' & Ep & Hp')%list_elem_of_fmap.
    apply list_elem_of_omap in Hp' as (v' & Hv' & E'). apply Hnot.
    rewrite Ep, (visit_profile_key _ _ _ _ Hkeys E').
    exact (list_elem_of_fmap_2' fst _ _ _ (list_elem_of_fmap_2' fst _ _ _ Hv' eq_refl) eq_refl).
  - intros p ([[key l] now] & Hv & E)%list_elem_of_omap.
    rewrite (visit_profile_key _ _ _ _ Hkeys E). simpl in *.
    destruct (view s !! key) as [wp|]; simpl in E; [|done]. case_bool_decide; [|done].
    destruct (ComputeProfile now wp) as [[wp' p']|] eqn:Ec; simpl in E; [|done]. simplify_eq.
    by exists wp, now, wp'.
  - intros key wp Hv Hnode.
    assert (exists l, profiles s !! key = Some l) as [l Hl].
    { destruct (profiles s !! key) eqn:E; [eauto|]. apply view_None in E; [congruence|done]. }
    assert ((key, l) ∈ visits.*1) as ([[key' l'] now] & Heq & Hin)%list_elem_of_fmap
      by (rewrite Hperm; by apply elem_of_map_to_list).
    simpl in Heq. injection Heq as <- <-.
    destruct (Hsome (key, l, now) wp Hin Hv Hnode) as [p Ep].
    apply list_elem_of_fmap. exists p. split; [by rewrite (visit_profile_key _ _ _ _ Hkeys Ep)|].
    apply list_elem_of_omap. by exists (key, l, now).
Qed.

(** C11: a node query is exact.  In any reachable store, whatever order and times
    the map iteration takes, a node query returns one profile for each key that has
    recorded the node and for no other, each computed from the window the store had
    for that key. *)
Theorem query_node_profiles_exact count duration s cs nodeName visits :
  count < 2 ^ 63 - 1 -> reachable count duration (s, cs) -> visits.*1 ≡ₚ map_to_list (profiles s) ->
  exists s' ps, QueryNodeProfiles nodeName visits s = Some (s', ps)
  /\ NoDup (WorkloadKey <$> ps)
  /\ (forall p, p ∈ ps -> exists wp now wp', view s !! WorkloadKey p = Some wp
        /\ nodeName ∈ NodeLocations wp /\ ComputeProfile now wp = Some (wp', p))
  /\ (forall key wp, view s !! key = Some wp -> nodeName ∈ NodeLocations wp -> key ∈ WorkloadKey <$> ps).
Proof.
  intros Hc Hr Hperm. destruct (reachable_wf count duration _ Hc Hr) as [[Hok _] Hw].
  destruct (query_node_returns nodeName visits s Hok Hw (visits_entries s visits Hperm)) as (s' & ps & H).
  exists s', ps. split; [done|]. by apply (query_node_exact nodeName visits s s').
Qed.

(** ** Witnesses: two concurrent callers that both miss *)
Definition racing : Store := fst (create day "w" (NewStore 12 0)).
Definition race : Store * gmap nat caller :=
  (fst (create day "w" racing), {[0%nat := Holding "w" 0%nat; 1%nat := Holding "w" 0%nat]}).

Lemma race_reachable : reachable 12 0 race.
Proof.
  unfold reachable, race.
  eapply rtc_l. { eapply step_some. apply (step_start _ _ 0%nat "w"). reflexivity. }
  eapply rtc_l. { eapply step_some. apply (step_start _ _ 1%nat "w"). reflexivity. }
  eapply rtc_l. { eapply step_some. by apply (step_miss _ _ 0%nat "w"). }
  eapply rtc_l. { eapply step_some. by apply (step_miss _ _ 1%nat "w"). }
  eapply rtc_l. { eapply step_some. apply (step_create _ _ 0%nat "w" day racing 0%nat); vm_compute; reflexivity. }
  eapply rtc_l. { eapply step_some. apply (step_create _ _ 1%nat "w" day (fst (create day "w" racing)) 0%nat);
                  vm_compute; reflexivity. }
  match goal with |- rtc _ ?x ?y => replace x with y; [apply rtc_refl|] end.
  reflexivity.
Qed.

Lemma one_profile_per_key_witness :
  Get "w" (fst race) = Some 0%nat /\ ("w" = "w" <-> 0%nat = 0%nat).
Proof.
  exact (one_profile_per_key 12 0 (fst race) (snd race) 0%nat 1%nat "w" "w" 0%nat 0%nat
           race_reachable eq_refl eq_refl).
Defined.

(** Two callers miss together and both create; one records; a query answers with
    one sample. *)
Definition race_acts : list action :=
  [Enter 0 "w"; Enter 1 "w"; DoLoad 0; DoLoad 1; DoCreate 0 day; DoCreate 1 (day + 5);
   Method 1 day (OpRecord RPageFault "n1"); Query day "w"; Query day "v"].

Definition samples (outs : list (option RuntimeProfile)) : list (option Z) :=
  (fun o : option RuntimeProfile => SampleCount <$> o) <$> outs.

Lemma race_spec :
  (fun mo : map_state * list (option RuntimeProfile) => samples (snd mo)) <$>
    map_run 12 (5 * Second) race_acts empty_map
  = Some [None; None; None; None; None; None; None; Some 1; Some 0].
Proof. vm_compute. reflexivity. Qed.

Lemma store_refines_map_witness :
  exists outs c, store_run race_acts outs (NewStore 12 0, ∅) c
    /\ samples outs = [None; None; None; None; None; None; None; Some 1; Some 0]
    /\ map_run 12 (5 * Second) race_acts empty_map = Some (abstract c, outs).
Proof.
  pose proof race_spec as Hr. destruct (map_run 12 (5 * Second) race_acts empty_map) as [[m outs]|] eqn:E; [|discriminate Hr].
  destruct (store_refines_map 12 0 race_acts outs) as [H1 H2].
  destruct (H2 m E) as (c & Hc & Hm). exists outs, c. split; [exact Hc|]. split; [by injection Hr|].
  rewrite <- Hm. reflexivity.
Defined.

(** One caller creates the profile of "w" and records a fault on "n1". *)
Definition recorded : Store :=
  default racing (on_profile 0%nat (win_step day (OpRecord RPageFault "n1")) racing).

Definition recorded_callers : gmap nat caller := {[0%nat := Holding "w" 0%nat]}.

Lemma recorded_reachable : reachable 12 0 (recorded, recorded_callers).
Proof.
  unfold reachable.
  eapply rtc_l. { eapply step_some. apply (step_start _ _ 0%nat "w"). reflexivity. }
  eapply rtc_l. { eapply step_some. by apply (step_miss _ _ 0%nat "w"). }
  eapply rtc_l. { eapply step_some. apply (step_create _ _ 0%nat "w" day racing 0%nat); vm_compute; reflexivity. }
  eapply rtc_l. { eapply step_some. apply (step_method _ _ 0%nat "w" 0%nat day (OpRecord RPageFault "n1") recorded);
                  vm_compute; reflexivity. }
  match goal with |- rtc _ ?x ?y => replace x with y; [apply rtc_refl|] end.
  reflexivity.
Qed.

Lemma recorded_view : exists wp, view recorded !! "w" = Some wp /\ NodeLocations wp = ["n1"].
Proof. eexists. split; [vm_compute; reflexivity|]. vm_compute. reflexivity. Qed.

Lemma store_never_panics_witness :
  is_Some (on_profile 0%nat (win_step 0 OpReset) recorded) /\ is_Some (QueryProfile (2 * day) "w" recorded).
Proof.
  destruct (store_never_panics 12 0 recorded recorded_callers ltac:(lia) recorded_reachable) as [H1 H2].
  split; [exact (H1 0%nat "w" 0%nat 0 OpReset eq_refl) | apply H2].
Defined.

Lemma query_node_profiles_exact_witness :
  exists s' ps, QueryNodeProfiles "n1" [("w", 0%nat, day)] recorded = Some (s', ps)
    /\ "w" ∈ WorkloadKey <$> ps.
Proof.
  destruct (query_node_profiles_exact 12 0 recorded recorded_callers "n1" [("w", 0%nat, day)]
    ltac:(lia) recorded_reachable) as (s' & ps & E & _ & _ & H).
  - assert (map_to_list (profiles recorded) = [("w", 0%nat)]) as -> by (vm_compute; reflexivity). done.
  - exists s', ps. split; [exact E|]. destruct recorded_view as (wp & Hv & Hn).
    apply (H "w" wp Hv). rewrite Hn. by left.
Defined.
