(* ===== verification/Scorer.v ===== *)
(** * pkg/scoring/scorer.go: the co-location penalty score

    The arithmetic is that of [float64] (Float64.v), operation by operation in
    the order of the source. *)
From S2P Require Import Prelude Float64 Window.
#[local] Open Scope string_scope.
#[local] Open Scope list_scope.
#[local] Open Scope Z_scope.

(** ** Configuration *)
Record Weights := mk_Weights { w_Cache : f64; w_Lock : f64; w_PageFault : f64; w_CtxSwitch : f64 }.

Definition DefaultWeights : Weights := mk_Weights (whole 35) (whole 30) (whole 20) (whole 15).

Record Scorer := mk_Scorer {
  weights : Weights; maxCacheMissRate : f64; maxPageFaultRate : f64; maxCtxSwitchRate : f64 }.

Record ScorerConfig := mk_ScorerConfig {
  cfg_Weights : Weights; MaxCacheMissRate : f64; MaxPageFaultRate : f64; MaxCtxSwitchRate : f64 }.

Definition DefaultScorerConfig : ScorerConfig :=
  mk_ScorerConfig DefaultWeights (whole 1000000) (whole 10000) (whole 10000).

Definition NewScorer (cfg : ScorerConfig) : Scorer :=
  mk_Scorer (cfg_Weights cfg)
    (if fleb (MaxCacheMissRate cfg) (whole 0) then whole 1000000 else MaxCacheMissRate cfg)
    (if fleb (MaxPageFaultRate cfg) (whole 0) then whole 10000 else MaxPageFaultRate cfg)
    (if fleb (MaxCtxSwitchRate cfg) (whole 0) then whole 10000 else MaxCtxSwitchRate cfg).

Definition NeutralScore : Z := 50.

Record ScoreResult := mk_ScoreResult {
  sr_Score : Z; CachePenalty : f64; LockPenalty : f64; PageFaultPenalty : f64;
  CtxSwitchPenalty : f64; TotalPenalty : f64; Reason : string }.

(** 0.25 and 0.75 *)
Definition quarter : f64 := Fin (2 ^ 1072).
Definition three_quarters : f64 := Fin (3 * 2 ^ 1072).

Definition confidenceDampeningFactor (c : Confidence) : f64 :=
  if c =? ConfidenceLow then quarter
  else if c =? ConfidenceMedium then three_quarters
  else if c =? ConfidenceHigh then whole 1
  else whole 0.

(** ** Score *)
Record penalties := mk_penalties { p_cache : f64; p_lock : f64; p_pf : f64; p_cs : f64 }.

Section score.
(** What [int64] gives for a value it cannot represent. *)
Variable undef : f64 -> Z.
Variable s : Scorer.

(** The body of the loop over the neighbours. *)
Definition add_neighbour (candidate : RuntimeProfile) (t : penalties) (p : RuntimeProfile) : penalties :=
  if rp_Confidence p =? ConfidenceUnknown then t else
  let cachePenalty := fmul (fdiv (CacheMissRate p) (maxCacheMissRate s)) (w_Cache (weights s)) in
  let lockPenalty := fmul (fadd (LockContentionRatio candidate) (LockContentionRatio p))
                       (w_Lock (weights s)) in
  let pfPenalty := fmul (fdiv (fadd (PageFaultRate candidate) (PageFaultRate p)) (maxPageFaultRate s))
                     (w_PageFault (weights s)) in
  let csPenalty := fmul (fdiv (fadd (ContextSwitchRate candidate) (ContextSwitchRate p))
                          (maxCtxSwitchRate s)) (w_CtxSwitch (weights s)) in
  mk_penalties (fadd (p_cache t) cachePenalty) (fadd (p_lock t) lockPenalty)
    (fadd (p_pf t) pfPenalty) (fadd (p_cs t) csPenalty).

Definition zero_penalties : penalties := mk_penalties (whole 0) (whole 0) (whole 0) (whole 0).

Definition quiet (key : string) : RuntimeProfile :=
  mk_RuntimeProfile key (Fin 0) (Fin 0) (Fin 0) (Fin 0) 0 zero_time zero_time ConfidenceHigh.

(** [if score < 0 { score = 0 }; if score > 100 { score = 100 }] *)
Definition clamp (score : f64) : f64 :=
  let score := if fltb score (whole 0) then whole 0 else score in
  if fltb (whole 100) score then whole 100 else score.

Definition total_of (t : penalties) : f64 := fadd (fadd (fadd (p_cache t) (p_lock t)) (p_pf t)) (p_cs t).

Definition Score (candidate : RuntimeProfile) (colocated : list RuntimeProfile) : ScoreResult :=
  let candidate := if rp_Confidence candidate =? ConfidenceUnknown
                   then quiet (WorkloadKey candidate) else candidate in
  match colocated with
  | [] => mk_ScoreResult 100 (Fin 0) (Fin 0) (Fin 0) (Fin 0) (Fin 0) "no co-located workloads on node"
  | _ :: _ =>
      let t := foldl (add_neighbour candidate) zero_penalties colocated in
      let totalPenalty := fmul (total_of t) (confidenceDampeningFactor (rp_Confidence candidate)) in
      let score := clamp (fsub (whole 100) totalPenalty) in
      mk_ScoreResult (to_int64 undef (math_round score)) (p_cache t) (p_lock t) (p_pf t) (p_cs t)
        totalPenalty "co-location penalty scoring applied"
  end.
End score.

(** ** From the penalty to the score *)
Lemma fmul_mono_r x w w' : nonneg x -> pos_finite w -> pos_finite w' -> w <=f w' -> fmul x w <=f fmul x w'.
Proof.
  intros Hx Hw Hw' Hle. destruct (pos_finite_fin _ Hw) as (k & -> & Hk), (pos_finite_fin _ Hw') as (k' & -> & Hk').
  pose proof (nonneg_not_nan x Hx) as X. pose proof one_pos.
  destruct (finite_cases x X) as [Fx|[b ->]].
  - apply (rounds_to_mono _ _ _ _ _ _ (fmul_finite x (Fin k) Fx I) (fmul_finite x (Fin k') Fx I)); [done..|].
    apply fleb_finite in Hx; [|done..]. apply fleb_finite in Hle; [|done..]. cbn [units] in *. nia.
  - simpl. rewrite !(proj2 (Z.eqb_neq _ 0)), !(proj2 (Z.ltb_ge _ 0)) by lia.
    by destruct b.
Qed.

Lemma fsub_antitone a x y : finite a -> x <=f y -> fsub a y <=f fsub a x.
Proof.
  intros Ha Hxy. destruct (fleb_not_nan _ _ Hxy) as [X Y].
  assert (forall z, z <> NaN -> fadd a (fneg z) <> NaN) as Hn.
  { intros z Hz. pose proof (fneg_not_nan z Hz).
    destruct (finite_cases _ H) as [Fz|[b ->]]; [|by destruct a].
    destruct (fadd_finite a (fneg z) Ha Fz) as (c & n & -> & _). apply round_not_nan. }
  apply fadd_mono; [|by apply fneg_mono|by apply Hn|by apply Hn].
  apply fleb_refl. by destruct a.
Qed.

Lemma fsub_not_nan a x : finite a -> x <> NaN -> fsub a x <> NaN.
Proof.
  intros Ha X. pose proof (fsub_antitone a x x Ha (fleb_refl x X)) as H.
  exact (proj1 (fleb_not_nan _ _ H)).
Qed.

Lemma whole_le a b : a <= b -> whole a <=f whole b.
Proof. intros. apply Z.leb_le. simpl. pose proof one_pos. unfold whole. cbn [units]. nia. Qed.

Lemma clamp_spec z : z <> NaN ->
  whole 0 <=f clamp z /\ clamp z <=f whole 100
  /\ (whole 0 <=f z -> z <=f whole 100 -> clamp z = z).
Proof.
  intros Hz. unfold clamp. rewrite (fltb_spec z) by done.
  destruct (fleb (whole 0) z) eqn:E0; simpl negb; cbn iota.
  - rewrite fltb_spec by done. destruct (fleb z (whole 100)) eqn:E1; simpl negb; cbn iota; [done|].
    split; [by apply whole_le|]. split; [by apply whole_le|done].
  - rewrite fltb_spec by done. rewrite whole_le by lia. simpl negb. cbn iota.
    split; [by apply whole_le|]. split; [by apply whole_le|done].
Qed.

Lemma clamp_mono x y : x <=f y -> clamp x <=f clamp y.
Proof.
  intros H. destruct (fleb_not_nan _ _ H) as [X Y].
  unfold clamp. rewrite (fltb_spec x), (fltb_spec y) by done.
  destruct (fleb (whole 0) x) eqn:E0, (fleb (whole 0) y) eqn:E1; simpl negb; cbn iota.
  - rewrite !fltb_spec by done.
    destruct (fleb x (whole 100)) eqn:E2, (fleb y (whole 100)) eqn:E3; simpl negb; cbn iota; try done.
    exfalso. pose proof (fleb_trans _ _ _ H E3). congruence.
  - exfalso. pose proof (fleb_trans _ _ _ E0 H). congruence.
  - rewrite !fltb_spec by done. rewrite whole_le by lia. simpl negb. cbn iota.
    destruct (fleb y (whole 100)); simpl negb; cbn iota; [done | by apply whole_le].
  - by apply fleb_refl; case_match.
Qed.

Definition final_score (undef : f64 -> Z) (penalty : f64) : Z :=
  to_int64 undef (math_round (clamp (fsub (whole 100) penalty))).

Lemma final_score_spec undef x :
  x <> NaN ->
  final_score undef x = round_int (units (clamp (fsub (whole 100) x)))
  /\ 0 <= final_score undef x <= 100.
Proof.
  intros X. pose proof (fsub_not_nan (whole 100) x I X) as H.
  destruct (clamp_spec _ H) as (H1 & H2 & _).
  destruct (to_int64_round undef _ 0 100 ltac:(unfold inS; lia) ltac:(unfold inS; lia) H1 H2) as [E B].
  unfold final_score. by rewrite E.
Qed.

Lemma final_score_antitone undef x y : x <=f y -> final_score undef y <= final_score undef x.
Proof.
  intros H. destruct (fleb_not_nan _ _ H) as [X Y].
  destruct (final_score_spec undef x X) as [-> _], (final_score_spec undef y Y) as [-> _].
  apply round_int_mono. pose proof (clamp_mono _ _ (fsub_antitone (whole 100) x y I H)) as Hc.
  pose proof (fsub_not_nan (whole 100) x I X) as Hx. pose proof (fsub_not_nan (whole 100) y I Y) as Hy.
  destruct (clamp_spec _ Hx) as (L1 & U1 & _), (clamp_spec _ Hy) as (L2 & U2 & _).
  assert (forall z, whole 0 <=f z -> z <=f whole 100 -> finite z) as Hf by (by intros [|[]| |]).
  by apply fleb_finite in Hc; [|apply Hf..].
Qed.

(** ** Well-formed configurations and profiles *)
Record scorer_ok (s : Scorer) : Prop := {
  so_cache : pos_finite (w_Cache (weights s)); so_lock : pos_finite (w_Lock (weights s));
  so_pf : pos_finite (w_PageFault (weights s)); so_cs : pos_finite (w_CtxSwitch (weights s));
  so_max_cache : pos_finite (maxCacheMissRate s); so_max_pf : pos_finite (maxPageFaultRate s);
  so_max_cs : pos_finite (maxCtxSwitchRate s) }.

(** The rates are not negative (and not NaN). *)
Record profile_ok (p : RuntimeProfile) : Prop := {
  po_pf : nonneg (PageFaultRate p); po_cache : nonneg (CacheMissRate p);
  po_lock : nonneg (LockContentionRatio p); po_cs : nonneg (ContextSwitchRate p) }.

Definition known_confidence (c : Confidence) : Prop :=
  c = ConfidenceUnknown \/ c = ConfidenceLow \/ c = ConfidenceMedium \/ c = ConfidenceHigh.

(** [p'] shows at least the pressure of [p]. *)
Record profile_le (p p' : RuntimeProfile) : Prop := {
  pl_conf : rp_Confidence p = rp_Confidence p';
  pl_pf : PageFaultRate p <=f PageFaultRate p'; pl_cache : CacheMissRate p <=f CacheMissRate p';
  pl_lock : LockContentionRatio p <=f LockContentionRatio p';
  pl_cs : ContextSwitchRate p <=f ContextSwitchRate p' }.

Lemma whole_pos z : 0 < z -> pos_finite (whole z).
Proof. intros. split; [done|]. cbn [units whole]. pose proof one_pos. unfold whole. cbn [units]. lia. Qed.

Lemma default_scorer_ok : scorer_ok (NewScorer DefaultScorerConfig).
Proof. constructor; apply whole_pos; lia. Qed.

Lemma quiet_ok key : profile_ok (quiet key).
Proof. by constructor. Qed.

Lemma profile_le_refl p : profile_ok p -> profile_le p p.
Proof. intros []. by constructor; try apply fleb_refl, nonneg_not_nan. Qed.

Lemma factor_pos c : known_confidence c -> c <> ConfidenceUnknown -> pos_finite (confidenceDampeningFactor c).
Proof. intros [|[|[]]] ?; subst; try done; split; try done; apply Z.ltb_lt; reflexivity. Qed.

Record pen_le (t t' : penalties) : Prop := {
  pe_cache : p_cache t <=f p_cache t'; pe_lock : p_lock t <=f p_lock t';
  pe_pf : p_pf t <=f p_pf t'; pe_cs : p_cs t <=f p_cs t' }.

Definition pen_ok (t : penalties) : Prop := pen_le zero_penalties t.

Lemma whole_0 : whole 0 = Fin 0.
Proof. reflexivity. Qed.

Lemma pen_ok_nonneg t : pen_ok t ->
  nonneg (p_cache t) /\ nonneg (p_lock t) /\ nonneg (p_pf t) /\ nonneg (p_cs t).
Proof. by intros []. Qed.

Lemma nonneg_le x y : nonneg x -> x <=f y -> nonneg y.
Proof. apply fleb_trans. Qed.

Lemma fadd_le x x' y y' : nonneg x -> nonneg y -> x <=f x' -> y <=f y' -> fadd x y <=f fadd x' y'.
Proof.
  intros. apply fadd_mono; try done; apply nonneg_not_nan, fadd_nonneg; eauto using nonneg_le.
Qed.

Lemma fadd_ok x y : f64_ok (fadd x y).
Proof.
  assert (f64_ok (Fin 0)) as H0 by (exists 0, 0; done).
  destruct x as [|[]| |], y as [|[]| |]; simpl; try done; case_match; try done;
    apply round_ok; lia.
Qed.

(** Adding something non-negative to a binary64 value does not lower it. *)
Lemma fadd_ge_l x y : f64_ok x -> nonneg x -> nonneg y -> x <=f fadd x y.
Proof.
  intros Hok Hx Hy. apply fleb_trans with (fadd x (Fin 0)).
  - destruct x as [|[]| |k]; try done. apply Z.leb_le in Hx. cbn [units] in Hx.
    unfold fadd. cbn [units]. rewrite Z.add_0_r. destruct (Z.eqb_spec k 0) as [->|Hk]; [done|].
    rewrite (proj2 (Z.ltb_ge k 0)), Z.abs_eq, <- (Z.mul_1_r k), round_exact, Z.mul_1_r by (try done; lia).
    unfold signed_units. rewrite (proj2 (Z.eqb_neq k 0)) by done. apply Z.leb_refl.
  - apply fadd_le; try done. by apply fleb_refl, nonneg_not_nan.
Qed.

Section monotone.
Variable s : Scorer.
Hypothesis Hs : scorer_ok s.

Lemma add_neighbour_mono c c' t t' p p' :
  profile_ok c -> profile_ok p -> pen_ok t -> profile_le c c' -> profile_le p p' -> pen_le t t' ->
  pen_le (add_neighbour s c t p) (add_neighbour s c' t' p').
Proof using Hs.
  intros [] [] (?&?&?&?)%pen_ok_nonneg [] [Hc] []. destruct Hs. unfold add_neighbour. rewrite <- Hc.
  case_match; [done|].
  constructor; simpl; apply fadd_le; try done;
    repeat first [done | apply fmul_nonneg | apply fdiv_nonneg | apply fadd_nonneg
                 | apply fmul_mono | apply fdiv_mono | apply fadd_le].
Qed.

Lemma add_neighbour_ge c t p :
  profile_ok c -> profile_ok p -> pen_ok t ->
  f64_ok (p_cache t) -> f64_ok (p_lock t) -> f64_ok (p_pf t) -> f64_ok (p_cs t) ->
  pen_le t (add_neighbour s c t p).
Proof using Hs.
  intros [] [] (?&?&?&?)%pen_ok_nonneg ????. destruct Hs. unfold add_neighbour.
  case_match.
  - by constructor; apply fleb_refl, nonneg_not_nan.
  - constructor; simpl; apply fadd_ge_l; try done;
      repeat first [done | apply fmul_nonneg | apply fdiv_nonneg | apply fadd_nonneg].
Qed.

(** Accumulated penalties: binary64 values, not negative. *)
Record pen_wf (t : penalties) : Prop := {
  pw_ok : pen_ok t; pw_cache : f64_ok (p_cache t); pw_lock : f64_ok (p_lock t);
  pw_pf : f64_ok (p_pf t); pw_cs : f64_ok (p_cs t) }.

Lemma pen_le_trans t1 t2 t3 : pen_le t1 t2 -> pen_le t2 t3 -> pen_le t1 t3.
Proof using. intros [] []. constructor; eapply fleb_trans; eauto. Qed.

Lemma zero_pen_wf : pen_wf zero_penalties.
Proof using. constructor; [by constructor|..]; by exists 0, 0. Qed.

Lemma add_neighbour_wf c t p :
  profile_ok c -> profile_ok p -> pen_wf t -> pen_wf (add_neighbour s c t p).
Proof using Hs.
  intros Hc Hp [Ht ? ? ? ?]. constructor; [|unfold add_neighbour; case_match; [done|apply fadd_ok]..].
  eapply pen_le_trans; [exact Ht|]. by apply add_neighbour_ge.
Qed.

Definition sum_penalties (c : RuntimeProfile) (ps : list RuntimeProfile) (t : penalties) : penalties :=
  foldl (add_neighbour s c) t ps.

Lemma sum_penalties_wf c ps : forall t,
  profile_ok c -> Forall profile_ok ps -> pen_wf t -> pen_wf (sum_penalties c ps t).
Proof using Hs.
  induction ps as [|p ps IH]; intros t Hc Hps Ht; [done|]. apply Forall_cons in Hps as [Hp Hps].
  apply IH; try done. by apply add_neighbour_wf.
Qed.

Lemma sum_penalties_mono c c' ps ps' : profile_ok c -> profile_ok c' -> profile_le c c' ->
  Forall profile_ok ps -> Forall profile_ok ps' -> Forall2 profile_le ps ps' -> forall t t',
  pen_wf t -> pen_wf t' -> pen_le t t' -> pen_le (sum_penalties c ps t) (sum_penalties c' ps' t').
Proof using Hs.
  intros Hc Hc' Hcc Hps Hps' H2. revert Hps Hps'.
  induction H2 as [|p p' ps ps' Hpp _ IH]; intros Hps Hps' t t' Ht Ht' Hle; [done|].
  apply Forall_cons in Hps as [Hp Hps], Hps' as [Hp' Hps'].
  apply IH; try done; try by apply add_neighbour_wf.
  apply add_neighbour_mono; try done. apply Ht.
Qed.

(** Fewer neighbours, less penalty. *)
Lemma sum_penalties_sublist c ps ps' : profile_ok c -> Forall profile_ok ps' -> sublist ps ps' ->
  forall t t', pen_wf t -> pen_wf t' -> pen_le t t' ->
  pen_le (sum_penalties c ps t) (sum_penalties c ps' t').
Proof using Hs.
  intros Hc Hps' Hsub. induction Hsub as [|p ps ps' Hsub IH|p ps ps' Hsub IH];
    intros t t' Ht Ht' Hle; [done| |]; apply Forall_cons in Hps' as [Hp Hps'].
  - apply IH; try done; try by apply add_neighbour_wf.
    apply add_neighbour_mono; try done; try by apply profile_le_refl. apply Ht.
  - apply IH; try done; try by apply add_neighbour_wf.
    eapply pen_le_trans; [exact Hle|]. destruct Ht'. by apply add_neighbour_ge.
Qed.

Lemma total_mono t t' : pen_wf t -> pen_le t t' -> total_of t <=f total_of t'.
Proof using.
  intros [Hok _ _ _ _] []. destruct (pen_ok_nonneg t Hok) as (? & ? & ? & ?). unfold total_of.
  repeat first [done | apply fadd_le | apply fadd_nonneg].
Qed.

Lemma total_nonneg t : pen_wf t -> nonneg (total_of t).
Proof using.
  intros [Hok _ _ _ _]. destruct (pen_ok_nonneg t Hok) as (? & ? & ? & ?).
  unfold total_of. repeat first [done | apply fadd_nonneg].
Qed.
End monotone.

(** ** Properties of [Score] *)
Definition effective (c : RuntimeProfile) : RuntimeProfile :=
  if rp_Confidence c =? ConfidenceUnknown then quiet (WorkloadKey c) else c.

Definition penalty_of (s : Scorer) (c : RuntimeProfile) (ps : list RuntimeProfile) : f64 :=
  fmul (total_of (sum_penalties s (effective c) ps zero_penalties))
    (confidenceDampeningFactor (rp_Confidence (effective c))).

Lemma Score_final undef s c ps :
  ps <> [] -> sr_Score (Score undef s c ps) = final_score undef (penalty_of s c ps)
              /\ TotalPenalty (Score undef s c ps) = penalty_of s c ps.
Proof.
  destruct ps as [|p ps]; [done|]. intros _.
  unfold Score, final_score, penalty_of, sum_penalties, effective.
  cbn [sr_Score TotalPenalty]. split; reflexivity.
Qed.

Lemma effective_ok c : profile_ok c -> known_confidence (rp_Confidence c) ->
  profile_ok (effective c) /\ pos_finite (confidenceDampeningFactor (rp_Confidence (effective c))).
Proof.
  intros Hc Hk. unfold effective. destruct (Z.eqb_spec (rp_Confidence c) ConfidenceUnknown).
  - split; [apply quiet_ok|]. exact (whole_pos 1 ltac:(lia)).
  - split; [done|]. by apply factor_pos.
Qed.

Lemma effective_le c c' : profile_ok c -> profile_le c c' -> profile_le (effective c) (effective c').
Proof.
  intros Hc Hle. unfold effective. rewrite <- (pl_conf _ _ Hle). case_match; [by constructor|done].
Qed.

Section properties.
Context (undef : f64 -> Z) (s : Scorer) (Hs : scorer_ok s).

Lemma penalty_nonneg c ps : profile_ok c -> known_confidence (rp_Confidence c) -> Forall profile_ok ps ->
  nonneg (penalty_of s c ps).
Proof using Hs.
  intros Hc Hk Hps. destruct (effective_ok c Hc Hk) as [He Hf]. apply fmul_nonneg; [|done].
  apply total_nonneg. apply sum_penalties_wf; [done..|apply zero_pen_wf].
Qed.

Lemma penalty_mono c c' ps ps' :
  known_confidence (rp_Confidence c) -> profile_ok c -> profile_ok c' -> profile_le c c' ->
  pen_le (sum_penalties s (effective c) ps zero_penalties)
    (sum_penalties s (effective c') ps' zero_penalties) ->
  Forall profile_ok ps -> penalty_of s c ps <=f penalty_of s c' ps'.
Proof using Hs.
  intros Hk Hc Hc' Hle Hsum Hps. unfold penalty_of.
  destruct (effective_ok c Hc Hk) as [He Hf].
  rewrite <- (pl_conf _ _ (effective_le c c' Hc Hle)).
  apply fmul_mono; [|done]. apply total_mono; [|done].
  by apply sum_penalties_wf; [done..|apply zero_pen_wf].
Qed.

Lemma score_range c ps :
  profile_ok c -> known_confidence (rp_Confidence c) -> Forall profile_ok ps ->
  0 <= sr_Score (Score undef s c ps) <= 100.
Proof using Hs.
  intros Hc Hk Hps. destruct (decide (ps = [])) as [->|Hne]; [by simpl|].
  destruct (Score_final undef s c ps Hne) as [-> _].
  apply final_score_spec. by apply nonneg_not_nan, penalty_nonneg.
Qed.

(** C7: with positive weights and normalisation rates and rates that are not
    negative, the score is between 0 and 100, whatever overflow or infinities the
    float arithmetic meets, and the total penalty is never negative or NaN. *)
Theorem score_in_range c ps :
  profile_ok c -> known_confidence (rp_Confidence c) -> Forall profile_ok ps ->
  0 <= sr_Score (Score undef s c ps) <= 100 /\ nonneg (TotalPenalty (Score undef s c ps)).
Proof using Hs.
  intros Hc Hk Hps. split; [by apply score_range|]. destruct (decide (ps = [])) as [->|Hne]; [by simpl|].
  destruct (Score_final undef s c ps Hne) as [_ ->]. by apply penalty_nonneg.
Qed.

(** C6: more pressure never raises the score: if the candidate and each neighbour
    show at least the rates they showed before, at the same confidence, the
    rounded score is at most what it was. *)
Theorem score_antitone c c' ps ps' :
  known_confidence (rp_Confidence c) -> profile_ok c -> profile_ok c' -> profile_le c c' ->
  Forall profile_ok ps -> Forall profile_ok ps' -> Forall2 profile_le ps ps' ->
  sr_Score (Score undef s c' ps') <= sr_Score (Score undef s c ps).
Proof using Hs.
  intros Hk Hc Hc' Hle Hps Hps' H2. destruct (decide (ps = [])) as [->|Hne].
  { apply Forall2_nil_inv_l in H2 as ->. done. }
  assert (ps' <> []) as Hne' by (intros ->; by apply Forall2_nil_inv_r in H2).
  destruct (Score_final undef s c ps Hne) as [-> _], (Score_final undef s c' ps' Hne') as [-> _].
  apply final_score_antitone, penalty_mono; try done.
  destruct (effective_ok c Hc Hk) as [He _].
  destruct (effective_ok c' Hc') as [He' _]; [by rewrite <- (pl_conf _ _ Hle)|].
  apply sum_penalties_mono; try done; try apply zero_pen_wf. by apply effective_le.
Qed.

(** Crowding never raises the score: dropping neighbours from a node, in any
    positions, leaves a score at least as high. *)
Theorem score_fewer_neighbours c ps ps' :
  known_confidence (rp_Confidence c) -> profile_ok c -> Forall profile_ok ps' -> sublist ps ps' ->
  sr_Score (Score undef s c ps') <= sr_Score (Score undef s c ps).
Proof using Hs.
  intros Hk Hc Hps' Hsub. assert (Forall profile_ok ps) as Hps.
  { clear -Hps' Hsub. induction Hsub; inversion Hps'; subst; auto. }
  destruct (effective_ok c Hc Hk) as [He Hf].
  destruct (decide (ps' = [])) as [->|Hne']; [by apply sublist_nil_r in Hsub as ->|].
  destruct (Score_final undef s c ps' Hne') as [-> _].
  destruct (decide (ps = [])) as [->|Hne].
  { apply final_score_spec, nonneg_not_nan. by apply penalty_nonneg. }
  destruct (Score_final undef s c ps Hne) as [-> _].
  apply final_score_antitone, penalty_mono; try done; [by apply profile_le_refl|].
  apply sum_penalties_sublist; try done; try apply zero_pen_wf.
Qed.

(** A workload no one knows is scored as a quiet one at full confidence: the
    score depends only on its neighbours, and no known high-confidence candidate
    scores higher next to the same neighbours. *)
Theorem unknown_candidate_is_quiet c c' ps :
  rp_Confidence c = ConfidenceUnknown -> rp_Confidence c' = ConfidenceHigh ->
  profile_ok c' -> Forall profile_ok ps ->
  sr_Score (Score undef s c ps) = sr_Score (Score undef s (quiet "") ps)
  /\ sr_Score (Score undef s c' ps) <= sr_Score (Score undef s c ps).
Proof using Hs.
  intros Hc Hc' Hok Hps.
  assert (sr_Score (Score undef s c ps) = sr_Score (Score undef s (quiet "") ps)) as E.
  { destruct ps as [|p ps]; [done|]. unfold Score. rewrite Hc. reflexivity. }
  split; [done|]. rewrite E. destruct (decide (ps = [])) as [->|Hne]; [done|].
  destruct (Score_final undef s (quiet "") ps Hne) as [-> _], (Score_final undef s c' ps Hne) as [-> _].
  apply final_score_antitone.
  assert (profile_le (quiet "") c') as Hle by (by destruct Hok; constructor).
  apply penalty_mono; try done; try apply quiet_ok; [by right; right; right|].
  unfold effective. rewrite Hc'. simpl.
  apply sum_penalties_mono; try done; try apply quiet_ok; try apply zero_pen_wf.
  - apply Forall2_same_length_lookup_2; [done|]. intros i x y Hx Hy. simplify_eq.
    apply profile_le_refl. rewrite Forall_forall in Hps. apply Hps. by apply list_elem_of_lookup_2 in Hx.
Qed.
End properties.

Definition with_confidence (c : RuntimeProfile) (k : Confidence) : RuntimeProfile :=
  mk_RuntimeProfile (WorkloadKey c) (PageFaultRate c) (CacheMissRate c) (LockContentionRatio c)
    (ContextSwitchRate c) (SampleCount c) (WindowStart c) (WindowEnd c) k.

Lemma skip_unknown s c ps t :
  Forall (fun p => rp_Confidence p = ConfidenceUnknown) ps -> sum_penalties s c ps t = t.
Proof.
  induction ps as [|p ps IH]; [done|]. intros [Hp Hps]%Forall_cons.
  change (sum_penalties s c ps (add_neighbour s c t p) = t).
  assert (add_neighbour s c t p = t) as -> by (unfold add_neighbour; by rewrite Hp).
  by apply IH.
Qed.

Lemma no_penalty_score undef c :
  known_confidence c -> final_score undef (fmul (total_of zero_penalties) (confidenceDampeningFactor c)) = 100.
Proof. intros [-> | [-> | [-> | ->]]]; vm_compute; reflexivity. Qed.

(** A neighbour no one knows does not count. *)
Lemma drop_unknown undef s c p ps ps' :
  known_confidence (rp_Confidence c) -> rp_Confidence p = ConfidenceUnknown ->
  sr_Score (Score undef s c (ps ++ p :: ps')) = sr_Score (Score undef s c (ps ++ ps')).
Proof.
  intros Hk Hp. rewrite (proj1 (Score_final undef s c (ps ++ p :: ps') ltac:(by destruct ps))).
  assert (forall c' t, add_neighbour s c' t p = t) as Hskip by (intros c' t; unfold add_neighbour; by rewrite Hp).
  assert (penalty_of s c (ps ++ p :: ps') = penalty_of s c (ps ++ ps')) as ->.
  { unfold penalty_of, sum_penalties. rewrite !foldl_app. simpl. by rewrite Hskip. }
  destruct (decide (ps ++ ps' = [])) as [->|Hne]; [|by rewrite (proj1 (Score_final undef s c (ps ++ ps') Hne))].
  apply no_penalty_score. unfold effective. case_match; [by right; right; right|done].
Qed.

(** A candidate no one knows is scored as a quiet one. *)
Lemma unknown_as_quiet undef s c ps : rp_Confidence c = ConfidenceUnknown ->
  sr_Score (Score undef s c ps) = sr_Score (Score undef s (quiet "") ps).
Proof. intros Hc. destruct ps as [|p ps]; [done|]. unfold Score. rewrite Hc. reflexivity. Qed.

(** Without data the score is perfect: an empty node, and a node on which
    every workload's confidence is unknown, score exactly 100 for any scorer. *)
Theorem score_100_without_data undef s c ps :
  known_confidence (rp_Confidence c) ->
  Forall (fun p => rp_Confidence p = ConfidenceUnknown) ps ->
  sr_Score (Score undef s c ps) = 100.
Proof.
  intros Hk Hps. destruct (decide (ps = [])) as [->|Hne]; [done|].
  destruct (Score_final undef s c ps Hne) as [-> _]. unfold penalty_of. rewrite skip_unknown by done.
  apply no_penalty_score. unfold effective. case_match; [by right; right; right|done].
Qed.

Lemma factor_le : quarter <=f three_quarters /\ three_quarters <=f whole 1.
Proof. split; vm_compute; reflexivity. Qed.

(** Confidence dampening: with the same rates, a candidate known with low
    confidence scores at least as high as one known with medium confidence, and
    that one at least as high as one known with high confidence. *)
Theorem dampening_orders_scores undef s c ps :
  scorer_ok s -> profile_ok c -> Forall profile_ok ps ->
  sr_Score (Score undef s (with_confidence c ConfidenceHigh) ps)
    <= sr_Score (Score undef s (with_confidence c ConfidenceMedium) ps)
    <= sr_Score (Score undef s (with_confidence c ConfidenceLow) ps).
Proof.
  intros Hs Hc Hps. destruct (decide (ps = [])) as [->|Hne]; [done|].
  rewrite !(fun c => proj1 (Score_final undef s c ps Hne)). unfold penalty_of, effective.
  assert (forall k, profile_ok (with_confidence c k)) as Hok by (intros; by destruct Hc).
  assert (forall k k', sum_penalties s (with_confidence c k) ps zero_penalties
    = sum_penalties s (with_confidence c k') ps zero_penalties) as Esum.
  { intros k k'. generalize zero_penalties. clear. induction ps as [|p ps IH]; intros t; [done|].
    exact (IH (add_neighbour s (with_confidence c k) t p)). }
  simpl rp_Confidence. cbn [Z.eqb ConfidenceHigh ConfidenceMedium ConfidenceLow ConfidenceUnknown Pos.eqb].
  rewrite (Esum ConfidenceMedium ConfidenceHigh), (Esum ConfidenceLow ConfidenceHigh).
  set (t := total_of _). assert (nonneg t) as Ht.
  { apply total_nonneg. by apply sum_penalties_wf; [..|apply zero_pen_wf]. }
  assert (forall k, known_confidence k -> k <> ConfidenceUnknown -> pos_finite (confidenceDampeningFactor k))
    as Hf by (intros; by apply factor_pos).
  pose proof factor_le as [? ?].
  split; apply final_score_antitone, fmul_mono_r; try done; try (apply Hf; [unfold known_confidence; tauto|done]).
Qed.

(** A configuration whose weights are positive and whose rates are numbers gives
    a well-formed scorer: rates that are zero or negative are replaced. *)
Lemma new_scorer_ok cfg :
  pos_finite (w_Cache (cfg_Weights cfg)) -> pos_finite (w_Lock (cfg_Weights cfg)) ->
  pos_finite (w_PageFault (cfg_Weights cfg)) -> pos_finite (w_CtxSwitch (cfg_Weights cfg)) ->
  finite (MaxCacheMissRate cfg) -> finite (MaxPageFaultRate cfg) -> finite (MaxCtxSwitchRate cfg) ->
  scorer_ok (NewScorer cfg).
Proof.
  intros ???? H1 H2 H3.
  assert (forall x d, finite x -> 0 < d -> pos_finite (if fleb x (whole 0) then whole d else x)) as Hd.
  { intros x d Hx Hpos. destruct (fleb x (whole 0)) eqn:E; [by apply whole_pos|]. split; [done|].
    apply Z.nle_gt. intros Hle. rewrite (proj2 (fleb_finite x (whole 0) Hx I)) in E; [done|exact Hle]. }
  constructor; try done; apply Hd; done.
Qed.

(** ** Witnesses *)
Definition noisy (key : string) : RuntimeProfile :=
  mk_RuntimeProfile key (whole 100) (whole 900000) (Fin (2 ^ 1073)) (whole 200) 5000 zero_time zero_time
    ConfidenceHigh.
Definition calm (key : string) : RuntimeProfile :=
  mk_RuntimeProfile key (whole 1) (whole 1000) (Fin 0) (whole 10) 500 zero_time zero_time ConfidenceHigh.
Definition default_scorer : Scorer := NewScorer DefaultScorerConfig.

Lemma noisy_ok key : profile_ok (noisy key).
Proof. constructor; apply Z.leb_le; by vm_compute. Qed.
Lemma calm_ok key : profile_ok (calm key).
Proof. constructor; apply Z.leb_le; by vm_compute. Qed.
Lemma calm_noisy : profile_le (calm "w") (noisy "w").
Proof. constructor; [done|apply Z.leb_le; by vm_compute..]. Qed.

Lemma score_in_range_witness :
  0 <= sr_Score (Score (fun _ => 0) default_scorer (noisy "w") [noisy "v"; calm "u"]) <= 100.
Proof.
  refine (proj1 (score_in_range (fun _ => 0) default_scorer default_scorer_ok (noisy "w")
    [noisy "v"; calm "u"] (noisy_ok "w") _ _)).
  - by right; right; right.
  - repeat constructor; apply Z.leb_le; by vm_compute.
Defined.

Lemma score_antitone_witness :
  sr_Score (Score (fun _ => 0) default_scorer (noisy "w") [noisy "w"])
  <= sr_Score (Score (fun _ => 0) default_scorer (calm "w") [calm "w"]).
Proof.
  apply (score_antitone (fun _ => 0) default_scorer default_scorer_ok).
  - by right; right; right.
  - apply calm_ok.
  - apply noisy_ok.
  - apply calm_noisy.
  - repeat constructor; apply Z.leb_le; by vm_compute.
  - repeat constructor; apply Z.leb_le; by vm_compute.
  - constructor; [apply calm_noisy|constructor].
Defined.

Lemma score_fewer_neighbours_witness :
  sr_Score (Score (fun _ => 0) default_scorer (calm "w") [noisy "v"; calm "u"; noisy "t"])
  <= sr_Score (Score (fun _ => 0) default_scorer (calm "w") [calm "u"]).
Proof.
  apply (score_fewer_neighbours (fun _ => 0) default_scorer default_scorer_ok).
  - by right; right; right.
  - apply calm_ok.
  - repeat constructor; apply Z.leb_le; by vm_compute.
  - apply sublist_cons, sublist_skip, sublist_cons, sublist_nil.
Defined.

Lemma unknown_candidate_is_quiet_witness :
  sr_Score (Score (fun _ => 0) default_scorer (noisy "w") [noisy "v"])
  <= sr_Score (Score (fun _ => 0) default_scorer (with_confidence (noisy "w") ConfidenceUnknown) [noisy "v"]).
Proof.
  refine (proj2 (unknown_candidate_is_quiet (fun _ => 0) default_scorer default_scorer_ok
    (with_confidence (noisy "w") ConfidenceUnknown) (noisy "w") [noisy "v"] eq_refl eq_refl
    (noisy_ok "w") _)).
  repeat constructor; apply Z.leb_le; by vm_compute.
Defined.

Lemma score_100_without_data_witness :
  sr_Score (Score (fun _ => 0) default_scorer (noisy "w")
    [with_confidence (noisy "v") ConfidenceUnknown]) = 100.
Proof.
  apply (score_100_without_data (fun _ => 0) default_scorer (noisy "w")).
  - by right; right; right.
  - by repeat constructor.
Defined.

Lemma dampening_orders_scores_witness :
  sr_Score (Score (fun _ => 0) default_scorer (with_confidence (calm "w") ConfidenceHigh) [noisy "v"])
  <= sr_Score (Score (fun _ => 0) default_scorer (with_confidence (calm "w") ConfidenceMedium) [noisy "v"]).
Proof.
  refine (proj1 (dampening_orders_scores (fun _ => 0) default_scorer (calm "w") [noisy "v"]
    default_scorer_ok (calm_ok "w") _)).
  repeat constructor; apply Z.leb_le; by vm_compute.
Defined.
