(* ===== verification/Telemetry.v ===== *)
(** * pkg/telemetry and the messages of pkg/proto

    The event types of the Go pipeline (types.go), the protobuf messages the
    collector and the aggregator exchange (akil.proto), the conversion between
    them (batch.go, [taggedEventToProto]) and the parser of raw ring buffer bytes
    (pkg/ebpf/loader.go, [ParseRawEvent]). *)
From S2P Require Import Prelude.
#[local] Open Scope string_scope.
#[local] Open Scope list_scope.
#[local] Open Scope Z_scope.

(** ** pkg/telemetry/types.go *)
Definition EventType := Z.
Definition EventPageFault : EventType := 0.
Definition EventCacheMiss : EventType := 1.
Definition EventLockContention : EventType := 2.
Definition EventCtxSwitch : EventType := 3.

Inductive EventPayload :=
  | PageFaultPayload (IsMajor : bool) (Address : Z)
  | CacheMissPayload (MissCountDelta : Z)
  | LockContentionPayload (LockAddress DurationNs : Z)
  | CtxSwitchPayload (PrevCgroupID NextCgroupID PrevState : Z).

Record RawEvent := mk_RawEvent {
  re_Type : EventType; re_CgroupID : Z; re_TimestampNs : Z; re_Payload : option EventPayload }.

Record PodIdentity := mk_PodIdentity {
  pi_Namespace : string; pi_PodName : string; pi_Container : string; pi_WorkloadKey : string;
  pi_NodeName : string }.

Record TaggedEvent := mk_TaggedEvent { te_RawEvent : RawEvent; te_Identity : PodIdentity }.

(** ** pkg/proto/akil.proto *)
Module pb.
Definition EVENT_TYPE_UNSPECIFIED : Z := 0.
Definition EVENT_TYPE_PAGE_FAULT : Z := 1.
Definition EVENT_TYPE_CACHE_MISS : Z := 2.
Definition EVENT_TYPE_LOCK_CONTENTION : Z := 3.
Definition EVENT_TYPE_CONTEXT_SWITCH : Z := 4.

Inductive Payload :=
  | PageFault (is_major : bool) (address : Z)
  | CacheMiss (miss_count_delta : Z)
  | LockContention (lock_address duration_ns : Z)
  | CtxSwitch (prev_workload_key : string) (prev_state : Z).

Record TelemetryEvent := mk_TelemetryEvent {
  event_type : Z; workload_key : string; timestamp_ns : Z; payload : option Payload }.

Record TelemetryBatch := mk_TelemetryBatch {
  node_name : string; batch_timestamp_ns : Z; events : list TelemetryEvent }.

(** The getters of a [oneof] give nil when another field is set. *)
Definition GetCacheMiss (e : TelemetryEvent) : option Z :=
  match payload e with Some (CacheMiss d) => Some d | _ => None end.
Definition GetLockContention (e : TelemetryEvent) : option (Z * Z) :=
  match payload e with Some (LockContention a d) => Some (a, d) | _ => None end.
End pb.

(** ** pkg/telemetry/batch.go: [taggedEventToProto] *)
Definition taggedEventToProto (evt : TaggedEvent) : pb.TelemetryEvent :=
  let wk := pi_WorkloadKey (te_Identity evt) in
  let ts := i64! (re_TimestampNs (te_RawEvent evt)) in
  match re_Payload (te_RawEvent evt) with
  | Some (PageFaultPayload major addr) =>
      pb.mk_TelemetryEvent pb.EVENT_TYPE_PAGE_FAULT wk ts (Some (pb.PageFault major addr))
  | Some (CacheMissPayload d) =>
      pb.mk_TelemetryEvent pb.EVENT_TYPE_CACHE_MISS wk ts (Some (pb.CacheMiss d))
  | Some (LockContentionPayload a d) =>
      pb.mk_TelemetryEvent pb.EVENT_TYPE_LOCK_CONTENTION wk ts (Some (pb.LockContention a d))
  | Some (CtxSwitchPayload _ _ st) =>
      pb.mk_TelemetryEvent pb.EVENT_TYPE_CONTEXT_SWITCH wk ts (Some (pb.CtxSwitch "" st))
  | None => pb.mk_TelemetryEvent pb.EVENT_TYPE_UNSPECIFIED wk ts None
  end.

(** ** pkg/ebpf/loader.go: [ParseRawEvent] *)

(** [unsafe.Sizeof(RawBPFEvent{})]: 1 + 7 + 8 + 8 + 40. *)
Definition AkilEventSize : Z := 64.

Inductive parse_error :=
  | EventTooSmall (size : Z) | PayloadTooSmall (what : string) | UnknownEventType (ty : Z).

(** The event is returned even with an error ([return evt, fmt.Errorf(...)]). *)
Definition ParseRawEvent (data : list Z) : RawEvent * option parse_error :=
  if Z.of_nat (length data) <? AkilEventSize
  then (mk_RawEvent 0 0 0 None, Some (EventTooSmall (Z.of_nat (length data)))) else
  let ty := get_le 1 0 data in
  let evt := mk_RawEvent ty (get_le 8 8 data) (get_le 8 16 data) in
  let payloadData := drop 24 data in
  if ty =? EventPageFault then
    if Z.of_nat (length payloadData) <? 9 then (evt None, Some (PayloadTooSmall "page fault"))
    else (evt (Some (PageFaultPayload (negb (get_le 1 0 payloadData =? 0)) (get_le 8 1 payloadData))), None)
  else if ty =? EventCacheMiss then
    if Z.of_nat (length payloadData) <? 8 then (evt None, Some (PayloadTooSmall "cache miss"))
    else (evt (Some (CacheMissPayload (get_le 8 0 payloadData))), None)
  else if ty =? EventLockContention then
    if Z.of_nat (length payloadData) <? 16 then (evt None, Some (PayloadTooSmall "lock contention"))
    else (evt (Some (LockContentionPayload (get_le 8 0 payloadData) (i64! (get_le 8 8 payloadData)))), None)
  else if ty =? EventCtxSwitch then
    if Z.of_nat (length payloadData) <? 20 then (evt None, Some (PayloadTooSmall "ctx switch"))
    else (evt (Some (CtxSwitchPayload (get_le 8 0 payloadData) (get_le 8 8 payloadData)
                       (i32! (get_le 4 16 payloadData)))), None)
  else (evt None, Some (UnknownEventType ty)).

(** ** The encoding [ParseRawEvent] reads back *)
Definition encode_payload (p : EventPayload) : EventType * list Z :=
  match p with
  | PageFaultPayload major addr => (EventPageFault, (if major then 1 else 0) :: le_bytes 8 addr)
  | CacheMissPayload d => (EventCacheMiss, le_bytes 8 d)
  | LockContentionPayload a d => (EventLockContention, le_bytes 8 a ++ le_bytes 8 (u64! d))
  | CtxSwitchPayload pc nc st =>
      (EventCtxSwitch, le_bytes 8 pc ++ le_bytes 8 nc ++ le_bytes 4 (u32! st))
  end.

(** The [RawBPFEvent] struct: type, seven bytes of padding, cgroup, time, and a
    payload area of forty bytes. *)
Definition encode_raw (pad : list Z) (cg ts : Z) (p : EventPayload) (rest : list Z) : list Z :=
  let '(ty, body) := encode_payload p in
  ty :: pad ++ le_bytes 8 cg ++ le_bytes 8 ts ++ body ++ rest.

Definition payload_ok (p : EventPayload) : Prop :=
  match p with
  | PageFaultPayload _ addr => inU 64 addr
  | CacheMissPayload d => inU 64 d
  | LockContentionPayload a d => inU 64 a /\ inS 64 d
  | CtxSwitchPayload pc nc st => inU 64 pc /\ inU 64 nc /\ inS 32 st
  end.

Lemma get_le_app_r n off pre bs : length pre = off -> get_le n off (pre ++ bs) = get_le n 0 bs.
Proof. intros <-. unfold get_le. by rewrite drop_app_length. Qed.

Lemma get_le_encoded n z bs : 0 <= z < 256 ^ Z.of_nat n -> get_le n 0 (le_bytes n z ++ bs) = z.
Proof.
  intros Hz. unfold get_le. rewrite drop_0.
  rewrite take_app_le, take_ge by (rewrite length_le_bytes; lia). by apply le_val_bytes_id.
Qed.

Lemma get_le_byte b bs : 0 <= b < 256 -> get_le 1 0 (b :: bs) = b.
Proof. intros. unfold get_le. simpl. lia. Qed.

Lemma encode_raw_fields pad cg ts p rest :
  length pad = 7%nat -> inU 64 cg -> inU 64 ts ->
  let data := encode_raw pad cg ts p rest in
  get_le 1 0 data = fst (encode_payload p) /\ get_le 8 8 data = cg /\ get_le 8 16 data = ts
  /\ drop 24 data = snd (encode_payload p) ++ rest.
Proof.
  intros Hpad Hcg Hts data. subst data. unfold encode_raw.
  destruct (encode_payload p) as [ty body] eqn:E. simpl fst. simpl snd.
  split; [|split; [|split]].
  - apply get_le_byte. destruct p; injection E as <- <-; by vm_compute.
  - change (ty :: pad ++ le_bytes 8 cg ++ le_bytes 8 ts ++ body ++ rest)
      with ((ty :: pad) ++ le_bytes 8 cg ++ le_bytes 8 ts ++ body ++ rest).
    rewrite get_le_app_r by (simpl; lia). by apply get_le_encoded.
  - change (ty :: pad ++ le_bytes 8 cg ++ le_bytes 8 ts ++ body ++ rest)
      with ((ty :: pad) ++ le_bytes 8 cg ++ le_bytes 8 ts ++ body ++ rest).
    rewrite app_assoc, get_le_app_r by (rewrite length_app, length_le_bytes; simpl; lia).
    by apply get_le_encoded.
  - change (ty :: pad ++ le_bytes 8 cg ++ le_bytes 8 ts ++ body ++ rest)
      with ((ty :: pad) ++ le_bytes 8 cg ++ le_bytes 8 ts ++ body ++ rest).
    rewrite 2!app_assoc. apply drop_app_length'.
    rewrite !length_app, !length_le_bytes. simpl. lia.
Qed.

(** C37: round trip: [ParseRawEvent] gives back every event laid out as the loader
    expects, payload fields at their widths, whatever the padding and the unused
    payload bytes hold. *)
Theorem parse_encode_raw pad cg ts p rest :
  length pad = 7%nat -> inU 64 cg -> inU 64 ts -> payload_ok p ->
  (40 <= length (snd (encode_payload p) ++ rest))%nat ->
  ParseRawEvent (encode_raw pad cg ts p rest)
    = (mk_RawEvent (fst (encode_payload p)) cg ts (Some p), None).
Proof.
  intros Hpad Hcg Hts Hp Hlen.
  destruct (encode_raw_fields pad cg ts p rest Hpad Hcg Hts) as (E1 & E2 & E3 & E4).
  unfold ParseRawEvent. rewrite E1, E2, E3, E4.
  assert ((Z.of_nat (length (encode_raw pad cg ts p rest)) <? AkilEventSize) = false) as ->.
  { apply Z.ltb_ge. unfold encode_raw, AkilEventSize. clear E1 E2 E3 E4.
    destruct (encode_payload p) as [ty body]. cbn [snd length] in Hlen |- *.
    rewrite length_app in Hlen. rewrite !length_app, !length_le_bytes, Hpad. lia. }
  destruct p as [major addr|d|a d|pc nc st]; cbn [encode_payload fst snd] in *;
    cbn [Z.eqb EventPageFault EventCacheMiss EventLockContention EventCtxSwitch Pos.eqb];
    rewrite (proj2 (Z.ltb_ge _ _)) by lia.
  - cbn [app]. rewrite get_le_byte by (destruct major; lia).
    assert (get_le 8 1 ((if major then 1 else 0) :: le_bytes 8 addr ++ rest) = addr) as ->.
    { rewrite <- (get_le_encoded 8 addr rest) at 2 by done.
      exact (get_le_app_r 8 1 [if major then 1 else 0] _ eq_refl). }
    by destruct major.
  - by rewrite get_le_encoded.
  - destruct Hp as [Ha Hd]. rewrite <- app_assoc, get_le_encoded by done.
    rewrite (get_le_app_r 8 8 (le_bytes 8 a)), get_le_encoded by (done || apply (wrapU_range 64); lia).
    by rewrite wrapS_wrapU, wrapS_id by (done || lia).
  - destruct Hp as (Hpc & Hnc & Hst). rewrite <- !app_assoc, get_le_encoded by done.
    rewrite (get_le_app_r 8 8 (le_bytes 8 pc)), get_le_encoded by done.
    rewrite (app_assoc (le_bytes 8 pc)), (get_le_app_r 4 16 (le_bytes 8 pc ++ le_bytes 8 nc)), get_le_encoded
      by (done || apply (wrapU_range 32); lia).
    by rewrite wrapS_wrapU, wrapS_id by (done || lia).
Qed.

(** The parser accepts exactly the records of at least 64 bytes with one of
    the four types; it reports the other cases as too small or unknown, and its
    checks on the payload size can never fail. *)
Theorem parse_outcome data :
  let ty := get_le 1 0 data in
  snd (ParseRawEvent data) =
    if Z.of_nat (length data) <? 64 then Some (EventTooSmall (Z.of_nat (length data)))
    else if bool_decide (0 <= ty <= 3) then None else Some (UnknownEventType ty).
Proof.
  intros ty. unfold ParseRawEvent. fold ty. unfold AkilEventSize.
  destruct (Z.ltb_spec (Z.of_nat (length data)) 64) as [|Hlen]; [done|].
  assert (40 <= Z.of_nat (length (drop 24 data))) as Hd by (rewrite length_drop; lia).
  unfold EventPageFault, EventCacheMiss, EventLockContention, EventCtxSwitch.
  destruct (Z.eqb_spec ty 0) as [E|]; [rewrite (proj2 (Z.ltb_ge _ _)), E by lia; done|].
  destruct (Z.eqb_spec ty 1) as [E|]; [rewrite (proj2 (Z.ltb_ge _ _)), E by lia; done|].
  destruct (Z.eqb_spec ty 2) as [E|]; [rewrite (proj2 (Z.ltb_ge _ _)), E by lia; done|].
  destruct (Z.eqb_spec ty 3) as [E|]; [rewrite (proj2 (Z.ltb_ge _ _)), E by lia; done|].
  by rewrite bool_decide_false by lia.
Qed.

(** Converting a tagged event loses neither its kind nor its key. *)
Definition payload_kind (p : EventPayload) : EventType := fst (encode_payload p).

(** The protobuf event built from a parsed event carries its workload key and
    the protobuf type one above the Go type, and the getter the aggregator uses
    for that type gives back the parsed amount. *)
Theorem tagged_event_kept r id :
  let e := taggedEventToProto (mk_TaggedEvent r id) in
  pb.workload_key e = pi_WorkloadKey id
  /\ match re_Payload r with
     | None => pb.event_type e = pb.EVENT_TYPE_UNSPECIFIED /\ pb.payload e = None
     | Some p => pb.event_type e = payload_kind p + 1
         /\ (forall d, pb.GetCacheMiss e = Some d <-> p = CacheMissPayload d)
         /\ (forall a d, pb.GetLockContention e = Some (a, d) <-> p = LockContentionPayload a d)
     end.
Proof.
  destruct r as [ty cg ts [p|]]; [|done]. destruct p; simpl; split; try done;
    (split; [done|]); unfold pb.GetCacheMiss, pb.GetLockContention; simpl; split; naive_solver.
Qed.

Lemma parse_encode_raw_witness :
  ParseRawEvent (encode_raw [0; 0; 0; 0; 0; 0; 0] 77 123456789 (LockContentionPayload 5 (-3)) (replicate 24 9))
  = (mk_RawEvent 2 77 123456789 (Some (LockContentionPayload 5 (-3))), None).
Proof.
  apply (parse_encode_raw [0; 0; 0; 0; 0; 0; 0] 77 123456789 (LockContentionPayload 5 (-3)) (replicate 24 9)).
  - reflexivity.
  - unfold inU. lia.
  - unfold inU. lia.
  - unfold payload_ok, inU, inS. lia.
  - vm_compute. lia.
Defined.
