(* ===== verification/Loader.v ===== *)
(** * pkg/ebpf/loader.go: the life of a loader

    [NewLoader], [Events], [Start] and [Close].  At this commit the loader opens
    nothing and [Start] only waits; [Close] runs whatever closers it is given.
    The parser of the same file is [Telemetry.ParseRawEvent]. *)
From S2P Require Import Prelude Telemetry.
#[local] Open Scope string_scope.
#[local] Open Scope list_scope.
#[local] Open Scope Z_scope.

Record LoaderConfig := mk_LoaderConfig { RingBufferSize : Z; CacheMissSamplePeriod : Z; EventChannelSize : Z }.

Definition DefaultLoaderConfig : LoaderConfig := mk_LoaderConfig (16 * 1024 * 1024) 10000 8192.

(** The events channel: its capacity, the events in it, whether it is closed.  A
    closer acts on the system and may fail. *)
Record Loader (W : Type) := mk_Loader {
  events_cap : Z; events : list RawEvent; events_closed : bool; closers : list (W -> W * option string) }.
Arguments mk_Loader {W}.
Arguments events_cap {W}.
Arguments events {W}.
Arguments events_closed {W}.
Arguments closers {W}.

(** [None] is the panic of [make] on a negative size. *)
Definition NewLoader {W} (cfg : LoaderConfig) : option (Loader W) :=
  let size := if EventChannelSize cfg =? 0 then 8192 else EventChannelSize cfg in
  if size <? 0 then None else Some (mk_Loader size [] false []).

(** A receive from [Events()]: the next event; [inr true] once the channel is
    closed and empty; [inr false] while there is nothing. *)
Definition receive {W} (l : Loader W) : Loader W * (RawEvent + bool) :=
  match events l with
  | e :: es => (mk_Loader (events_cap l) es (events_closed l) (closers l), inl e)
  | [] => (l, inr (events_closed l))
  end.

(** [Start] until [ctx] is done, which it reports with [ctx.Err()]. *)
Definition Start {W} (ctx_Err : option string) (l : Loader W) : option (Loader W * string) :=
  err ← ctx_Err; Some (l, err).

Section Close.
Context {W : Type}.
Implicit Types (w : W).

Fixpoint run_closers (cs : list (W -> W * option string)) (errs : list string) w : W * list string :=
  match cs with
  | [] => (w, errs)
  | closer :: cs =>
      let '(w, err) := closer w in
      run_closers cs (match err with Some e => errs ++ [e] | None => errs end) w
  end.

(** [None] is the panic of closing a closed channel; the errors are joined. *)
Definition Close (l : Loader W) w : option (Loader W * W * list string) :=
  let '(w, errs) := run_closers (closers l) [] w in
  if events_closed l then None
  else Some (mk_Loader (events_cap l) (events l) true (closers l), w, errs).

(** The answers of the closers when each runs on what the last one left. *)
Fixpoint answers (cs : list (W -> W * option string)) w : list (option string) :=
  match cs with [] => [] | c :: cs => snd (c w) :: answers cs (fst (c w)) end.

Lemma run_closers_spec cs : forall errs w,
  run_closers cs errs w = (foldl (fun w c => fst (c w)) w cs, errs ++ omap id (answers cs w)).
Proof.
  induction cs as [|c cs IH]; intros errs w; simpl; [by rewrite app_nil_r|].
  destruct (c w) as [w' [e|]]; rewrite IH; simpl; [by rewrite <- app_assoc|done].
Qed.

(** [Close] runs every closer in order, also after one has failed, and joins
    exactly their errors; events already in the channel are still received, and
    after them every receive reports the end.  A second [Close] panics. *)
Theorem close_runs_every_closer (l : Loader W) w : events_closed l = false ->
  exists l', Close l w = Some (l', foldl (fun w c => fst (c w)) w (closers l), omap id (answers (closers l) w))
  /\ events l' = events l /\ (events l = [] -> receive l' = (l', inr true))
  /\ forall w', Close l' w' = None.
Proof.
  intros Hc. unfold Close. rewrite run_closers_spec, Hc. eexists. split; [reflexivity|]. split; [done|].
  split; [intros He; unfold receive; simpl; by rewrite He|]. intros w'. simpl. by rewrite run_closers_spec.
Qed.
End Close.

(** Two closers, the first of which fails. *)
Lemma close_runs_every_closer_witness :
  exists l', Close (mk_Loader 8192 [] false [(fun n => (n + 1, Some "busy")); (fun n => (n * 2, None))]) 3
    = Some (l', 8, ["busy"]) /\ Close l' 8 = None.
Proof.
  destruct (close_runs_every_closer
    (mk_Loader 8192 [] false [(fun n => (n + 1, Some "busy")); (fun n => (n * 2, None))]) 3 eq_refl)
    as (l' & E & _ & _ & H2).
  exists l'. split; [exact E|apply H2].
Defined.
