(* ===== verification/Batch.v ===== *)
(** * pkg/telemetry/batch.go: the batch assembler

    [Add] calls, the flush loop of [Start], [Stop] and the reader of [Batches]
    run concurrently.  A thread is given by what it does next; everything between
    two accesses to shared state ([mu], [output], [done]) is one step.  A send on
    a closed channel, or closing one twice, panics. *)
From S2P Require Import Prelude Window Telemetry.
#[local] Open Scope string_scope.
#[local] Open Scope list_scope.
#[local] Open Scope Z_scope.

(** ** Configuration and state *)
Record BatchAssemblerConfig := mk_BatchAssemblerConfig {
  cfg_MaxEvents : Z; cfg_FlushInterval : Duration; cfg_NodeName : string; cfg_OutputBufferSize : Z }.

Definition DefaultBatchAssemblerConfig : BatchAssemblerConfig :=
  mk_BatchAssemblerConfig 1000 (1 * Second) "" 16.

Record BatchAssembler := mk_BatchAssembler {
  maxEvents : Z;
  flushInterval : Duration;
  nodeName : string;
  current : list pb.TelemetryEvent;
  output : list pb.TelemetryBatch;    (* what the channel holds *)
  output_cap : Z;
  output_closed : bool;
  done_closed : bool }.

(** [make] panics on a negative size. *)
Definition NewBatchAssembler (cfg : BatchAssemblerConfig) : option BatchAssembler :=
  let max := if cfg_MaxEvents cfg =? 0 then 1000 else cfg_MaxEvents cfg in
  let interval := if cfg_FlushInterval cfg =? 0 then 1 * Second else cfg_FlushInterval cfg in
  let size := if cfg_OutputBufferSize cfg =? 0 then 16 else cfg_OutputBufferSize cfg in
  if (max <? 0) || (size <? 0) then None else
  Some (mk_BatchAssembler max interval (cfg_NodeName cfg) [] [] size false false).

Definition set_current (es : list pb.TelemetryEvent) (b : BatchAssembler) : BatchAssembler :=
  mk_BatchAssembler (maxEvents b) (flushInterval b) (nodeName b) es (output b) (output_cap b)
    (output_closed b) (done_closed b).
Definition set_output (bs : list pb.TelemetryBatch) (b : BatchAssembler) : BatchAssembler :=
  mk_BatchAssembler (maxEvents b) (flushInterval b) (nodeName b) (current b) bs (output_cap b)
    (output_closed b) (done_closed b).
Definition close_output (b : BatchAssembler) : BatchAssembler :=
  mk_BatchAssembler (maxEvents b) (flushInterval b) (nodeName b) (current b) (output b) (output_cap b)
    true (done_closed b).
Definition close_done (b : BatchAssembler) : BatchAssembler :=
  mk_BatchAssembler (maxEvents b) (flushInterval b) (nodeName b) (current b) (output b) (output_cap b)
    (output_closed b) true.

(** ** The sections between shared accesses *)

(** [Add] under the lock: append, and whether to flush. *)
Definition add_locked (evt : TaggedEvent) (b : BatchAssembler) : BatchAssembler * bool :=
  let es := current b ++ [taggedEventToProto evt] in
  (set_current es b, maxEvents b <=? Z.of_nat (length es)).

(** [flush] under the lock: nothing to do, or the events taken. *)
Definition flush_take (b : BatchAssembler) : option (list pb.TelemetryEvent * BatchAssembler) :=
  match current b with [] => None | es => Some (es, set_current [] b) end.

Inductive sending := SendPanics | Sent (b : BatchAssembler) | BatchDropped.

(** The [select] of [flush]: send if the buffer has room, else drop. *)
Definition flush_send (now : Z) (es : list pb.TelemetryEvent) (b : BatchAssembler) : sending :=
  if output_closed b then SendPanics
  else if Z.of_nat (length (output b)) <? output_cap b
  then Sent (set_output (output b ++ [pb.mk_TelemetryBatch (nodeName b) now es]) b)
  else BatchDropped.

(** ** Threads *)

(** Where [flush] was called from. *)
Inductive after := AddReturns | TickReturns | FinalReturns.

Inductive thread :=
  | AddLock (evt : TaggedEvent)
  | FlushLock (k : after)
  | FlushSend (k : after) (es : list pb.TelemetryEvent)
  | LoopSelect
  | LoopClose.

Definition resume (k : after) : list thread :=
  match k with AddReturns => [] | TickReturns => [LoopSelect] | FinalReturns => [LoopClose] end.

(** What a step adds to the history: an event, a batch taken, a batch dropped. *)
Record history := mk_history {
  h_added : list pb.TelemetryEvent; h_taken : list (list pb.TelemetryEvent);
  h_dropped : list (list pb.TelemetryEvent); h_received : list pb.TelemetryBatch }.

Inductive ran := Panic | Ran (next : list thread) (b : BatchAssembler) (h : history).

(** One step of a thread.  [now] is the clock; [pick_done] resolves the [select]
    of the loop when both channels are ready (the ticker may be at any time). *)
Definition run_thread (now : Z) (pick_done : bool) (p : thread) (b : BatchAssembler) (h : history) : ran :=
  match p with
  | AddLock evt =>
      let '(b, shouldFlush) := add_locked evt b in
      Ran (if shouldFlush then [FlushLock AddReturns] else []) b
        (mk_history (h_added h ++ [taggedEventToProto evt]) (h_taken h) (h_dropped h) (h_received h))
  | FlushLock k =>
      match flush_take b with
      | None => Ran (resume k) b h
      | Some (es, b) =>
          Ran [FlushSend k es] b (mk_history (h_added h) (h_taken h ++ [es]) (h_dropped h) (h_received h))
      end
  | FlushSend k es =>
      match flush_send now es b with
      | SendPanics => Panic
      | Sent b => Ran (resume k) b h
      | BatchDropped =>
          Ran (resume k) b (mk_history (h_added h) (h_taken h) (h_dropped h ++ [es]) (h_received h))
      end
  | LoopSelect => Ran [FlushLock (if done_closed b && pick_done then FinalReturns else TickReturns)] b h
  | LoopClose => if output_closed b then Panic else Ran [] (close_output b) h
  end.

Record system := mk_system {
  asm : BatchAssembler; threads : list thread; started : bool; hist : history }.

(** [None] is a panic, which ends the process.  [Start] is called at most once; a
    negative interval makes its [NewTicker] panic. *)
Inductive step : system -> option system -> Prop :=
  | step_add s evt : step s (Some (mk_system (asm s) (threads s ++ [AddLock evt]) (started s) (hist s)))
  | step_start s : started s = false -> 0 < flushInterval (asm s) ->
      step s (Some (mk_system (asm s) (threads s ++ [LoopSelect]) true (hist s)))
  | step_start_panics s : started s = false -> flushInterval (asm s) <= 0 -> step s None
  | step_stop s : done_closed (asm s) = false ->
      step s (Some (mk_system (close_done (asm s)) (threads s) (started s) (hist s)))
  | step_stop_again s : done_closed (asm s) = true -> step s None
  | step_receive s x rest : output (asm s) = x :: rest ->
      step s (Some (mk_system (set_output rest (asm s)) (threads s) (started s)
        (mk_history (h_added (hist s)) (h_taken (hist s)) (h_dropped (hist s)) (h_received (hist s) ++ [x]))))
  | step_thread s l p l' now pick next b h : threads s = l ++ p :: l' ->
      run_thread now pick p (asm s) (hist s) = Ran next b h ->
      step s (Some (mk_system b (l ++ next ++ l') (started s) h))
  | step_panic s l p l' now pick : threads s = l ++ p :: l' ->
      run_thread now pick p (asm s) (hist s) = Panic -> step s None.

Definition no_history : history := mk_history [] [] [] [].
Definition system_of (b : BatchAssembler) : system := mk_system b [] false no_history.

Definition is_add (p : thread) : bool :=
  match p with AddLock _ | FlushLock AddReturns | FlushSend AddReturns _ => true | _ => false end.
Definition adds (s : system) : list thread := filter (fun p => is_add p = true) (threads s).
Definition loops (s : system) : list thread := filter (fun p => is_add p = false) (threads s).

(** ** What no interleaving changes *)
Definition in_flight (p : thread) : option (list pb.TelemetryEvent) :=
  match p with FlushSend _ es => Some es | _ => None end.

Definition about_to_flush (p : thread) : nat := match p with FlushLock AddReturns => 1 | _ => 0 end.

Definition flushers (ps : list thread) : Z := Z.of_nat (sum_list_with about_to_flush ps).

(** The batches taken, wherever they are now. *)
Definition accounted (s : system) : list (list pb.TelemetryEvent) :=
  h_dropped (hist s) ++ (pb.events <$> h_received (hist s)) ++ (pb.events <$> output (asm s))
  ++ omap in_flight (threads s).

Record conserved (max node : _) (size : Z) (s : system) : Prop := {
  co_config : maxEvents (asm s) = max /\ nodeName (asm s) = node /\ 0 < max;
  co_order : concat (h_taken (hist s)) ++ current (asm s) = h_added (hist s);
  co_batches : h_taken (hist s) ≡ₚ accounted s;
  co_current : Z.of_nat (length (current (asm s))) <= max - 1 + flushers (threads s);
  co_size : Forall (fun es => es <> [] /\ Z.of_nat (length es) <= max - 1 + size) (h_taken (hist s));
  co_node : Forall (fun b => pb.node_name b = node) (h_received (hist s) ++ output (asm s)) }.

Lemma flushers_app l l' : flushers (l ++ l') = flushers l + flushers l'.
Proof. unfold flushers. rewrite sum_list_with_app. lia. Qed.

Lemma flushers_cons p l : flushers (p :: l) = Z.of_nat (about_to_flush p) + flushers l.
Proof. unfold flushers. simpl. lia. Qed.

Lemma flushers_nonneg l : 0 <= flushers l.
Proof. unfold flushers. lia. Qed.

Lemma flushers_adds s : flushers (threads s) <= Z.of_nat (length (adds s)).
Proof.
  unfold flushers, adds. induction (threads s) as [|p l IH]; [done|]. rewrite filter_cons. simpl.
  destruct p as [|[]|[]| |]; simpl; lia.
Qed.

Lemma resume_quiet k : omap in_flight (resume k) = [] /\ flushers (resume k) = 0.
Proof. by destruct k. Qed.

Lemma flush_take_spec b :
  match flush_take b with
  | None => current b = []
  | Some (es, b') => es = current b /\ es <> [] /\ b' = set_current [] b
  end.
Proof. unfold flush_take. by destruct (current b). Qed.

Lemma thread_conserved max node size s l p l' now pick next b h :
  conserved max node size s -> Z.of_nat (length (adds s)) <= size -> threads s = l ++ p :: l' ->
  run_thread now pick p (asm s) (hist s) = Ran next b h ->
  conserved max node size (mk_system b (l ++ next ++ l') (started s) h).
Proof.
  intros [(Hm & Hnode & Hmax) Ho Hb Hc Hsz Hn] Hadds Hth Hrun.
  pose proof (flushers_adds s) as Hfl. unfold accounted in *.
  rewrite Hth, omap_app, flushers_app, flushers_cons in *.
  pose proof (flushers_nonneg l). pose proof (flushers_nonneg l').
  destruct p as [evt|k|k es| |]; simpl in Hrun.
  + injection Hrun as <- <- <-. constructor; simpl; try done; unfold accounted; simpl.
    * by rewrite app_assoc, Ho.
    * rewrite !omap_app. simpl in Hb. destruct (maxEvents (asm s) <=? _); simpl; by rewrite ?app_nil_r.
    * rewrite !flushers_app, length_app. simpl.
      destruct (Z.leb_spec (maxEvents (asm s)) (Z.of_nat (length (current (asm s)) + 1)));
        rewrite ?flushers_cons; change (flushers []) with 0; simpl in *; lia.
  + pose proof (flush_take_spec (asm s)) as Ht. destruct (flush_take (asm s)) as [[es b0]|].
    * destruct Ht as (-> & Hne & ->). injection Hrun as <- <- <-.
      constructor; simpl; try done; unfold accounted; simpl.
      -- rewrite concat_app. simpl. by rewrite !app_nil_r.
      -- rewrite Hb, !omap_app. simpl. rewrite <- !app_assoc. do 4 f_equiv. apply Permutation_app_comm.
      -- rewrite !flushers_app, flushers_cons. simpl. lia.
      -- apply Forall_app. split; [done|]. apply Forall_singleton. split; [done|].
         destruct k; simpl in *; lia.
    * injection Hrun as <- <- <-. destruct (resume_quiet k) as [E1 E2].
      constructor; simpl; try done; unfold accounted; simpl.
      -- rewrite Hb, !omap_app, E1. done.
      -- rewrite Ht. simpl. rewrite !flushers_app. lia.
  + destruct (resume_quiet k) as [E1 E2].
    unfold flush_send in Hrun. destruct (output_closed (asm s)); [done|].
    destruct (Z.of_nat (length (output (asm s))) <? output_cap (asm s)); injection Hrun as <- <- <-;
      constructor; simpl; try done; unfold accounted; simpl.
    * rewrite Hb, !omap_app, E1, fmap_app. simpl. rewrite <- !app_assoc. do 3 f_equiv. simpl.
      by rewrite <- Permutation_middle.
    * rewrite !flushers_app. simpl in Hc. lia.
    * rewrite app_assoc. apply Forall_app. split; [done|]. by apply Forall_singleton.
    * rewrite Hb, !omap_app, E1. simpl. rewrite <- !app_assoc. f_equiv. simpl.
      rewrite !app_assoc. by rewrite <- Permutation_middle.
    * rewrite !flushers_app. simpl in Hc. lia.
  + injection Hrun as <- <- <-. constructor; simpl; try done; unfold accounted; simpl.
    * by rewrite omap_app.
    * rewrite flushers_app, flushers_cons. simpl in Hc. destruct (_ && _); simpl; lia.
  + destruct (output_closed (asm s)); [done|]. injection Hrun as <- <- <-.
    constructor; simpl; try done; unfold accounted; simpl.
    * by rewrite omap_app.
    * rewrite flushers_app. simpl in Hc. lia.
Qed.

Lemma step_conserved max node size s s' :
  conserved max node size s -> Z.of_nat (length (adds s)) <= size -> step s (Some s') ->
  conserved max node size s'.
Proof.
  intros Hco Hadds Hs. pose proof Hco as [(Hm & Hnode & Hmax) Ho Hb Hc Hsz Hn].
  inversion Hs as [|s0 Hst Hint| |s0 Hd| |s0 x rest Hout|s0 l p l' now pick next b h Hth Hrun|]; subst;
    [..|by eapply thread_conserved]; unfold accounted in *.
  - constructor; try done; unfold accounted; simpl.
    + by rewrite omap_app, app_nil_r.
    + rewrite flushers_app. unfold flushers at 2. simpl. lia.
  - constructor; try done; unfold accounted; simpl.
    + by rewrite omap_app, app_nil_r.
    + rewrite flushers_app. unfold flushers at 2. simpl. lia.
  - by constructor.
  - rewrite Hout in Hb, Hn. constructor; try done; unfold accounted; simpl.
    + rewrite Hb, fmap_app. simpl. by rewrite <- !app_assoc.
    + by rewrite <- app_assoc.
Qed.

(** Runs with at most [size] calls of [Add] in progress at a time. *)
Definition limited (size : nat) (s s' : system) : Prop :=
  step s (Some s') /\ (length (adds s') <= size)%nat.

Lemma new_conserved cfg b size :
  NewBatchAssembler cfg = Some b -> conserved (maxEvents b) (nodeName b) size (system_of b).
Proof.
  unfold NewBatchAssembler. intros H.
  destruct (Z.eqb_spec (cfg_MaxEvents cfg) 0), (Z.ltb_spec (cfg_MaxEvents cfg) 0); simpl in H; try done; try lia;
    destruct ((if cfg_OutputBufferSize cfg =? 0 then 16 else cfg_OutputBufferSize cfg) <? 0); try done;
    injection H as <-; constructor; simpl; try done;
    [split_and!; [done..|lia] | change (flushers []) with 0; lia].
Qed.

(** C12: no event is lost silently, duplicated or reordered within the assembler.
    In any interleaving of any number of [Add] calls, flushes, receives and [Stop],
    with at most [size] adds in progress: the batches taken, in order, followed by
    the pending events are the events added, in order; each batch taken is exactly
    one of: dropped (with the warning), received, in the channel, or about to be
    sent; each is non-empty, has at most [MaxEvents + size - 1] events and carries the
    node's name.  The configuration calls [MaxEvents] the maximum number of events
    per batch; that holds for a single producer, but an [Add] that finds the batch
    full gives up the lock before it flushes, and the others in progress append
    to the same batch: the witness has a batch of 3 with a [MaxEvents] of 2. *)
Theorem batches_conserved cfg b size s :
  NewBatchAssembler cfg = Some b -> (0 < size)%nat -> rtc (limited size) (system_of b) s ->
  concat (h_taken (hist s)) ++ current (asm s) = h_added (hist s)
  /\ h_taken (hist s) ≡ₚ accounted s
  /\ Forall (fun es => es <> [] /\ Z.of_nat (length es) <= maxEvents b + Z.of_nat size - 1) (h_taken (hist s))
  /\ Forall (fun batch => pb.node_name batch = cfg_NodeName cfg) (h_received (hist s) ++ output (asm s)).
Proof.
  intros Hb Hsize Hr. pose proof (new_conserved cfg b (Z.of_nat size) Hb) as H0.
  assert (nodeName b = cfg_NodeName cfg) as <-.
  { unfold NewBatchAssembler in Hb. cbv zeta in Hb. case_match; by simplify_eq. }
  assert (length (adds (system_of b)) <= size)%nat as Ha by (simpl; lia).
  assert (conserved (maxEvents b) (nodeName b) (Z.of_nat size) s) as [_ H1 H2 _ H3 H4].
  { revert Ha H0. induction Hr as [|s1 s2 s3 [Hs Hl] _ IH]; [done|]. intros Ha H0.
    apply IH; [done|]. apply (step_conserved _ _ _ s1); [done|lia|done]. }
  split; [done|]. split; [done|]. split; [|done].
  eapply Forall_impl; [exact H3|]. intros es [? ?]. split; [done|lia].
Qed.

(** ** Shutdown *)

(** No [Add] is in progress once [Stop] has been called. *)
Definition stopped_quiet (s : system) : Prop := done_closed (asm s) = true -> adds s = [].

Definition disciplined (s s' : system) : Prop := step s (Some s') /\ stopped_quiet s'.

Definition is_final (p : thread) : bool :=
  match p with FlushLock FinalReturns | FlushSend FinalReturns _ | LoopClose => true | _ => false end.
Definition after_final_take (p : thread) : bool :=
  match p with FlushSend FinalReturns _ | LoopClose => true | _ => false end.

(** There is at most one loop; past its final flush nothing is pending. *)
Record orderly (s : system) : Prop := {
  or_loops : if started s && negb (output_closed (asm s)) then exists p, loops s = [p] else loops s = [];
  or_closed : output_closed (asm s) = true -> started s = true /\ done_closed (asm s) = true
                /\ current (asm s) = [];
  or_final : Forall (fun p => is_final p = true -> done_closed (asm s) = true) (loops s);
  or_empty : Forall (fun p => after_final_take p = true -> current (asm s) = []) (loops s) }.

Lemma add_thread s l p l' : threads s = l ++ p :: l' -> is_add p = true -> p ∈ adds s.
Proof. intros H Hp. unfold adds. rewrite H. apply list_elem_of_filter. split; [done|]. set_solver. Qed.

(** A loop thread is the only one. *)
Lemma loop_thread s l p l' :
  orderly s -> threads s = l ++ p :: l' -> is_add p = false ->
  started s = true /\ output_closed (asm s) = false /\ loops s = [p]
  /\ filter (fun p => is_add p = false) l = [] /\ filter (fun p => is_add p = false) l' = [].
Proof.
  intros [Hl _ _ _] Ht Hp.
  assert (loops s = filter (fun p => is_add p = false) l ++ [p] ++ filter (fun p => is_add p = false) l') as E.
  { unfold loops. rewrite Ht, filter_app, filter_cons_True by done. done. }
  destruct (started s && negb (output_closed (asm s))) eqn:Es.
  2: { rewrite Hl in E. by apply (f_equal length) in E; rewrite !length_app in E; simpl in E; lia. }
  apply andb_true_iff in Es as [? ?%negb_true_iff]. destruct Hl as [q Hq]. rewrite Hq in E.
  apply (f_equal length) in E as El. rewrite !length_app in El. simpl in El.
  assert (filter (fun p => is_add p = false) l = []) as E1 by (apply nil_length_inv; lia).
  assert (filter (fun p => is_add p = false) l' = []) as E2 by (apply nil_length_inv; lia).
  rewrite E1, E2 in E. simpl in E. split_and!; try done. congruence.
Qed.

Lemma loops_replace l next l' b st h :
  loops (mk_system b (l ++ next ++ l') st h)
  = filter (fun p => is_add p = false) l ++ filter (fun p => is_add p = false) next
    ++ filter (fun p => is_add p = false) l'.
Proof. unfold loops. simpl. by rewrite !filter_app. Qed.

(** The step of an [Add]: the loop does not notice. *)
Lemma add_thread_step now pick p b h next b' h' :
  is_add p = true -> run_thread now pick p b h = Ran next b' h' ->
  filter (fun p => is_add p = false) next = []
  /\ output_closed b' = output_closed b /\ done_closed b' = done_closed b.
Proof.
  destruct p as [evt|[]|[] es| |]; intros Hp Hr; try done; simpl in Hr.
  - injection Hr as <- <- <-. by case_match.
  - pose proof (flush_take_spec b) as Ht. destruct (flush_take b) as [[es b0]|].
    + destruct Ht as (_ & _ & ->). by injection Hr as <- <- <-.
    + by injection Hr as <- <- <-.
  - unfold flush_send in Hr. destruct (output_closed b) eqn:Ec; [done|].
    destruct (_ <? _); by injection Hr as <- <- <-.
Qed.

Lemma loop_step_orderly s l p l' now pick next b h :
  orderly s -> threads s = l ++ p :: l' -> is_add p = false ->
  run_thread now pick p (asm s) (hist s) = Ran next b h ->
  orderly (mk_system b (l ++ next ++ l') (started s) h).
Proof.
  intros Ho Ht Hp Hr. destruct (loop_thread s l p l' Ho Ht Hp) as (Hst & Hcl & Hlp & E1 & E2).
  destruct Ho as [_ _ Hf He]. rewrite Hlp in Hf, He.
  apply Forall_inv in Hf, He.
  assert (forall q b h, is_add q = false -> output_closed b = false ->
    (is_final q = true -> done_closed b = true) -> (after_final_take q = true -> current b = []) ->
    orderly (mk_system b (l ++ [q] ++ l') (started s) h)) as K.
  { intros q b1 h1 Hq H1 H2 H3.
    assert (loops (mk_system b1 (l ++ [q] ++ l') (started s) h1) = [q]) as E.
    { rewrite loops_replace, E1, E2. simpl app. rewrite filter_cons_True by done. done. }
    constructor; rewrite ?E; simpl; rewrite ?Hst, ?H1; simpl; [eauto|done|by apply Forall_singleton..]. }
  destruct p as [evt|k|k es| |]; simpl in Hr; [done| | | |].
  - pose proof (flush_take_spec (asm s)) as Htk. destruct (flush_take (asm s)) as [[es b0]|].
    + destruct Htk as (_ & _ & ->). injection Hr as <- <- <-. apply K; destruct k; simpl in *; solve [done | auto].
    + injection Hr as <- <- <-. destruct k; simpl in Hp; [done|apply K..]; simpl in *; solve [done | auto].
  - unfold flush_send in Hr. rewrite Hcl in Hr.
    destruct (_ <? _); injection Hr as <- <- <-; (destruct k; simpl in Hp; [done|apply K..]); simpl in *; solve [done | auto].
  - injection Hr as <- <- <-. apply K; [by case_match|done| |by case_match].
    destruct (done_closed (asm s)) eqn:Ed; [done|]. simpl. done.
  - rewrite Hcl in Hr. injection Hr as <- <- <-.
    assert (loops (mk_system (close_output (asm s)) (l ++ [] ++ l') (started s) (hist s)) = []) as E.
    { by rewrite loops_replace, E1, E2. }
    constructor; rewrite ?E; simpl; rewrite ?Hst; simpl; [done|auto|constructor..].
Qed.

Lemma step_orderly s s' : orderly s -> stopped_quiet s -> step s (Some s') -> orderly s'.
Proof.
  intros Ho Hq Hs. pose proof Ho as [Hl Hc Hf He].
  inversion Hs as [s0 evt|s0 Hst Hint| |s0 Hd| |s0 x rest Hout|s0 l p l' now pick next b h Hth Hrun|]; subst.
  - assert (loops (mk_system (asm s) (threads s ++ [AddLock evt]) (started s) (hist s)) = loops s) as E.
    { unfold loops. simpl. by rewrite filter_app, app_nil_r. }
    constructor; rewrite ?E; done.
  - assert (output_closed (asm s) = false) as Hcl.
    { destruct (output_closed (asm s)); [|done]. destruct (Hc eq_refl). congruence. }
    rewrite Hst in Hl. simpl in Hl.
    assert (loops (mk_system (asm s) (threads s ++ [LoopSelect]) true (hist s)) = [LoopSelect]) as E.
    { unfold loops in *. simpl. rewrite filter_app, Hl. done. }
    constructor; rewrite ?E; simpl; rewrite ?Hcl; simpl; [eauto|done|by apply Forall_singleton..].
  - constructor; [done| |by apply Forall_true|done]. simpl. intros Hcl. by destruct (Hc Hcl) as (? & _ & ?).
  - by constructor.
  - destruct (is_add p) eqn:Hp; [|by apply (loop_step_orderly s l p l' now pick)].
    destruct (add_thread_step now pick p _ _ _ _ _ Hp Hrun) as (En & Ec & Ed).
    assert (done_closed (asm s) = false) as Hd.
    { destruct (done_closed (asm s)) eqn:Hd; [|done]. exfalso.
      pose proof (add_thread s l p l' Hth Hp) as Hin. rewrite (Hq Hd) in Hin. by apply elem_of_nil in Hin. }
    assert (loops (mk_system b (l ++ next ++ l') (started s) h) = loops s) as E.
    { rewrite loops_replace, En. unfold loops. rewrite Hth, filter_app, (filter_cons_False _ p) by by rewrite Hp.
      done. }
    constructor; rewrite ?E; simpl; rewrite ?Ec, ?Ed; [done| | |].
    + intros Hcl. destruct (Hc Hcl) as (_ & ? & _). congruence.
    + eapply Forall_impl; [exact Hf|]. done.
    + eapply Forall_impl; [exact Hf|]. simpl. intros q Hfin Hafter.
      assert (is_final q = true) as Hq2 by (by destruct q as [|[]|[]| |]). specialize (Hfin Hq2). congruence.
Qed.

Lemma panic_closed now pick p b h : run_thread now pick p b h = Panic -> output_closed b = true.
Proof.
  destruct p as [evt|k|k es| |]; simpl; try done.
  - by destruct (flush_take b) as [[? ?]|].
  - unfold flush_send. destruct (output_closed b); [done|]. by destruct (_ <? _).
  - by destruct (output_closed b).
Qed.

Lemma no_threads s : adds s = [] -> loops s = [] -> threads s = [].
Proof.
  unfold adds, loops. destruct (threads s) as [|p l]; [done|]. rewrite !filter_cons.
  destruct (is_add p); repeat case_decide; done.
Qed.

Lemma only_loop s p : adds s = [] -> loops s = [p] -> threads s = [p] /\ is_add p = false.
Proof.
  unfold adds, loops. induction (threads s) as [|q l IH]; [done|]. rewrite !filter_cons.
  destruct (is_add q) eqn:Eq; repeat case_decide; try done. intros H1 [= <- H2].
  split; [|done]. f_equal. clear -H1 H2. induction l as [|q' l IH]; [done|]. rewrite !filter_cons in *.
  destruct (is_add q'); repeat case_decide; done.
Qed.

Lemma system_of_orderly cfg b : NewBatchAssembler cfg = Some b -> orderly (system_of b).
Proof.
  unfold NewBatchAssembler. intros H. cbv zeta in H. case_match; simplify_eq. constructor; simpl; done.
Qed.

(** The conservation laws do not depend on how many adds are in progress. *)
Lemma disciplined_inv cfg b s :
  NewBatchAssembler cfg = Some b -> rtc disciplined (system_of b) s ->
  orderly s /\ stopped_quiet s /\ concat (h_taken (hist s)) ++ current (asm s) = h_added (hist s)
  /\ h_taken (hist s) ≡ₚ accounted s.
Proof.
  intros Hb Hr.
  assert (exists size, conserved (maxEvents b) (nodeName b) size (system_of b)) as H0
    by (exists 0; by eapply new_conserved).
  assert (orderly (system_of b)) as H1 by (by eapply system_of_orderly).
  assert (stopped_quiet (system_of b)) as H2 by done.
  clear Hb. revert H0 H1 H2. induction Hr as [s1|s1 s2 s3 [Hs Hq] _ IH]; intros [size H0] H1 H2.
  - by destruct H0.
  - apply IH; [|by apply (step_orderly s1)|done].
    exists (Z.max size (Z.of_nat (length (adds s1)))).
    apply (step_conserved _ _ _ s1); [|lia|done].
    destruct H0 as [? ? ? ? Hsz ?]. constructor; try done.
    eapply Forall_impl; [exact Hsz|]. intros es [? ?]. split; [done|lia].
Qed.

(** How many steps the loop is from closing the channel, if [done] is picked. *)
Definition rank (p : thread) : nat :=
  match p with
  | FlushLock TickReturns => 6 | FlushSend TickReturns _ => 5 | LoopSelect => 4
  | FlushLock _ => 3 | FlushSend _ _ => 2 | _ => 1
  end.

Lemma loop_advances p b h : is_add p = false -> output_closed b = false -> done_closed b = true ->
  exists next b' h', run_thread 0 true p b h = Ran next b' h' /\ done_closed b' = true
    /\ (output_closed b' = true \/ exists q, next = [q] /\ is_add q = false /\ (rank q < rank p)%nat
          /\ output_closed b' = false).
Proof.
  intros Hp Hcl Hd. destruct p as [evt|k|k es| |]; simpl; [done|..].
  - pose proof (flush_take_spec b) as Ht. destruct (flush_take b) as [[es b0]|].
    + destruct Ht as (_ & _ & ->). do 3 eexists. split; [done|]. split; [done|]. right.
      eexists. split; [done|]. destruct k; simpl in *; [done|split_and!; [done|lia|done]..].
    + do 3 eexists. split; [done|]. split; [done|]. right. destruct k; [done|eexists..];
        (split; [done|]); simpl; (split; [done|]); split; try done; lia.
  - unfold flush_send. rewrite Hcl. destruct (_ <? _); do 3 eexists; (split; [done|]); (split; [done|]); right;
      (destruct k; [done|eexists..]; (split; [done|]); simpl; (split; [done|]); split; try done; lia).
  - rewrite Hd. do 3 eexists. split; [done|]. split; [done|]. right. eexists. split; [done|]. simpl.
    split; [done|]. split; [lia|done].
  - rewrite Hcl. do 3 eexists. split; [done|]. split; [done|]. by left.
Qed.

(** Only [LoopClose] closes the channel, and it has nothing left to do. *)
Lemma closing_step now pick p b h next b' h' :
  output_closed b = false -> run_thread now pick p b h = Ran next b' h' -> output_closed b' = true ->
  filter (fun p => is_add p = true) next = [].
Proof.
  intros Hcl Hr Hc. destruct p as [evt|k|k es| |]; simpl in Hr.
  - injection Hr as <- <- <-. simpl in Hc. congruence.
  - pose proof (flush_take_spec b) as Ht. destruct (flush_take b) as [[es b0]|].
    + destruct Ht as (_ & _ & ->). injection Hr as <- <- <-. simpl in Hc. congruence.
    + injection Hr as <- <- <-. congruence.
  - unfold flush_send in Hr. rewrite Hcl in Hr.
    destruct (_ <? _); injection Hr as <- <- <-; simpl in Hc; congruence.
  - injection Hr as <- <- <-. congruence.
  - rewrite Hcl in Hr. by injection Hr as <- <- <-.
Qed.

Lemma shutdown_reached n : forall s p, (rank p <= n)%nat ->
  threads s = [p] -> is_add p = false -> output_closed (asm s) = false -> done_closed (asm s) = true ->
  exists s', rtc disciplined s s' /\ output_closed (asm s') = true.
Proof.
  induction n as [|n IH]; intros s p Hn Hth Hp Hcl Hd; [destruct p as [|[]|[]| |]; simpl in Hn; lia|].
  destruct (loop_advances p (asm s) (hist s) Hp Hcl Hd) as (next & b & h & Hr & Hd' & Hnext).
  pose proof (step_thread s [] p [] 0 true next b h Hth Hr) as Hs.
  set (s1 := mk_system b ([] ++ next ++ []) (started s) h) in *.
  destruct Hnext as [Hc|(q & -> & Hq & Hlt & Hc)].
  - exists s1. split; [|done]. apply rtc_once. split; [done|]. intros _. unfold adds. simpl.
    rewrite app_nil_r. exact (closing_step 0 true p _ _ _ _ _ Hcl Hr Hc).
  - destruct (IH s1 q ltac:(lia) eq_refl Hq Hc Hd') as (s' & Hrun & Hc'). exists s'. split; [|done].
    eapply rtc_l; [|exact Hrun]. split; [done|]. intros _. unfold adds. simpl.
    rewrite filter_cons_False by (by rewrite Hq). done.
Qed.

(** C13: a clean shutdown.  If no [Add] is in progress when [Stop] is called and none
    starts afterwards, then no thread ever panics (no send on the closed channel,
    no double close), and once the channel is closed nothing is pending: the events
    added are, up to the order of batches, those dropped with a warning, those
    received and those in the channel.  And if the loop was started it can always
    reach that point. *)
Theorem batch_shutdown_clean cfg b s :
  NewBatchAssembler cfg = Some b -> rtc disciplined (system_of b) s ->
  (forall l p l' now pick, threads s = l ++ p :: l' -> run_thread now pick p (asm s) (hist s) <> Panic)
  /\ (output_closed (asm s) = true -> current (asm s) = [] /\ threads s = []
       /\ h_added (hist s) ≡ₚ concat (h_dropped (hist s)
            ++ (pb.events <$> h_received (hist s) ++ output (asm s))))
  /\ (started s = true -> done_closed (asm s) = true ->
       exists s', rtc disciplined s s' /\ output_closed (asm s') = true).
Proof.
  intros Hb Hr.
  assert (orderly s /\ stopped_quiet s /\ concat (h_taken (hist s)) ++ current (asm s) = h_added (hist s)
    /\ h_taken (hist s) ≡ₚ accounted s) as (Ho & Hq & Horder & Htaken) by (by eapply disciplined_inv).
  split_and!.
  - intros l p l' now pick Hth Hp. destruct (is_add p) eqn:Hadd.
    + pose proof (add_thread s l p l' Hth Hadd) as Hin.
      assert (output_closed (asm s) = true) as Hcl by (by eapply panic_closed).
      destruct (or_closed s Ho Hcl) as (_ & Hd & _). rewrite (Hq Hd) in Hin. by apply elem_of_nil in Hin.
    + destruct (loop_thread s l p l' Ho Hth Hadd) as (_ & Hcl & _).
      apply panic_closed in Hp. congruence.
  - intros Hcl. destruct (or_closed s Ho Hcl) as (Hst & Hd & Hcur).
    assert (threads s = []) as Hth.
    { pose proof (or_loops s Ho) as Hl. rewrite Hst, Hcl in Hl. simpl in Hl.
      apply no_threads; [by apply Hq|done]. }
    split; [done|]. split; [done|]. rewrite <- Horder, Hcur, app_nil_r, Htaken.
    unfold accounted. rewrite Hth. simpl. by rewrite app_nil_r, fmap_app.
  - intros Hst Hd. destruct (output_closed (asm s)) eqn:Hcl; [by exists s|].
    pose proof (or_loops s Ho) as Hl. rewrite Hst, Hcl in Hl. simpl in Hl. destruct Hl as [p Hl].
    destruct (only_loop s p (Hq Hd) Hl) as [Hth Hp]. by apply (shutdown_reached (rank p) s p).
Qed.

(** ** Running a schedule *)
Inductive action :=
  | ACall (evt : TaggedEvent) | AStart | AStop | AReceive | ARun (i : nat) (now : Z) (pick_done : bool).

Definition act (a : action) (s : system) : option system :=
  match a with
  | ACall evt => Some (mk_system (asm s) (threads s ++ [AddLock evt]) (started s) (hist s))
  | AStart => if started s || (flushInterval (asm s) <=? 0) then None else
      Some (mk_system (asm s) (threads s ++ [LoopSelect]) true (hist s))
  | AStop => if done_closed (asm s) then None else
      Some (mk_system (close_done (asm s)) (threads s) (started s) (hist s))
  | AReceive =>
      match output (asm s) with
      | [] => None
      | x :: rest => Some (mk_system (set_output rest (asm s)) (threads s) (started s)
          (mk_history (h_added (hist s)) (h_taken (hist s)) (h_dropped (hist s)) (h_received (hist s) ++ [x])))
      end
  | ARun i now pick =>
      p ← threads s !! i;
      match run_thread now pick p (asm s) (hist s) with
      | Panic => None
      | Ran next b h => Some (mk_system b (take i (threads s) ++ next ++ drop (S i) (threads s)) (started s) h)
      end
  end.

Lemma act_step a s s' : act a s = Some s' -> step s (Some s').
Proof.
  destruct a as [evt| | | |i now pick]; simpl.
  - intros [= <-]. constructor.
  - destruct (started s) eqn:E; [done|]. simpl. destruct (Z.leb_spec (flushInterval (asm s)) 0); [done|].
    intros [= <-]. by constructor.
  - destruct (done_closed (asm s)) eqn:E; [done|]. intros [= <-]. by constructor.
  - destruct (output (asm s)) as [|x rest] eqn:E; [done|]. intros [= <-]. by constructor.
  - destruct (threads s !! i) as [p|] eqn:Ei; simpl; [|done].
    destruct (run_thread now pick p (asm s) (hist s)) as [|next b h] eqn:Er; [done|]. intros [= <-].
    eapply step_thread; [|exact Er]. symmetry. by apply take_drop_middle.
Qed.

(** Every state on the way passes [check]. *)
Fixpoint schedule (check : system -> bool) (acts : list action) (s : system) : option system :=
  match acts with
  | [] => Some s
  | a :: acts => s' ← act a s; if check s' then schedule check acts s' else None
  end.

Lemma schedule_runs check (R : system -> system -> Prop) acts :
  (forall s s', step s (Some s') -> check s' = true -> R s s') ->
  forall s s', schedule check acts s = Some s' -> rtc R s s'.
Proof.
  intros HR. induction acts as [|a acts IH]; intros s s' H; simpl in H; [by simplify_eq|].
  destruct (act a s) as [s1|] eqn:Ea; simpl in H; [|done]. destruct (check s1) eqn:Ec; [|done].
  eapply rtc_l; [|by apply IH]. apply HR; [by eapply act_step|done].
Qed.

Definition quietb (s : system) : bool := negb (done_closed (asm s)) || bool_decide (length (adds s) = 0%nat).

Lemma quietb_ok s s' : step s (Some s') -> quietb s' = true -> disciplined s s'.
Proof.
  intros Hs Hq. split; [done|]. intros Hd. unfold quietb in Hq. rewrite Hd in Hq.
  apply bool_decide_eq_true_1 in Hq. by apply nil_length_inv.
Qed.

Definition atmost (size : nat) (s : system) : bool := bool_decide (length (adds s) <= size)%nat.

Lemma atmost_ok size s s' : step s (Some s') -> atmost size s' = true -> limited size s s'.
Proof. intros Hs Hq. split; [done|]. by apply bool_decide_eq_true_1 in Hq. Qed.

(** ** Witnesses *)
Definition miss (d : Z) : TaggedEvent :=
  mk_TaggedEvent (mk_RawEvent EventCacheMiss 7 100 (Some (CacheMissPayload d)))
    (mk_PodIdentity "default" "w-1" "c" "default/Pod/w" "n1").

Definition pairs_of : BatchAssemblerConfig := mk_BatchAssemblerConfig 2 0 "n1" 1.

Definition pair_assembler : BatchAssembler := mk_BatchAssembler 2 (1 * Second) "n1" [] [] 1 false false.

(** Two adds fill a batch, a third overlaps the flush: a batch of three; the
    channel holds one, the next is dropped, and shutdown sends the last event. *)
Definition demo_schedule : list action :=
  [ACall (miss 1); ARun 0 0 false; ACall (miss 2); ARun 0 0 false; ACall (miss 3); ARun 1 0 false;
   ARun 0 0 false; ARun 0 10 false; AStart; ARun 0 0 false; ACall (miss 4); ARun 1 0 false;
   ARun 0 0 false; ARun 0 0 false; ARun 0 20 false; AReceive; ACall (miss 5); ARun 1 0 false; AStop;
   ARun 0 0 true; ARun 0 0 false; ARun 0 30 false; ARun 0 0 false].

Definition demo_end : system := default (system_of pair_assembler) (schedule quietb demo_schedule (system_of pair_assembler)).

Lemma demo_quiet : schedule quietb demo_schedule (system_of pair_assembler) = Some demo_end.
Proof. vm_compute. reflexivity. Qed.

Lemma demo_two : schedule (atmost 2) demo_schedule (system_of pair_assembler) = Some demo_end.
Proof. vm_compute. reflexivity. Qed.

Lemma batches_conserved_witness :
  concat (h_taken (hist demo_end)) ++ current (asm demo_end) = h_added (hist demo_end)
  /\ length <$> h_taken (hist demo_end) = [3%nat; 1%nat; 1%nat].
Proof.
  split; [|vm_compute; reflexivity].
  exact (proj1 (batches_conserved pairs_of pair_assembler 2 demo_end eq_refl ltac:(lia)
    (schedule_runs _ _ demo_schedule (atmost_ok 2) _ _ demo_two))).
Defined.

Lemma batch_shutdown_clean_witness :
  output_closed (asm demo_end) = true /\ current (asm demo_end) = [] /\ threads demo_end = [].
Proof.
  destruct (batch_shutdown_clean pairs_of pair_assembler demo_end eq_refl
    (schedule_runs _ _ demo_schedule quietb_ok _ _ demo_quiet)) as (_ & H & _).
  assert (output_closed (asm demo_end) = true) as Hc by (vm_compute; reflexivity).
  split; [exact Hc|]. exact (conj (proj1 (H Hc)) (proj1 (proj2 (H Hc)))).
Defined.

(** The [Add] has taken the full batch when [Stop] is called; the loop closes the
    channel before the [Add] sends. *)
Definition race_config : BatchAssemblerConfig := mk_BatchAssemblerConfig 1 0 "n1" 0.
Definition race_assembler : BatchAssembler := mk_BatchAssembler 1 (1 * Second) "n1" [] [] 16 false false.
Definition race_schedule : list action :=
  [AStart; ACall (miss 1); ARun 1 0 false; ARun 1 0 false; AStop; ARun 0 0 true; ARun 0 0 false; ARun 0 0 false].

Definition race_end : system :=
  default (system_of race_assembler) (schedule (fun _ => true) race_schedule (system_of race_assembler)).

Lemma race_runs : schedule (fun _ => true) race_schedule (system_of race_assembler) = Some race_end.
Proof. vm_compute. reflexivity. Qed.

(** C40: [Stop] during an [Add] can crash the process: there is a run with one [Add],
    called before [Stop], in which the loop closes the channel and the [Add] then
    sends on it. *)
Theorem stop_during_add_panics :
  exists b s p, NewBatchAssembler race_config = Some b
    /\ rtc (fun s s' => step s (Some s')) (system_of b) s
    /\ length (h_added (hist s)) = 1%nat /\ threads s = [p] /\ is_add p = true
    /\ run_thread 0 false p (asm s) (hist s) = Panic /\ step s None.
Proof.
  exists race_assembler, race_end, (FlushSend AddReturns [taggedEventToProto (miss 1)]).
  split; [reflexivity|].
  split; [exact (schedule_runs _ _ race_schedule (fun s s' H _ => H) _ _ race_runs)|].
  split_and!; try (vm_compute; reflexivity).
  apply (step_panic _ [] (FlushSend AddReturns [taggedEventToProto (miss 1)]) [] 0 false);
    vm_compute; reflexivity.
Qed.
