(* ===== verification/Collector.v ===== *)
(** * cmd/collector/main.go: from ring buffer records to batches

    The loop of [main]: read a record, parse the header, resolve the cgroup to a
    workload, append to the batch, send the batch when it is full or a second
    old.  The ring buffer reader, the clock, the resolver and the stream are
    outside: an iteration is given what they returned. *)
From S2P Require Import Prelude Telemetry Window.
#[local] Open Scope string_scope.
#[local] Open Scope list_scope.
#[local] Open Scope Z_scope.

(** The resolver, when it could be initialised: [Resolve(cgroupID)]. *)
Definition resolver := option (Z -> string).

Definition resolve (r : resolver) (cgroupID : Z) : string :=
  match r with Some f => f cgroupID | None => "" end.

Definition max_batch : Z := 100.

(** The event an iteration builds, or [None] where it [continue]s. *)
Definition parse_sample (r : resolver) (now : Time) (raw : list Z) : option pb.TelemetryEvent :=
  if Z.of_nat (length raw) <? 24 then None else
  let eventType := get_le 1 0 raw in
  let cgroupID := get_le 8 8 raw in
  let wk := resolve r cgroupID in
  if bool_decide (wk = "") then None else
  let payload :=
    if 32 <=? Z.of_nat (length raw) then
      let v := get_le 8 24 raw in
      if eventType =? pb.EVENT_TYPE_CACHE_MISS then Some (pb.CacheMiss v)
      else if eventType =? pb.EVENT_TYPE_LOCK_CONTENTION then Some (pb.LockContention 0 (i64! v))
      else None
    else None in
  Some (pb.mk_TelemetryEvent eventType wk (UnixNano now) payload).

(** What the surroundings gave one iteration; the resolver's map may have been
    replaced since the last one. *)
Inductive input :=
  | ReadFailed (ctx_done : bool)
  | Sample (raw : list Z) (r : resolver) (stamp since flush_stamp flushed : Time) (send_ok reopen_ok : bool).

Record collector := mk_collector {
  c_events : list pb.TelemetryEvent;           (* batch.Events *)
  c_lastFlush : Time;
  c_stream_open : bool;                        (* Send has not failed on this stream *)
  c_out : list (pb.TelemetryBatch * bool);     (* the batches passed to Send, and whether it took them *)
  c_running : bool }.

Definition collector_start (now : Time) : collector := mk_collector [] now true [] true.

Definition flush_due (events : list pb.TelemetryEvent) (since lastFlush : Time) : bool :=
  (max_batch <=? Z.of_nat (length events)) || (Second <? time_Sub since lastFlush).

Lemma filter_all {A} (P : A -> Prop) `{!forall x, Decision (P x)} l : Forall P l -> filter P l = l.
Proof. induction 1 as [|x l Hx _ IH]; [done|]. by rewrite filter_cons_True, IH. Qed.

Section collector.
Context (nodeName : string).

Definition step (i : input) (c : collector) : collector :=
  if negb (c_running c) then c else
  match i with
  | ReadFailed ctx_done =>
      if ctx_done
      then mk_collector (c_events c) (c_lastFlush c) (c_stream_open c) (c_out c) false
      else c
  | Sample raw r stamp since flush_stamp flushed send_ok reopen_ok =>
      match parse_sample r stamp raw with
      | None => c
      | Some evt =>
          let events := c_events c ++ [evt] in
          if flush_due events since (c_lastFlush c) then
            let batch := pb.mk_TelemetryBatch nodeName (UnixNano flush_stamp) events in
            let sent := send_ok && c_stream_open c in
            mk_collector [] flushed (if sent then true else reopen_ok) (c_out c ++ [(batch, sent)]) true
          else mk_collector events (c_lastFlush c) (c_stream_open c) (c_out c) true
      end
  end.

Definition run (ins : list input) (c : collector) : collector := foldl (fun c i => step i c) c ins.

(** ** What the loop sees and does *)

(** The events of the samples before the shutdown. *)
Fixpoint parsed (ins : list input) : list pb.TelemetryEvent :=
  match ins with
  | [] => []
  | ReadFailed true :: _ => []
  | ReadFailed false :: ins => parsed ins
  | Sample raw r stamp _ _ _ _ _ :: ins =>
      match parse_sample r stamp raw with None => parsed ins | Some e => e :: parsed ins end
  end.

Definition all_events (c : collector) : list pb.TelemetryEvent :=
  concat (pb.events <$> (c_out c).*1) ++ c_events c.

Definition batch_ok (b : pb.TelemetryBatch) : Prop :=
  pb.node_name b = nodeName /\ 1 <= Z.of_nat (length (pb.events b)) <= max_batch.

Definition collector_ok (c : collector) : Prop :=
  Forall batch_ok (c_out c).*1 /\ Z.of_nat (length (c_events c)) < max_batch.

Lemma all_events_flush c e b sent open :
  pb.events b = c_events c ++ [e] ->
  all_events (mk_collector [] open sent (c_out c ++ [(b, sent)]) true) = all_events c ++ [e].
Proof.
  intros Hb. unfold all_events. simpl. rewrite !fmap_app, concat_app. simpl.
  by rewrite Hb, !app_nil_r, app_assoc.
Qed.

Lemma stopped_run ins c : c_running c = false -> run ins c = c.
Proof. intros H. induction ins as [|i ins IH]; [done|]. simpl. unfold step. rewrite H. apply IH. Qed.

Lemma run_all_events ins : forall c,
  c_running c = true -> all_events (run ins c) = all_events c ++ parsed ins.
Proof.
  induction ins as [|i ins IH]; intros c Hc; [by rewrite app_nil_r|].
  change (run (i :: ins) c) with (run ins (step i c)). unfold step. rewrite Hc. simpl negb. cbn iota.
  destruct i as [[]|raw r stamp since fs fl ok re]; simpl parsed.
  - rewrite stopped_run by done. by rewrite app_nil_r.
  - by apply IH.
  - destruct (parse_sample r stamp raw) as [e|]; [|by apply IH].
    assert (forall c', c_running c' = true -> all_events c' = all_events c ++ [e] ->
      all_events (run ins c') = all_events c ++ e :: parsed ins) as Hgen.
    { intros c' Hr Ha. rewrite IH, Ha by done. by rewrite <- app_assoc. }
    destruct (flush_due _ _ _); apply Hgen; try done.
    + unfold all_events. simpl. rewrite !fmap_app, concat_app. simpl.
      by rewrite !app_nil_r, app_assoc.
    + unfold all_events. simpl. by rewrite app_assoc.
Qed.

Lemma step_ok i c : collector_ok c -> collector_ok (step i c).
Proof.
  intros [Hb Hl]. unfold step. destruct (negb (c_running c)); [done|].
  destruct i as [[]|raw r stamp since fs fl ok re]; [done|done|].
  destruct (parse_sample r stamp raw) as [e|]; [|done].
  assert (Z.of_nat (length (c_events c ++ [e])) = Z.of_nat (length (c_events c)) + 1) as El
    by (rewrite length_app; simpl; lia).
  destruct (flush_due (c_events c ++ [e]) since (c_lastFlush c)) eqn:Ef.
  - split; [|by simpl]. simpl. rewrite fmap_app. apply Forall_app. split; [done|].
    apply Forall_singleton. split; [done|]. simpl. lia.
  - split; [done|]. simpl. apply orb_false_iff in Ef as [?%Z.leb_gt _]. lia.
Qed.

Lemma run_ok ins c : collector_ok c -> collector_ok (run ins c).
Proof. revert c. induction ins as [|i ins IH]; intros c Hc; [done|]. apply IH, step_ok, Hc. Qed.

Lemma start_ok now : collector_ok (collector_start now).
Proof. split; [constructor|done]. Qed.

(** C22: the collector neither loses nor repeats nor reorders what it parses: the
    batches it passed to [Send], in order, followed by the pending one, are
    exactly the parsed events; every batch carries the node's name and between 1
    and 100 events, and the pending one has fewer than 100. *)
Theorem collector_conserves now ins :
  let c := run ins (collector_start now) in
  concat (pb.events <$> (c_out c).*1) ++ c_events c = parsed ins
  /\ Forall batch_ok (c_out c).*1 /\ Z.of_nat (length (c_events c)) < max_batch.
Proof.
  intros c. split; [exact (run_all_events ins (collector_start now) eq_refl)|].
  exact (run_ok ins _ (start_ok now)).
Qed.

(** An iteration in which the stream takes what it is sent. *)
Definition sends (i : input) : Prop :=
  match i with Sample _ _ _ _ _ _ ok _ => ok = true | ReadFailed _ => True end.

Lemma run_all_sent ins : forall c,
  Forall sends ins -> c_stream_open c = true -> Forall (fun o => snd o = true) (c_out c) ->
  Forall (fun o => snd o = true) (c_out (run ins c)).
Proof.
  induction ins as [|i ins IH]; intros c Hs Ho Hc; [done|]. apply Forall_cons in Hs as [Hi Hs].
  change (run (i :: ins) c) with (run ins (step i c)).
  assert (c_stream_open (step i c) = true /\ Forall (fun o => snd o = true) (c_out (step i c))) as [? ?].
  { unfold step. destruct (negb (c_running c)); [done|].
    destruct i as [[]|raw r stamp since fs fl ok re]; [done|done|].
    destruct (parse_sample r stamp raw) as [e|]; [|done]. simpl in Hi. subst ok. rewrite Ho.
    destruct (flush_due _ _ _); simpl; [|done]. split; [done|]. apply Forall_app. by repeat constructor. }
  by apply IH.
Qed.
End collector.
