(* ===== verification/CollectorMain.v ===== *)
(** * cmd/collector/main.go: what the collector opens and closes

    [main] around its loop: loading the programs, attaching the probes, the
    cache-miss counters ([attachCacheMissCounters]), the connections, and the
    deferred calls that undo them.  The system is an interface without laws: any
    call may fail.  The loop itself is in Collector.v. *)
From S2P Require Import Prelude.
#[local] Open Scope string_scope.
#[local] Open Scope list_scope.
#[local] Open Scope Z_scope.

(** ** The system *)

(** The calls of [main] that can fail.  The programs go by their names in [objs]. *)
Inductive action :=
  | LoadBpf
  | SetSamplePeriod (period : Z)
  | LoadAndAssign
  | Tracepoint (group name program : string)
  | PerfEventOpen (period cpu : Z)     (* the LLC-miss counter of one CPU, disabled *)
  | IoctlSetBpf (fd : Z) (program : string)
  | IoctlEnable (fd : Z)
  | NewReader
  | NewResolver (nodeName : string)
  | Dial (addr : string)
  | StreamTelemetry.

(** What has to be closed. *)
Inductive resource := Objects | Link (group name : string) | Fd (fd : Z) | Reader | Conn.

#[export] Instance resource_eq_dec : EqDecision resource.
Proof. solve_decision. Defined.

Class System (W : Type) := {
  attempt : action -> W -> W * option string;
  perf_event_open : Z -> Z -> W -> W * (Z + string);   (* [PerfEventOpen], which returns a descriptor *)
  close : resource -> W -> W }.

(** ** [main] *)

(** A deferred call: one [Close], or the loop that closes the counters. *)
Inductive deferred := DeferClose (r : resource) | DeferFds (fds : list Z).

(** The code of [main] runs on the system and the stack of deferred calls, last
    first; [inr a] is [os.Exit(1)] after the failure of [a]. *)
Definition M (W A : Type) : Type := W * list deferred -> (W * list deferred) * (A + action).

#[export] Instance M_ret {W} : MRet (M W) := fun A x s => (s, inl x).
#[export] Instance M_bind {W} : MBind (M W) := fun A B f m s =>
  let '(s, r) := m s in match r with inl x => f x s | inr a => (s, inr a) end.

Section main.
Context {W : Type} `{Sys : System W}.

(** A call that may fail; a call whose failure ends the program. *)
Definition try (a : action) : M W (option string) := fun '(w, d) =>
  let '(w, err) := attempt a w in ((w, d), inl err).

Definition exit_1 {A} (a : action) : M W A := fun s => (s, inr a).

Definition must (a : action) : M W unit :=
  err ← try a; match err with None => mret () | Some _ => exit_1 a end.

Definition defer (c : deferred) : M W unit := fun '(w, d) => ((w, c :: d), inl ()).

Definition close_fds (fds : list Z) (w : W) : W := foldl (fun w fd => close (Fd fd) w) w fds.

(** The loop of [attachCacheMissCounters]. *)
Fixpoint attach_loop (program : string) (period : Z) (cpus fds : list Z) (w : W) : W * (list Z * option string) :=
  match cpus with
  | [] => (w, (fds, None))
  | cpu :: cpus =>
      let '(w, r) := perf_event_open period cpu w in
      match r with
      | inr err => (close_fds fds w, ([], Some err))
      | inl fd =>
          let '(w, err) := attempt (IoctlSetBpf fd program) w in
          match err with
          | Some err => (close (Fd fd) w, (fds, Some err))
          | None =>
              let '(w, err) := attempt (IoctlEnable fd) w in
              match err with
              | Some err => (close (Fd fd) w, (fds, Some err))
              | None => attach_loop program period cpus (fds ++ [fd]) w
              end
          end
      end
  end.

Definition attachCacheMissCounters (numCPU : Z) (program : string) (period : Z) : W -> W * (list Z * option string) :=
  attach_loop program period (seqZ 0 numCPU) [].

Definition attach_counters (numCPU period : Z) : M W (list Z) := fun '(w, d) =>
  let '(w, (fds, _)) := attachCacheMissCounters numCPU "HandleCacheMiss" period w in ((w, d), inl fds).

(** The flags. *)
Record flags := mk_flags { aggregatorAddr : string; nodeName : string; samplePeriod : Z }.
Definition default_flags : flags := mk_flags "localhost:50051" "worker-node-01" 10000.

(** The tracepoints of lock contention, which older kernels do not have. *)
Definition attach_lock_probes : M W unit :=
  err ← try (Tracepoint "lock" "contention_begin" "HandleContentionBegin");
  match err with
  | Some _ => mret ()
  | None =>
      _ ← defer (DeferClose (Link "lock" "contention_begin"));
      err ← try (Tracepoint "lock" "contention_end" "HandleContentionEnd");
      match err with
      | Some _ => mret ()
      | None => defer (DeferClose (Link "lock" "contention_end"))
      end
  end.

(** Up to the loop; the result says whether there is a cgroup resolver. *)
Definition setup (numCPU : Z) (f : flags) : M W bool :=
  _ ← must LoadBpf;
  _ ← must (SetSamplePeriod (samplePeriod f));
  _ ← must LoadAndAssign;
  _ ← defer (DeferClose Objects);
  _ ← must (Tracepoint "exceptions" "page_fault_user" "HandlePageFault");
  _ ← defer (DeferClose (Link "exceptions" "page_fault_user"));
  _ ← must (Tracepoint "sched" "sched_switch" "HandleSchedSwitch");
  _ ← defer (DeferClose (Link "sched" "sched_switch"));
  _ ← attach_lock_probes;
  fds ← attach_counters numCPU (samplePeriod f);
  _ ← defer (DeferFds fds);
  _ ← must NewReader;
  _ ← defer (DeferClose Reader);
  errRes ← try (NewResolver (nodeName f));
  _ ← must (Dial (aggregatorAddr f));
  _ ← defer (DeferClose Conn);
  _ ← must StreamTelemetry;
  mret (match errRes with None => true | Some _ => false end).

Definition run_deferred (w : W) (c : deferred) : W :=
  match c with DeferClose r => close r w | DeferFds fds => close_fds fds w end.

(** The goroutine that waits for the signal closes the reader, which ends the
    loop; then the deferred calls run. *)
Definition shutdown (w : W) (d : list deferred) : W := foldl run_deferred (close Reader w) d.
End main.

(** ** The accounts of resources *)
Definition yields (a : action) : list resource :=
  match a with
  | LoadAndAssign => [Objects]
  | Tracepoint group name _ => [Link group name]
  | NewReader => [Reader]
  | Dial _ => [Conn]
  | _ => []
  end.

Inductive mark := Acquired (r : resource) | Released (r : resource).

(** Any system, with a record of what is acquired and released. *)
#[export] Instance recorded_system {W} `{System W} : System (W * list mark) := {
  attempt a '(w, t) :=
    let '(w, err) := attempt a w in
    ((w, match err with None => t ++ (Acquired <$> yields a) | Some _ => t end), err);
  perf_event_open period cpu '(w, t) :=
    let '(w, r) := perf_event_open period cpu w in
    ((w, match r with inl fd => t ++ [Acquired (Fd fd)] | inr _ => t end), r);
  close r '(w, t) := (close r w, t ++ [Released r]) }.

Definition one (r r' : resource) : Z := if bool_decide (r' = r) then 1 else 0.

Fixpoint occurrences (r : resource) (l : list resource) : Z :=
  match l with [] => 0 | r' :: l => one r r' + occurrences r l end.

(** How often [r] has been acquired, less how often it has been released. *)
Fixpoint balance (r : resource) (t : list mark) : Z :=
  match t with
  | [] => 0
  | Acquired r' :: t => one r r' + balance r t
  | Released r' :: t => - one r r' + balance r t
  end.

(** What a deferred call will release. *)
Definition releases (c : deferred) : list resource :=
  match c with DeferClose r => [r] | DeferFds fds => Fd <$> fds end.

Definition held (r : resource) (d : list deferred) : Z := occurrences r (d ≫= releases).

(** The calls whose failure ends the program. *)
Definition required (a : action) : Prop :=
  match a with
  | Tracepoint group _ _ => group <> "lock"
  | PerfEventOpen _ _ | IoctlSetBpf _ _ | IoctlEnable _ | NewResolver _ => False
  | _ => True
  end.

Lemma occurrences_app r l l' : occurrences r (l ++ l') = occurrences r l + occurrences r l'.
Proof. induction l as [|x l IH]; simpl; lia. Qed.

Lemma balance_app r t t' : balance r (t ++ t') = balance r t + balance r t'.
Proof. induction t as [|[x|x] t IH]; simpl; lia. Qed.

Lemma balance_acquired r l : balance r (Acquired <$> l) = occurrences r l.
Proof. induction l as [|x l IH]; csimpl; [done|]. by rewrite IH. Qed.

Lemma held_cons r c d : held r (c :: d) = occurrences r (releases c) + held r d.
Proof. unfold held. simpl. apply occurrences_app. Qed.

Create Rewrite HintDb accounts.
#[export] Hint Rewrite occurrences_app balance_app balance_acquired held_cons @fmap_app : accounts.
Ltac accounts := autorewrite with accounts; csimpl; lia.

Section accounts.
Context {W : Type} `{Sys : System W}.
Abbreviation W' := (W * list mark)%type.
Implicit Types (t : list mark) (d : list deferred).

(** [owns P m Q]: whatever the system does, [m], given charge of the resources
    [P], leaves in charge of its result those of [Q], every other change being a
    deferred call added or a release; if it ends the program, that is after the
    failure of a required call and nothing is left in its charge. *)
Definition owns {A} (P : list resource) (m : M W' A) (Q : A -> list resource) : Prop :=
  forall w t d, exists w' t' d' res, m ((w, t), d) = (((w', t'), d'), res)
    /\ match res with
       | inl x => forall r, balance r t' - held r d' - occurrences r (Q x) = balance r t - held r d - occurrences r P
       | inr a => required a
       end.

Lemma owns_ret {A} (x : A) Q : owns (Q x) (mret x) Q.
Proof using. intros w t d. by exists w, t, d, (inl x). Qed.

Lemma owns_bind {A B} P (m : M W' A) Q (f : A -> M W' B) R :
  owns P m Q -> (forall x, owns (Q x) (f x) R) -> owns P (m ≫= f) R.
Proof using.
  intros Hm Hf w t d. destruct (Hm w t d) as (w1 & t1 & d1 & [x|a] & E & H1).
  - destruct (Hf x w1 t1 d1) as (w2 & t2 & d2 & res & E2 & H2).
    exists w2, t2, d2, res. split; [unfold mbind, M_bind; by rewrite E|].
    destruct res; [|done]. intros r. by rewrite H2, H1.
  - exists w1, t1, d1, (inr a). split; [unfold mbind, M_bind; by rewrite E|done].
Qed.

Lemma owns_try a : owns [] (try a) (fun err => match err with None => yields a | Some _ => [] end).
Proof.
  intros w t d. unfold try. cbn [attempt recorded_system]. destruct (attempt a w) as [w' err].
  do 4 eexists. split; [reflexivity|]. intros r. destruct err; accounts.
Qed.

Lemma owns_must a : required a -> owns [] (must a) (fun _ => yields a).
Proof.
  intros Ha. eapply owns_bind; [apply owns_try|]. intros [err|].
  - intros w t d. by exists w, t, d, (inr a).
  - apply (owns_ret tt (fun _ => yields a)).
Qed.

Lemma owns_defer c : owns (releases c) (defer c) (fun _ => []).
Proof. intros w t d. do 4 eexists. split; [reflexivity|]. intros r. accounts. Qed.

Lemma balance_close_fds fds : forall (w : W) t, exists w' t',
  close_fds fds (w, t) = (w', t') /\ forall r, balance r t' = balance r t - occurrences r (Fd <$> fds).
Proof.
  induction fds as [|fd fds IH]; intros w t; [exists w, t; split; [done|intros r; simpl; lia]|].
  destruct (IH (close (Fd fd) w) (t ++ [Released (Fd fd)])) as (w' & t' & E & H).
  exists w', t'. split; [exact E|]. intros r. rewrite H. accounts.
Qed.

(** Every counter that was opened is closed or returned. *)
Lemma attach_loop_accounts program period cpus : forall fds (w : W) t, exists w' t' fds' err,
  attach_loop program period cpus fds (w, t) = ((w', t'), (fds', err))
  /\ forall r, balance r t' - occurrences r (Fd <$> fds') = balance r t - occurrences r (Fd <$> fds).
Proof.
  induction cpus as [|cpu cpus IH]; intros fds w t; simpl; [eauto 8|].
  destruct (perf_event_open period cpu w) as [w1 [fd|err]].
  2: { destruct (balance_close_fds fds w1 t) as (w' & t' & -> & H). do 4 eexists. split; [reflexivity|].
       intros r. rewrite H. accounts. }
  destruct (attempt (IoctlSetBpf fd program) w1) as [w2 [err|]]; simpl.
  { do 4 eexists. split; [reflexivity|]. intros r. accounts. }
  destruct (attempt (IoctlEnable fd) w2) as [w3 [err|]]; simpl.
  { do 4 eexists. split; [reflexivity|]. intros r. accounts. }
  destruct (IH (fds ++ [fd]) w3 (((t ++ [Acquired (Fd fd)]) ++ []) ++ [])) as (w' & t' & fds' & err & E & H).
  do 4 eexists. split; [exact E|]. intros r. rewrite H. accounts.
Qed.

Lemma owns_attach_counters numCPU period : owns [] (attach_counters numCPU period) (fun fds => Fd <$> fds).
Proof.
  intros w t d. unfold attach_counters, attachCacheMissCounters.
  destruct (attach_loop_accounts "HandleCacheMiss" period (seqZ 0 numCPU) [] w t) as (w' & t' & fds & err & -> & H).
  do 4 eexists. split; [reflexivity|]. intros r. specialize (H r). revert H. csimpl. lia.
Qed.

Lemma owns_attach_lock_probes : owns [] attach_lock_probes (fun _ => []).
Proof.
  eapply owns_bind; [apply owns_try|]. intros [err|]; [apply (owns_ret () (fun _ => []))|].
  eapply owns_bind; [apply (owns_defer (DeferClose _))|]. intros ?; cbn beta.
  eapply owns_bind; [apply owns_try|]. intros [err|]; [apply (owns_ret () (fun _ => []))|].
  apply (owns_defer (DeferClose _)).
Qed.

Ltac own_must := eapply owns_bind; [by apply owns_must|intros ?; cbn [yields]].
Ltac own_defer c := eapply owns_bind; [apply (owns_defer c)|intros ?; cbn beta].

Lemma owns_setup numCPU f : owns [] (setup numCPU f) (fun _ => []).
Proof.
  unfold setup. own_must. own_must. own_must. own_defer (DeferClose Objects).
  own_must. own_defer (DeferClose (Link "exceptions" "page_fault_user")).
  own_must. own_defer (DeferClose (Link "sched" "sched_switch")).
  eapply owns_bind; [apply owns_attach_lock_probes|intros ?; cbn beta].
  eapply owns_bind; [apply owns_attach_counters|intros fds]. own_defer (DeferFds fds).
  own_must. own_defer (DeferClose Reader).
  eapply owns_bind; [apply owns_try|intros errRes; cbn beta].
  replace (match errRes with None => yields (NewResolver (nodeName f)) | Some _ => [] end)
    with (@nil resource) by (by destruct errRes).
  own_must. own_defer (DeferClose Conn).
  own_must.
  apply (owns_ret _ (fun _ => [])).
Qed.

Lemma balance_shutdown d : forall (w : W) t, exists w' t',
  foldl run_deferred (w, t) d = (w', t') /\ forall r, balance r t' = balance r t - held r d.
Proof.
  induction d as [|c d IH]; intros w t; [exists w, t; split; [done|intros r; unfold held; simpl; lia]|].
  assert (exists w1 t1, run_deferred (w, t) c = (w1, t1)
    /\ forall r, balance r t1 = balance r t - occurrences r (releases c)) as (w1 & t1 & E1 & H1).
  { destruct c as [r0|fds]; simpl; [|apply balance_close_fds].
    do 2 eexists. split; [reflexivity|]. intros r. accounts. }
  destruct (IH w1 t1) as (w' & t' & E & H). exists w', t'. simpl. rewrite E1. split; [done|].
  intros r. rewrite H, H1, held_cons. lia.
Qed.

(** C23: the collector gives back what it takes, and only what it cannot do without
    stops it.  Whatever the system answers to any call, [main] either ends with
    status 1, after the failure of a call that is not a lock-contention probe, a
    cache-miss counter or the cgroup resolver; or it reaches its loop, and when it
    is shut down it has closed each thing it acquired (loaded programs, probes,
    every counter it opened, the connection) exactly as often as it acquired it,
    and the ring buffer reader, closed to end the loop, once more. *)
Theorem collector_releases_everything numCPU f (w : W) :
  exists w1 t1 d res, setup numCPU f ((w, []), []) = (((w1, t1), d), res)
  /\ match res with
     | inr a => required a
     | inl _ => exists w2 t2, shutdown (w1, t1) d = (w2, t2)
         /\ forall r, balance r t2 = if bool_decide (r = Reader) then -1 else 0
     end.
Proof.
  destruct (owns_setup numCPU f w [] []) as (w1 & t1 & d & res & E & H).
  exists w1, t1, d, res. split; [done|]. destruct res as [b|a]; [|done].
  destruct (balance_shutdown d (close Reader w1) (t1 ++ [Released Reader])) as (w2 & t2 & E2 & H2).
  exists w2, t2. split; [exact E2|]. intros r. rewrite H2, balance_app. specialize (H r).
  cbn [occurrences balance] in *. change (held r []) with 0 in H. unfold one.
  destruct (decide (r = Reader)) as [->|Hne].
  - rewrite !bool_decide_true by done. lia.
  - rewrite !bool_decide_false by congruence. lia.
Qed.

(** When all the calls of [attachCacheMissCounters] succeed there is one counter
    per CPU. *)
Lemma attach_loop_all program period cpus : forall fds (w w' : W) fds',
  attach_loop program period cpus fds w = (w', (fds', None)) -> length fds' = (length fds + length cpus)%nat.
Proof.
  induction cpus as [|cpu cpus IH]; intros fds w w' fds'; simpl; [intros [= _ <-]; lia|].
  destruct (perf_event_open period cpu w) as [w1 [fd|err]]; [|done].
  destruct (attempt (IoctlSetBpf fd program) w1) as [w2 [err|]]; [done|].
  destruct (attempt (IoctlEnable fd) w2) as [w3 [err|]]; [done|].
  intros ->%IH. rewrite length_app. simpl. lia.
Qed.
End accounts.

(** ** A run: no lock probes, and only two of three counters *)
#[export] Instance old_kernel : System nat := {
  attempt a w := (w, match a with
    | Tracepoint group _ _ => if bool_decide (group = "lock") then Some "no such file or directory" else None
    | IoctlEnable fd => if bool_decide (fd = 12) then Some "no space left on device" else None
    | _ => None end);
  perf_event_open _ _ w := (S w, inl (Z.of_nat w));
  close _ w := w }.

Example old_kernel_run :
  exists d, snd (setup 3 default_flags ((10%nat, []), [])) = inl true
    /\ snd (fst (setup 3 default_flags ((10%nat, []), []))) = d /\ (d ≫= releases)
      = [Conn; Reader; Fd 10; Fd 11; Link "sched" "sched_switch"; Link "exceptions" "page_fault_user"; Objects].
Proof. eexists. split; [reflexivity|]. split; reflexivity. Qed.
