(* ===== verification/Aggregator.v ===== *)
(** * cmd/aggregator/main.go: ingestion and queries

    [StreamTelemetry], the query handlers and the HTTP handlers that touch
    profiles, written against the store interface (ProfileStore.v).  Each call
    of [time.Now()] inside a call is given its reading: [tc] when a new profile
    is created, [tr] when the recording method runs. *)
From S2P Require Import Prelude Float64 Window ProfileStore Telemetry.
#[local] Open Scope string_scope.
#[local] Open Scope list_scope.
#[local] Open Scope Z_scope.

Section handlers.
Context {S : Type} `{PS : ProfileStore S}.

(** The recording method the switch of [StreamTelemetry] calls, if any. *)
Definition event_op (nodeName : string) (evt : pb.TelemetryEvent) : option win_op :=
  if pb.event_type evt =? pb.EVENT_TYPE_PAGE_FAULT then Some (OpRecord RPageFault nodeName)
  else if pb.event_type evt =? pb.EVENT_TYPE_CACHE_MISS then
    match pb.GetCacheMiss evt with
    | Some delta => Some (OpRecord (RCacheMiss (i64! delta)) nodeName)
    | None => None
    end
  else if pb.event_type evt =? pb.EVENT_TYPE_LOCK_CONTENTION then
    match pb.GetLockContention evt with
    | Some (_, duration) => Some (OpRecord (RLockContention duration) nodeName)
    | None => None
    end
  else if pb.event_type evt =? pb.EVENT_TYPE_CONTEXT_SWITCH then Some (OpRecord RCtxSwitch nodeName)
  else None.

(** The loop body of [StreamTelemetry]. *)
Definition ingest_event (tc tr : Time) (nodeName : string) (evt : pb.TelemetryEvent) (s : S) : option S :=
  if bool_decide (pb.workload_key evt = "") then Some s else
  let '(s, wp) := ps_GetOrCreate tc (pb.workload_key evt) s in
  match event_op nodeName evt with
  | Some op => ps_method wp tr op s
  | None => Some s
  end.

(** One batch, each event with its two clock readings; the ack echoes the batch
    time. *)
Fixpoint ingest_events (nodeName : string) (evts : list (Time * Time * pb.TelemetryEvent)) (s : S) : option S :=
  match evts with
  | [] => Some s
  | (tc, tr, evt) :: evts => s ← ingest_event tc tr nodeName evt s; ingest_events nodeName evts s
  end.

Definition ack (batch : pb.TelemetryBatch) : Z := pb.batch_timestamp_ns batch.

(** [clock i] gives the readings for the [i]-th event. *)
Definition ingest_batch (clock : nat -> Time * Time) (batch : pb.TelemetryBatch) (s : S) : option (S * Z) :=
  s ← ingest_events (pb.node_name batch) (imap (fun i evt => (clock i, evt)) (pb.events batch)) s;
  Some (s, ack batch).

(** [/api/simulate-events] and [/api/reset-profile], after the request is decoded.
    The first also marks its key for the autoscaler ([simulatedKeys]). *)
Record SimulateReq := mk_SimulateReq {
  sim_WorkloadKey : string; sim_NodeName : string; sim_PageFaults : Z; sim_CacheMisses : Z;
  sim_LockNs : Z; sim_CtxSwitches : Z }.

Definition simulate_events (tc tr : Time) (req : SimulateReq) (s : S) : option S :=
  let '(s, wp) := ps_GetOrCreate tc (sim_WorkloadKey req) s in
  ps_method wp tr (OpRecord (RBulk (sim_PageFaults req) (sim_CacheMisses req) (sim_CtxSwitches req)
                               (sim_LockNs req)) (sim_NodeName req)) s.

Definition markSimulated (key : string) (keys : gset string) : gset string := {[key]} ∪ keys.

Definition api_simulate_events (tc tr : Time) (req : SimulateReq) (keys : gset string) (s : S) :
  option (gset string * S) :=
  s' ← simulate_events tc tr req s; Some (markSimulated (sim_WorkloadKey req) keys, s').

Definition reset_profile (tc tr : Time) (key : string) (s : S) : option S :=
  let '(s, wp) := ps_GetOrCreate tc key s in ps_method wp tr OpReset s.

Record pb_RuntimeProfile := mk_pb_RuntimeProfile {
  pb_WorkloadKey : string; pb_PageFaultRate : f64; pb_CacheMissRate : f64;
  pb_LockContentionRatio : f64; pb_ContextSwitchRate : f64; pb_SampleCount : Z;
  pb_WindowStartNs : Z; pb_WindowEndNs : Z; pb_Confidence : Z }.

Definition profileToProto (p : RuntimeProfile) : pb_RuntimeProfile :=
  mk_pb_RuntimeProfile (WorkloadKey p) (PageFaultRate p) (CacheMissRate p) (LockContentionRatio p)
    (ContextSwitchRate p) (SampleCount p) (UnixNano (WindowStart p)) (UnixNano (WindowEnd p))
    (i32! (rp_Confidence p)).

(** The gRPC [QueryProfile]: an empty key is an error. *)
Definition grpc_QueryProfile (now : Time) (key : string) (s : S) : option (S * (pb_RuntimeProfile + string)) :=
  if bool_decide (key = "") then Some (s, inr "workload_key required") else
  '(s, p) ← ps_QueryProfile now key s; Some (s, inl (profileToProto p)).

(** [/api/profiles], and [decide] while it finds nothing hot: the profiles of the
    keys, in order, each queried at its time. *)
Fixpoint query_all (keys : list (string * Time)) (s : S) : option (S * list RuntimeProfile) :=
  match keys with
  | [] => Some (s, [])
  | (k, now) :: keys =>
      '(s, p) ← ps_QueryProfile now k s; '(s, ps) ← query_all keys s; Some (s, p :: ps)
  end.
End handlers.

(** ** Histories of the aggregator *)
Inductive request :=
  | Ingest (nodeName : string) (evt : pb.TelemetryEvent)
  | Simulate (req : SimulateReq)
  | ResetProfile (key : string)
  | Query (key : string).

(** A request with its clock readings. *)
Record timed_request := mk_timed { t_create : Time; t_run : Time; t_req : request }.

Section histories.
Context {S : Type} `{PS : ProfileStore S} `{!ProfileStoreLaws S}.

Definition serve (q : timed_request) (s : S) : option S :=
  match t_req q with
  | Ingest node evt => ingest_event (t_create q) (t_run q) node evt s
  | Simulate req => simulate_events (t_create q) (t_run q) req s
  | ResetProfile key => reset_profile (t_create q) (t_run q) key s
  | Query key => fst <$> grpc_QueryProfile (t_run q) key s
  end.

Fixpoint serve_all (qs : list timed_request) (s : S) : option S :=
  match qs with [] => Some s | q :: qs => s ← serve q s; serve_all qs s end.

Fixpoint chronological_requests (t : Time) (qs : list timed_request) (q : Time) : Prop :=
  match qs with
  | [] => t <= q
  | r :: qs => t <= t_create r <= t_run r /\ chronological_requests (t_run r) qs q
  end.

(** The window operation a request performs on the profile of [key]. *)
Definition request_op (key : string) (q : request) : option win_op :=
  match q with
  | Ingest node evt => if bool_decide (pb.workload_key evt = key) && negb (bool_decide (key = ""))
                       then event_op node evt else None
  | Simulate req => if bool_decide (sim_WorkloadKey req = key)
      then Some (OpRecord (RBulk (sim_PageFaults req) (sim_CacheMisses req) (sim_CtxSwitches req)
                             (sim_LockNs req)) (sim_NodeName req)) else None
  | ResetProfile k => if bool_decide (k = key) then Some OpReset else None
  | Query _ => None
  end.

(** The recordings for [key] since its last reset. *)
Definition request_log (key : string) (log : list (Time * counts)) (q : timed_request) : list (Time * counts) :=
  match request_op key (t_req q) with Some op => op_log (t_run q) op log | None => log end.

Definition key_log (key : string) (qs : list timed_request) (log : list (Time * counts)) : list (Time * counts) :=
  foldl (request_log key) log qs.

Definition request_nodes (key : string) (q : request) : gset string :=
  match request_op key q with Some op => op_nodes op | None => ∅ end.

Definition key_nodes (key : string) (qs : list timed_request) : gset string :=
  ⋃ ((fun q => request_nodes key (t_req q)) <$> qs).

(** Each key's window has seen exactly that key's recordings. *)
Record aggregator_inv (n : nat) (d : Duration) (lo now : Time)
  (logs : string -> list (Time * counts)) (nodes : string -> gset string) (s : S) : Prop := {
  ai_ok : ps_ok s;
  ai_config : ps_count s = Z.of_nat n /\ ps_duration s = d /\ 0 < Z.of_nat n < 2 ^ 63 - 1 /\ 0 < d < 2 ^ 63;
  ai_lo : lo <= now;
  ai_key : forall key, match ps_view s !! key with
    | None => logs key = [] /\ nodes key = ∅
    | Some wp => workloadKey wp = key /\ nodeLocations wp = nodes key
        /\ exists t, t <= now /\ window_inv n d lo t (logs key) wp
    end }.

Lemma window_inv_weaken n d lo lo' t log wp :
  lo' <= lo -> window_inv n d lo t log wp -> window_inv n d lo' t log wp.
Proof using.
  intros Hlo (gs & last & dropped & ? & ? & ? & ? & [H1 H2 H3]). exists gs, last, dropped.
  split; [done|]. split; [lia|]. split; [done|]. split; [done|]. constructor; try done.
  intros g Hg. pose proof (H2 g Hg). lia.
Qed.

(** [GetOrCreate] adds at most a fresh, empty window. *)
Lemma create_inv n d lo t tc logs nodes key s s' h :
  aggregator_inv n d lo t logs nodes s -> t <= tc -> ps_GetOrCreate tc key s = (s', h) ->
  aggregator_inv n d lo tc logs nodes s' /\ ps_holds s' h key /\ is_Some (ps_view s' !! key).
Proof.
  intros [Hok (Hn & Hd & Hn' & Hd') Hlo Hk] Ht E.
  destruct (get_or_create_law tc key s s' h Hok E) as (Hok' & Hh & [Hc1 Hc2] & Hv).
  split; [|split; [done|]].
  - constructor; [done|split_and!; try lia; congruence|lia|]. intros k. rewrite Hv.
    pose proof (Hk k) as Hkk. destruct (ps_view s !! key) as [w|] eqn:Ek.
    + destruct (ps_view s !! k); [|done]. destruct Hkk as (? & ? & t' & ? & ?).
      split; [done|]. split; [done|]. exists t'. split; [lia|done].
    + destruct (decide (k = key)) as [->|Hne].
      * rewrite Ek in Hkk. destruct Hkk as [-> ->]. rewrite lookup_insert_eq.
        split; [done|]. split; [done|]. exists tc. split; [lia|].
        apply (window_inv_weaken n d tc); [lia|]. rewrite Hn, Hd.
        rewrite <- (Nat2Z.id n) at 1. by apply window_inv_start.
      * rewrite lookup_insert_ne by done. destruct (ps_view s !! k); [|done].
        destruct Hkk as (? & ? & t' & ? & ?). split; [done|]. split; [done|].
        exists t'. split; [lia|done].
  - rewrite Hv. destruct (ps_view s !! key) eqn:Ek; [by rewrite Ek|by rewrite lookup_insert_eq].
Qed.

(** A method on a held profile is one window operation on its key. *)
Lemma method_inv n d lo t tr logs nodes key h op s :
  aggregator_inv n d lo t logs nodes s -> t <= tr < lo + 2 ^ 63 -> ps_holds s h key ->
  is_Some (ps_view s !! key) ->
  exists s', ps_method h tr op s = Some s'
    /\ aggregator_inv n d lo tr
         (fun k => if bool_decide (k = key) then op_log tr op (logs k) else logs k)
         (fun k => if bool_decide (k = key) then op_nodes op ∪ nodes k else nodes k) s'.
Proof.
  intros [Hok (Hn & Hd & Hn' & Hd') Hlo Hk] Ht Hh [wp Hwp].
  pose proof (Hk key) as Hkk. rewrite Hwp in Hkk. destruct Hkk as (Hkey & Hnodes & t' & Ht' & Hinv).
  destruct (window_inv_step n d lo t' tr op _ wp Hinv ltac:(lia)) as (wp' & Ew & Hinv' & Hnodes' & Hkey').
  destruct (method_law h key tr op s wp wp' Hok Hh Hwp Ew) as (s' & Es & Hok' & [Hc1 Hc2] & Hv).
  exists s'. split; [done|]. constructor; [done|split_and!; try lia; congruence|lia|].
  intros k. rewrite Hv. destruct (decide (k = key)) as [->|Hne].
  - rewrite lookup_insert_eq, !bool_decide_true by done. split; [congruence|].
    split; [by rewrite Hnodes', Hnodes|]. exists tr. split; [lia|done].
  - rewrite lookup_insert_ne, !bool_decide_false by done.
    pose proof (Hk k) as Hkk. destruct (ps_view s !! k); [|done].
    destruct Hkk as (? & ? & t2 & ? & ?). split; [done|]. split; [done|]. exists t2. split; [lia|done].
Qed.

Lemma aggregator_inv_ext n d lo t t' logs logs' nodes nodes' s :
  (forall k, logs k = logs' k) -> (forall k, nodes k = nodes' k) -> t <= t' ->
  aggregator_inv n d lo t logs nodes s -> aggregator_inv n d lo t' logs' nodes' s.
Proof using.
  intros Hl Hn Ht [H1 H2 H3 H4]. constructor; [done|done|lia|]. intros key. specialize (H4 key).
  rewrite <- Hl, <- Hn. destruct (ps_view s !! key); [|done].
  destruct H4 as (? & ? & t2 & ? & ?). split; [done|]. split; [done|]. exists t2. split; [lia|done].
Qed.

(** A query rotates the window of its key and reports it. *)
Lemma query_inv n d lo t tr logs nodes key s :
  aggregator_inv n d lo t logs nodes s -> t <= tr < lo + 2 ^ 63 ->
  exists s' p, ps_QueryProfile tr key s = Some (s', p) /\ aggregator_inv n d lo tr logs nodes s'
    /\ match ps_view s !! key with
       | None => p = bare_profile key ConfidenceUnknown
       | Some _ => exists dropped kept, logs key = dropped ++ kept
           /\ (forall e, e ∈ dropped -> (Z.of_nat n - 1) * d < tr - fst e)
           /\ (forall e, e ∈ kept -> WindowStart p <= fst e /\ tr - fst e < (2 * Z.of_nat n - 1) * d)
           /\ profile_reports key (cwrap (csum (snd <$> kept)))
                (window_seconds (NewWorkloadProfile lo key (Z.of_nat n) d)) p
       end.
Proof.
  intros Hinv Ht. pose proof Hinv as [Hok (Hn & Hd & Hn' & Hd') Hlo Hk].
  pose proof (query_law tr key s Hok) as Hq. pose proof (Hk key) as Hkk.
  destruct (ps_view s !! key) as [wp|] eqn:Ev.
  2: { exists s, (bare_profile key ConfidenceUnknown). split; [done|]. split; [|done].
       apply (aggregator_inv_ext n d lo t tr logs logs nodes nodes); [done|done|lia|done]. }
  destruct Hkk as (Hkey & Hnodes & t' & Ht' & Hw).
  destruct (compute_reports n d lo t' tr _ wp Hw ltac:(lia))
    as (wp' & p & dropped & kept & Ec & El & Hw' & [Hid1 Hid2] & H1 & H2 & H3).
  destruct (Hq wp' p Ec) as (s' & Es & Hok' & [Hc1 Hc2] & Hv).
  exists s', p. split; [done|]. split.
  - constructor; [done|split_and!; try lia; congruence|lia|]. intros k. rewrite Hv.
    destruct (decide (k = key)) as [->|Hne].
    + rewrite lookup_insert_eq. split; [congruence|]. split; [congruence|]. exists tr. by split.
    + rewrite lookup_insert_ne by done. pose proof (Hk k) as Hkk.
      destruct (ps_view s !! k); [|done]. destruct Hkk as (? & ? & t2 & ? & ?).
      split; [done|]. split; [done|]. exists t2. split; [lia|done].
  - exists dropped, kept. split; [done|]. split; [done|]. split; [done|].
    rewrite Hkey in H3. destruct Hw' as (gs & last & dr & Hrep & _).
    destruct (rep_n _ _ _ _ _ Hrep) as [E1 _], (rep_d _ _ _ _ _ Hrep) as [E2 _].
    unfold window_seconds in *. rewrite E1, E2 in H3. unfold NewWorkloadProfile. simpl.
    by rewrite (proj2 (Z.leb_gt (Z.of_nat n) 0)), (proj2 (Z.leb_gt d 0)) by lia.
Qed.

Lemma event_inv n d lo t tc tr logs nodes key op s :
  aggregator_inv n d lo t logs nodes s -> t <= tc -> tc <= tr < lo + 2 ^ 63 ->
  exists s', (let '(s, h) := ps_GetOrCreate tc key s in
              match op with Some op => ps_method h tr op s | None => Some s end) = Some s'
    /\ aggregator_inv n d lo tr
         (fun k => match (if bool_decide (k = key) then op else None) with
                   | Some op => op_log tr op (logs k) | None => logs k end)
         (fun k => match (if bool_decide (k = key) then op else None) with
                   | Some op => op_nodes op | None => ∅ end ∪ nodes k) s'.
Proof.
  intros Hinv Htc Htr. destruct (ps_GetOrCreate tc key s) as [s1 h] eqn:E.
  destruct (create_inv n d lo t tc logs nodes key s s1 h Hinv Htc E) as (Hinv1 & Hh & Hs).
  destruct op as [op|].
  - destruct (method_inv n d lo tc tr logs nodes key h op s1 Hinv1 Htr Hh Hs) as (s' & -> & Hinv').
    exists s'. split; [done|].
    eapply aggregator_inv_ext; [..|exact Hinv']; [| |lia]; intros k; simpl; case_bool_decide; try done.
    by rewrite union_empty_l_L.
  - exists s1. split; [done|].
    eapply aggregator_inv_ext; [..|exact Hinv1]; [| |lia]; intros k; simpl; case_bool_decide; try done;
      by rewrite union_empty_l_L.
Qed.

Lemma serve_inv n d lo t logs nodes q s :
  aggregator_inv n d lo t logs nodes s -> t <= t_create q <= t_run q -> t_run q < lo + 2 ^ 63 ->
  exists s', serve q s = Some s'
    /\ aggregator_inv n d lo (t_run q) (fun k => request_log k (logs k) q)
         (fun k => request_nodes k (t_req q) ∪ nodes k) s'.
Proof.
  intros Hinv Ht Hlt. unfold serve, request_log, request_nodes.
  destruct q as [tc tr [node evt|req|key|key]]; simpl in *.
  - unfold ingest_event. case_bool_decide as Hempty.
    + exists s. split; [done|]. eapply aggregator_inv_ext; [..|exact Hinv]; [| |lia]; intros k; simpl;
        case_bool_decide; try done; case_bool_decide; simpl; try done; try congruence;
        by rewrite union_empty_l_L.
    + destruct (event_inv n d lo t tc tr logs nodes (pb.workload_key evt) (event_op node evt) s Hinv
        ltac:(lia) ltac:(lia)) as (s' & Es & Hinv').
      exists s'. split; [done|].
      eapply aggregator_inv_ext; [..|exact Hinv']; [| |lia]; intros k; simpl;
        (destruct (decide (pb.workload_key evt = k)) as [<-|Hne];
         [rewrite !(bool_decide_true (_ = _)), bool_decide_false by done
         |rewrite !(bool_decide_false (_ = k)), !(bool_decide_false (k = _)) by congruence]); done.
  - destruct (event_inv n d lo t tc tr logs nodes (sim_WorkloadKey req)
      (Some (OpRecord (RBulk (sim_PageFaults req) (sim_CacheMisses req) (sim_CtxSwitches req)
        (sim_LockNs req)) (sim_NodeName req))) s Hinv ltac:(lia) ltac:(lia)) as (s' & Es & Hinv').
    exists s'. split; [done|].
    eapply aggregator_inv_ext; [..|exact Hinv']; [| |lia]; intros k; simpl;
      repeat case_bool_decide; congruence.
  - destruct (event_inv n d lo t tc tr logs nodes key (Some OpReset) s Hinv ltac:(lia) ltac:(lia))
      as (s' & Es & Hinv').
    exists s'. split; [done|].
    eapply aggregator_inv_ext; [..|exact Hinv']; [| |lia]; intros k; simpl;
      repeat case_bool_decide; congruence.
  - unfold grpc_QueryProfile. case_bool_decide.
    + exists s. split; [done|]. eapply aggregator_inv_ext; [..|exact Hinv]; [done| |lia].
      intros k. by rewrite union_empty_l_L.
    + destruct (query_inv n d lo t tr logs nodes key s Hinv ltac:(lia)) as (s' & p & -> & Hinv' & _).
      exists s'. split; [done|]. eapply aggregator_inv_ext; [..|exact Hinv']; [done| |lia].
      intros k. by rewrite union_empty_l_L.
Qed.

Lemma chronological_requests_le t qs q : chronological_requests t qs q -> t <= q.
Proof using.
  revert t. induction qs as [|r qs IH]; simpl; intros t; [done|]. intros [? ?%IH]. lia.
Qed.

Lemma serve_all_inv n d lo q qs : forall t logs nodes s,
  aggregator_inv n d lo t logs nodes s -> chronological_requests t qs q -> q < lo + 2 ^ 63 ->
  exists s', serve_all qs s = Some s'
    /\ aggregator_inv n d lo q (fun k => key_log k qs (logs k)) (fun k => key_nodes k qs ∪ nodes k) s'.
Proof.
  induction qs as [|r qs IH]; intros t logs nodes s Hinv Hc Hq.
  - exists s. split; [done|]. eapply aggregator_inv_ext; [..|exact Hinv]; [done| |done].
    intros k. unfold key_nodes. simpl. by rewrite union_empty_l_L.
  - destruct Hc as [Hr Hc]. pose proof (chronological_requests_le _ _ _ Hc).
    destruct (serve_inv n d lo t logs nodes r s Hinv Hr ltac:(lia)) as (s1 & E1 & H1).
    destruct (IH (t_run r) _ _ s1 H1 Hc Hq) as (s' & E' & H').
    exists s'. simpl. rewrite E1. split; [done|].
    eapply aggregator_inv_ext; [..|exact H']; [done| |done].
    intros k. unfold key_nodes. csimpl. set_solver.
Qed.

(** An empty store, configured. *)
Lemma empty_inv s n d lo :
  ps_ok s -> ps_view s = ∅ -> ps_count s = Z.of_nat n -> ps_duration s = d ->
  0 < Z.of_nat n < 2 ^ 63 - 1 -> 0 < d < 2 ^ 63 ->
  aggregator_inv n d lo lo (fun _ => []) (fun _ => ∅) s.
Proof using.
  intros ? Hv ????. constructor; [done|done|done|]. intros key. by rewrite Hv, lookup_empty.
Qed.

Section from_empty.
Context (s0 : S) (n : nat) (d : Duration) (lo : Time).
Context (Hok : ps_ok s0) (Hempty : ps_view s0 = ∅).
Context (Hcount : ps_count s0 = Z.of_nat n) (Hduration : ps_duration s0 = d).
Context (Hn : 0 < Z.of_nat n < 2 ^ 63 - 1) (Hd : 0 < d < 2 ^ 63).

(** C3: the aggregator's profiles are exact, per workload.  After any
    chronological sequence of ingested events, simulated bursts, resets and
    queries, over any number of workloads and nodes, no request panics, and
    querying a key reports (modulo 2^64) the totals of a suffix of that key's own
    recordings since its last reset: everything from the last [n - 1] bucket
    durations, nothing [2 n - 1] durations old.  A key never touched has a bare
    profile of unknown confidence. *)
Theorem aggregator_profiles qs q :
  chronological_requests lo qs q -> q < lo + 2 ^ 63 ->
  exists s, serve_all qs s0 = Some s /\ forall key, exists s' p,
    ps_QueryProfile q key s = Some (s', p)
    /\ (key_log key qs [] = [] /\ p = bare_profile key ConfidenceUnknown
        \/ exists dropped kept, key_log key qs [] = dropped ++ kept
           /\ (forall e, e ∈ dropped -> (Z.of_nat n - 1) * d < q - fst e)
           /\ (forall e, e ∈ kept -> WindowStart p <= fst e /\ q - fst e < (2 * Z.of_nat n - 1) * d)
           /\ profile_reports key (cwrap (csum (snd <$> kept)))
                (window_seconds (NewWorkloadProfile lo key (Z.of_nat n) d)) p).
Proof.
  intros Hc Hq. pose proof (empty_inv s0 n d lo Hok Hempty Hcount Hduration Hn Hd) as H0.
  destruct (serve_all_inv n d lo q qs _ _ _ _ H0 Hc Hq) as (s & Es & Hinv).
  exists s. split; [done|]. intros key.
  destruct (query_inv n d lo q q _ _ key s Hinv) as (s' & p & Ep & _ & Hp); [destruct Hinv; lia|].
  exists s', p. split; [done|]. pose proof (ai_key _ _ _ _ _ _ _ Hinv key) as Hk.
  destruct (ps_view s !! key); [by right|]. left. split; [apply Hk|done].
Qed.

End from_empty.
End histories.
