(* ===== verification/Resolver.v ===== *)
(** * pkg/cgroup/resolver.go: from cgroup id to workload

    The collector's resolver: the listing of the node's pods, the search of the
    cgroup filesystem for each container, the map it builds, and [Resolve].  The
    API server's answer and [stat] are outside: a sync is given the pods listed
    and the inode of each path; the filesystem is a tree. *)
From Stdlib Require Import Ascii.
From S2P Require Import Prelude.
#[local] Open Scope string_scope.
#[local] Open Scope list_scope.
#[local] Open Scope Z_scope.

(** ** Strings of the Go library *)
Fixpoint skip (n : nat) (s : string) : string :=
  match n, s with S n, String _ s => skip n s | _, _ => s end.

(** [strings.Cut]: before and after the first occurrence. *)
Fixpoint Cut (s sep : string) : option (string * string) :=
  if String.prefix sep s then Some ("", skip (String.length sep) s) else
  match s with
  | EmptyString => None
  | String c s => '(a, b) ← Cut s sep; Some (String c a, b)
  end.

Definition Contains (s substr : string) : bool := bool_decide (is_Some (Cut s substr)).

(** [strings.Split], for a separator that is not empty. *)
Fixpoint split_fuel (fuel : nat) (s sep : string) : list string :=
  match fuel with
  | O => [s]
  | S fuel => match Cut s sep with None => [s] | Some (a, b) => a :: split_fuel fuel b sep end
  end.

Definition Split (s sep : string) : list string := split_fuel (String.length s) s sep.

(** ** Pods *)
Record OwnerReference := mk_OwnerReference { or_Kind : string; or_Name : string }.

Record Pod := mk_Pod {
  pod_Namespace : string; pod_Name : string; pod_OwnerReferences : list OwnerReference;
  pod_ContainerIDs : list string (* Status.ContainerStatuses[i].ContainerID *) }.

Definition getWorkloadKey (pod : Pod) : string :=
  match pod_OwnerReferences pod with
  | ref :: _ => (pod_Namespace pod ++ "/" ++ or_Kind ref ++ "/" ++ or_Name ref)%string
  | [] => (pod_Namespace pod ++ "/Pod/" ++ pod_Name pod)%string
  end.

(** ** The cgroup filesystem *)

(** [Broken] is an entry whose [lstat] or directory read fails; children are in
    the order of their names. *)
Inductive node :=
  | File (name : string) | Dir (name : string) (children : list node) | Broken (name : string).

Definition node_name (n : node) : string :=
  match n with File s | Dir s _ | Broken s => s end.

Definition Join (path name : string) : string := (path ++ "/" ++ name)%string.

(** [filepath.Walk] with the callback of [findCgroupPath]: a matching directory
    becomes the target and its subtree is skipped. *)
Fixpoint walk (cid path : string) (n : node) (target : string) : string :=
  match n with
  | Dir _ children =>
      if Contains path cid then path else
      (fix go (ns : list node) (target : string) :=
         match ns with
         | [] => target
         | n :: ns => go ns (walk cid (Join path (node_name n)) n target)
         end) children target
  | File _ | Broken _ => target
  end.

Definition baseDir : string := "/sys/fs/cgroup".

Definition findCgroupPath (root : node) (containerID : string) : string :=
  walk containerID baseDir root "".

(** ** The resolver *)
Record Resolver := mk_Resolver { r_nodeName : string; cgroupMap : gmap Z string }.

Definition NewResolver (nodeName : string) : Resolver := mk_Resolver nodeName ∅.

Section sync.
(** [syscall.Stat(path).Ino] *)
Variable stat : string -> option Z.
Variable root : node.

(** The inode of the container's cgroup, where the loop body does not [continue]. *)
Definition container_inode (containerID : string) : option Z :=
  match Split containerID "://" with
  | [_; cID] =>
      let cgroupPath := findCgroupPath root cID in
      if bool_decide (cgroupPath = "") then None else stat cgroupPath
  | _ => None
  end.

Definition sync_container (workloadKey : string) (newMap : gmap Z string) (containerID : string) : gmap Z string :=
  match container_inode containerID with Some ino => <[ino := workloadKey]> newMap | None => newMap end.

Definition sync_pod (newMap : gmap Z string) (pod : Pod) : gmap Z string :=
  foldl (sync_container (getWorkloadKey pod)) newMap (pod_ContainerIDs pod).

(** [pods] is [None] when the listing fails. *)
Definition sync (pods : option (list Pod)) (r : Resolver) : Resolver :=
  match pods with
  | None => r
  | Some pods => mk_Resolver (r_nodeName r) (foldl sync_pod ∅ pods)
  end.
End sync.

Definition Resolve (r : Resolver) (cgroupID : Z) : string := default "" (cgroupMap r !! cgroupID).

(** ** Strings *)
Lemma app_assoc_s (a b c : string) : ((a ++ b) ++ c = a ++ (b ++ c))%string.
Proof. induction a as [|x a IH]; [done|]. exact (f_equal (String x) IH). Qed.

Lemma prefix_app (a b : string) : String.prefix a (a ++ b) = true.
Proof. induction a as [|c a IH]; [by destruct b|]. simpl. by destruct (Ascii.ascii_dec c c). Qed.

Lemma prefix_spec (a s : string) : String.prefix a s = true -> s = (a ++ skip (String.length a) s)%string.
Proof.
  revert s. induction a as [|c a IH]; intros s; simpl; [done|].
  destruct s as [|c' s]; [done|]. simpl. destruct (Ascii.ascii_dec c c') as [->|]; [|done].
  intros H. exact (f_equal (String c') (IH s H)).
Qed.

Lemma Cut_eq s sep :
  Cut s sep = if String.prefix sep s then Some ("", skip (String.length sep) s) else
    match s with EmptyString => None | String c s => '(a, b) ← Cut s sep; Some (String c a, b) end.
Proof. by destruct s. Qed.

Lemma Cut_Some s sep a b : Cut s sep = Some (a, b) -> s = (a ++ sep ++ b)%string.
Proof.
  revert a b. induction s as [|c s IH]; intros a b H; rewrite Cut_eq in H;
    (destruct (String.prefix sep _) eqn:E; [apply prefix_spec in E; injection H as <- <-; exact E|]); [done|].
  destruct (Cut s sep) as [[a' b']|]; simpl in H; [|done]. injection H as <- <-.
  exact (f_equal (String c) (IH _ _ eq_refl)).
Qed.

Lemma Cut_app (a sep b : string) : is_Some (Cut (a ++ sep ++ b) sep).
Proof.
  induction a as [|c a IH]; rewrite Cut_eq; [change ("" ++ sep ++ b)%string with (sep ++ b)%string; by rewrite prefix_app|].
  case_match; [eauto|]. destruct IH as [[x y] Exy]. simpl. fold String.append. rewrite Exy. done.
Qed.

Lemma Contains_spec s sub : Contains s sub = true <-> exists a b, s = (a ++ sub ++ b)%string.
Proof.
  unfold Contains. rewrite bool_decide_eq_true. split.
  - intros [[a b] H]. exists a, b. by apply Cut_Some.
  - intros (a & b & ->). apply Cut_app.
Qed.

Lemma length_app_s (a b : string) : String.length (a ++ b) = (String.length a + String.length b)%nat.
Proof. induction a as [|c a IH]; [done|]. exact (f_equal S IH). Qed.

(** The fuel is enough: each cut removes the separator. *)
Lemma split_enough sep : sep <> "" -> forall n m s, (String.length s <= n)%nat -> (String.length s <= m)%nat ->
  split_fuel n s sep = split_fuel m s sep.
Proof.
  intros Hsep. induction n as [|n IH]; intros m s Hn Hm.
  - destruct s; [|simpl in Hn; lia]. destruct m; [done|]. simpl. by destruct sep.
  - destruct m as [|m]; [destruct s; [|simpl in Hm; lia]; simpl; by destruct sep|].
    simpl. destruct (Cut s sep) as [[a b]|] eqn:E; [|done]. f_equal.
    apply Cut_Some in E. subst s. rewrite !length_app_s in *.
    destruct sep as [|c sep]; [done|]. simpl in *. apply IH; lia.
Qed.

Lemma Split_eq s sep : sep <> "" ->
  Split s sep = match Cut s sep with None => [s] | Some (a, b) => a :: Split b sep end.
Proof.
  intros Hsep. unfold Split. rewrite (split_enough sep Hsep _ (S (String.length s))) by lia.
  simpl. destruct (Cut s sep) as [[a b]|] eqn:E; [|done]. f_equal.
  apply split_enough; [done| |done]. apply Cut_Some in E. subst s. rewrite !length_app_s. lia.
Qed.

(** ** The search *)

(** The directories the walk can see: [visible p n path d] when [d] is at [path]
    below [n], which is at [p], through readable directories that do not match. *)
Inductive visible (cid : string) : string -> node -> string -> Prop :=
  | visible_here p name ns : visible cid p (Dir name ns) p
  | visible_below p name ns n q : Contains p cid = false -> n ∈ ns ->
      visible cid (Join p (node_name n)) n q -> visible cid p (Dir name ns) q.

Fixpoint node_size (n : node) : nat :=
  match n with Dir _ ns => S (sum_list_with node_size ns) | _ => 1 end.

Lemma node_size_child name ns n : n ∈ ns -> (node_size n < node_size (Dir name ns))%nat.
Proof.
  intros Hin. simpl. induction ns as [|n' ns IH]; [by apply elem_of_nil in Hin|].
  apply elem_of_cons in Hin as [->|Hin]; simpl; [lia|]. specialize (IH Hin). lia.
Qed.

(** The walk of the children. *)
Fixpoint walk_all (cid path : string) (ns : list node) (target : string) : string :=
  match ns with
  | [] => target
  | n :: ns => walk_all cid path ns (walk cid (Join path (node_name n)) n target)
  end.

Lemma walk_dir cid path name ns target :
  walk cid path (Dir name ns) target = if Contains path cid then path else walk_all cid path ns target.
Proof.
  simpl. destruct (Contains path cid); [done|]. revert target.
  induction ns as [|n ns IH]; intros target; [done|]. simpl. apply IH.
Qed.

(** The result is a visible match, unless there is none. *)
Lemma walk_spec cid size : forall n path target, (node_size n <= size)%nat ->
  (walk cid path n target = target /\ (forall q, visible cid path n q -> Contains q cid = false))
  \/ (visible cid path n (walk cid path n target) /\ Contains (walk cid path n target) cid = true).
Proof.
  induction size as [|size IH]; intros n path target Hn; [destruct n; simpl in Hn; lia|].
  destruct n as [name|name ns|name].
  - left. split; [done|]. intros q Hq. inversion Hq.
  - rewrite walk_dir. destruct (Contains path cid) eqn:Ec; [right; split; [constructor|done]|].
    assert (forall ns' target', (forall n, n ∈ ns' -> n ∈ ns /\ (node_size n <= size)%nat) ->
      (walk_all cid path ns' target' = target' /\ (forall n q, n ∈ ns' ->
          visible cid (Join path (node_name n)) n q -> Contains q cid = false))
      \/ (visible cid path (Dir name ns) (walk_all cid path ns' target')
          /\ Contains (walk_all cid path ns' target') cid = true)) as K.
    { induction ns' as [|n ns' IHns]; intros target' Hns; simpl.
      - left. split; [done|]. by intros n q ?%elem_of_nil.
      - destruct (Hns n) as [Hin Hsz]; [by left|].
        destruct (IHns (walk cid (Join path (node_name n)) n target')) as [[-> Hno]|?];
          [intros; apply Hns; by right| |by right].
        destruct (IH n (Join path (node_name n)) target' Hsz) as [[-> Hno']|[Hv Hc]].
        + left. split; [done|]. intros n' q [->|Hin']%elem_of_cons; eauto.
        + right. split; [|done]. by eapply visible_below. }
    destruct (K ns target) as [[-> Hno]|?].
    + intros n Hin. split; [done|]. pose proof (node_size_child name ns n Hin). lia.
    + left. split; [done|]. intros q Hq. inversion Hq; subst; eauto.
    + by right.
  - left. split; [done|]. intros q Hq. inversion Hq.
Qed.

Lemma visible_nonempty cid p n q : visible cid p n q -> p <> "" -> q <> "".
Proof. induction 1 as [|p name ns n q _ _ _ IH]; [done|]. intros Hp. apply IH. by destruct p. Qed.

(** The search is exact.  [findCgroupPath] returns a directory whose path
    contains the container's id and which the walk can see (through readable
    directories above any match), if there is one, and "" if there is none; when
    only one such directory exists, that is the answer. *)
Theorem find_cgroup_path_exact root cid :
  let p := findCgroupPath root cid in
  (p = "" <-> forall q, visible cid baseDir root q -> Contains q cid = false)
  /\ (p <> "" -> visible cid baseDir root p /\ Contains p cid = true)
  /\ (forall q, visible cid baseDir root q -> Contains q cid = true ->
        (forall q', visible cid baseDir root q' -> Contains q' cid = true -> q' = q) -> p = q).
Proof.
  intros p. assert (forall q, visible cid baseDir root q -> q <> "") as Hne
    by (intros q Hq; by eapply visible_nonempty).
  destruct (walk_spec cid (node_size root) root baseDir "" (le_n _)) as [[E Hno]|[Hv Hc]];
    change (walk cid baseDir root "") with p in *.
  - split; [done|]. split; [done|]. intros q Hq Hqc. by rewrite (Hno q Hq) in Hqc.
  - split; [|split; [done|]].
    + split; [intros E; by destruct (Hne p Hv)|]. intros H. by rewrite (H p Hv) in Hc.
    + intros q _ _ Huniq. by apply Huniq.
Qed.

(** What a key is meant to name: namespace, kind of the owner, name. *)
Definition workload (pod : Pod) : string * string * string :=
  match pod_OwnerReferences pod with
  | ref :: _ => (pod_Namespace pod, or_Kind ref, or_Name ref)
  | [] => (pod_Namespace pod, "Pod", pod_Name pod)
  end.

(** ** The map a sync builds *)
Section synced.
Context (stat : string -> option Z) (root : node).

Definition pod_entries (pod : Pod) : list (Z * string) :=
  (fun ino => (ino, getWorkloadKey pod)) <$> omap (container_inode stat root) (pod_ContainerIDs pod).

Definition entries (pods : list Pod) : list (Z * string) := mjoin (pod_entries <$> pods).

Definition add_entry (m : gmap Z string) (e : Z * string) : gmap Z string := <[e.1 := e.2]> m.

Lemma sync_pod_entries m pod : sync_pod stat root m pod = foldl add_entry m (pod_entries pod).
Proof.
  unfold sync_pod, pod_entries. revert m.
  induction (pod_ContainerIDs pod) as [|c cs IH]; intros m; [done|]. csimpl. rewrite IH.
  unfold sync_container. by destruct (container_inode stat root c).
Qed.

Lemma sync_entries pods m : foldl (sync_pod stat root) m pods = foldl add_entry m (entries pods).
Proof.
  unfold entries. revert m. induction pods as [|pod pods IH]; intros m; [done|].
  csimpl. by rewrite IH, foldl_app, sync_pod_entries.
Qed.

Lemma foldl_add_entry es m id :
  match foldl add_entry m es !! id with
  | None => m !! id = None /\ id ∉ es.*1
  | Some k => (id, k) ∈ es \/ m !! id = Some k /\ id ∉ es.*1
  end.
Proof.
  revert m. induction es as [|[i k] es IH]; intros m; csimpl.
  { destruct (m !! id); [right|]; (split; [done|]); apply not_elem_of_nil. }
  specialize (IH (add_entry m (i, k))). unfold add_entry in *. simpl in *.
  destruct (foldl _ _ es !! id) as [k'|].
  - destruct IH as [?|[H1 H2]]; [left; by right|]. destruct (decide (i = id)) as [->|Hne].
    + rewrite lookup_insert_eq in H1. injection H1 as ->. left. by left.
    + rewrite lookup_insert_ne in H1 by done. right. split; [done|]. rewrite not_elem_of_cons. done.
  - destruct IH as [H1 H2]. apply lookup_insert_None in H1 as [??]. split; [done|].
    rewrite not_elem_of_cons. done.
Qed.

Lemma entries_elem pods id k :
  (id, k) ∈ entries pods <-> exists pod c, pod ∈ pods /\ c ∈ pod_ContainerIDs pod
    /\ container_inode stat root c = Some id /\ k = getWorkloadKey pod.
Proof.
  unfold entries, pod_entries. rewrite list_elem_of_join. split.
  - intros (l & H1 & (pod & -> & Hpod)%list_elem_of_fmap).
    apply list_elem_of_fmap in H1 as (ino & [= -> ->] & (c & ? & ?)%list_elem_of_omap). by exists pod, c.
  - intros (pod & c & Hpod & Hc & Hino & ->). exists (pod_entries pod). unfold pod_entries. split.
    + apply list_elem_of_fmap. exists id. split; [done|]. apply list_elem_of_omap. by exists c.
    + apply list_elem_of_fmap. by exists pod.
Qed.

(** The entries of the map, in terms of [container_inode]. *)
Lemma resolve_entries pods r id :
  let k := Resolve (sync stat root (Some pods) r) id in
  (exists pod c, pod ∈ pods /\ c ∈ pod_ContainerIDs pod /\ container_inode stat root c = Some id
     /\ k = getWorkloadKey pod)
  \/ k = "" /\ forall pod c, pod ∈ pods -> c ∈ pod_ContainerIDs pod -> container_inode stat root c <> Some id.
Proof.
  intros k. unfold k, Resolve, sync. simpl. rewrite sync_entries.
  pose proof (foldl_add_entry (entries pods) ∅ id) as H. rewrite lookup_empty in H.
  destruct (foldl add_entry ∅ (entries pods) !! id) as [k'|]; simpl.
  - left. destruct H as [H|[? _]]; [|done]. by apply entries_elem.
  - right. split; [done|]. intros pod c ? ? ?. destruct H as [_ H]. apply H.
    change id with (id, getWorkloadKey pod).1. apply list_elem_of_fmap_2. apply entries_elem. by exists pod, c.
Qed.

(** ** Where a container is *)

(** [c] may be in the cgroup [ino]: a container [id] of some runtime, and a
    directory the search can see, with the id in its path and that inode. *)
Definition container_in (c : string) (ino : Z) : Prop :=
  exists runtime id path, c = (runtime ++ "://" ++ id)%string
    /\ visible id baseDir root path /\ Contains path id = true /\ stat path = Some ino.

(** [c] is in [ino] for certain: there is one such directory only. *)
Definition container_at (c : string) (ino : Z) : Prop :=
  exists runtime id path, c = (runtime ++ "://" ++ id)%string
    /\ Contains runtime ":" = false /\ Contains id "://" = false
    /\ visible id baseDir root path /\ Contains path id = true /\ stat path = Some ino
    /\ forall q, visible id baseDir root q -> Contains q id = true -> q = path.

Lemma Cut_None s sep : Contains s sep = false <-> Cut s sep = None.
Proof. unfold Contains. rewrite bool_decide_eq_false. symmetry. apply eq_None_not_Some. Qed.

Lemma Cut_scheme (a b : string) : Contains a ":" = false -> Cut (a ++ "://" ++ b) "://" = Some (a, b).
Proof using.
  induction a as [|c a IH]; intros Ha; [by destruct b|].
  assert (c <> ":"%char /\ Contains a ":" = false) as [Hc Ha'].
  { split.
    - intros ->. assert (Contains (String ":" a) ":" = true) as E; [|congruence]. apply Contains_spec. by exists "", a.
    - destruct (Contains a ":") eqn:E; [|done]. apply Contains_spec in E as (x & y & ->).
      assert (Contains (String c (x ++ ":" ++ y)) ":" = true) as E; [|congruence]. apply Contains_spec.
      by exists (String c x), y. }
  change (String c a ++ "://" ++ b)%string with (String c (a ++ "://" ++ b)). rewrite Cut_eq.
  assert (String.prefix "://" (String c (a ++ "://" ++ b)) = false) as ->.
  { cbn [String.prefix]. destruct (Ascii.ascii_dec ":" c); [congruence|done]. }
  by rewrite IH.
Qed.

Lemma container_inode_sound c ino : container_inode stat root c = Some ino -> container_in c ino.
Proof.
  unfold container_inode. rewrite Split_eq by done. destruct (Cut c "://") as [[runtime id]|] eqn:E; [|done].
  rewrite Split_eq by done. apply Cut_Some in E as ->. destruct (Cut id "://") as [[x y]|] eqn:E2.
  { rewrite Split_eq by done. by destruct (Cut y "://") as [[? ?]|]. }
  case_bool_decide as Hp; [done|]. intros Hs. exists runtime, id, (findCgroupPath root id).
  destruct (find_cgroup_path_exact root id) as (_ & H & _). destruct (H Hp). done.
Qed.

Lemma container_inode_complete c ino : container_at c ino -> container_inode stat root c = Some ino.
Proof.
  intros (runtime & id & path & -> & Hr & Hi & Hv & Hc & Hs & Huniq).
  unfold container_inode. rewrite Split_eq, Cut_scheme by done.
  rewrite Split_eq by done. apply Cut_None in Hi as ->.
  destruct (find_cgroup_path_exact root id) as (_ & _ & H). rewrite (H path Hv Hc Huniq).
  rewrite bool_decide_false; [done|]. by eapply visible_nonempty.
Qed.

(** [namespace/kind/name] of a pod's first owner, or of the pod itself. *)
Definition key_of (w : string * string * string) : string := let '(ns, kind, name) := w in (ns ++ "/" ++ kind ++ "/" ++ name)%string.

(** C35: [Resolve] after a sync, from the pods listed and the cgroup tree.  A cgroup
    that resolves to anything resolves to the namespace, owner kind and owner name
    of a listed pod with a container [runtime://id] for which the tree has a
    directory of that inode with the id in its path; if a listed container has one
    such directory and no container of another workload may be in the same cgroup,
    the cgroup does resolve to its workload; a cgroup no listed container may be
    in resolves to ""; a failed listing changes nothing. *)
Theorem resolve_after_sync pods r ino :
  let r' := sync stat root (Some pods) r in
  (Resolve r' ino <> "" -> exists pod c, pod ∈ pods /\ c ∈ pod_ContainerIDs pod /\ container_in c ino
      /\ Resolve r' ino = key_of (workload pod))
  /\ (forall pod c, pod ∈ pods -> c ∈ pod_ContainerIDs pod -> container_at c ino ->
      (forall pod' c', pod' ∈ pods -> c' ∈ pod_ContainerIDs pod' -> container_in c' ino -> workload pod' = workload pod) ->
      Resolve r' ino = key_of (workload pod))
  /\ ((forall pod c, pod ∈ pods -> c ∈ pod_ContainerIDs pod -> ~ container_in c ino) -> Resolve r' ino = "")
  /\ sync stat root None r = r.
Proof.
  intros r'.
  assert (forall pod, getWorkloadKey pod = key_of (workload pod)) as Hkey
    by (intros pod; unfold getWorkloadKey, workload, key_of; by destruct (pod_OwnerReferences pod)).
  destruct (resolve_entries pods r ino) as [(pod & c & Hpod & Hc & Hi & E)|[E Hno]]; fold r' in E; rewrite E, ?Hkey;
    (split; [|split; [|split; [|done]]]).
  - intros _. exists pod, c. by apply container_inode_sound in Hi.
  - intros pod' c' ? ? ? Hsame. f_equal. eapply Hsame; [done..|]. by apply container_inode_sound.
  - intros Hno. destruct (Hno pod c Hpod Hc). by apply container_inode_sound.
  - done.
  - intros pod c ? ? Ha _. destruct (Hno pod c); [done..|]. by apply container_inode_complete.
  - done.
Qed.
End synced.

(** ** Keys *)
Definition has_slash (s : string) : bool := Contains s "/".

Lemma getWorkloadKey_eq pod :
  getWorkloadKey pod = ((workload pod).1.1 ++ "/" ++ (workload pod).1.2 ++ "/" ++ (workload pod).2)%string.
Proof. unfold getWorkloadKey, workload. by destruct (pod_OwnerReferences pod). Qed.

Lemma has_slash_cons c s : has_slash (String c s) = false -> c <> "/"%char /\ has_slash s = false.
Proof.
  intros H. split.
  - intros ->. assert (has_slash (String "/" s) = true) as E; [|congruence].
    apply Contains_spec. by exists "", s.
  - destruct (has_slash s) eqn:E; [|done]. apply Contains_spec in E as (a & b & ->).
    assert (has_slash (String c (a ++ "/" ++ b)) = true) as E; [|congruence].
    apply Contains_spec. by exists (String c a), b.
Qed.

Lemma first_slash a b a' b' :
  has_slash a = false -> has_slash a' = false -> (a ++ "/" ++ b = a' ++ "/" ++ b')%string -> a = a' /\ b = b'.
Proof.
  revert a'. induction a as [|c a IH]; intros [|c' a'] Ha Ha' H.
  - cbn in H. by injection H.
  - apply has_slash_cons in Ha' as [Hc _]. cbn in H. injection H as E _. congruence.
  - apply has_slash_cons in Ha as [Hc _]. cbn in H. injection H as E _. congruence.
  - apply has_slash_cons in Ha as [_ Ha], Ha' as [_ Ha']. cbn in H. injection H as -> H.
    destruct (IH a' Ha Ha' H) as [-> ->]. done.
Qed.

(** A key names one workload: for namespaces and kinds without a slash, two
    pods have the same key exactly when they have the same namespace and the same
    first owner (kind and name), or are the same bare pod. *)
Theorem workload_key_injective pod pod' :
  has_slash (workload pod).1.1 = false -> has_slash (workload pod').1.1 = false ->
  has_slash (workload pod).1.2 = false -> has_slash (workload pod').1.2 = false ->
  getWorkloadKey pod = getWorkloadKey pod' <-> workload pod = workload pod'.
Proof.
  intros H1 H2 H3 H4. rewrite !getWorkloadKey_eq. split; [|by intros ->].
  destruct (workload pod) as [[ns k] n], (workload pod') as [[ns' k'] n']. simpl in *. intros H.
  apply first_slash in H as [-> H]; [|done..]. apply first_slash in H as [-> ->]; done.
Qed.

(** ** Witnesses *)
Definition demo_root : node :=
  Dir "cgroup" [Dir "kubepods.slice" [Dir "cri-abc.scope" [Dir "inner-abc" []]; Dir "cri-def.scope" []];
                File "cgroup.procs"; Broken "locked-abc"].

Definition demo_pod : Pod :=
  mk_Pod "default" "web-1" [mk_OwnerReference "ReplicaSet" "web-5d4b"] ["containerd://abc"; "waiting"].

Definition demo_stat (path : string) : option Z :=
  if bool_decide (path = "/sys/fs/cgroup/kubepods.slice/cri-abc.scope") then Some 7 else None.

Lemma workload_key_injective_witness :
  getWorkloadKey demo_pod = getWorkloadKey (mk_Pod "default" "web-2" [mk_OwnerReference "ReplicaSet" "web-5d4b"] []).
Proof.
  apply (proj2 (workload_key_injective demo_pod
    (mk_Pod "default" "web-2" [mk_OwnerReference "ReplicaSet" "web-5d4b"] [])
    eq_refl eq_refl eq_refl eq_refl)). reflexivity.
Defined.

Example demo_resolved :
  findCgroupPath demo_root "abc" = "/sys/fs/cgroup/kubepods.slice/cri-abc.scope"
  /\ Resolve (sync demo_stat demo_root (Some [demo_pod]) (NewResolver "n1")) 7 = "default/ReplicaSet/web-5d4b".
Proof. split; vm_compute; reflexivity. Qed.

(** In the demo tree one directory only has "abc" in its path; the one inside it is
    not reached. *)
Lemma demo_visible q : visible "abc" baseDir demo_root q -> Contains q "abc" = true ->
  q = "/sys/fs/cgroup/kubepods.slice/cri-abc.scope".
Proof.
  intros Hv Hc. unfold demo_root in Hv.
  repeat match goal with
    | H : _ ∈ _ :: _ |- _ => apply elem_of_cons in H as [->|H]
    | H : _ ∈ [] |- _ => by apply elem_of_nil in H
    | H : Contains ?q _ = _ |- _ => assert_fails (is_var q); vm_compute in H; discriminate H
    | H : visible _ _ _ _ |- _ => inversion H; clear H; subst
    end; reflexivity.
Qed.

Lemma demo_at : container_at demo_stat demo_root "containerd://abc" 7.
Proof.
  exists "containerd", "abc", "/sys/fs/cgroup/kubepods.slice/cri-abc.scope". split_and!; try (vm_compute; reflexivity).
  - eapply visible_below; [vm_compute; reflexivity|by left|].
    eapply visible_below; [vm_compute; reflexivity|by left|]. apply visible_here.
  - apply demo_visible.
Qed.

Lemma resolve_after_sync_witness :
  Resolve (sync demo_stat demo_root (Some [demo_pod]) (NewResolver "n1")) 7 = "default/ReplicaSet/web-5d4b".
Proof.
  apply (proj1 (proj2 (resolve_after_sync demo_stat demo_root [demo_pod] (NewResolver "n1") 7)) demo_pod
    "containerd://abc"); [by left|by left|apply demo_at|].
  intros pod' c' Hpod _ _. by apply list_elem_of_singleton in Hpod as ->.
Defined.
