(* ===== verification/CgroupCache.v ===== *)
(** * pkg/telemetry/cgroup.go: the caching cgroup resolver

    A resolver with a cache in front of a three-step lookup: the cgroup's
    directory, the container id in its path, the kubelet's pod with that
    container.  What the filesystem and the kubelet answer during one lookup is a
    [world]; the clock readings are arguments.  [Module Lookup] has the lookup,
    [Module Cache] the cache, under the interleaved calls of any number of
    goroutines. *)
From Stdlib Require Import Ascii.
From S2P Require Import Prelude Resolver Telemetry.
#[local] Open Scope string_scope.
#[local] Open Scope list_scope.
#[local] Open Scope Z_scope.

Module Lookup.

(** ** Strings of the Go library *)
Definition HasPrefix (s prefix : string) : bool := String.prefix prefix s.

Definition HasSuffix (s suffix : string) : bool :=
  bool_decide (String.length suffix <= String.length s)%nat
  && bool_decide (skip (String.length s - String.length suffix) s = suffix).

Definition TrimPrefix (s prefix : string) : string :=
  if HasPrefix s prefix then skip (String.length prefix) s else s.

Definition TrimSuffix (s suffix : string) : string :=
  if HasSuffix s suffix then String.substring 0 (String.length s - String.length suffix) s else s.

(** [s[:idx]] and [s[idx+1:]] for [idx := strings.LastIndex(s, c)], one byte [c];
    [None] when [idx] is -1. *)
Fixpoint cut_last (c : ascii) (s : string) : option (string * string) :=
  match s with
  | EmptyString => None
  | String x s =>
      match cut_last c s with
      | Some (a, b) => Some (String x a, b)
      | None => if Ascii.eqb x c then Some ("", s) else None
      end
  end.

(** ** Step 1: from cgroup id to directory *)

(** [filepath.Dir] of a clean path. *)
Definition Dir_of (path : string) : string :=
  match cut_last "/" path with
  | Some ("", _) => "/"
  | Some (a, _) => a
  | None => "."
  end.

(** White space at the start of a string, as [strings.TrimSpace] and the scanner
    see it: the ASCII spaces, and the encodings of U+0085, U+00A0, U+1680, U+2000
    to U+200A, U+2028, U+2029, U+202F, U+205F and U+3000. *)
Definition bytes (bs : list nat) : string := foldr (fun b s => String (ascii_of_nat b) s) "" bs.

Definition spaces : list string :=
  map bytes ([[9]; [10]; [11]; [12]; [13]; [32]; [194; 133]; [194; 160]; [225; 154; 128]]
             ++ map (fun k => [226; 128; k]) (seq 128 11)
             ++ [[226; 128; 168]; [226; 128; 169]; [226; 128; 175]; [226; 129; 159]; [227; 128; 128]])%nat.

Fixpoint trim_space (fuel : nat) (s : string) : string :=
  match fuel with
  | O => s
  | S fuel =>
      match List.find (HasPrefix s) spaces with
      | Some sp => trim_space fuel (skip (String.length sp) s)
      | None => s
      end
  end.

(** The digits [%d] reads, and their value. *)
Definition digit (c : ascii) : option Z :=
  let n := Z.of_nat (nat_of_ascii c) - 48 in if (0 <=? n) && (n <=? 9) then Some n else None.

Fixpoint scan_digits (s : string) (acc : option Z) : option Z :=
  match s with
  | EmptyString => acc
  | String c s =>
      match digit c with
      | Some d => scan_digits s (Some (10 * default 0 acc + d))
      | None => acc
      end
  end.

(** [fmt.Sscanf(strings.TrimSpace(data), "%d", &id)] for a [uint64]: a digit is
    required, and the value must fit.  (What follows the digits is not read, so
    trimming the end changes nothing.) *)
Definition scan_uint64 (data : string) : option Z :=
  match scan_digits (trim_space (String.length data) data) None with
  | Some id => if id <? 2 ^ 64 then Some id else None
  | None => None
  end.

(** A kubelet's answer to [GET /pods]. *)
Record kubeletContainerStatus := mk_kubeletContainerStatus { cs_Name : string; cs_ContainerID : string }.

Record kubeletPod := mk_kubeletPod {
  kp_Name : string; kp_Namespace : string;
  kp_OwnerReferences : list OwnerReference;
  kp_ContainerStatuses : list kubeletContainerStatus }.

Inductive kubelet_answer := RequestFailed | BadJSON | PodList (items : list kubeletPod).

(** What one lookup sees: the cgroup tree, the files in it, the kubelet. *)
Record world := mk_world {
  w_root : node; w_read : string -> option string; w_kubelet : kubelet_answer }.

Inductive resolve_error :=
  | CgroupNotFound (id : Z) | BadComponent (last : string)
  | KubeletRequest | KubeletDecode | ContainerNotFound (containerID : string).

Definition result (A : Type) : Type := A + resolve_error.

Definition readCgroupID (w : world) (cgroupDir : string) : option Z :=
  data ← w_read w (Join cgroupDir "cgroup.id"); scan_uint64 data.

Section walk.
Variable w : world.
Variable cgroupID : Z.

(** The callback of [filepath.Walk]: the directory, when the walk stops there. *)
Definition visit (path name : string) : option string :=
  if negb (bool_decide (name = "cgroup.stat")) then None else
  let dir := Dir_of path in
  match readCgroupID w dir with
  | Some id => if id =? cgroupID then Some dir else None
  | None => None
  end.

(** [filepath.Walk]: an entry, then its children in order, until the callback
    stops it; an entry that cannot be read is passed to the callback with its
    error and skipped. *)
Fixpoint Walk (path : string) (n : node) : option string :=
  match n with
  | Broken _ => None
  | File name => visit path name
  | Dir name children =>
      match visit path name with
      | Some dir => Some dir
      | None =>
          (fix go (ns : list node) : option string :=
             match ns with
             | [] => None
             | n :: ns => match Walk (Join path (node_name n)) n with Some dir => Some dir | None => go ns end
             end) children
      end
  end.

Definition resolveCgroupPath (cgroupBasePath : string) : result string :=
  match Walk cgroupBasePath (w_root w) with
  | Some foundPath => if bool_decide (foundPath = "") then inr (CgroupNotFound cgroupID) else inl foundPath
  | None => inr (CgroupNotFound cgroupID)
  end.
End walk.

(** ** Step 2: the container id in the path *)
Definition in_range (lo c hi : ascii) : bool :=
  (nat_of_ascii lo <=? nat_of_ascii c)%nat && (nat_of_ascii c <=? nat_of_ascii hi)%nat.

(** A byte outside ASCII is part of a rune that is no digit, or of none. *)
Definition hex_char (c : ascii) : bool :=
  in_range "0" c "9" || in_range "a" c "f" || in_range "A" c "F".

Fixpoint isHex (s : string) : bool :=
  match s with EmptyString => true | String c s => hex_char c && isHex s end.

Definition parseContainerID (cgroupPath : string) : result string :=
  let parts := Split cgroupPath "/" in
  let last := default "" (last parts) in
  if HasPrefix last "crio-" && HasSuffix last ".scope" then inl (TrimSuffix (TrimPrefix last "crio-") ".scope")
  else if (String.length last =? 64)%nat && isHex last then inl last
  else if HasSuffix last ".scope" then
    match cut_last "-" (TrimSuffix last ".scope") with
    | Some (_, candidate) =>
        if (12 <=? String.length candidate)%nat && isHex candidate then inl candidate else inr (BadComponent last)
    | None => inr (BadComponent last)
    end
  else inr (BadComponent last).

(** ** Step 3: the pod of the container *)

(** The id after ["://"], or all of it. *)
Definition csID (cs : kubeletContainerStatus) : string :=
  match Cut (cs_ContainerID cs) "://" with Some (_, id) => id | None => cs_ContainerID cs end.

Definition workload_key (pod : kubeletPod) : string :=
  match kp_OwnerReferences pod with
  | owner :: _ =>
      let '(ownerKind, ownerName) :=
        if bool_decide (or_Kind owner = "ReplicaSet") then
          ("Deployment", match cut_last "-" (or_Name owner) with
                         | Some (String x name, _) => String x name   (* idx > 0 *)
                         | _ => or_Name owner
                         end)
        else (or_Kind owner, or_Name owner) in
      (kp_Namespace pod ++ "/" ++ ownerKind ++ "/" ++ ownerName)%string
  | [] => (kp_Namespace pod ++ "/Pod/" ++ kp_Name pod)%string
  end.

Definition identity_of (pod : kubeletPod) (cs : kubeletContainerStatus) : PodIdentity :=
  mk_PodIdentity (kp_Namespace pod) (kp_Name pod) (cs_Name cs) (workload_key pod) "".

Definition matches (containerID : string) (cs : kubeletContainerStatus) : bool :=
  bool_decide (csID cs = containerID) || HasPrefix (csID cs) containerID.

Fixpoint find_container (containerID : string) (pod : kubeletPod) (css : list kubeletContainerStatus) :
  option PodIdentity :=
  match css with
  | [] => None
  | cs :: css => if matches containerID cs then Some (identity_of pod cs) else find_container containerID pod css
  end.

Fixpoint findPodByContainerID (pods : list kubeletPod) (containerID : string) : result PodIdentity :=
  match pods with
  | [] => inr (ContainerNotFound containerID)
  | pod :: pods =>
      match find_container containerID pod (kp_ContainerStatuses pod) with
      | Some found => inl found
      | None => findPodByContainerID pods containerID
      end
  end.

Definition queryKubelet (w : world) (containerID : string) : result PodIdentity :=
  match w_kubelet w with
  | RequestFailed => inr KubeletRequest
  | BadJSON => inr KubeletDecode
  | PodList items => findPodByContainerID items containerID
  end.

(** Steps 2 to 4 of [Resolve]: what a lookup in this world answers. *)
Definition lookup (nodeName cgroupBasePath : string) (w : world) (cgroupID : Z) : result PodIdentity :=
  match resolveCgroupPath w cgroupID cgroupBasePath with
  | inr e => inr e
  | inl cgroupPath =>
      match parseContainerID cgroupPath with
      | inr e => inr e
      | inl containerID =>
          match queryKubelet w containerID with
          | inr e => inr e
          | inl i => inl (mk_PodIdentity (pi_Namespace i) (pi_PodName i) (pi_Container i) (pi_WorkloadKey i) nodeName)
          end
      end
  end.

(** ** The search *)

(** [entry p n q name]: the walk of [n], which is at [p], reaches a readable entry
    called [name] at [q]. *)
Inductive entry : string -> node -> string -> string -> Prop :=
  | entry_file p name : entry p (File name) p name
  | entry_dir p name ns : entry p (Dir name ns) p name
  | entry_below p name ns n q x : n ∈ ns -> entry (Join p (node_name n)) n q x -> entry p (Dir name ns) q x.

(** [has_id w base id d]: [d] has a [cgroup.stat] and its [cgroup.id] reads [id]. *)
Definition has_id (w : world) (base : string) (id : Z) (d : string) : Prop :=
  readCgroupID w d = Some id /\ exists q, entry base (w_root w) q "cgroup.stat" /\ d = Dir_of q.

Lemma Dir_of_nonempty q : Dir_of q <> "".
Proof. unfold Dir_of. by destruct (cut_last "/" q) as [[[] b]|]. Qed.

Section search.
Variable w : world.
Variable id : Z.

Lemma visit_spec q name :
  match visit w id q name with
  | Some d => name = "cgroup.stat" /\ readCgroupID w d = Some id /\ d = Dir_of q
  | None => name = "cgroup.stat" -> readCgroupID w (Dir_of q) <> Some id
  end.
Proof.
  unfold visit. case_bool_decide as Hn; simpl; [|done].
  destruct (readCgroupID w (Dir_of q)) as [i|] eqn:E; [|done].
  destruct (Z.eqb_spec i id); [subst; by rewrite E|]. intros _ [= ->]. done.
Qed.

(** The walk finds an entry the callback accepts, or there is none. *)
Lemma Walk_spec size : forall n p, (node_size n <= size)%nat ->
  match Walk w id p n with
  | Some d => readCgroupID w d = Some id /\ exists q, entry p n q "cgroup.stat" /\ d = Dir_of q
  | None => forall q, entry p n q "cgroup.stat" -> readCgroupID w (Dir_of q) <> Some id
  end.
Proof.
  induction size as [|size IH]; intros n p Hn; [destruct n; simpl in Hn; lia|].
  destruct n as [name|name ns|name]; cbn [Walk].
  - pose proof (visit_spec p name) as Hv. destruct (visit w id p name) as [d|].
    + destruct Hv as (-> & ? & ->). split; [done|]. exists p. split; [constructor|done].
    + intros q Hq. inversion Hq; subst. by apply Hv.
  - pose proof (visit_spec p name) as Hv. destruct (visit w id p name) as [d|].
    { destruct Hv as (-> & ? & ->). split; [done|]. exists p. split; [constructor|done]. }
    assert (forall ms, (forall m, m ∈ ms -> m ∈ ns) ->
      match (fix go (ns : list node) : option string := match ns with
             | [] => None
             | n :: ns => match Walk w id (Join p (node_name n)) n with Some dir => Some dir | None => go ns end
             end) ms with
      | Some d => readCgroupID w d = Some id /\ exists q, entry p (Dir name ns) q "cgroup.stat" /\ d = Dir_of q
      | None => forall m q, m ∈ ms -> entry (Join p (node_name m)) m q "cgroup.stat" -> readCgroupID w (Dir_of q) <> Some id
      end) as Hgo.
    { induction ms as [|m ms IHms]; intros Hms; [by intros m q ?%elem_of_nil|].
      assert (m ∈ ns) as Hm by (apply Hms; by left).
      pose proof (IH m (Join p (node_name m))) as Hw.
      destruct (Walk w id (Join p (node_name m)) m) as [d|].
      - destruct Hw as (Hr & q & Hq & ->); [pose proof (node_size_child name ns m Hm); lia|].
        split; [done|]. exists q. split; [by apply (entry_below p name ns m)|done].
      - assert (forall m, m ∈ ms -> m ∈ ns) as Hms' by (intros x Hx; apply Hms; by right).
        specialize (IHms Hms'). destruct ((fix go (ns : list node) := _) ms) as [d|]; [done|].
        intros x q [->|Hx]%elem_of_cons Hq; [|by apply (IHms x)].
        apply Hw; [pose proof (node_size_child name ns m Hm); lia|done]. }
    specialize (Hgo ns (fun m Hm => Hm)). destruct ((fix go (ns : list node) := _) ns) as [d|]; [done|].
    intros q Hq. inversion Hq; subst; [by apply Hv|]. by eapply Hgo.
  - intros q Hq. inversion Hq.
Qed.

(** [resolveCgroupPath] finds a directory with the id, the only one if there is
    one, and fails exactly if there is none. *)
Lemma resolveCgroupPath_spec base :
  match resolveCgroupPath w id base with
  | inl d => has_id w base id d
  | inr e => e = CgroupNotFound id /\ forall d, ~ has_id w base id d
  end.
Proof.
  unfold resolveCgroupPath. pose proof (Walk_spec _ (w_root w) base (le_n _)) as Hw.
  destruct (Walk w id base (w_root w)) as [d|].
  - destruct Hw as (Hr & q & Hq & ->). rewrite bool_decide_eq_false_2 by apply Dir_of_nonempty. split; [done|by exists q].
  - split; [done|]. intros d (Hr & q & Hq & ->). by apply (Hw q).
Qed.
End search.

(** ** Strings *)
Lemma skip_app a b : skip (String.length a) (a ++ b)%string = b.
Proof. induction a as [|c a IH]; [by destruct b|]. exact IH. Qed.

Lemma substring_app a b : String.substring 0 (String.length a) (a ++ b)%string = a.
Proof. induction a as [|c a IH]; [by destruct b|]. exact (f_equal (String c) IH). Qed.

Lemma HasPrefix_app a b : HasPrefix (a ++ b)%string a = true.
Proof. apply prefix_app. Qed.

Lemma HasSuffix_app a b : HasSuffix (a ++ b)%string b = true.
Proof.
  unfold HasSuffix. rewrite length_app_s. rewrite bool_decide_eq_true_2 by lia.
  by rewrite Nat.add_sub, skip_app, bool_decide_eq_true_2.
Qed.

Lemma TrimSuffix_app a b : TrimSuffix (a ++ b)%string b = a.
Proof. unfold TrimSuffix. by rewrite HasSuffix_app, length_app_s, Nat.add_sub, substring_app. Qed.

Lemma TrimPrefix_app a b : TrimPrefix (a ++ b)%string a = b.
Proof. unfold TrimPrefix, HasPrefix. by rewrite prefix_app, skip_app. Qed.

Lemma app_nil_r_s (a : string) : (a ++ "")%string = a.
Proof. induction a as [|c a IH]; [done|]. exact (f_equal (String c) IH). Qed.

(** The bytes of a string satisfy a predicate. *)
Fixpoint all_bytes (f : ascii -> bool) (s : string) : bool :=
  match s with EmptyString => true | String c s => f c && all_bytes f s end.

Lemma all_bytes_app f a b : all_bytes f (a ++ b)%string = all_bytes f a && all_bytes f b.
Proof. induction a as [|c a IH]; [done|]. simpl. rewrite <- andb_assoc. by rewrite <- IH. Qed.

Definition not_byte (c x : ascii) : bool := negb (Ascii.eqb x c).

Lemma isHex_bytes s : isHex s = all_bytes hex_char s.
Proof. induction s as [|c s IH]; [done|]. simpl. by rewrite IH. Qed.

Lemma hex_no c s : hex_char c = false -> isHex s = true -> all_bytes (not_byte c) s = true.
Proof.
  intros Hc. induction s as [|x s IH]; simpl; [done|]. intros [Hx Hs]%andb_true_iff.
  rewrite IH by done. unfold not_byte. destruct (Ascii.eqb_spec x c); [congruence|done].
Qed.

Lemma cut_last_app c a b : all_bytes (not_byte c) b = true -> cut_last c (a ++ String c b)%string = Some (a, b).
Proof.
  intros Hb. assert (cut_last c b = None) as Hn.
  { clear a. induction b as [|x b IH]; [done|]. simpl in *. apply andb_true_iff in Hb as [Hx Hb].
    rewrite IH by done. unfold not_byte in Hx. by destruct (Ascii.eqb x c). }
  induction a as [|x a IH]; simpl.
  - by rewrite Hn, Ascii.eqb_refl.
  - fold String.append. by rewrite IH.
Qed.

(** The last component of a path. *)
Lemma Cut_slash c t : Cut (String c t) "/"
  = if Ascii.ascii_dec "/" c then Some ("", t) else '(a, b) ← Cut t "/"; Some (String c a, b).
Proof. rewrite Cut_eq. cbn [String.prefix]. destruct (Ascii.ascii_dec "/" c); [by destruct t|done]. Qed.

Lemma Split_slash c t : Split (String c t) "/"
  = if Ascii.ascii_dec "/" c then "" :: Split t "/"
    else match Split t "/" with x :: xs => String c x :: xs | [] => [] end.
Proof.
  rewrite Split_eq, Cut_slash by done. destruct (Ascii.ascii_dec "/" c); [done|].
  rewrite (Split_eq t) by done. by destruct (Cut t "/") as [[a b]|].
Qed.

Lemma Split_no_slash s : all_bytes (not_byte "/") s = true -> Split s "/" = [s].
Proof.
  induction s as [|c s IH]; [done|]. cbn [all_bytes]. intros [Hc Hs]%andb_true_iff.
  rewrite Split_slash, IH by done. destruct (Ascii.ascii_dec "/" c) as [<-|]; [|done]. done.
Qed.

Lemma last_component a s : all_bytes (not_byte "/") s = true -> last (Split (a ++ "/" ++ s) "/") = Some s.
Proof.
  intros Hs. assert (exists x l, Split (a ++ "/" ++ s) "/" = x :: l ++ [s]) as (x & l & ->).
  { induction a as [|c a (x & l & IH)].
    - exists "", []. change ("" ++ "/" ++ s)%string with (String "/" s). by rewrite Split_slash, Split_no_slash.
    - change (String c a ++ "/" ++ s)%string with (String c (a ++ "/" ++ s)). rewrite Split_slash, IH.
      destruct (Ascii.ascii_dec "/" c); [by exists "", (x :: l)|by exists (String c x), l]. }
  by rewrite app_comm_cons, last_snoc.
Qed.

(** ** The container id *)

(** The name of a container's directory, by runtime: CRI-O's scopes, containerd's
    bare ids, and scopes with any other prefix. *)
Inductive runtime_dir (cid : string) : string -> Prop :=
  | crio_dir : all_bytes (not_byte "/") cid = true -> runtime_dir cid ("crio-" ++ cid ++ ".scope")
  | containerd_dir : isHex cid = true -> String.length cid = 64%nat -> runtime_dir cid cid
  | scope_dir pre : isHex cid = true -> (12 <= String.length cid)%nat -> all_bytes (not_byte "/") pre = true ->
      HasPrefix (pre ++ "-" ++ cid ++ ".scope") "crio-" = false -> runtime_dir cid (pre ++ "-" ++ cid ++ ".scope").

Lemma runtime_dir_no_slash cid d : runtime_dir cid d -> all_bytes (not_byte "/") d = true.
Proof.
  destruct 1; rewrite ?all_bytes_app; repeat (apply andb_true_iff; split); try done; by apply hex_no.
Qed.

Lemma parse_runtime_dir base cid d : runtime_dir cid d -> parseContainerID (base ++ "/" ++ d) = inl cid.
Proof.
  intros H. unfold parseContainerID. rewrite last_component by by eapply runtime_dir_no_slash. cbn [default from_option id].
  destruct H as [Hs|Hh Hl|pre Hh Hl Hp Hc].
  - rewrite HasPrefix_app, <- app_assoc_s, HasSuffix_app, app_assoc_s, TrimPrefix_app. cbn [andb].
    by rewrite TrimSuffix_app.
  - assert (HasPrefix cid "crio-" = false) as ->.
    { destruct (HasPrefix cid "crio-") eqn:E; [|done]. apply prefix_spec in E.
      rewrite E, isHex_bytes, all_bytes_app in Hh. done. }
    cbn [andb]. by rewrite Hl, Hh.
  - rewrite Hc. cbn [andb].
    assert (isHex (pre ++ "-" ++ cid ++ ".scope") = false) as ->.
    { rewrite isHex_bytes, !all_bytes_app. simpl. by rewrite !andb_false_r. }
    rewrite andb_false_r. rewrite <- app_assoc_s, <- app_assoc_s, HasSuffix_app, TrimSuffix_app, app_assoc_s.
    change ("-" ++ cid)%string with (String "-" cid). rewrite cut_last_app by by apply hex_no.
    rewrite Hh. by rewrite (proj2 (Nat.leb_le _ _)).
Qed.

Lemma HasPrefix_split s a : HasPrefix s a = true -> exists b, s = (a ++ b)%string.
Proof. intros H. eexists. by apply prefix_spec. Qed.

Lemma HasSuffix_split s b : HasSuffix s b = true -> exists a, s = (a ++ b)%string.
Proof.
  unfold HasSuffix. intros [Hl Hs]%andb_true_iff. apply bool_decide_eq_true in Hl, Hs.
  remember (String.length s - String.length b)%nat as n eqn:En. clear En Hl.
  revert s Hs. induction n as [|n IH]; intros s Hs; [by exists ""|].
  destruct s as [|c s]; [by exists ""|]. destruct (IH s Hs) as [a ->]. by exists (String c a).
Qed.

Lemma cut_last_split c s a b : cut_last c s = Some (a, b) -> s = (a ++ String c b)%string.
Proof.
  revert a b. induction s as [|x s IH]; intros a b H; simpl in H; [done|].
  destruct (cut_last c s) as [[a' b']|].
  - injection H as <- <-. exact (f_equal (String x) (IH a' b' eq_refl)).
  - destruct (Ascii.eqb_spec x c) as [->|]; [|done]. by injection H as <- <-.
Qed.

Lemma crio_overlap a b : ("crio-" ++ b = a ++ ".scope")%string -> exists x, b = (x ++ ".scope")%string.
Proof.
  intros H. do 5 (destruct a as [|? a]; [by vm_compute in H|]). exists a. by injection H.
Qed.

Lemma parse_other base d : all_bytes (not_byte "/") d = true -> (forall cid, ~ runtime_dir cid d) ->
  parseContainerID (base ++ "/" ++ d) = inr (BadComponent d).
Proof.
  intros Hs Hno. unfold parseContainerID. rewrite last_component by done. cbn [default from_option id].
  destruct (HasPrefix d "crio-" && HasSuffix d ".scope") eqn:E1.
  { exfalso. apply andb_true_iff in E1 as [[b ->]%HasPrefix_split H2].
    destruct (HasSuffix_split _ _ H2) as [a Ha]. destruct (crio_overlap a b Ha) as [x ->].
    rewrite !all_bytes_app in Hs. apply andb_true_iff in Hs as [_ [Hx _]%andb_true_iff].
    by apply (Hno x), crio_dir. }
  destruct ((String.length d =? 64)%nat && isHex d) eqn:E2.
  { exfalso. apply andb_true_iff in E2 as [El%Nat.eqb_eq Eh]. by apply (Hno d), containerd_dir. }
  destruct (HasSuffix d ".scope") eqn:E3; [|done].
  destruct (HasSuffix_split _ _ E3) as [a ->]. rewrite TrimSuffix_app.
  destruct (cut_last "-" a) as [[pre cid]|] eqn:Ec; [|done].
  destruct ((12 <=? String.length cid)%nat && isHex cid) eqn:E4; [|done].
  exfalso. apply andb_true_iff in E4 as [El%Nat.leb_le Eh]. rewrite andb_true_r in E1.
  apply cut_last_split in Ec as ->.
  assert ((pre ++ String "-" cid) ++ ".scope" = pre ++ "-" ++ cid ++ ".scope")%string as Eq by (by rewrite app_assoc_s).
  rewrite Eq in *. rewrite !all_bytes_app in Hs. apply andb_true_iff in Hs as [Hp _].
  by apply (Hno cid), (scope_dir cid pre).
Qed.

(** C36: the container id is recovered from its cgroup directory, wherever that
    is, for CRI-O's [crio-<id>.scope], for containerd's 64 hex digits, and for any
    other [<prefix>-<id>.scope] with at least twelve hex digits; when none of
    these is the last component, the path is an error. *)
Theorem parse_recovers_id base d :
  (forall cid, runtime_dir cid d -> parseContainerID (base ++ "/" ++ d) = inl cid)
  /\ (all_bytes (not_byte "/") d = true -> (forall cid, ~ runtime_dir cid d) ->
      parseContainerID (base ++ "/" ++ d) = inr (BadComponent d)).
Proof.
  split; [intros cid; apply parse_runtime_dir|]. intros Hs Hno. by apply parse_other.
Qed.

(** ** The pod *)
Lemma matches_prefix cid cs : matches cid cs = HasPrefix (csID cs) cid.
Proof.
  unfold matches. case_bool_decide as H; [|done]. subst. unfold HasPrefix.
  pose proof (prefix_app (csID cs) "") as Hp. by rewrite app_nil_r_s in Hp.
Qed.

Lemma find_container_spec cid pod css :
  match find_container cid pod css with
  | Some i => exists a cs b, css = a ++ cs :: b /\ i = identity_of pod cs /\ HasPrefix (csID cs) cid = true
      /\ Forall (fun cs => HasPrefix (csID cs) cid = false) a
  | None => Forall (fun cs => HasPrefix (csID cs) cid = false) css
  end.
Proof.
  induction css as [|cs css IH]; [constructor|]. cbn [find_container]. rewrite matches_prefix.
  destruct (HasPrefix (csID cs) cid) eqn:E; [by exists [], cs, css|].
  destruct (find_container cid pod css) as [i|]; [|by constructor].
  destruct IH as (a & x & b & -> & ? & ? & ?). exists (cs :: a), x, b. split_and!; try done. by constructor.
Qed.

(** All the containers listed, in order. *)
Definition containers (pods : list kubeletPod) : list (kubeletPod * kubeletContainerStatus) :=
  mjoin ((fun pod => (pair pod) <$> kp_ContainerStatuses pod) <$> pods).

Lemma findPod_spec cid pods :
  match findPodByContainerID pods cid with
  | inl i => exists a pod cs b, containers pods = a ++ (pod, cs) :: b /\ i = identity_of pod cs
      /\ HasPrefix (csID cs) cid = true /\ Forall (fun e => HasPrefix (csID (snd e)) cid = false) a
  | inr e => e = ContainerNotFound cid /\ Forall (fun e => HasPrefix (csID (snd e)) cid = false) (containers pods)
  end.
Proof.
  induction pods as [|pod pods IH]; [done|]. cbn [findPodByContainerID].
  assert (forall css, Forall (fun cs => HasPrefix (csID cs) cid = false) css ->
    Forall (fun e => HasPrefix (csID (snd e)) cid = false) (pair pod <$> css)) as Hpair.
  { intros css Hc. apply Forall_fmap. eapply Forall_impl; [exact Hc|done]. }
  unfold containers in *. csimpl. pose proof (find_container_spec cid pod (kp_ContainerStatuses pod)) as Hf.
  destruct (find_container cid pod (kp_ContainerStatuses pod)) as [i|].
  - destruct Hf as (a & cs & b & -> & -> & Hp & Ha). rewrite fmap_app, <- app_assoc. csimpl.
    eexists _, pod, cs, _. split_and!; [done|done|done|by apply Hpair].
  - destruct (findPodByContainerID pods cid) as [i|e].
    + destruct IH as (a & p & cs & b & -> & -> & Hp & Ha). rewrite app_assoc.
      eexists _, p, cs, _. split_and!; [done|done|done|]. apply Forall_app. split; [by apply Hpair|done].
    + destruct IH as [-> Ha]. split; [done|]. apply Forall_app. split; [by apply Hpair|done].
Qed.

(** An empty container id, as [crio-.scope] gives, names the first container of
    the node, whatever it is. *)
Lemma empty_id_is_first_container base pods pod cs rest :
  containers pods = (pod, cs) :: rest ->
  parseContainerID (base ++ "/crio-.scope") = inl "" /\ findPodByContainerID pods "" = inl (identity_of pod cs).
Proof.
  intros Hc. split; [by apply (parse_runtime_dir base "" "crio-.scope"), crio_dir|].
  pose proof (findPod_spec "" pods) as H. rewrite Hc in H.
  destruct (findPodByContainerID pods "") as [i|e].
  - destruct H as (a & p & c & b & E & -> & _ & Ha). destruct a as [|x a]; simplify_eq/=; [done|].
    apply Forall_inv in Ha. by destruct (csID _) in Ha.
  - destruct H as [_ H]. apply Forall_inv in H. by destruct (csID _) in H.
Qed.

(** C15: the lookup as a whole.  A cgroup whose id only the directory [base/d] has,
    [d] being the directory of container [cid] under any of the runtimes, resolves
    to the first pod and container the kubelet lists whose container id starts
    with [cid], with that pod's workload key and the resolver's node; if there is
    none, or the kubelet fails, or no directory has the id, it is that error. *)
Theorem lookup_finds_pod node_name root_path w id parent d cid :
  has_id w root_path id (parent ++ "/" ++ d) ->
  (forall d', has_id w root_path id d' -> d' = (parent ++ "/" ++ d)%string) ->
  runtime_dir cid d ->
  match lookup node_name root_path w id with
  | inl i => exists pods a pod cs b, w_kubelet w = PodList pods /\ containers pods = a ++ (pod, cs) :: b
      /\ HasPrefix (csID cs) cid = true /\ Forall (fun e => HasPrefix (csID (snd e)) cid = false) a
      /\ i = mk_PodIdentity (kp_Namespace pod) (kp_Name pod) (cs_Name cs) (workload_key pod) node_name
  | inr e => match w_kubelet w with
             | PodList pods => e = ContainerNotFound cid
                 /\ Forall (fun e => HasPrefix (csID (snd e)) cid = false) (containers pods)
             | RequestFailed => e = KubeletRequest
             | BadJSON => e = KubeletDecode
             end
  end.
Proof.
  intros Hd Hu Hr. unfold lookup. pose proof (resolveCgroupPath_spec w id root_path) as Hp.
  destruct (resolveCgroupPath w id root_path) as [p|e]; [|by destruct Hp as [_ Hp]; destruct (Hp _ Hd)].
  rewrite (Hu p Hp), (parse_runtime_dir parent cid d Hr). unfold queryKubelet.
  destruct (w_kubelet w) as [| |pods]; [done..|]. pose proof (findPod_spec cid pods) as Hf.
  destruct (findPodByContainerID pods cid) as [i|e]; [|done].
  destruct Hf as (a & pod & cs & b & Hc & -> & Hm & Ha). by exists pods, a, pod, cs, b.
Qed.
End Lookup.

Module Cache.
Import Lookup.

(** ** Configuration *)
Record CgroupResolverConfig := mk_config {
  cfg_KubeletURL : string; cfg_NodeName : string; cfg_CacheTTL : Z; cfg_CgroupBasePath : string }.

Definition DefaultCgroupResolverConfig : CgroupResolverConfig :=
  mk_config "https://localhost:10250" "" (30 * 1000000000) "/sys/fs/cgroup".

Record cachedIdentity := mk_cachedIdentity { ci_identity : PodIdentity; ci_expiry : Z }.

Record CgroupResolver := mk_CgroupResolver {
  cache : gmap Z cachedIdentity; kubeletURL : string; nodeName : string; cacheTTL : Z; cgroupBasePath : string }.

Definition NewCgroupResolver (cfg : CgroupResolverConfig) : CgroupResolver :=
  mk_CgroupResolver ∅ (cfg_KubeletURL cfg) (cfg_NodeName cfg)
    (if cfg_CacheTTL cfg =? 0 then 30 * 1000000000 else cfg_CacheTTL cfg)
    (if bool_decide (cfg_CgroupBasePath cfg = "") then "/sys/fs/cgroup" else cfg_CgroupBasePath cfg).

Definition set_cache (c : gmap Z cachedIdentity) (r : CgroupResolver) : CgroupResolver :=
  mk_CgroupResolver c (kubeletURL r) (nodeName r) (cacheTTL r) (cgroupBasePath r).

(** [ok && time.Now().Before(cached.expiry)] *)
Definition fresh (now : Z) (cached : option cachedIdentity) : option PodIdentity :=
  match cached with
  | Some c => if now <? ci_expiry c then Some (ci_identity c) else None
  | None => None
  end.

(** [Resolve], called alone: [checked] and [stored] are its two clock readings. *)
Definition Resolve (checked : Z) (w : world) (stored : Z) (cgroupID : Z) (r : CgroupResolver) :
  CgroupResolver * result PodIdentity :=
  match fresh checked (cache r !! cgroupID) with
  | Some found => (r, inl found)
  | None =>
      match lookup (nodeName r) (cgroupBasePath r) w cgroupID with
      | inr e => (r, inr e)
      | inl found => (set_cache (<[cgroupID := mk_cachedIdentity found (stored + cacheTTL r)]> (cache r)) r, inl found)
      end
  end.

(** [now.After(cached.expiry)] *)
Definition expired (now : Z) (e : Z * cachedIdentity) : Prop := ci_expiry (snd e) < now.

#[global] Instance expired_dec now e : Decision (expired now e).
Proof. unfold expired. apply _. Defined.

Definition EvictExpired (now : Z) (r : CgroupResolver) : CgroupResolver * Z :=
  (set_cache (filter (fun e => ~ expired now e) (cache r)) r,
   Z.of_nat (size (filter (expired now) (cache r)))).

Definition CacheStats (r : CgroupResolver) : Z * Z := (Z.of_nat (size (cache r)), 0).

(** ** Interleaved calls

    The mutex makes each access to the map atomic; the clock is read, and the
    lookup runs, outside of it.  The threads are written against an interface of
    what the map does. *)
Class CacheOps (S : Type) := {
  cget : Z -> S -> option cachedIdentity;
  cput : Z -> cachedIdentity -> S -> S;
  cevict : Z -> S -> S }.

#[export] Instance real_cache : CacheOps CgroupResolver := {
  cget id r := cache r !! id;
  cput id e r := set_cache (<[id := e]> (cache r)) r;
  cevict now r := fst (EvictExpired now r) }.

(** Where a goroutine is: in [Resolve] with what it read from the cache, in
    [Resolve] after a miss, or in [EvictExpired] with the time it read. *)
Inductive thread :=
  | Looking (id : Z) (cached : option cachedIdentity) | Missed (id : Z) | Evicting (now : Z).

Inductive event :=
  | Read (tid : nat) (id : Z)                   (* r.cache[cgroupID] *)
  | CheckExpiry (tid : nat) (now : Z)           (* ok && time.Now().Before(...) *)
  | Finish (tid : nat) (w : world) (now : Z)    (* the lookup, and the store *)
  | EvictBegin (tid : nat) (now : Z)            (* now := time.Now() *)
  | EvictEnd (tid : nat).                       (* the locked loop *)

Record answer := mk_answer { a_tid : nat; a_id : Z; a_hit : bool; a_result : result PodIdentity }.

Section threads.
Context {S : Type} `{CacheOps S}.
Variables (node_name base : string) (ttl : Z).

Definition step (e : event) (st : S * gmap nat thread) : option (S * gmap nat thread * list answer) :=
  let '(s, ts) := st in
  match e with
  | Read tid id =>
      match ts !! tid with
      | None => Some (s, <[tid := Looking id (cget id s)]> ts, [])
      | Some _ => None
      end
  | CheckExpiry tid now =>
      match ts !! tid with
      | Some (Looking id c) =>
          match fresh now c with
          | Some found => Some (s, delete tid ts, [mk_answer tid id true (inl found)])
          | None => Some (s, <[tid := Missed id]> ts, [])
          end
      | _ => None
      end
  | Finish tid w now =>
      match ts !! tid with
      | Some (Missed id) =>
          match lookup node_name base w id with
          | inl found => Some (cput id (mk_cachedIdentity found (now + ttl)) s, delete tid ts, [mk_answer tid id false (inl found)])
          | inr err => Some (s, delete tid ts, [mk_answer tid id false (inr err)])
          end
      | _ => None
      end
  | EvictBegin tid now =>
      match ts !! tid with
      | None => Some (s, <[tid := Evicting now]> ts, [])
      | Some _ => None
      end
  | EvictEnd tid =>
      match ts !! tid with
      | Some (Evicting now) => Some (cevict now s, delete tid ts, [])
      | _ => None
      end
  end.

(** A run, and the answers it gives; [None] when an event is not possible. *)
Fixpoint run (es : list event) (st : S * gmap nat thread) : option (S * gmap nat thread * list answer) :=
  match es with
  | [] => Some (st, [])
  | e :: es => '(st, out) ← step e st; '(st, outs) ← run es st; Some (st, out ++ outs)
  end.
End threads.

(** ** The specification: a history without eviction

    What was stored, in order; a lookup of an id sees the last identity stored
    for it. *)
Definition history : Type := list (Z * cachedIdentity).

Definition last_stored (id : Z) (h : history) : option cachedIdentity :=
  last (omap (fun e => if decide (fst e = id) then Some (snd e) else None) h).

#[export] Instance ideal_cache : CacheOps history := {
  cget := last_stored;
  cput id e h := h ++ [(id, e)];
  cevict _ h := h }.

(** The clock readings never go back. *)
Definition event_time (e : event) : option Z :=
  match e with
  | CheckExpiry _ now | Finish _ _ now | EvictBegin _ now => Some now
  | Read _ _ | EvictEnd _ => None
  end.

Fixpoint clocked (t : Z) (es : list event) : Prop :=
  match es with
  | [] => True
  | e :: es => match event_time e with Some now => t <= now /\ clocked now es | None => clocked t es end
  end.

(** What the cache knows of an identity: all the history does, unless that has
    expired. *)
Definition knows (t : Z) (real ideal : option cachedIdentity) : Prop :=
  real = ideal \/ real = None /\ exists c, ideal = Some c /\ ci_expiry c < t.

Definition thread_rel (t : Z) (real ideal : thread) : Prop :=
  match real, ideal with
  | Looking id c, Looking id' c' => id = id' /\ knows t c c'
  | Missed id, Missed id' => id = id'
  | Evicting now, Evicting now' => now = now' /\ now <= t
  | _, _ => False
  end.

Definition sys_rel (t : Z) (real : CgroupResolver * gmap nat thread) (ideal : history * gmap nat thread) : Prop :=
  (forall id, knows t (cache (fst real) !! id) (last_stored id (fst ideal)))
  /\ (forall tid, option_relation (thread_rel t) (fun _ => False) (fun _ => False) (snd real !! tid) (snd ideal !! tid)).

Lemma knows_mono t t' c c' : t <= t' -> knows t c c' -> knows t' c c'.
Proof. intros Ht [->|[-> (x & -> & Hx)]]; [by left|right]. split; [done|]. exists x. split; [done|lia]. Qed.

Lemma thread_rel_mono t t' x y : t <= t' -> thread_rel t x y -> thread_rel t' x y.
Proof.
  intros Ht. destruct x, y; simpl; try done; intros [??]; split; try done; [by eapply knows_mono|lia].
Qed.

Lemma sys_rel_mono t t' real ideal : t <= t' -> sys_rel t real ideal -> sys_rel t' real ideal.
Proof.
  intros Ht [H1 H2]. split; [intros id; by eapply knows_mono|].
  intros tid. specialize (H2 tid). destruct (_ !! tid), (_ !! tid); simpl in *; try done. by eapply thread_rel_mono.
Qed.

(** Expired or forgotten, the check misses alike. *)
Lemma knows_fresh t now c c' : t <= now -> knows t c c' -> fresh now c = fresh now c'.
Proof.
  intros Ht [->|[-> (x & -> & Hx)]]; [done|]. simpl. by rewrite (proj2 (Z.ltb_ge now (ci_expiry x))) by lia.
Qed.

Lemma threads_insert t (ts ts' : gmap nat thread) tid x y :
  (forall i, option_relation (thread_rel t) (fun _ => False) (fun _ => False) (ts !! i) (ts' !! i)) ->
  thread_rel t x y ->
  forall i, option_relation (thread_rel t) (fun _ => False) (fun _ => False) (<[tid := x]> ts !! i) (<[tid := y]> ts' !! i).
Proof.
  intros H Hx i. destruct (decide (tid = i)) as [->|Hne]; [by rewrite !lookup_insert_eq|].
  by rewrite !lookup_insert_ne.
Qed.

Lemma threads_delete t (ts ts' : gmap nat thread) tid :
  (forall i, option_relation (thread_rel t) (fun _ => False) (fun _ => False) (ts !! i) (ts' !! i)) ->
  forall i, option_relation (thread_rel t) (fun _ => False) (fun _ => False) (delete tid ts !! i) (delete tid ts' !! i).
Proof.
  intros H i. destruct (decide (tid = i)) as [->|Hne]; [by rewrite !lookup_delete_eq|].
  by rewrite !lookup_delete_ne.
Qed.

Lemma last_stored_put id id' e h :
  last_stored id (h ++ [(id', e)]) = if decide (id' = id) then Some e else last_stored id h.
Proof.
  unfold last_stored. rewrite omap_app. simpl. case_decide; [by rewrite last_snoc|by rewrite app_nil_r].
Qed.

Lemma cache_put r id id' e : cache (cput id' e r) !! id = if decide (id' = id) then Some e else cache r !! id.
Proof. simpl. case_decide; [subst; by rewrite lookup_insert_eq|by rewrite lookup_insert_ne]. Qed.

Lemma evict_lookup now r id :
  cache (fst (EvictExpired now r)) !! id
  = match cache r !! id with Some e => if decide (ci_expiry e < now) then None else Some e | None => None end.
Proof.
  simpl. rewrite map_lookup_filter. destruct (cache r !! id) as [e|]; simpl; [|done].
  case_guard as H1; unfold expired in H1; simpl in H1; case_decide; simpl; done || lia.
Qed.

Lemma evict_knows t now r id c : now <= t -> knows t (cache r !! id) c ->
  knows t (cache (fst (EvictExpired now r)) !! id) c.
Proof.
  intros Hn Hk. rewrite evict_lookup. destruct Hk as [Hk|[Hk ?]]; rewrite Hk; [|by right].
  destruct c as [x|]; [|by left]. case_decide as Hx; [|by left].
  right. split; [done|]. exists x. split; [done|lia].
Qed.

Definition step_time (t : Z) (e : event) : Z := default t (event_time e).

Section simulation.
Variables (node_name base : string) (ttl : Z).
Abbreviation stp := (step node_name base ttl).

Lemma step_simulates t e real ideal : sys_rel t real ideal -> t <= step_time t e ->
  match stp e real, stp e ideal with
  | Some (real', out), Some (ideal', out') => out = out' /\ sys_rel (step_time t e) real' ideal'
  | None, None => True
  | _, _ => False
  end.
Proof.
  destruct real as [r ts], ideal as [h ts']. intros HR Ht. apply (sys_rel_mono _ _ _ _ Ht) in HR as [HK HT].
  simpl in HK, HT. destruct e as [tid id|tid now|tid w now|tid now|tid];
    pose proof (HT tid) as Hx; cbn [step]; destruct (ts !! tid) as [x|], (ts' !! tid) as [y|]; simpl in Hx; try done.
  - split; [done|]. split; [done|]. simpl. by apply threads_insert.
  - destruct x, y; try done. destruct Hx as [<- Hk].
    rewrite (knows_fresh _ now _ _ (Z.le_refl _) Hk). destruct (fresh now cached0).
    + split; [done|]. split; [done|]. by apply threads_delete.
    + split; [done|]. split; [done|]. by apply threads_insert.
  - destruct x, y; try done. simpl in Hx. subst. destruct (lookup node_name base w _) as [f|err].
    + split; [done|]. split; [|by apply threads_delete]. intros i.
      unfold fst. rewrite cache_put. unfold cput, ideal_cache. rewrite last_stored_put.
      case_decide; [by left|apply HK].
    + split; [done|]. split; [done|]. by apply threads_delete.
  - split; [done|]. split; [done|]. apply threads_insert; [done|]. simpl. split; [done|]. unfold step_time. simpl. lia.
  - destruct x, y; try done. destruct Hx as [<- Hn]. split; [done|]. split; [|by apply threads_delete].
    intros i. by apply evict_knows.
Qed.

Lemma run_simulates es : forall t real ideal, sys_rel t real ideal -> clocked t es ->
  snd <$> run node_name base ttl es real = snd <$> run node_name base ttl es ideal.
Proof.
  induction es as [|e es IH]; intros t real ideal HR Hc; [done|]. cbn [run].
  assert (t <= step_time t e /\ clocked (step_time t e) es) as [Ht Hc'].
  { simpl in Hc. unfold step_time. destruct (event_time e); simpl; [done|]. split; [lia|done]. }
  pose proof (step_simulates t e real ideal HR Ht) as Hs.
  destruct (stp e real) as [[real' out]|], (stp e ideal) as [[ideal' out']|]; simpl; try done.
  destruct Hs as [<- HR']. specialize (IH _ _ _ HR' Hc').
  destruct (run node_name base ttl es real') as [[? outs]|], (run node_name base ttl es ideal') as [[? outs']|];
    simpl in *; try done. congruence.
Qed.
End simulation.

(** C14: the cache is a view of a history.  In any interleaving of [Resolve] and
    [EvictExpired] calls whose clock never goes back, every answer is the one a
    resolver without eviction would give: a call hits exactly when, at its read,
    some identity had been stored for the id, and the last one stored is, at its
    check, still younger than the TTL; it then answers that identity, and
    otherwise what its own lookup finds. *)
Theorem cache_refines_history cfg es t :
  clocked t es ->
  let r := NewCgroupResolver cfg in
  let run' {S} `{CacheOps S} (s : S) := run (nodeName r) (cgroupBasePath r) (cacheTTL r) es (s, ∅) in
  snd <$> run' r = snd <$> run' ([] : history).
Proof.
  intros Hc r run'. apply (run_simulates _ _ _ es t); [|done]. split; [|done].
  intros id. left. exact (lookup_empty id).
Qed.

(** ** Evicting, and what may be cached *)

(** [EvictExpired] removes exactly the entries past their expiry, and counts
    them; it changes the answer of no call made from then on. *)
Lemma evict_expired_exact now r :
  let r' := fst (EvictExpired now r) in
  (forall id c, cache r' !! id = Some c <-> cache r !! id = Some c /\ now <= ci_expiry c)
  /\ snd (EvictExpired now r) = fst (CacheStats r) - fst (CacheStats r')
  /\ (forall id now', now <= now' -> fresh now' (cache r' !! id) = fresh now' (cache r !! id)).
Proof.
  intros r'. split_and!.
  - intros id c. unfold r'. rewrite evict_lookup. destruct (cache r !! id) as [e|]; [|split; [done|by intros []]].
    case_decide; split; [done|intros [[= <-] ?]; lia|intros [= <-]; split; [done|lia]|by intros [[= <-] _]].
  - unfold r'. simpl. rewrite <- !size_dom.
    assert (dom (cache r) = dom (filter (expired now) (cache r)) ∪ dom (filter (fun e => ~ expired now e) (cache r))) as ->.
    { rewrite <- dom_union_L. f_equal. symmetry. apply map_filter_union_complement. }
    rewrite size_union; [lia|]. apply map_disjoint_dom, map_disjoint_filter_complement.
  - intros id now' Hn. apply (knows_fresh now'); [lia|]. apply (evict_knows now'); [done|by left].
Qed.

(** A lone [Resolve] is its threads' steps. *)
Lemma resolve_alone checked w stored id r :
  run (nodeName r) (cgroupBasePath r) (cacheTTL r)
    ([Read 0 id; CheckExpiry 0 checked]
     ++ (if decide (is_Some (fresh checked (cache r !! id))) then [] else [Finish 0 w stored])) (r, ∅)
  = let '(r', res) := Resolve checked w stored id r in
    Some (r', ∅, [mk_answer 0 id (bool_decide (is_Some (fresh checked (cache r !! id)))) res]).
Proof.
  unfold Resolve. cbn [app run step]. rewrite lookup_empty. cbn [mbind option_bind].
  cbn [run step]. rewrite lookup_insert_eq. change (cget id r) with (cache r !! id).
  destruct (fresh checked (cache r !! id)) as [found|] eqn:E.
  - rewrite decide_True, bool_decide_eq_true_2 by eauto. cbn [mbind option_bind run app].
    by rewrite delete_insert_eq.
  - rewrite decide_False, bool_decide_eq_false_2 by (by intros []). cbn [mbind option_bind run step].
    rewrite lookup_insert_eq.
    destruct (lookup (nodeName r) (cgroupBasePath r) w id); cbn [mbind option_bind run app];
      by rewrite insert_insert_eq, delete_insert_eq.
Qed.

Section transparent.
Variables (node_name base : string) (ttl : Z) (ideal : Z -> result PodIdentity).

(** Only what a lookup of the id finds is cached, or in the hands of a reader. *)
Definition sound (c : option cachedIdentity) (id : Z) : Prop :=
  match c with Some c => ideal id = inl (ci_identity c) | None => True end.

Definition sound_sys (st : CgroupResolver * gmap nat thread) : Prop :=
  (forall id, sound (cache (fst st) !! id) id)
  /\ (forall tid id c, snd st !! tid = Some (Looking id c) -> sound c id).

Definition answers_like (e : event) : Prop :=
  match e with Finish _ w _ => forall id, lookup node_name base w id = ideal id | _ => True end.

Lemma sound_threads (ts : gmap nat thread) tid x :
  (forall tid id c, ts !! tid = Some (Looking id c) -> sound c id) ->
  (forall id c, x = Looking id c -> sound c id) ->
  forall tid' id c, <[tid := x]> ts !! tid' = Some (Looking id c) -> sound c id.
Proof. intros H Hx tid' id c [[-> E]|[_ E]]%lookup_insert_Some; eauto. Qed.

Lemma sound_threads_delete (ts : gmap nat thread) tid :
  (forall tid id c, ts !! tid = Some (Looking id c) -> sound c id) ->
  forall tid' id c, delete tid ts !! tid' = Some (Looking id c) -> sound c id.
Proof. intros H tid' id c [_ E]%lookup_delete_Some. eauto. Qed.

Lemma fresh_sound now c id found : fresh now c = Some found -> sound c id -> ideal id = inl found.
Proof. destruct c; simpl; [|done]. intros H Hs. case_match; [|done]. congruence. Qed.

Lemma step_sound e st st' out : sound_sys st -> answers_like e -> step node_name base ttl e st = Some (st', out) ->
  sound_sys st' /\ Forall (fun a => a_result a = ideal (a_id a)) out.
Proof.
  destruct st as [r ts]. intros [HC HT] He Hs. simpl in HC, HT.
  destruct e as [tid id|tid now|tid w now|tid now|tid]; simpl in Hs;
    destruct (ts !! tid) as [[id' c|id'|now']|] eqn:E; try done.
  - simplify_eq. split; [|done]. split; [done|]. apply sound_threads; [done|]. intros id' c [= <- <-]. apply HC.
  - pose proof (HT _ _ _ E) as Hc. destruct (fresh now c) as [found|] eqn:F; simplify_eq.
    + split; [split; [done|by apply sound_threads_delete]|]. constructor; [|done]. symmetry. by eapply fresh_sound.
    + split; [|done]. split; [done|]. by apply sound_threads.
  - simpl in He. rewrite He in Hs. destruct (ideal id') as [found|err] eqn:F; simplify_eq.
    + split; [split; [|by apply sound_threads_delete]|by constructor].
      intros i. simpl. destruct (decide (id' = i)) as [->|Hne];
        [by rewrite lookup_insert_eq|rewrite lookup_insert_ne by done; apply HC].
    + split; [split; [done|by apply sound_threads_delete]|by constructor].
  - simplify_eq. split; [|done]. split; [done|]. by apply sound_threads.
  - simplify_eq. split; [|done]. split; [|by apply sound_threads_delete]. intros i. specialize (HC i).
    pose proof (evict_lookup now' r i) as Hev. simpl in *. rewrite Hev. destruct (cache r !! i); [|done]. by case_decide.
Qed.

Lemma run_sound es : forall st st' outs, sound_sys st -> Forall answers_like es ->
  run node_name base ttl es st = Some (st', outs) -> Forall (fun a => a_result a = ideal (a_id a)) outs.
Proof.
  induction es as [|e es IH]; intros st st' outs Hs Hes H; cbn [run] in H; [by simplify_eq|].
  apply Forall_cons in Hes as [He Hes]. destruct (step node_name base ttl e st) as [[st1 out]|] eqn:E1; [|done].
  cbn [mbind option_bind] in H. destruct (run node_name base ttl es st1) as [[st2 outs2]|] eqn:E2; [|done].
  cbn [mbind option_bind] in H. simplify_eq. destruct (step_sound e st st1 out Hs He E1) as [Hs1 Ho].
  apply Forall_app. split; [done|]. by eapply IH.
Qed.
End transparent.

(** C16: the cache is transparent while nothing changes.  If every lookup made
    during a run would find the same for each id, then in any interleaving, with
    any clock and any evictions, every answer, hit or not and success or error, is
    what a lookup of that id finds. *)
Theorem cache_transparent cfg es w st' outs :
  let r := NewCgroupResolver cfg in
  Forall (answers_like (nodeName r) (cgroupBasePath r) (lookup (nodeName r) (cgroupBasePath r) w)) es ->
  run (nodeName r) (cgroupBasePath r) (cacheTTL r) es (r, ∅) = Some (st', outs) ->
  Forall (fun a => a_result a = lookup (nodeName r) (cgroupBasePath r) w (a_id a)) outs.
Proof.
  intros r. apply run_sound. split; [|done]. intros id. by rewrite (lookup_empty id : cache r !! id = None).
Qed.
End Cache.

(** ** Witnesses: a node with one CRI-O container *)
Module Demo.
Import Lookup Cache.

Definition demo_dir : string := "/sys/fs/cgroup/kubepods.slice/crio-abc123.scope".

Definition demo_world : world :=
  mk_world
    (Dir "cgroup" [File "cgroup.stat"; Broken "dev";
                   Dir "kubepods.slice" [Dir "crio-abc123.scope" [File "cgroup.id"; File "cgroup.stat"]]])
    (fun path => if bool_decide (path = "/sys/fs/cgroup/kubepods.slice/crio-abc123.scope/cgroup.id")
                 then Some (bytes [55; 10]%nat) else None)
    (PodList [mk_kubeletPod "web-5d4b-x2" "default" [mk_OwnerReference "ReplicaSet" "web-5d4b"]
                [mk_kubeletContainerStatus "init" ""; mk_kubeletContainerStatus "web" "cri-o://abc123"]]).

Definition demo_identity : PodIdentity := mk_PodIdentity "default" "web-5d4b-x2" "web" "default/Deployment/web" "n1".
Definition demo_config : CgroupResolverConfig := mk_config "" "n1" 0 "".

Lemma demo_lookup : lookup "n1" "/sys/fs/cgroup" demo_world 7 = inl demo_identity.
Proof. vm_compute. reflexivity. Qed.

Lemma demo_has_id : has_id demo_world "/sys/fs/cgroup" 7 demo_dir.
Proof.
  split; [reflexivity|]. exists (demo_dir ++ "/cgroup.stat")%string. split; [|reflexivity].
  eapply (entry_below _ _ _ (Dir "kubepods.slice" _)); [right; right; left|].
  eapply (entry_below _ _ _ (Dir "crio-abc123.scope" _)); [left|].
  eapply (entry_below _ _ _ (File "cgroup.stat")); [right; left|]. constructor.
Qed.

Lemma demo_unique d : has_id demo_world "/sys/fs/cgroup" 7 d -> d = demo_dir.
Proof.
  intros [H _]. unfold readCgroupID in H. simpl in H. case_bool_decide as E; [|done].
  apply (f_equal (fun s => TrimSuffix s "/cgroup.id")) in E. unfold Join in E. simpl "/" in E.
  change ("/" ++ "cgroup.id")%string with "/cgroup.id" in E. rewrite TrimSuffix_app in E. exact E.
Qed.

Lemma demo_runtime_dir : runtime_dir "abc123" "crio-abc123.scope".
Proof. exact (crio_dir "abc123" eq_refl). Qed.

Lemma parse_recovers_id_witness : parseContainerID demo_dir = inl "abc123".
Proof.
  exact (proj1 (parse_recovers_id "/sys/fs/cgroup/kubepods.slice" "crio-abc123.scope") "abc123" demo_runtime_dir).
Defined.

Lemma lookup_finds_pod_witness : exists pods a pod cs b,
  w_kubelet demo_world = PodList pods /\ containers pods = a ++ (pod, cs) :: b
  /\ HasPrefix (csID cs) "abc123" = true /\ Forall (fun e => HasPrefix (csID (snd e)) "abc123" = false) a
  /\ demo_identity = mk_PodIdentity (kp_Namespace pod) (kp_Name pod) (cs_Name cs) (workload_key pod) "n1".
Proof.
  pose proof (lookup_finds_pod "n1" "/sys/fs/cgroup" demo_world 7 "/sys/fs/cgroup/kubepods.slice" "crio-abc123.scope"
    "abc123" demo_has_id demo_unique demo_runtime_dir) as H.
  rewrite demo_lookup in H. exact H.
Defined.

(** A miss, a hit, an eviction that keeps the entry, a hit, and after the TTL a
    miss with a kubelet that fails. *)
Definition demo_broken : world := mk_world (w_root demo_world) (w_read demo_world) RequestFailed.

Definition demo_events : list event :=
  [Read 1 7; Read 2 7; CheckExpiry 1 10; Finish 1 demo_world 20; CheckExpiry 2 30; Read 3 7; CheckExpiry 3 40;
   EvictBegin 4 50; EvictEnd 4; Finish 2 demo_world 60; EvictBegin 4 40000000000; EvictEnd 4;
   Read 1 7; CheckExpiry 1 50000000000; Finish 1 demo_broken 50000000001].

Lemma demo_answers :
  snd <$> run "n1" "/sys/fs/cgroup" 30000000000 demo_events (NewCgroupResolver demo_config, ∅)
  = Some [mk_answer 1 7 false (inl demo_identity); mk_answer 3 7 true (inl demo_identity);
          mk_answer 2 7 false (inl demo_identity); mk_answer 1 7 false (inr KubeletRequest)].
Proof. vm_compute. reflexivity. Qed.

Lemma cache_refines_history_witness :
  snd <$> run "n1" "/sys/fs/cgroup" 30000000000 demo_events ([] : history, ∅)
  = Some [mk_answer 1 7 false (inl demo_identity); mk_answer 3 7 true (inl demo_identity);
          mk_answer 2 7 false (inl demo_identity); mk_answer 1 7 false (inr KubeletRequest)].
Proof.
  rewrite <- demo_answers. symmetry. apply (cache_refines_history demo_config demo_events 0). simpl. lia.
Defined.

Lemma demo_run_works : exists st,
  run "n1" "/sys/fs/cgroup" 30000000000 (take 9 demo_events) (NewCgroupResolver demo_config, ∅)
  = Some (st, [mk_answer 1 7 false (inl demo_identity); mk_answer 3 7 true (inl demo_identity)]).
Proof. eexists. vm_compute. reflexivity. Qed.

Lemma cache_transparent_witness :
  Forall (fun a => a_result a = lookup "n1" "/sys/fs/cgroup" demo_world (a_id a))
    [mk_answer 1 7 false (inl demo_identity); mk_answer 3 7 true (inl demo_identity)].
Proof.
  destruct demo_run_works as [st H].
  apply (cache_transparent demo_config (take 9 demo_events) demo_world st).
  - repeat constructor.
  - exact H.
Defined.
End Demo.
