(* ===== verification/Plugin.v ===== *)
(** * pkg/scoring/akil_score.go: the scheduler plugin, and the queries it makes

    [AkilScorePlugin.Score]: two gRPC queries, the filter on neighbours, the
    score.  A query that fails (an error, or the timeout) has no answer.  The
    server side of [QueryNodeProfiles] (cmd/aggregator/main.go) is here too. *)
From S2P Require Import Prelude Float64 Window ProfileStore Store Scorer Aggregator Resolver.
#[local] Open Scope string_scope.
#[local] Open Scope list_scope.
#[local] Open Scope Z_scope.

(** ** The server *)
Definition grpc_QueryNodeProfiles (nodeName : string) (visits : list (string * loc * Time)) (s : Store) :
  option (Store * (list pb_RuntimeProfile + string)) :=
  if bool_decide (nodeName = "") then Some (s, inr "node_name required") else
  match QueryNodeProfiles nodeName visits s with
  | Some (s, ps) => Some (s, inl (profileToProto <$> ps))
  | None => None
  end.

(** ** Configuration *)
Definition Millisecond : Duration := 1000000.
Definition defaultQueryTimeout : Duration := 5 * Millisecond.

(** [New]: the timeout for [args.QueryTimeoutMs]. *)
Definition query_timeout (queryTimeoutMs : Z) : Duration :=
  if 0 <? queryTimeoutMs then i64! (queryTimeoutMs * Millisecond) else defaultQueryTimeout.

Record Args := mk_Args { AggregatorAddress : string; QueryTimeoutMs : Z }.

Record AkilScorePlugin := mk_plugin { pl_address : string; pl_timeout : Duration; pl_scorer : Scorer }.

(** [New]: [raw] is the args block, if there is one; [Unmarshal] decodes it over the
    defaults, [NewClient] prepares a connection to an address.  Waiting up to two
    seconds for the connection changes nothing in the result. *)
Definition New (Unmarshal : string -> Args -> Args + string) (NewClient : string -> option string)
  (raw : option string) : AkilScorePlugin + string :=
  let args := mk_Args "localhost:50051" 0 in
  let args := match raw with
              | Some raw => if bool_decide (raw = "") then inl args else Unmarshal raw args
              | None => inl args
              end in
  match args with
  | inr err => inr ("decode AkilScore args: " ++ err)%string
  | inl args =>
      match NewClient (AggregatorAddress args) with
      | Some err => inr ("failed to dial aggregator: " ++ err)%string
      | None => inl (mk_plugin (AggregatorAddress args) (query_timeout (QueryTimeoutMs args))
                       (NewScorer DefaultScorerConfig))
      end
  end.

(** ** Score *)

(** The answers to the two queries, by request. *)
Record client := mk_client {
  cl_QueryProfile : string -> option pb_RuntimeProfile;
  cl_QueryNodeProfiles : string -> option (list pb_RuntimeProfile) }.

Definition fromProto (r : pb_RuntimeProfile) : RuntimeProfile :=
  mk_RuntimeProfile (pb_WorkloadKey r) (pb_PageFaultRate r) (pb_CacheMissRate r) (pb_LockContentionRatio r)
    (pb_ContextSwitchRate r) (pb_SampleCount r) zero_time zero_time (pb_Confidence r).

Definition getWorkloadKey (pod : Pod) : string :=
  match pod_OwnerReferences pod with
  | ref :: _ => (pod_Namespace pod ++ "/" ++ or_Kind ref ++ "/" ++ or_Name ref)%string
  | [] => (pod_Namespace pod ++ "/Pod/" ++ pod_Name pod)%string
  end.

(** The loop over the node's profiles. *)
Definition keeps (workloadKey : string) (npKey : string) : bool :=
  negb (bool_decide (npKey = workloadKey)) && negb (Contains npKey "/DaemonSet/").

Definition neighbours (workloadKey : string) (profiles : list pb_RuntimeProfile) : list RuntimeProfile :=
  fromProto <$> filter (fun np => keeps workloadKey (pb_WorkloadKey np) = true) profiles.

Section plugin.
Context (undef : f64 -> Z) (scorer : Scorer) (cl : client).

Definition Score (pod : Pod) (nodeName : string) : Z :=
  let workloadKey := getWorkloadKey pod in
  match cl_QueryProfile cl workloadKey with
  | None => NeutralScore
  | Some cand =>
      match cl_QueryNodeProfiles cl nodeName with
      | None => NeutralScore
      | Some profiles =>
          sr_Score (Scorer.Score undef scorer (fromProto cand) (neighbours workloadKey profiles))
      end
  end.
End plugin.

(** ** What [New] makes *)

(** A plugin that [New] makes scores with the default weights, in the terms of
    [scorer_ok], and with a positive timeout if the configured one fits in a
    [Duration]: below 9223372036855 ms; beyond, the product wraps. *)
Theorem new_plugin_ready Unmarshal NewClient raw p :
  New Unmarshal NewClient raw = inl p ->
  scorer_ok (pl_scorer p)
  /\ exists ms, pl_timeout p = query_timeout ms /\ (ms * Millisecond < 2 ^ 63 -> 0 < pl_timeout p).
Proof.
  unfold New. destruct (match raw with Some _ => _ | None => _ end) as [args|err]; [|done].
  destruct (NewClient (AggregatorAddress args)); [done|]. intros [= <-].
  split; [apply default_scorer_ok|]. exists (QueryTimeoutMs args). split; [done|]. intros Hms.
  unfold pl_timeout, query_timeout, defaultQueryTimeout, Millisecond in *. destruct (Z.ltb_spec 0 (QueryTimeoutMs args)); [|done].
  rewrite wrapS_id; [lia|lia|]. unfold inS. lia.
Qed.

Example timeout_wraps : query_timeout 9223372036855 < 0.
Proof. reflexivity. Qed.

(** ** The score does not see the times *)
Definition without_times (p : RuntimeProfile) : RuntimeProfile :=
  mk_RuntimeProfile (WorkloadKey p) (PageFaultRate p) (CacheMissRate p) (LockContentionRatio p)
    (ContextSwitchRate p) (SampleCount p) zero_time zero_time (rp_Confidence p).

Lemma from_to_proto p : known_confidence (rp_Confidence p) -> fromProto (profileToProto p) = without_times p.
Proof.
  intros Hk. unfold fromProto, profileToProto, without_times. simpl. rewrite wrapS_id; [done|lia|].
  destruct Hk as [-> | [-> | [-> | ->]]]; unfold inS; done.
Qed.

Lemma add_neighbour_times s c p t :
  add_neighbour s (without_times c) t (without_times p) = add_neighbour s c t p.
Proof. reflexivity. Qed.

Lemma Score_without_times undef s c ps :
  sr_Score (Scorer.Score undef s (without_times c) (without_times <$> ps)) = sr_Score (Scorer.Score undef s c ps).
Proof.
  assert (forall c ps t, foldl (add_neighbour s (without_times c)) t (without_times <$> ps)
    = foldl (add_neighbour s c) t ps) as K.
  { clear. intros c ps. induction ps as [|p ps IH]; intros t; [done|]. csimpl. apply IH. }
  destruct ps as [|p ps]; [done|]. unfold Scorer.Score. simpl rp_Confidence.
  destruct (rp_Confidence c =? ConfidenceUnknown) eqn:E.
  - change (without_times <$> p :: ps) with (without_times p :: (without_times <$> ps)).
    simpl WorkloadKey. pose proof (K (quiet (WorkloadKey c)) (p :: ps) zero_penalties) as K1.
    change (without_times (quiet (WorkloadKey c))) with (quiet (WorkloadKey c)) in K1.
    change (without_times <$> p :: ps) with (without_times p :: (without_times <$> ps)) in K1.
    by rewrite K1.
  - pose proof (K c (p :: ps) zero_penalties) as K1.
    change (without_times <$> p :: ps) with (without_times p :: (without_times <$> ps)) in *.
    by rewrite K1.
Qed.

Lemma confidence_of_known n : known_confidence (confidence_of n).
Proof. unfold confidence_of, known_confidence. repeat case_match; auto. Qed.

Lemma ComputeProfile_known now wp wp' p : ComputeProfile now wp = Some (wp', p) -> known_confidence (rp_Confidence p).
Proof.
  unfold ComputeProfile. destruct (maybeRotate now wp); simpl; [|done]. intros [= _ <-].
  apply confidence_of_known.
Qed.

Lemma compute_at_known now l s s' p : compute_at now l s = Some (s', p) -> known_confidence (rp_Confidence p).
Proof.
  unfold compute_at. destruct (heap s !! l) as [wp|]; simpl; [|done].
  destruct (ComputeProfile now wp) as [[wp' p']|] eqn:E; simpl; [|done]. intros [= _ <-].
  by eapply ComputeProfile_known.
Qed.

Lemma QueryProfile_known now key s s' p : QueryProfile now key s = Some (s', p) -> known_confidence (rp_Confidence p).
Proof.
  unfold QueryProfile. destruct (Get key s) as [l|]; [apply compute_at_known|]. intros [= _ <-]. by left.
Qed.

Lemma QueryNodeProfiles_known nodeName visits : forall s s' ps,
  QueryNodeProfiles nodeName visits s = Some (s', ps) -> Forall (fun p => known_confidence (rp_Confidence p)) ps.
Proof.
  induction visits as [|[[key l] now] visits IH]; intros s s' ps H; simpl in H; [by simplify_eq|].
  destruct (heap s !! l) as [wp|]; simpl in H; [|done]. case_bool_decide; [|by eapply IH].
  destruct (compute_at now l s) as [[s1 p]|] eqn:Ec; simpl in H; [|done].
  destruct (QueryNodeProfiles nodeName visits s1) as [[s2 ps2]|] eqn:Eq; simpl in H; [|done].
  simplify_eq. constructor; [by eapply compute_at_known|by eapply IH].
Qed.

Lemma neighbours_to_proto key ps :
  Forall (fun p => known_confidence (rp_Confidence p)) ps ->
  neighbours key (profileToProto <$> ps) = without_times <$> filter (fun p => keeps key (WorkloadKey p) = true) ps.
Proof.
  intros H. unfold neighbours. induction H as [|p ps Hp _ IH]; [done|].
  rewrite fmap_cons, !filter_cons. simpl pb_WorkloadKey. case_decide; [|done].
  by rewrite !fmap_cons, from_to_proto, IH.
Qed.

Lemma key_not_empty pod : Resolver.getWorkloadKey pod <> "".
Proof. rewrite getWorkloadKey_eq. by destruct (workload pod).1.1. Qed.

(** ** Idle workloads *)
Definition with_answers (cand : pb_RuntimeProfile) (ps : list pb_RuntimeProfile) : client :=
  mk_client (fun _ => Some cand) (fun _ => Some ps).

Lemma neighbours_app key ps ps' : neighbours key (ps ++ ps') = neighbours key ps ++ neighbours key ps'.
Proof. unfold neighbours. by rewrite filter_app, fmap_app. Qed.

Lemma drop_unknown_answer undef scorer pod nodeName cand q ps ps' :
  known_confidence (pb_Confidence cand) -> pb_Confidence q = ConfidenceUnknown ->
  Score undef scorer (with_answers cand (ps ++ q :: ps')) pod nodeName
  = Score undef scorer (with_answers cand (ps ++ ps')) pod nodeName.
Proof.
  intros Hk Hq. unfold Score, with_answers. cbn [cl_QueryProfile cl_QueryNodeProfiles].
  change (q :: ps') with ([q] ++ ps'). rewrite !neighbours_app. unfold neighbours at 2.
  rewrite filter_cons, filter_nil. case_decide; [|done]. by apply drop_unknown.
Qed.

(** C34: a workload that stops emitting stops counting.  Once the last recording of
    its window is [2 bucketCount - 1] bucket durations old, the aggregator's
    profile of it has no samples, all four rates zero and unknown confidence; sent
    to the plugin among a node's profiles it changes no score, and as the
    candidate's profile it is scored as a quiet workload. *)
Theorem idle_workload_stops_counting t0 key count duration tr q :
  count < 2 ^ 63 - 1 -> duration < 2 ^ 63 -> chronological t0 tr q -> q < t0 + 2 ^ 63 ->
  let wp0 := NewWorkloadProfile t0 key count duration in
  (forall e, e ∈ win_log tr [] -> (2 * bucketCount wp0 - 1) * bucketDuration wp0 <= q - fst e) ->
  exists wp wp' p, win_run tr wp0 = Some wp /\ ComputeProfile q wp = Some (wp', p)
    /\ SampleCount p = 0 /\ PageFaultRate p = Fin 0 /\ CacheMissRate p = Fin 0
    /\ LockContentionRatio p = Fin 0 /\ ContextSwitchRate p = Fin 0 /\ rp_Confidence p = ConfidenceUnknown
    /\ forall undef scorer pod nodeName cand ps ps', known_confidence (pb_Confidence cand) ->
         Score undef scorer (with_answers cand (ps ++ profileToProto p :: ps')) pod nodeName
           = Score undef scorer (with_answers cand (ps ++ ps')) pod nodeName
         /\ Score undef scorer (with_answers (profileToProto p) ps) pod nodeName
           = sr_Score (Scorer.Score undef scorer (quiet "") (neighbours (getWorkloadKey pod) ps)).
Proof.
  intros Hc Hd Hch Hq wp0 Hold.
  destruct (idle_workload_ages_out t0 key count duration Hc Hd tr q Hch Hq Hold)
    as (wp & wp' & p & H1 & H2 & H3 & H4 & H5 & H6 & H7 & Hk).
  exists wp, wp', p. split_and!; [done..|]. intros undef scorer pod nodeName cand ps ps' Hcand.
  assert (pb_Confidence (profileToProto p) = ConfidenceUnknown) as Hp by (simpl; by rewrite Hk).
  split; [by apply drop_unknown_answer|]. by apply unknown_as_quiet.
Qed.

(** The queries the aggregator serves for one call of [Score]. *)
Record served (s0 : Store) (nodeName key : string) (now : Time) (visits : list (string * loc * Time))
  (p : RuntimeProfile) (ps : list RuntimeProfile) (cl : client) : Prop := {
  sv_first : exists s1 s2, grpc_QueryProfile now key s0 = Some (s1, inl (profileToProto p))
    /\ QueryProfile now key s0 = Some (s1, p)
    /\ grpc_QueryNodeProfiles nodeName visits s1 = Some (s2, inl (profileToProto <$> ps))
    /\ QueryNodeProfiles nodeName visits s1 = Some (s2, ps);
  sv_cand : cl_QueryProfile cl key = Some (profileToProto p);
  sv_node : cl_QueryNodeProfiles cl nodeName = Some (profileToProto <$> ps) }.

Lemma reachable_query count duration s cs now key s' p :
  reachable count duration (s, cs) -> QueryProfile now key s = Some (s', p) -> reachable count duration (s', cs).
Proof. intros Hr Hq. eapply rtc_r; [exact Hr|]. eapply step_some. by eapply step_query. Qed.

(** C5: the plugin scores what the aggregator holds.  On any reachable store, for
    any pod and named node, both queries are served, and the plugin's score over
    the wire is the score of the candidate's profile against the node's profiles,
    without the candidate's own (the collector gives its replicas that same key)
    and without DaemonSets; the conversion loses nothing the score depends on. *)
Theorem plugin_scores_store count duration s cs pod nodeName now visits undef scorer :
  count < 2 ^ 63 - 1 -> reachable count duration (s, cs) -> nodeName <> "" ->
  visits.*1 ≡ₚ map_to_list (profiles s) ->
  let key := Resolver.getWorkloadKey pod in
  (exists p ps cl, served s nodeName key now visits p ps cl)
  /\ forall p ps cl, served s nodeName key now visits p ps cl ->
       Score undef scorer cl pod nodeName
         = sr_Score (Scorer.Score undef scorer p (filter (fun q => keeps key (WorkloadKey q) = true) ps)).
Proof.
  intros Hc Hr Hnode Hvisits key. split.
  - destruct (reachable_wf count duration _ Hc Hr) as [[Hok _] Hw]. simpl in *.
    assert (exists s1 p, QueryProfile now key s = Some (s1, p) /\ profiles s1 = profiles s) as (s1 & p & E1 & Hp).
    { unfold QueryProfile, Get, Load. destruct (profiles s !! key) as [l|] eqn:El; [|by eauto].
      destruct (compute_at_returns s key l now Hok Hw El) as (s1 & p & E & _ & _ & Hp). eauto. }
    destruct (reachable_wf count duration _ Hc (reachable_query _ _ _ _ _ _ _ _ Hr E1)) as [[Hok1 _] Hw1].
    simpl in *. rewrite <- Hp in Hvisits.
    destruct (query_node_returns nodeName visits s1 Hok1 Hw1 (visits_entries s1 visits Hvisits)) as (s2 & ps & E2).
    exists p, ps, (mk_client (fun _ => Some (profileToProto p)) (fun _ => Some (profileToProto <$> ps))).
    constructor; [|done|done]. exists s1, s2.
    unfold grpc_QueryProfile, grpc_QueryNodeProfiles. rewrite !bool_decide_false by (apply key_not_empty || done).
    simpl. rewrite E1, E2. done.
  - intros p ps cl [(s1 & s2 & _ & E1 & _ & E2) Ec En].
    unfold Score. change (getWorkloadKey pod) with key. rewrite Ec, En.
    rewrite neighbours_to_proto by (by eapply QueryNodeProfiles_known).
    rewrite from_to_proto by (by eapply QueryProfile_known). apply Score_without_times.
Qed.

(** The plugin always answers in range.  A failed query gives exactly the
    neutral 50; otherwise, for profiles whose rates are not negative, the score is
    between 0 and 100. *)
Theorem plugin_in_range undef scorer cl pod nodeName :
  scorer_ok scorer ->
  (forall cand, cl_QueryProfile cl (getWorkloadKey pod) = Some cand ->
     profile_ok (fromProto cand) /\ known_confidence (pb_Confidence cand)) ->
  (forall profiles, cl_QueryNodeProfiles cl nodeName = Some profiles -> Forall (fun np => profile_ok (fromProto np)) profiles) ->
  0 <= Score undef scorer cl pod nodeName <= 100
  /\ (cl_QueryProfile cl (getWorkloadKey pod) = None \/ cl_QueryNodeProfiles cl nodeName = None ->
      Score undef scorer cl pod nodeName = 50).
Proof.
  intros Hs Hcand Hnode. unfold Score, NeutralScore.
  destruct (cl_QueryProfile cl (getWorkloadKey pod)) as [cand|]; [|split; [lia|done]].
  destruct (cl_QueryNodeProfiles cl nodeName) as [profiles|]; [|split; [lia|done]].
  destruct (Hcand cand eq_refl) as [Hok Hk]. specialize (Hnode profiles eq_refl).
  split; [|by intros [|]]. apply score_range; [done..|].
  unfold neighbours. apply Forall_fmap, Forall_forall. intros np [_ Hin]%list_elem_of_filter.
  rewrite Forall_forall in Hnode. by apply Hnode.
Qed.

(** ** Witnesses *)
Definition web_pod : Pod := mk_Pod "default" "web-1" [] [].

Lemma plugin_scores_store_witness :
  exists p ps cl, served recorded "n1" "default/Pod/web-1" day [("w", 0%nat, day)] p ps cl
    /\ Score (fun _ => 0) default_scorer cl web_pod "n1"
       = sr_Score (Scorer.Score (fun _ => 0) default_scorer p
           (filter (fun q => keeps "default/Pod/web-1" (WorkloadKey q) = true) ps)).
Proof.
  destruct (plugin_scores_store 12 0 recorded recorded_callers web_pod "n1" day [("w", 0%nat, day)]
    (fun _ => 0) default_scorer ltac:(lia) recorded_reachable ltac:(done)) as [(p & ps & cl & Hs) H].
  - assert (map_to_list (profiles recorded) = [("w", 0%nat)]) as -> by (vm_compute; reflexivity). done.
  - exists p, ps, cl. split; [exact Hs|exact (H p ps cl Hs)].
Defined.

(** The aggregator is down. *)
Lemma plugin_in_range_witness :
  Score (fun _ => 0) default_scorer (mk_client (fun _ => None) (fun _ => None)) web_pod "n1" = 50.
Proof.
  apply (plugin_in_range (fun _ => 0) default_scorer (mk_client (fun _ => None) (fun _ => None)) web_pod "n1"
    default_scorer_ok); [by intros|by intros|by left].
Defined.

Definition idle_history : list (Time * win_op) := [(day + ms 1000, OpRecord (RBulk 3 5 7 11) "n1")].

Lemma idle_workload_stops_counting_witness :
  exists wp wp' p, win_run idle_history (NewWorkloadProfile day "w" 12 0) = Some wp
    /\ ComputeProfile (day + ms 200000) wp = Some (wp', p)
    /\ LockContentionRatio p = Fin 0
    /\ forall cand, known_confidence (pb_Confidence cand) ->
         Score (fun _ => 0) default_scorer (with_answers cand [profileToProto p]) web_pod "n1"
         = Score (fun _ => 0) default_scorer (with_answers cand []) web_pod "n1".
Proof.
  destruct (idle_workload_stops_counting day "w" 12 0 idle_history (day + ms 200000))
    as (wp & wp' & p & E1 & E2 & _ & _ & _ & E3 & _ & _ & H);
    [lia|lia|unfold idle_history; cbn [chronological]; unfold ms; lia|unfold day, ms; lia| |].
  - intros e He. apply list_elem_of_singleton in He as ->.
    change ((2 * 12 - 1) * 5000000000 <= day + 200000 * 1000000 - (day + 1000 * 1000000)). lia.
  - exists wp, wp', p. split; [exact E1|]. split; [exact E2|]. split; [exact E3|]. intros cand Hc.
    exact (proj1 (H _ _ web_pod "n1" cand [] [] Hc)).
Defined.
