(* ===== verification/Pipeline.v ===== *)
(** * From the probes to the profiles

    The parts composed: the records akil.c writes, the loader's parser, the
    collector, the aggregator over the store.  The main theorem follows an event
    from the hook that fired to the profile that counts it. *)
From S2P Require Import Prelude CTypes BpfHelperDefs AkilC.
From S2P Require Import Float64 Window ProfileStore Store Telemetry Collector Aggregator.
#[local] Open Scope string_scope.
#[local] Open Scope list_scope.
#[local] Open Scope Z_scope.

(** ** Records have the size of the struct *)
Section records.
Context `{K : BpfKernel} `{L : !BpfKernelLaws K}.
Variable period : Z.

Definition record_sizes (s : kst) : Prop := Forall (fun bs => length bs = 40%nat) (ring_records (k_events s)).

Lemma emit_size (r : ring) (fill : list Z -> list Z) :
  (forall e, length e = 40%nat -> length (fill e) = 40%nat) ->
  Forall (fun bs => length bs = 40%nat) (ring_records r) ->
  let '(r', o) := ringbuf_reserve r (sizeof event_t) in
  Forall (fun bs => length bs = 40%nat)
    (ring_records (match o with None => r' | Some e => ringbuf_submit r' (fill e) end)).
Proof using L.
  intros Hfill Hr. pose proof (reserve_records r (sizeof event_t)) as Hrec.
  destruct (ringbuf_reserve r (sizeof event_t)) as [r' [e|]] eqn:E; simpl in Hrec.
  - apply reserve_size in E; [|done]. rewrite (proj1 event_t_size) in E.
    rewrite submit_records, Hrec. apply Forall_app. split; [done|]. apply Forall_singleton, Hfill. lia.
  - by rewrite Hrec.
Qed.

Lemma run_probe_sizes p c s : record_sizes s -> record_sizes (fst (run_probe period p c s)).
Proof using L.
  intros Hs. unfold record_sizes in *. destruct off_eqs as (E1 & E2 & E3 & E4).
  assert (forall ty e, length e = 40%nat ->
    length (set_u64 off_timestamp_ns (ktime c) (set_u64 off_cgroup_id (cur_cgroup c) (set_u8 off_event_type ty e))) = 40%nat)
    as Hh by (intros ty e He; exact (length_fill_header ty (cur_cgroup c) (ktime c) e He)).
  assert (forall ty v e, length e = 40%nat -> length (set_u64 off_payload v
    (set_u64 off_timestamp_ns (ktime c) (set_u64 off_cgroup_id (cur_cgroup c) (set_u8 off_event_type ty e)))) = 40%nat)
    as Hv by (intros ty v e He; rewrite E4, length_set_u64; rewrite ?Hh by done; lia).
  destruct p; cbn [run_probe].
  - pose proof (emit_size (k_events s) _ (Hh EVENT_TYPE_PAGE_FAULT) Hs) as He.
    unfold handle_page_fault. by destruct (ringbuf_reserve _ _) as [r [e|]].
  - pose proof (emit_size (k_events s) _ (Hh EVENT_TYPE_CTX_SWITCH) Hs) as He.
    unfold handle_sched_switch. by destruct (ringbuf_reserve _ _) as [r [e|]].
  - pose proof (emit_size (k_events s) _ (Hv EVENT_TYPE_CACHE_MISS period) Hs) as He.
    unfold handle_cache_miss. by destruct (ringbuf_reserve _ _) as [r [e|]].
  - done.
  - unfold handle_contention_end. destruct (map_lookup_elem _ _) as [t0|]; [|done].
    pose proof (emit_size (k_events s) _ (Hv EVENT_TYPE_LOCK_CONTENTION (u64! (ktime c - t0))) Hs) as He.
    by destruct (ringbuf_reserve _ _) as [r [e|]].
Qed.

Lemma run_probes_sizes tr s : record_sizes s -> record_sizes (run_probes period tr s).
Proof using L.
  revert s. induction tr as [|[p c] tr IH]; intros s Hs; [done|]. by apply IH, run_probe_sizes.
Qed.
End records.

(** ** The loader's parser and akil.c do not agree on the layout *)

(** C39: [ParseRawEvent] rejects every record akil.c writes: the struct has 40
    bytes and the parser wants 64. *)
Theorem loader_rejects_probe_records `{K : BpfKernel} `{L : !BpfKernelLaws K} period tr s data :
  record_sizes s -> data ∈ ring_records (k_events (run_probes period tr s)) ->
  ParseRawEvent data = (mk_RawEvent 0 0 0 None, Some (EventTooSmall 40)).
Proof.
  intros Hs Hin. pose proof (run_probes_sizes period tr s Hs) as Hsz. unfold record_sizes in Hsz.
  rewrite Forall_forall in Hsz. unfold ParseRawEvent. by rewrite (Hsz data Hin).
Qed.

(** ** The collector's parser does *)

(** The recording an event of the probes stands for. *)
Definition expected_recording (e : event) : option recording :=
  if ev_type e =? AkilC.EVENT_TYPE_PAGE_FAULT then Some RPageFault
  else if ev_type e =? AkilC.EVENT_TYPE_CACHE_MISS then (fun v => RCacheMiss (i64! v)) <$> ev_value e
  else if ev_type e =? AkilC.EVENT_TYPE_LOCK_CONTENTION then (fun v => RLockContention (i64! v)) <$> ev_value e
  else if ev_type e =? AkilC.EVENT_TYPE_CTX_SWITCH then Some RCtxSwitch
  else None.

Lemma sample_meaning r now raw :
  length raw = 40%nat ->
  let e := decode_event raw in
  match parse_sample r now raw with
  | None => resolve r (ev_cgroup e) = ""
  | Some evt => pb.workload_key evt = resolve r (ev_cgroup e) /\ resolve r (ev_cgroup e) <> ""
      /\ forall node, event_op node evt = (fun rc => OpRecord rc node) <$> expected_recording e
  end.
Proof.
  intros Hl e. subst e. unfold parse_sample, decode_event. destruct off_eqs as (-> & -> & -> & ->).
  rewrite Hl. cbn [Z.of_nat]. cbn [ev_cgroup]. simpl (_ <? 24). cbn iota.
  case_bool_decide as Hr; [done|]. split; [done|]. split; [done|]. intros node.
  simpl (32 <=? _). cbn iota. unfold event_op, expected_recording. cbn [pb.event_type ev_type].
  set (ty := get_le 1 0 raw). set (v := get_le 8 24 raw).
  unfold pb.GetCacheMiss, pb.GetLockContention. cbn [pb.payload ev_value].
  unfold pb.EVENT_TYPE_PAGE_FAULT, pb.EVENT_TYPE_CACHE_MISS, pb.EVENT_TYPE_LOCK_CONTENTION,
    pb.EVENT_TYPE_CONTEXT_SWITCH, AkilC.EVENT_TYPE_PAGE_FAULT, AkilC.EVENT_TYPE_CACHE_MISS,
    AkilC.EVENT_TYPE_LOCK_CONTENTION, AkilC.EVENT_TYPE_CTX_SWITCH.
  destruct (Z.eqb_spec ty 1) as [->|N1]; [done|].
  destruct (Z.eqb_spec ty 2) as [->|N2]; [by rewrite decide_True by auto|].
  destruct (Z.eqb_spec ty 3) as [->|N3]; [by rewrite decide_True by auto|].
  by destruct (Z.eqb_spec ty 4).
Qed.

(** ** From probe to profile *)

(** What the events of a node add to the window of [key], in order. *)
Definition event_counts (key : string) (re : resolver * event) : option counts :=
  let '(r, e) := re in
  if bool_decide (resolve r (ev_cgroup e) = key) then contribution <$> expected_recording e else None.

Definition message_counts (node key : string) (evt : pb.TelemetryEvent) : option counts :=
  if bool_decide (pb.workload_key evt = key) then
    match event_op node evt with Some (OpRecord rc _) => Some (contribution rc) | _ => None end
  else None.

Definition is_sample_of (i : input) (raw : list Z) : Prop :=
  match i with Sample raw' _ _ _ _ _ _ _ => raw' = raw | ReadFailed _ => False end.

(** The resolver as it was at the read. *)
Definition input_resolver (i : input) : resolver :=
  match i with Sample _ r _ _ _ _ _ _ => r | ReadFailed _ => None end.

Lemma parsed_counts node key ins raws :
  key <> "" -> Forall2 is_sample_of ins raws -> Forall (fun bs => length bs = 40%nat) raws ->
  omap (message_counts node key) (parsed ins)
    = omap (event_counts key) (zip (input_resolver <$> ins) (decode_event <$> raws)).
Proof.
  intros Hkey H2 Hsz. induction H2 as [|i raw ins raws Hi _ IH]; [done|].
  apply Forall_cons in Hsz as [Hraw Hsz]. specialize (IH Hsz).
  destruct i as [|raw' r stamp since fs fl ok re]; [done|]. simpl in Hi. subst raw'.
  pose proof (sample_meaning r stamp raw Hraw) as Hm. cbv zeta in Hm.
  rewrite !fmap_cons. cbn [zip zip_with]. generalize dependent (decode_event raw). intros e Hm.
  cbn [parsed]. destruct (parse_sample r stamp raw) as [evt|].
  - destruct Hm as (Hwk & Hne & Hop).
    assert (message_counts node key evt = event_counts key (r, e)) as Ee.
    { unfold message_counts, event_counts. rewrite Hwk, Hop. by destruct (expected_recording e). }
    csimpl. rewrite Ee. simpl. destruct (if bool_decide _ then _ else _); [by rewrite IH|exact IH].
  - csimpl. rewrite Hm, bool_decide_false by congruence. exact IH.
Qed.

Lemma event_op_record node evt op : event_op node evt = Some op -> exists rc, op = OpRecord rc node.
Proof. unfold event_op. intros H. repeat case_match; simplify_eq; eauto. Qed.

Lemma ingest_log node key evts : key <> "" -> forall qs log,
  t_req <$> qs = Ingest node <$> evts ->
  snd <$> key_log key qs log = (snd <$> log) ++ omap (message_counts node key) evts.
Proof.
  intros Hkey. induction evts as [|evt evts IH]; intros qs log Hq.
  - apply fmap_nil_inv in Hq as ->. by rewrite app_nil_r.
  - destruct qs as [|q qs]; [done|]. csimpl in Hq. injection Hq as Hq1 Hq2.
    change (key_log key (q :: qs) log) with (key_log key qs (request_log key log q)).
    rewrite (IH _ _ Hq2). csimpl. unfold request_log, message_counts at 2. rewrite Hq1. simpl.
    rewrite (bool_decide_false (key = "")) by done. rewrite andb_true_r.
    case_bool_decide; [|done]. destruct (event_op node evt) as [op|] eqn:Eop; [|done].
    destruct (event_op_record node evt op Eop) as [rc ->]. simpl. rewrite fmap_app, <- app_assoc. done.
Qed.

Section pipeline.
Context `{K : BpfKernel} `{L : !BpfKernelLaws K}.
Context (period : Z) (node : string) (count : Z) (duration : Duration).
Context (Hperiod : inU 64 period) (Hcount : 0 < count < 2 ^ 63 - 1) (Hduration : 0 < duration < 2 ^ 63).

(** C1: from the hook to the profile.  If the kernel has room for the events and its
    table works, the stream works and the aggregator ingests the batches it was sent, then no step
    fails, and for every workload key: what the aggregator has logged for the
    key, followed by what the collector still holds back, is what the ideal
    observer of the probes attributes to the cgroups that resolve to the key when
    their record is read, event by event, and
    querying the key reports the totals of a suffix of the logged part, with the
    age bounds of the window. *)
Theorem probe_to_profile tr k0 ins t0 qs lo q :
  hooks_ok tr -> ring_has_room -> table_works -> table_room period tr (waiting k0) ->
  ring_records (k_events k0) = [] ->
  Forall2 is_sample_of ins (ring_records (k_events (run_probes period tr k0))) -> Forall sends ins ->
  let c := run node ins (collector_start t0) in
  t_req <$> qs = Ingest node <$> concat (pb.events <$> (filter (fun o => snd o = true) (c_out c)).*1) ->
  chronological_requests lo qs q -> q < lo + 2 ^ 63 ->
  exists s, serve_all qs (NewStore count duration) = Some s /\ forall key, key <> "" ->
    (snd <$> key_log key qs []) ++ omap (message_counts node key) (c_events c)
      = omap (event_counts key) (zip (input_resolver <$> ins) (ideal_events period tr (waiting k0)))
    /\ exists s' p, QueryProfile q key s = Some (s', p)
       /\ (key_log key qs [] = [] /\ p = bare_profile key ConfidenceUnknown
           \/ exists dropped kept, key_log key qs [] = dropped ++ kept
             /\ (forall e, e ∈ dropped -> (count - 1) * duration < q - fst e)
             /\ (forall e, e ∈ kept -> WindowStart p <= fst e /\ q - fst e < (2 * count - 1) * duration)
             /\ profile_reports key (cwrap (csum (snd <$> kept)))
                  (window_seconds (NewWorkloadProfile lo key count duration)) p).
Proof using L Hperiod Hcount Hduration.
  intros Htr Hroom Hwork Htab Hring Hins Hsends c Hqs Hchron Hq.
  destruct (NewStore_ok count duration) as [Hok Hempty].
  pose proof (empty_inv (NewStore count duration) (Z.to_nat count) duration lo Hok Hempty) as H0.
  unfold ps_count, ps_duration, store_profile_store, NewStore in H0. simpl in H0.
  rewrite (proj2 (Z.leb_gt count 0)), (proj2 (Z.leb_gt duration 0)), Z2Nat.id in H0 by lia.
  specialize (H0 eq_refl eq_refl Hcount Hduration).
  destruct (serve_all_inv (Z.to_nat count) duration lo q qs lo _ _ _ H0 Hchron Hq) as (s & Es & Hinv).
  exists s. split.
  { unfold NewStore. by rewrite (proj2 (Z.leb_gt count 0)), (proj2 (Z.leb_gt duration 0)) by lia. }
  intros key Hkey. split.
  - rewrite (ingest_log node key _ Hkey qs [] Hqs). simpl. rewrite <- omap_app.
    pose proof (run_all_sent node ins (collector_start t0) Hsends eq_refl ltac:(constructor)) as Hsent.
    rewrite filter_all by done.
    pose proof (run_all_events node ins (collector_start t0) eq_refl) as Hall.
    unfold all_events in Hall. fold c in Hall. rewrite Hall. simpl.
    assert (record_sizes (run_probes period tr k0)) as Hsz.
    { apply run_probes_sizes. unfold record_sizes. by rewrite Hring. }
    rewrite (parsed_counts node key _ _ Hkey Hins Hsz). f_equal.
    destruct (reports_ideal_aux period Hperiod tr k0 Htr Hroom Hwork Htab) as [Hrep _].
    unfold reported in Hrep. by rewrite Hrep, Hring.
  - destruct (query_inv (Z.to_nat count) duration lo q q _ _ key s Hinv) as (s' & p & Ep & _ & Hp);
      [destruct Hinv; lia|].
    exists s', p. split; [exact Ep|]. pose proof (ai_key _ _ _ _ _ _ _ Hinv key) as Hk.
    rewrite Z2Nat.id in Hp by lia.
    destruct (ps_view s !! key); [by right|]. left. split; [apply Hk|done].
Qed.
End pipeline.

(** ** Witnesses *)
#[local] Existing Instance toy_kernel_laws.

Lemma toy_sizes : record_sizes (K := toy_kernel) toy_init.
Proof. constructor. Qed.

Lemma loader_rejects_probe_records_witness :
  Forall (fun data => ParseRawEvent data = (mk_RawEvent 0 0 0 None, Some (EventTooSmall 40)))
    (ring_records (k_events (run_probes (K := toy_kernel) 10000 toy_run toy_init))).
Proof.
  apply Forall_forall. intros data.
  exact (loader_rejects_probe_records (K := toy_kernel) 10000 toy_run toy_init data toy_sizes).
Defined.

Lemma Forall2_samples (f : list Z -> input) raws :
  (forall raw, is_sample_of (f raw) raw) -> Forall2 is_sample_of (f <$> raws) raws.
Proof. intros Hf. induction raws; constructor; auto. Qed.

Lemma same_time_chronological t reqs : chronological_requests t ((fun rq => mk_timed t t rq) <$> reqs) t.
Proof. induction reqs as [|rq reqs IH]; simpl; [lia|]. split; [lia|done]. Qed.

Definition toy_inputs : list input :=
  (fun raw => Sample raw (Some (fun _ => "default/Pod/w")) 5 (2 * Second) 5 0 true true)
    <$> ring_records (k_events (run_probes (K := toy_kernel) 10000 toy_run toy_init)).

(** Every cgroup belongs to the one workload; every batch is flushed at once. *)
Definition toy_collector : collector :=
  run "n1" toy_inputs (collector_start 0).

Definition toy_messages : list pb.TelemetryEvent :=
  concat (pb.events <$> (filter (fun o => snd o = true) (c_out toy_collector)).*1).

Definition toy_requests : list timed_request :=
  (fun rq => mk_timed day day rq) <$> (Ingest "n1" <$> toy_messages).

Lemma probe_to_profile_witness :
  (snd <$> key_log "default/Pod/w" toy_requests [])
    ++ omap (message_counts "n1" "default/Pod/w") (c_events toy_collector)
  = omap (event_counts "default/Pod/w")
      (zip (input_resolver <$> toy_inputs) (ideal_events 10000 toy_run (waiting (K := toy_kernel) toy_init))).
Proof.
  destruct (probe_to_profile (K := toy_kernel) 10000 "n1" 12 5000000000
    ltac:(unfold inU; lia) ltac:(lia) ltac:(lia) toy_run toy_init toy_inputs 0 toy_requests day day)
    as (s & _ & H).
  - apply toy_hooks_ok.
  - apply toy_has_room.
  - apply toy_table_works.
  - apply toy_table_room.
  - reflexivity.
  - by apply Forall2_samples.
  - unfold toy_inputs. apply Forall_fmap, Forall_true. done.
  - unfold toy_requests. rewrite <- list_fmap_compose. apply list_fmap_id.
  - apply same_time_chronological.
  - unfold day. lia.
  - exact (proj1 (H "default/Pod/w" ltac:(done))).
Defined.

Lemma aggregator_profiles_witness :
  exists s, serve_all toy_requests (NewStore 12 5000000000) = Some s
    /\ exists s' p, QueryProfile day "default/Pod/other" s = Some (s', p).
Proof.
  destruct (NewStore_ok 12 5000000000) as [Hok Hempty].
  destruct (aggregator_profiles (S := Store) (PS := store_profile_store) (NewStore 12 5000000000) 12 5000000000 day
    Hok Hempty eq_refl eq_refl ltac:(lia) ltac:(lia)
    toy_requests day) as (s & Es & H).
  - apply same_time_chronological.
  - unfold day. lia.
  - exists s. split; [exact Es|]. destruct (H "default/Pod/other") as (s' & p & E & _). by exists s', p.
Defined.
