(* ===== verification/Autoscaler.v ===== *)
(** * cmd/aggregator/autoscaler.go and the [/api/scale] handler

    The demo autoscaler: the rule ([decide]), the state under [autoMu] (the
    toggle, the simulated replica count, the log), the loop's iteration without a
    cluster, and the replica counts [/api/scale] accepts.  HttpApi.v has the
    iteration with a cluster and the handlers. *)
From Stdlib Require Import Ascii.
From S2P Require Import Prelude Float64 Window ProfileStore Store Aggregator.
#[local] Open Scope string_scope.
#[local] Open Scope list_scope.
#[local] Open Scope Z_scope.

Definition maxReplicas : Z := 6.

(** ** [decide] *)
Inductive pressure := HotSwitches | HotFaults | HotMisses | Nominal | Warm.

(** The cases of the loop body, in order. *)
Definition pressure_of (p : RuntimeProfile) : pressure :=
  if fltb (whole 100) (ContextSwitchRate p) then HotSwitches
  else if fltb (whole 5000) (PageFaultRate p) then HotFaults
  else if fltb (whole 1000) (CacheMissRate p) then HotMisses
  else if fltb (ContextSwitchRate p) (whole 50) && fltb (PageFaultRate p) (whole 2000)
          && fltb (CacheMissRate p) (whole 500) then Nominal
  else Warm.

Definition hot_reason (c : pressure) (k : string) : option string :=
  match c with
  | HotSwitches => Some (("High Context Switch Rate detected (>100/s) for " ++ k
                   ++ ". Scaling UP to relieve CPU contention.")%string)
  | HotFaults => Some (("High Page Fault Rate detected (>5000/s) for " ++ k
                   ++ ". Scaling UP to distribute memory pressure.")%string)
  | HotMisses => Some (("High Cache Miss Rate detected (>1000/s) for " ++ k
                   ++ ". Scaling UP to improve cache locality.")%string)
  | _ => None
  end.

Definition nominal_reason : string := "All workload metrics nominal. Scaling DOWN to conserve resources.".

Section decide.
Context {S : Type} `{PS : ProfileStore S}.

(** The keys come with the clock readings of their queries. *)
Fixpoint decide_loop (keys : list (string * Time)) (allNominal : bool) (current : Z) (s : S) :
  option (S * (Z * string)) :=
  match keys with
  | [] => Some (s, if allNominal && (1 <? current) then (i32! (current - 1), nominal_reason)
                   else (current, ""))
  | (k, now) :: keys =>
      '(s, prof) ← ps_QueryProfile now k s;
      match hot_reason (pressure_of prof) k with
      | Some reason => Some (s, (Z.min (i32! (current + 1)) maxReplicas, reason))
      | None => decide_loop keys
                  (match pressure_of prof with Warm => false | _ => allNominal end) current s
      end
  end.

Definition decide_replicas (keys : list (string * Time)) (current : Z) (s : S) :
  option (S * (Z * string)) :=
  match keys with [] => Some (s, (current, "")) | _ => decide_loop keys true current s end.
End decide.

(** ** The state under [autoMu] *)
Record ScalingLog := mk_ScalingLog { sl_Timestamp : string; sl_Action : string; sl_Reason : string; sl_Replicas : Z }.

Record autoscaler := mk_autoscaler {
  autoscalingEnabled : bool; scalingLogs : list ScalingLog; simulatedReplicas : Z }.

(** [os.Getenv("AKIL_AUTOSCALE") == "1"] *)
Definition autoscaler_init (env : string) : autoscaler :=
  mk_autoscaler (bool_decide (env = "1")) [] 2.

Definition setReplicas (n : Z) (a : autoscaler) : autoscaler :=
  mk_autoscaler (autoscalingEnabled a) (scalingLogs a) n.

Definition setAutoscaling (timestamp : string) (enabled : bool) (a : autoscaler) : autoscaler :=
  mk_autoscaler enabled
    (scalingLogs a ++ [mk_ScalingLog timestamp "INFO"
       (("Adaptive Autoscaling Toggled: " ++ if enabled then "ON" else "OFF")%string) (-1)])
    (simulatedReplicas a).

Definition logScaling (timestamp : string) (old n : Z) (reason : string) (a : autoscaler) : autoscaler :=
  let logs := scalingLogs a ++
    [mk_ScalingLog timestamp (if old <? n then "SCALE UP" else "SCALE DOWN") reason n] in
  mk_autoscaler (autoscalingEnabled a)
    (if 50 <? Z.of_nat (length logs) then drop 1 logs else logs) (simulatedReplicas a).

(** ** One iteration of [startAutoscalerLoop] without a cluster *)

Section tick.
Context {S : Type} `{PS : ProfileStore S}.

(** The iteration without a client, after [cur := getReplicas()]; [autoMu] is
    released between the two, so [a] may have changed since. *)
Definition tick_simulated (timestamp : string) (store_keys : list (string * Time)) (cur : Z)
  (s : S) (a : autoscaler) : option (S * autoscaler) :=
  '(s, (n, reason)) ← decide_replicas store_keys cur s;
  Some (s, if n =? cur then a else logScaling timestamp cur n reason (setReplicas n a)).
End tick.

(** ** The query of [/api/scale] *)

(** [strconv.Atoi]: an optional sign, decimal digits, in the range of int. *)
Fixpoint atoi_digits (s : string) (acc : Z) : option Z :=
  match s with
  | EmptyString => Some acc
  | String c s =>
      let n := Z.of_N (Ascii.N_of_ascii c) - 48 in
      if (0 <=? n) && (n <=? 9) then atoi_digits s (10 * acc + n) else None
  end.

Definition in_int (o : option Z) : option Z :=
  z ← o; if bool_decide (inS 64 z) then Some z else None.

Definition Atoi (s : string) : option Z :=
  match s with
  | EmptyString => None
  | String "-"%char EmptyString | String "+"%char EmptyString => None
  | String "-"%char s => in_int (Z.opp <$> atoi_digits s 0)
  | String "+"%char s => in_int (atoi_digits s 0)
  | _ => in_int (atoi_digits s 0)
  end.

(** [replicas], when it is a number between one and ten; [int32(replicas)]. *)
Definition parse_replicas (replicasStr : string) : option Z :=
  replicas ← Atoi replicasStr;
  if (replicas <? 1) || (10 <? replicas) then None else Some (i32! replicas).

(** ** What [decide] decides *)
Definition is_hot (p : RuntimeProfile) : bool :=
  match pressure_of p with HotSwitches | HotFaults | HotMisses => true | _ => false end.

Definition is_nominal (p : RuntimeProfile) : bool :=
  match pressure_of p with Nominal => true | _ => false end.

(** The rule on the profiles the queries give. *)
Definition rule (ps : list RuntimeProfile) (current : Z) : Z :=
  if existsb is_hot ps then Z.min (current + 1) maxReplicas
  else if forallb is_nominal ps && (1 <? current) && negb (bool_decide (ps = [])) then current - 1
  else current.

Section decide_facts.
Context {S : Type} `{PS : ProfileStore S}.

Lemma hot_reason_spec p k :
  match hot_reason (pressure_of p) k with Some _ => is_hot p = true | None => is_hot p = false end.
Proof. unfold is_hot. by destruct (pressure_of p). Qed.

Lemma decide_loop_rule keys current : inS 32 current -> forall s nominal s' ps,
  query_all keys s = Some (s', ps) ->
  exists s'' n reason, decide_loop keys nominal current s = Some (s'', (n, reason))
    /\ n = (if existsb is_hot ps then Z.min (i32! (current + 1)) maxReplicas
            else if nominal && forallb is_nominal ps && (1 <? current) then i32! (current - 1) else current).
Proof.
  intros Hc. induction keys as [|[k now] keys IH]; intros s nominal s' ps H; simpl in H.
  - injection H as <- <-. simpl. rewrite andb_true_r. destruct (nominal && (1 <? current)); eauto 6.
  - destruct (ps_QueryProfile now k s) as [[s1 p]|] eqn:Eq; simpl in H; [|done].
    destruct (query_all keys s1) as [[s2 ps']|] eqn:Eq2; simpl in H; [|done]. injection H as <- <-.
    simpl. rewrite Eq. simpl. pose proof (hot_reason_spec p k) as Hh.
    destruct (hot_reason (pressure_of p) k) as [reason|]; rewrite Hh; simpl; [eauto 6|].
    destruct (IH s1 (match pressure_of p with Warm => false | _ => nominal end) s2 ps' Eq2)
      as (s'' & n & reason & -> & ->).
    do 3 eexists. split; [reflexivity|]. unfold is_hot in Hh. unfold is_nominal at 2.
    destruct (pressure_of p); try done. by rewrite andb_false_r.
Qed.

Lemma decide_rule keys current s s' ps :
  0 <= current < 2 ^ 31 - 1 -> query_all keys s = Some (s', ps) ->
  exists s'' reason, decide_replicas keys current s = Some (s'', (rule ps current, reason)).
Proof.
  intros Hc Hq. destruct keys as [|[k now] keys].
  - simpl in Hq. injection Hq as <- <-. unfold rule. simpl. rewrite andb_false_r. eauto.
  - destruct (decide_loop_rule ((k, now) :: keys) current ltac:(unfold inS; lia) s true s' ps Hq)
      as (s'' & n & reason & E & En).
    exists s'', reason. unfold decide_replicas. rewrite E. do 3 f_equal. rewrite En. unfold rule.
    assert (bool_decide (ps = []) = false) as ->.
    { apply bool_decide_false. simpl in Hq. destruct (ps_QueryProfile now k s) as [[? ?]|]; simpl in Hq; [|done].
      destruct (query_all keys _) as [[? ?]|]; simpl in Hq; by simplify_eq. }
    rewrite andb_true_r. simpl andb.
    destruct (existsb is_hot ps); [by rewrite wrapS_id by (unfold inS; lia)|].
    destruct (forallb is_nominal ps && (1 <? current)) eqn:E1; [|done].
    apply andb_true_iff in E1 as [_ ?%Z.ltb_lt]. by rewrite wrapS_id by (unfold inS; lia).
Qed.
End decide_facts.

Lemma rule_step ps current : 1 <= current <= maxReplicas ->
  1 <= rule ps current <= maxReplicas /\ Z.abs (rule ps current - current) <= 1.
Proof.
  intros Hc. unfold rule, maxReplicas in *. destruct (existsb is_hot ps); [lia|].
  destruct (forallb is_nominal ps && (1 <? current) && negb (bool_decide (ps = []))) eqn:E; [|lia].
  apply andb_true_iff in E as [[_ ?%Z.ltb_lt]%andb_true_iff _]. lia.
Qed.

(** C38: the autoscaler's rule.  When the queries succeed, [decide] is: one replica
    more, up to six, if any profile is hot; else one less if all are nominal and
    there is more than one; else no change.  Inside one to six replicas the result
    stays inside and moves by at most one. *)
Theorem decide_follows_rule {S : Type} `{ProfileStore S} keys current (s s' : S) ps :
  0 <= current < 2 ^ 31 - 1 -> query_all keys s = Some (s', ps) ->
  (exists s'' reason, decide_replicas keys current s = Some (s'', (rule ps current, reason)))
  /\ (1 <= current <= maxReplicas ->
      1 <= rule ps current <= maxReplicas /\ Z.abs (rule ps current - current) <= 1).
Proof. intros Hc Hq. split; [by eapply decide_rule|apply rule_step]. Qed.

(** Above six replicas the rule for scaling up scales down: [/api/scale]
    accepts up to ten replicas, and with seven or more a hot workload makes
    [decide] return six. *)
Theorem hot_workload_above_max_scales_down {S : Type} `{ProfileStore S} keys current (s s' : S) ps :
  maxReplicas < current < 2 ^ 31 - 1 -> query_all keys s = Some (s', ps) -> existsb is_hot ps = true ->
  exists s'' reason, decide_replicas keys current s = Some (s'', (maxReplicas, reason))
    /\ maxReplicas < current.
Proof.
  intros Hc Hq Hh. unfold maxReplicas in *.
  destruct (decide_rule keys current s s' ps ltac:(lia) Hq) as (s'' & reason & E).
  exists s'', reason. rewrite E. unfold rule. rewrite Hh. unfold maxReplicas.
  rewrite Z.min_r by lia. split; [done|lia].
Qed.

(** ** Runs of the autoscaler without a cluster

    The loop's goroutine is interrupted by HTTP handlers wherever it does not hold
    [autoMu]: the second component is the count it has read and not yet acted on. *)
Inductive auto_step {S : Type} `{ProfileStore S} : autoscaler * option Z -> autoscaler * option Z -> Prop :=
  | auto_toggle a p ts enabled : auto_step (a, p) (setAutoscaling ts enabled a, p)
  | auto_post a p str n : parse_replicas str = Some n -> auto_step (a, p) (setReplicas n a, p)
  | auto_read a : autoscalingEnabled a = true -> auto_step (a, None) (a, Some (simulatedReplicas a))
  | auto_write a cur ts store_keys (s s' : S) a' :
      tick_simulated ts store_keys cur s a = Some (s', a') -> auto_step (a, Some cur) (a', None).

Lemma parse_replicas_range str n : parse_replicas str = Some n -> 1 <= n <= 10.
Proof.
  unfold parse_replicas. destruct (Atoi str) as [z|]; simpl; [|done].
  destruct ((z <? 1) || (10 <? z)) eqn:E; [done|]. intros [= <-].
  apply orb_false_iff in E as [?%Z.ltb_ge ?%Z.ltb_ge]. rewrite wrapS_id by (unfold inS; lia). lia.
Qed.

Definition replicas_ok (c : autoscaler * option Z) : Prop :=
  1 <= simulatedReplicas (fst c) <= 10 /\ match snd c with Some cur => 1 <= cur <= 10 | None => True end.

Lemma decide_loop_range {S : Type} `{ProfileStore S} keys : forall nominal current (s s' : S) n reason,
  1 <= current <= 10 -> decide_loop keys nominal current s = Some (s', (n, reason)) -> 1 <= n <= 10.
Proof.
  induction keys as [|[k now] keys IH]; intros nominal current s s' n reason Hc H1; simpl in H1.
  - destruct (nominal && (1 <? current)) eqn:E; injection H1 as _ <- _; [|done].
    apply andb_true_iff in E as [_ ?%Z.ltb_lt]. rewrite wrapS_id by (unfold inS; lia). lia.
  - destruct (ps_QueryProfile now k s) as [[s1 p]|]; simpl in H1; [|done].
    destruct (hot_reason (pressure_of p) k); [|by eapply IH].
    injection H1 as _ <- _. rewrite wrapS_id by (unfold inS; lia). unfold maxReplicas. lia.
Qed.

Lemma decide_replicas_range {S : Type} `{ProfileStore S} keys current (s s' : S) n reason :
  1 <= current <= 10 -> decide_replicas keys current s = Some (s', (n, reason)) -> 1 <= n <= 10.
Proof.
  intros Hc E. destruct keys as [|kt keys]; [simpl in E; by simplify_eq|]. by eapply decide_loop_range.
Qed.

Lemma auto_step_range {S : Type} `{ProfileStore S} c c' :
  auto_step (S := S) c c' -> replicas_ok c -> replicas_ok c'.
Proof.
  unfold replicas_ok. intros Hs [Hr Hp].
  destruct Hs as [a p ts en|a p str n Hn|a _|a cur ts sk s s' a' Ht]; simpl in *; [done| |done|].
  - split; [by eapply parse_replicas_range|done].
  - split; [|done]. unfold tick_simulated in Ht.
    destruct (decide_replicas sk cur s) as [[s1 [n reason]]|] eqn:E; simpl in Ht; [|done].
    apply decide_replicas_range in E; [|done]. destruct (n =? cur); by simplify_eq.
Qed.

(** C21: the simulated replica count stays between one and ten through any run of
    toggles, [/api/scale] requests with any query string, and loop iterations over
    any profiles, with requests landing between the loop's read of the count and
    its write. *)
Theorem simulated_replicas_in_range {S : Type} `{ProfileStore S} env c :
  rtc (auto_step (S := S)) (autoscaler_init env, None) c -> 1 <= simulatedReplicas (fst c) <= 10.
Proof.
  intros Hr. assert (replicas_ok (autoscaler_init env, None)) as H0 by (split; [simpl; lia|done]).
  revert H0. induction Hr as [|c1 c2 c3 Hs _ IH]; [by intros []|]. intros H0.
  by apply IH, (auto_step_range c1).
Qed.

(** ** Witnesses: one workload with 120000 context switches in its window *)
Definition busy_store : Store :=
  default (NewStore 12 5000000000)
    (simulate_events day day (mk_SimulateReq "w" "n1" 10 0 0 120000) (NewStore 12 5000000000)).

Definition busy_keys : list (string * Time) := [("w", day)].

(** 2000 switches per second. *)
Lemma busy_hot : (fun sp : Store * list RuntimeProfile => existsb is_hot (snd sp)) <$> query_all busy_keys busy_store
  = Some true.
Proof. vm_compute. reflexivity. Qed.

Lemma decide_follows_rule_witness :
  exists s' ps, query_all busy_keys busy_store = Some (s', ps)
  /\ exists s'' reason, decide_replicas busy_keys 2 busy_store = Some (s'', (rule ps 2, reason)).
Proof.
  pose proof busy_hot as Hh. destruct (query_all busy_keys busy_store) as [[s' ps]|] eqn:E; [|discriminate Hh].
  exists s', ps. split; [reflexivity|].
  exact (proj1 (decide_follows_rule busy_keys 2 busy_store s' ps ltac:(lia) E)).
Defined.

Lemma hot_workload_above_max_scales_down_witness :
  exists s' reason, decide_replicas busy_keys 9 busy_store = Some (s', (6, reason)) /\ 6 < 9.
Proof.
  pose proof busy_hot as Hh. destruct (query_all busy_keys busy_store) as [[s' ps]|] eqn:E; [|discriminate Hh].
  simpl in Hh. injection Hh as Hh.
  exact (hot_workload_above_max_scales_down busy_keys 9 busy_store s' ps ltac:(unfold maxReplicas; lia) E Hh).
Defined.

(** The loop reads two; ten is posted; the loop writes three, from the profiles of
    [busy_store]. *)
Definition posted : autoscaler := setReplicas 10 (setAutoscaling "12:00:00" true (autoscaler_init "0")).

Lemma posted_then_written :
  (fun sa : Store * autoscaler => simulatedReplicas (snd sa))
    <$> tick_simulated "12:00:03" busy_keys 2 busy_store posted = Some 3.
Proof. vm_compute. reflexivity. Qed.

Lemma simulated_replicas_in_range_witness :
  exists a, simulatedReplicas posted = 10 /\ simulatedReplicas a = 3 /\ 1 <= simulatedReplicas a <= 10.
Proof.
  pose proof posted_then_written as Hw.
  destruct (tick_simulated "12:00:03" busy_keys 2 busy_store posted) as [[s' a]|] eqn:E; [|discriminate Hw].
  exists a. simpl in Hw. injection Hw as Hw. split; [reflexivity|]. split; [exact Hw|].
  apply (simulated_replicas_in_range (S := Store) "0" (a, None)).
  eapply rtc_l; [apply (auto_toggle _ _ "12:00:00" true)|].
  eapply rtc_l; [apply auto_read; reflexivity|].
  eapply rtc_l; [apply (auto_post _ _ "10" 10); reflexivity|].
  eapply rtc_l; [apply (auto_write _ _ "12:00:03" busy_keys busy_store s' a E)|]. apply rtc_refl.
Defined.
