(* ===== verification/HttpApi.v ===== *)
(** * The aggregator's HTTP API and its Kubernetes client

    [cmd/aggregator/main.go]: the mux and its handlers, responses and errors
    included; [cmd/aggregator/autoscaler.go]: one iteration of the loop with a
    client.  The store is any implementation of [ProfileStore]; the Kubernetes API
    is a class of operations on a cluster, with no laws.  JSON decoding of bodies
    is a parameter, and response bodies are the encoded values. *)
From S2P Require Import Prelude Float64 Window ProfileStore Store Telemetry Aggregator Autoscaler.
#[local] Open Scope string_scope.
#[local] Open Scope list_scope.
#[local] Open Scope Z_scope.

(** ** Kubernetes *)

(** The scale subresource: [Spec.Replicas], and everything else. *)
Record Scale := mk_Scale { sc_rest : string; sc_Replicas : Z }.

(** The deployment [/api/pods/create] asks for. *)
Record Container := mk_Container { ct_Name : string; ct_Image : string; ct_Command : list string; ct_Args : list string }.
Record Deployment := mk_Deployment {
  dp_Name : string; dp_Replicas : Z; dp_MatchLabels : gmap string string; dp_Labels : gmap string string;
  dp_Containers : list Container }.

(** [client.AppsV1().Deployments(namespace)]: each call may change the cluster, and
    answers or fails with a message. *)
Class Deployments (K : Type) := {
  GetLabels : string -> string -> K -> K * (gmap string string + string);
  GetScale : string -> string -> K -> K * (Scale + string);
  UpdateScale : string -> string -> Scale -> K -> K * option string;
  Create : string -> Deployment -> K -> K * option string }.

(** ** Requests and responses *)

(** The path is the cleaned one (the mux redirects any other); the headers of a
    response are those the handler sets. *)
Record http_request := mk_http_request { rq_Method : string; rq_Path : string; rq_Query : list (string * string); rq_Body : string }.

Inductive json :=
  | NoBody | JError (message : string) | JSuccess | JSuccessSimulated | JReplicas (n : Z) | JEnabled (b : bool)
  | JLogs (l : list ScalingLog) | JProfiles (ps : list RuntimeProfile).

Record http_response := mk_http_response { rs_Status : Z; rs_Headers : list (string * string); rs_Body : json }.

(** [r.URL.Query().Get(name)] *)
Definition query_Get (name : string) (r : http_request) : string :=
  match List.find (fun p => bool_decide (fst p = name)) (rq_Query r) with Some (_, v) => v | None => "" end.

Definition cors_origin : list (string * string) := [("Access-Control-Allow-Origin", "*")].
Definition cors (methods : string) : list (string * string) :=
  cors_origin ++ [("Access-Control-Allow-Methods", methods); ("Access-Control-Allow-Headers", "Content-Type")].
Definition content_json : list (string * string) := [("Content-Type", "application/json")].

(** [json.NewEncoder(w).Encode(v)] after these headers; [http.Error], which sets
    its own content type. *)
Definition ok (headers : list (string * string)) (v : json) : http_response := mk_http_response 200 headers v.
Definition http_Error (headers : list (string * string)) (message : string) (code : Z) : http_response :=
  mk_http_response code
    (List.filter (fun h => negb (bool_decide (fst h = "Content-Type"))) headers
     ++ [("Content-Type", "text/plain; charset=utf-8"); ("X-Content-Type-Options", "nosniff")])
    (JError message).

(** The deployment that is scaled. *)
Definition namespace : string := "default".
Definition demoDeployment : string := "demo-workload".

Definition workload_deployment (name : string) : Deployment :=
  mk_Deployment name 1 {["app" := name]} {["app" := name]}
    [mk_Container "workload" "alpine" ["/bin/sh"; "-c"] ["while true; do sleep 1; done"]].

(** The inputs of one request: the clock readings, the order in which [Keys] gives
    the keys and when each is queried, and the formatted time. *)
Record inputs := mk_inputs {
  in_create : Time; in_run : Time; in_keys : list (string * Time); in_timestamp : string }.

Section api.
Context {S K : Type} `{PS : ProfileStore S} `{KS : Deployments K}.

(** The process: the store, the state under [autoMu], [simulatedKeys], and the
    client, [nil] outside of a cluster. *)
Record api := mk_api { a_store : S; a_auto : autoscaler; a_simulated : gset string; a_client : option K }.

Definition with_store (s : S) (a : api) : api := mk_api s (a_auto a) (a_simulated a) (a_client a).
Definition with_auto (x : autoscaler) (a : api) : api := mk_api (a_store a) x (a_simulated a) (a_client a).
Definition with_client (k : K) (a : api) : api := mk_api (a_store a) (a_auto a) (a_simulated a) (Some k).

Variable decode_SimulateReq : string -> SimulateReq + string.
Variable decode_ResetReq : string -> string + string.

Definition preflight (r : http_request) : bool := bool_decide (rq_Method r = "OPTIONS").

Definition api_profiles (i : inputs) (r : http_request) (a : api) : option (api * http_response) :=
  if preflight r then Some (a, ok (cors_origin ++ [("Access-Control-Allow-Methods", "GET, OPTIONS")]) NoBody) else
  '(s, profiles) ← query_all (in_keys i) (a_store a);
  Some (with_store s a, ok (cors_origin ++ content_json) (JProfiles profiles)).

Definition api_simulate (i : inputs) (r : http_request) (a : api) : option (api * http_response) :=
  let h := cors "POST, OPTIONS" in
  if preflight r then Some (a, ok h NoBody) else
  match decode_SimulateReq (rq_Body r) with
  | inr err => Some (a, http_Error h err 400)
  | inl req =>
      '(keys, s) ← api_simulate_events (in_create i) (in_run i) req (a_simulated a) (a_store a);
      Some (mk_api s (a_auto a) keys (a_client a), ok h JSuccess)
  end.

Definition api_reset (i : inputs) (r : http_request) (a : api) : option (api * http_response) :=
  let h := cors "POST, OPTIONS" in
  if preflight r then Some (a, ok h NoBody) else
  match decode_ResetReq (rq_Body r) with
  | inr err => Some (a, http_Error h err 400)
  | inl key => s ← reset_profile (in_create i) (in_run i) key (a_store a); Some (with_store s a, ok h JSuccess)
  end.

Definition api_scale (r : http_request) (a : api) : api * http_response :=
  let h := cors "GET, POST, OPTIONS" ++ content_json in
  if preflight r then (a, ok h NoBody)
  else if bool_decide (rq_Method r = "GET") then
    match a_client a with
    | None => (a, ok h (JReplicas (simulatedReplicas (a_auto a))))
    | Some k =>
        let '(k, scale) := GetScale namespace demoDeployment k in
        (with_client k a,
         match scale with
         | inr err => http_Error h err 500
         | inl scale => ok h (JReplicas (sc_Replicas scale))
         end)
    end
  else if bool_decide (rq_Method r = "POST") then
    match parse_replicas (query_Get "replicas" r) with
    | None => (a, http_Error h "invalid replicas" 400)
    | Some replicas =>
        match a_client a with
        | None => (with_auto (setReplicas replicas (a_auto a)) a, ok h JSuccessSimulated)
        | Some k =>
            let '(k, scale) := GetScale namespace demoDeployment k in
            match scale with
            | inr err => (with_client k a, http_Error h err 500)
            | inl scale =>
                let '(k, err) := UpdateScale namespace demoDeployment (mk_Scale (sc_rest scale) replicas) k in
                (with_client k a, match err with Some err => http_Error h err 500 | None => ok h JSuccess end)
            end
        end
    end
  else (a, mk_http_response 200 h NoBody).

Definition api_toggle (enabled : bool) (i : inputs) (r : http_request) (a : api) : api * http_response :=
  if preflight r then (a, ok cors_origin NoBody)
  else (with_auto (setAutoscaling (in_timestamp i) enabled (a_auto a)) a, ok cors_origin JSuccess).

Definition api_create (r : http_request) (a : api) : api * http_response :=
  let h := cors "POST, OPTIONS" in
  if preflight r then (a, ok h NoBody) else
  let name := query_Get "name" r in
  match a_client a with
  | None => (a, http_Error h "invalid request" 400)
  | Some k =>
      if bool_decide (name = "") then (a, http_Error h "invalid request" 400) else
      let '(k, err) := Create namespace (workload_deployment name) k in
      (with_client k a, match err with Some err => http_Error h err 500 | None => ok h JSuccess end)
  end.

(** The mux; a path that is not registered is not found. *)
Definition ServeHTTP (i : inputs) (r : http_request) (a : api) : option (api * http_response) :=
  let p := rq_Path r in
  if bool_decide (p = "/api/profiles") then api_profiles i r a
  else if bool_decide (p = "/api/simulate-events") then api_simulate i r a
  else if bool_decide (p = "/api/reset-profile") then api_reset i r a
  else if bool_decide (p = "/api/scale") then Some (api_scale r a)
  else if bool_decide (p = "/api/autoscale/enable") then Some (api_toggle true i r a)
  else if bool_decide (p = "/api/autoscale/disable") then Some (api_toggle false i r a)
  else if bool_decide (p = "/api/autoscale/status") then
    Some (a, ok cors_origin (JEnabled (autoscalingEnabled (a_auto a))))
  else if bool_decide (p = "/api/logs") then Some (a, ok cors_origin (JLogs (scalingLogs (a_auto a))))
  else if bool_decide (p = "/api/pods/create") then Some (api_create r a)
  else Some (a, http_Error [] "404 page not found" 404).

(** ** One iteration of [startAutoscalerLoop] with a client

    [in_keys] gives the simulated keys, in the order [Range] visits them. *)
Definition cluster_tick (i : inputs) (a : api) (k : K) : option api :=
  match in_keys i with
  | [] => Some a
  | _ =>
      let '(k, labels) := GetLabels namespace demoDeployment k in
      let opted_in := match labels with inl l => bool_decide (l !! "akil.io/autoscale" = Some "true") | inr _ => false end in
      if negb opted_in then Some (with_client k a) else
      let '(k, scale) := GetScale namespace demoDeployment k in
      match scale with
      | inr _ => Some (with_client k a)
      | inl scale =>
          let cur := sc_Replicas scale in
          '(s, (n, reason)) ← decide_replicas (in_keys i) cur (a_store a);
          let a := with_store s a in
          if n =? cur then Some (with_client k a) else
          let '(k, err) := UpdateScale namespace demoDeployment (mk_Scale (sc_rest scale) n) k in
          let a := with_client k a in
          Some (match err with
                | Some _ => a
                | None => with_auto (logScaling (in_timestamp i) cur n reason (a_auto a)) a
                end)
      end
  end.

Definition loop_tick (i : inputs) (a : api) : option api :=
  if negb (autoscalingEnabled (a_auto a)) then Some a else
  match a_client a with
  | None =>
      '(s, auto) ← tick_simulated (in_timestamp i) (in_keys i) (simulatedReplicas (a_auto a)) (a_store a) (a_auto a);
      Some (with_auto auto (with_store s a))
  | Some k => cluster_tick i a k
  end.

(** ** The process

    What can happen to it, each with its inputs: an HTTP request, an iteration of
    the loop, one event of a telemetry stream, a profile query, and a change of the
    cluster made by others. *)
Inductive event :=
  | Http (i : inputs) (r : http_request)
  | LoopTick (i : inputs)
  | Stream (tc tr : Time) (nodeName : string) (evt : pb.TelemetryEvent)
  | GrpcQuery (now : Time) (key : string)
  | ClusterChanged (k : K).

Definition process (e : event) (a : api) : option api :=
  match e with
  | Http i r => fst <$> ServeHTTP i r a
  | LoopTick i => loop_tick i a
  | Stream tc tr nodeName evt => s ← ingest_event tc tr nodeName evt (a_store a); Some (with_store s a)
  | GrpcQuery now key => '(s, _) ← grpc_QueryProfile now key (a_store a); Some (with_store s a)
  | ClusterChanged k => Some (match a_client a with Some _ => with_client k a | None => a end)
  end.

Fixpoint run_process (es : list event) (a : api) : option api :=
  match es with [] => Some a | e :: es => a ← process e a; run_process es a end.
End api.
Arguments api : clear implicits.
Arguments event : clear implicits.

(** ** Every request is answered *)

(** What the endpoints need of the store: every window can take any operation. *)
Definition ready {S} `{ProfileStore S} (s : S) : Prop :=
  ps_ok s /\ ps_count s < 2 ^ 63 - 1 /\ forall key wp, ps_view s !! key = Some wp -> win_wf wp.

Section ready.
Context {S : Type} `{PS : ProfileStore S} `{!ProfileStoreLaws S}.

Lemma insert_wf (m : gmap string WorkloadProfile) key wp :
  win_wf wp -> (forall k w, m !! k = Some w -> win_wf w) -> forall k w, <[key := wp]> m !! k = Some w -> win_wf w.
Proof using. intros Hw Hm k w Hk. apply lookup_insert_Some in Hk as [[_ <-]|[_ Hk]]; [done|by eapply Hm]. Qed.

Lemma create_ready tc key (s s' : S) h : ready s -> ps_GetOrCreate tc key s = (s', h) ->
  ready s' /\ ps_holds s' h key /\ is_Some (ps_view s' !! key).
Proof.
  intros (Hok & Hn & Hw) E. destruct (get_or_create_law tc key s s' h Hok E) as (Hok1 & Hh & [Hc1 _] & Hv).
  split; [|split; [done|]].
  - split; [done|]. split; [lia|]. rewrite Hv.
    destruct (ps_view s !! key); [done|]. apply insert_wf; [by apply NewWorkloadProfile_wf|done].
  - rewrite Hv. destruct (ps_view s !! key) eqn:Ek; [by rewrite Ek|by rewrite lookup_insert_eq].
Qed.

(** A handler's call on the profile of a key. *)
Lemma method_ready tc tr key op (s : S) : ready s ->
  exists s', (let '(s, h) := ps_GetOrCreate tc key s in ps_method h tr op s) = Some s' /\ ready s'.
Proof.
  intros Hs. destruct (ps_GetOrCreate tc key s) as [s1 h] eqn:E.
  destruct (create_ready tc key s s1 h Hs E) as ((Hok1 & Hn1 & Hw1) & Hh & [wp Hwp]).
  destruct (win_step_wf tr op wp (Hw1 key wp Hwp)) as (wp' & Ew & Hw').
  destruct (method_law h key tr op s1 wp wp' Hok1 Hh Hwp Ew) as (s' & Es & Hok' & [Hc2 _] & Hv').
  exists s'. split; [done|]. split; [done|]. split; [lia|]. rewrite Hv'. by apply insert_wf.
Qed.

Lemma ingest_ready tc tr node evt (s : S) : ready s -> exists s', ingest_event tc tr node evt s = Some s' /\ ready s'.
Proof.
  intros Hs. unfold ingest_event. case_bool_decide; [eauto|]. destruct (event_op node evt) as [op|].
  - by apply method_ready.
  - destruct (ps_GetOrCreate tc (pb.workload_key evt) s) as [s1 h] eqn:E. exists s1. split; [done|].
    by destruct (create_ready tc _ s s1 h Hs E).
Qed.

Lemma query_ready now key (s : S) : ready s -> exists s' p, ps_QueryProfile now key s = Some (s', p) /\ ready s'.
Proof.
  intros (Hok & Hn & Hw). pose proof (query_law now key s Hok) as Hq.
  destruct (ps_view s !! key) as [wp|] eqn:Ek; [|do 2 eexists; split; [exact Hq|done]].
  destruct (ComputeProfile_wf now wp (Hw key wp Ek)) as (wp' & p & Ec).
  destruct (Hq wp' p Ec) as (s' & Es & Hok' & [Hc _] & Hv). exists s', p. split; [done|]. split; [done|]. split; [lia|].
  rewrite Hv. apply insert_wf; [|done].
  destruct (win_step_wf now OpCompute wp (Hw key wp Ek)) as (w & E & Hw'). simpl in E. rewrite Ec in E. by simplify_eq/=.
Qed.

Lemma query_all_ready keys : forall s : S, ready s -> exists s' ps, query_all keys s = Some (s', ps) /\ ready s'.
Proof.
  induction keys as [|[k now] keys IH]; intros s Hs; simpl; [eauto|].
  destruct (query_ready now k s Hs) as (s1 & p & -> & H1). simpl.
  destruct (IH s1 H1) as (s2 & ps & -> & H2). simpl. eauto.
Qed.

Lemma decide_loop_ready keys current : forall nominal (s : S), ready s ->
  exists s' d, decide_loop keys nominal current s = Some (s', d) /\ ready s'.
Proof.
  induction keys as [|[k now] keys IH]; intros nominal s Hs; simpl; [eauto|].
  destruct (query_ready now k s Hs) as (s1 & p & -> & H1). simpl.
  destruct (hot_reason (pressure_of p) k); [eauto|]. by apply IH.
Qed.

Lemma decide_ready keys current (s : S) : ready s ->
  exists s' n reason, decide_replicas keys current s = Some (s', (n, reason)) /\ ready s'.
Proof.
  intros Hs. destruct keys as [|kt keys]; [simpl; eauto|].
  destruct (decide_loop_ready (kt :: keys) current true s Hs) as (s' & [n reason] & ? & ?). simpl. eauto.
Qed.
End ready.

Definition endpoints : list string :=
  ["/api/profiles"; "/api/simulate-events"; "/api/reset-profile"; "/api/scale"; "/api/autoscale/enable";
   "/api/autoscale/disable"; "/api/autoscale/status"; "/api/logs"; "/api/pods/create"].

Definition is_inr {A B} (x : A + B) : bool := match x with inl _ => false | inr _ => true end.

(** Any cluster, with a record of the calls made to it and of their errors. *)
Inductive call := CallGetLabels | CallGetScale | CallUpdateScale | CallCreate.

Definition outcome {A} (r : A + string) : option string := match r with inl _ => None | inr err => Some err end.

#[export] Instance observed {K} `{Deployments K} : Deployments (K * list (call * option string)) := {
  GetLabels ns name '(k, l) := let '(k, r) := GetLabels ns name k in ((k, l ++ [(CallGetLabels, outcome r)]), r);
  GetScale ns name '(k, l) := let '(k, r) := GetScale ns name k in ((k, l ++ [(CallGetScale, outcome r)]), r);
  UpdateScale ns name sc '(k, l) := let '(k, e) := UpdateScale ns name sc k in ((k, l ++ [(CallUpdateScale, e)]), e);
  Create ns d '(k, l) := let '(k, e) := Create ns d k in ((k, l ++ [(CallCreate, e)]), e) }.

Section answers.
Context {S K : Type} `{PS : ProfileStore S} `{!ProfileStoreLaws S} `{KS : Deployments K}.
Context (decode_SimulateReq : string -> SimulateReq + string) (decode_ResetReq : string -> string + string).
Abbreviation process_state := (api S (K * list (call * option string))).
Implicit Types a : process_state.

Definition calls a : list (call * option string) := match a_client a with Some (_, l) => l | None => [] end.

(** The requests an endpoint refuses as the client's fault. *)
Definition bad_request (r : http_request) a : bool :=
  negb (preflight r) &&
  (if bool_decide (rq_Path r = "/api/simulate-events") then is_inr (decode_SimulateReq (rq_Body r))
   else if bool_decide (rq_Path r = "/api/reset-profile") then is_inr (decode_ResetReq (rq_Body r))
   else if bool_decide (rq_Path r = "/api/scale") then
     bool_decide (rq_Method r = "POST") && bool_decide (parse_replicas (query_Get "replicas" r) = None)
   else if bool_decide (rq_Path r = "/api/pods/create") then
     bool_decide (query_Get "name" r = "") || negb (bool_decide (is_Some (a_client a)))
   else false).

(** The calls to the cluster that serving a request takes. *)
Definition plan (r : http_request) a : list call :=
  if preflight r || negb (bool_decide (is_Some (a_client a))) then [] else
  if bool_decide (rq_Path r = "/api/scale") then
    if bool_decide (rq_Method r = "GET") then [CallGetScale]
    else if bool_decide (rq_Method r = "POST") then [CallGetScale; CallUpdateScale] else []
  else if bool_decide (rq_Path r = "/api/pods/create") then [CallCreate] else [].

Definition succeeded (c : call) : call * option string := (c, None).

(** The calls of the plan were made in order: all of them succeeded, or the first
    that failed was the last, its error is the answer, and nothing but the cluster
    has changed. *)
Definition carried_out (p : list call) a a' (rs : http_response) : Prop :=
  rs_Status rs = 200 /\ calls a' = calls a ++ (succeeded <$> p)
  \/ exists before c after err, p = before ++ c :: after
       /\ calls a' = calls a ++ (succeeded <$> before) ++ [(c, Some err)]
       /\ rs_Status rs = 500 /\ rs_Body rs = JError err
       /\ exists k, a' = with_client k a.

(** An endpoint's answer, when [bad] says whether it refuses. *)
Definition answered (r : http_request) (bad : bool) (p : list call) a (o : option (process_state * http_response)) : Prop :=
  exists a' rs, o = Some (a', rs) /\ ready (a_store a')
    /\ ("Access-Control-Allow-Origin", "*") ∈ rs_Headers rs
    /\ (preflight r = true -> a' = a /\ rs_Status rs = 200)
    /\ if bad then rs_Status rs = 400 /\ a' = a else carried_out p a a' rs.

Lemma no_calls a a' rs : rs_Status rs = 200 -> a_client a' = a_client a -> carried_out [] a a' rs.
Proof using. intros Hs Hc. left. split; [done|]. unfold calls. rewrite Hc. csimpl. by rewrite app_nil_r. Qed.

Lemma all_calls p k l k' a a' rs : a_client a = Some (k, l) -> a_client a' = Some (k', l ++ (succeeded <$> p)) ->
  rs_Status rs = 200 -> carried_out p a a' rs.
Proof using. intros Ha Ha' Hs. left. split; [done|]. unfold calls. by rewrite Ha, Ha'. Qed.

Lemma failed_call before c after err k l k' a rs : a_client a = Some (k, l) ->
  rs_Status rs = 500 -> rs_Body rs = JError err ->
  carried_out (before ++ c :: after) a (with_client (k', l ++ (succeeded <$> before) ++ [(c, Some err)]) a) rs.
Proof using. intros Ha Hs Hb. right. exists before, c, after, err. unfold calls. rewrite Ha. simpl. eauto 8. Qed.

Ltac answer := do 2 eexists; split; [reflexivity|]; simpl;
  (split; [done|]); (split; [repeat (first [by left | right])|]); (split; [done|]); try done.

Lemma api_profiles_answered i r a : ready (a_store a) -> answered r false [] a (api_profiles i r a).
Proof.
  intros Ha. unfold api_profiles, answered. destruct (preflight r); [answer; by apply no_calls|].
  destruct (query_all_ready (in_keys i) (a_store a) Ha) as (s' & ps & -> & Hs). cbn [mbind option_bind].
  answer; by apply no_calls.
Qed.

Lemma api_simulate_answered i r a : ready (a_store a) ->
  answered r (negb (preflight r) && is_inr (decode_SimulateReq (rq_Body r))) [] a (api_simulate decode_SimulateReq i r a).
Proof.
  intros Ha. unfold api_simulate, answered. destruct (preflight r); [answer; by apply no_calls|].
  destruct (decode_SimulateReq (rq_Body r)) as [req|err]; [|answer].
  unfold api_simulate_events, simulate_events.
  destruct (method_ready (in_create i) (in_run i) (sim_WorkloadKey req)
    (OpRecord (RBulk (sim_PageFaults req) (sim_CacheMisses req) (sim_CtxSwitches req) (sim_LockNs req))
       (sim_NodeName req)) (a_store a) Ha) as (s' & E & Hs).
  rewrite E. cbn [mbind option_bind]. answer; by apply no_calls.
Qed.

Lemma api_reset_answered i r a : ready (a_store a) ->
  answered r (negb (preflight r) && is_inr (decode_ResetReq (rq_Body r))) [] a (api_reset decode_ResetReq i r a).
Proof.
  intros Ha. unfold api_reset, answered. destruct (preflight r); [answer; by apply no_calls|].
  destruct (decode_ResetReq (rq_Body r)) as [key|err]; [|answer].
  destruct (method_ready (in_create i) (in_run i) key OpReset (a_store a) Ha) as (s' & E & Hs).
  unfold reset_profile. rewrite E. cbn [mbind option_bind]. answer; by apply no_calls.
Qed.

Lemma has_client a k : a_client a = Some k -> bool_decide (is_Some (a_client a)) = true.
Proof using. intros ->. by apply bool_decide_true. Qed.

Lemma has_no_client a : a_client a = None -> bool_decide (is_Some (a_client a)) = false.
Proof using. intros ->. apply bool_decide_false. by intros []. Qed.

Lemma api_scale_answered r a : rq_Path r = "/api/scale" -> ready (a_store a) ->
  answered r (negb (preflight r) && (bool_decide (rq_Method r = "POST")
                && bool_decide (parse_replicas (query_Get "replicas" r) = None))) (plan r a) a (Some (api_scale r a)).
Proof.
  intros Hp Ha. unfold api_scale, answered, plan. rewrite (bool_decide_true _ Hp).
  destruct (preflight r); [answer; by apply no_calls|].
  destruct (bool_decide (rq_Method r = "GET")) eqn:Eget.
  - apply bool_decide_eq_true in Eget as ->. simpl. destruct (a_client a) as [[k l]|] eqn:Ek.
    2: { rewrite bool_decide_false by (by intros []). answer; by apply no_calls. }
    rewrite bool_decide_true by done. cbn. destruct (GetScale namespace demoDeployment k) as [k' [scale|err]]; answer.
    + by eapply (all_calls [CallGetScale]).
    + by apply (failed_call [] CallGetScale [] err k).
  - destruct (bool_decide (rq_Method r = "POST")); [|answer; case_match; by apply no_calls].
    destruct (parse_replicas (query_Get "replicas" r)) as [n|]; [|answer].
    rewrite (bool_decide_false (Some n = None)) by done. destruct (a_client a) as [[k l]|] eqn:Ek.
    2: { rewrite bool_decide_false by (by intros []). answer; by apply no_calls. }
    rewrite bool_decide_true by done. cbn. destruct (GetScale namespace demoDeployment k) as [k' [scale|err]].
    2: { answer. by apply (failed_call [] CallGetScale [CallUpdateScale] err k). }
    destruct (UpdateScale namespace demoDeployment (mk_Scale (sc_rest scale) n) k') as [k2 [err|]];
      rewrite <- app_assoc; answer.
    + by apply (failed_call [CallGetScale] CallUpdateScale [] err k).
    + by eapply (all_calls [CallGetScale; CallUpdateScale]).
Qed.

Lemma api_toggle_answered enabled i r a : ready (a_store a) ->
  answered r false [] a (Some (api_toggle enabled i r a)).
Proof. intros Ha. unfold api_toggle, answered. destruct (preflight r); answer; by apply no_calls. Qed.

Lemma api_create_answered r a : rq_Path r = "/api/pods/create" -> ready (a_store a) ->
  answered r (negb (preflight r) && (bool_decide (query_Get "name" r = "") || negb (bool_decide (is_Some (a_client a)))))
    (plan r a) a (Some (api_create r a)).
Proof.
  intros Hp Ha. unfold api_create, answered, plan. rewrite Hp.
  change (bool_decide ("/api/pods/create" = "/api/scale")) with false.
  change (bool_decide ("/api/pods/create" = "/api/pods/create")) with true.
  destruct (preflight r); [answer; by apply no_calls|].
  destruct (a_client a) as [[k l]|] eqn:Ek.
  - rewrite (bool_decide_true (is_Some _)) by done. rewrite orb_false_r. simpl.
    destruct (bool_decide (query_Get "name" r = "")); [answer|].
    destruct (Create namespace (workload_deployment (query_Get "name" r)) k) as [k' [err|]]; answer.
    + by apply (failed_call [] CallCreate [] err k).
    + by eapply (all_calls [CallCreate]).
  - rewrite (bool_decide_false (is_Some _)) by (by intros []). rewrite orb_true_r. answer.
Qed.

Lemma endpoint_answered i r a : rq_Path r ∈ endpoints -> ready (a_store a) ->
  answered r (bad_request r a) (plan r a) a (ServeHTTP decode_SimulateReq decode_ResetReq i r a).
Proof.
  intros Hin Ha.
  assert (forall x b y p', (rq_Path x = "/api/scale" -> False) -> (rq_Path x = "/api/pods/create" -> False) ->
    answered x b [] p' y -> answered x b (plan x p') p' y) as Hnone.
  { intros x b y p' H1 H2. unfold plan. rewrite (bool_decide_false _ H1), (bool_decide_false _ H2). by destruct (_ || _). }
  assert (forall x p' q y, answered x false q p' y -> answered x (negb (preflight x) && false) q p' y) as Hf
    by (intros x p' q y; by rewrite andb_false_r).
  destruct r as [m p q b]. unfold bad_request, ServeHTTP. cbn [rq_Path] in *.
  repeat (apply elem_of_cons in Hin as [->|Hin]); [..|by apply elem_of_nil in Hin]; cbn -[plan preflight].
  - by apply Hnone, Hf, api_profiles_answered.
  - by apply Hnone, api_simulate_answered.
  - by apply Hnone, api_reset_answered.
  - by apply api_scale_answered.
  - by apply Hnone, Hf, api_toggle_answered.
  - by apply Hnone, Hf, api_toggle_answered.
  - apply Hnone, Hf; [done..|]. unfold answered. answer. by apply no_calls.
  - apply Hnone, Hf; [done..|]. unfold answered. answer. by apply no_calls.
  - by apply api_create_answered.
Qed.

Lemma other_path_not_found i r a : rq_Path r ∉ endpoints ->
  ServeHTTP decode_SimulateReq decode_ResetReq i r a = Some (a, http_Error [] "404 page not found" 404).
Proof.
  intros Hin. unfold ServeHTTP.
  repeat (rewrite bool_decide_false; [|intros E; apply Hin; rewrite E; unfold endpoints; set_solver]). done.
Qed.

Lemma loop_ready i a : ready (a_store a) -> exists a', loop_tick i a = Some a' /\ ready (a_store a').
Proof.
  intros Ha. unfold loop_tick, cluster_tick. destruct (autoscalingEnabled (a_auto a)); cbn [negb]; [|eauto].
  destruct (a_client a) as [k|].
  - destruct (in_keys i) as [|kt keys]; [eauto|].
    destruct (GetLabels namespace demoDeployment k) as [k1 labels].
    destruct (match labels with inl l => _ | inr _ => _ end); cbn [negb]; [|eauto].
    destruct (GetScale namespace demoDeployment k1) as [k2 [scale|err]]; [|eauto].
    destruct (decide_ready (kt :: keys) (sc_Replicas scale) (a_store a) Ha) as (s' & n & reason & -> & Hs).
    cbn [mbind option_bind]. destruct (n =? sc_Replicas scale); [eauto|].
    destruct (UpdateScale namespace demoDeployment (mk_Scale (sc_rest scale) n) k2) as [k3 [err|]]; eauto.
  - unfold tick_simulated.
    destruct (decide_ready (in_keys i) (simulatedReplicas (a_auto a)) (a_store a) Ha) as (s' & n & reason & -> & Hs).
    cbn [mbind option_bind]. eauto.
Qed.

Lemma process_ready e a : ready (a_store a) ->
  exists a', process decode_SimulateReq decode_ResetReq e a = Some a' /\ ready (a_store a').
Proof.
  intros Ha. destruct e as [i r|i|tc tr node evt|now key|k]; simpl.
  - destruct (decide (rq_Path r ∈ endpoints)) as [Hin|Hin].
    + destruct (endpoint_answered i r a Hin Ha) as (a' & rs & -> & ? & _). simpl. eauto.
    + rewrite other_path_not_found by done. simpl. eauto.
  - by apply loop_ready.
  - destruct (ingest_ready tc tr node evt (a_store a) Ha) as (s' & -> & Hs). simpl. eauto.
  - unfold grpc_QueryProfile. case_bool_decide; [simpl; eauto|].
    destruct (query_ready now key (a_store a) Ha) as (s' & p & -> & Hs). simpl. eauto.
  - destruct (a_client a); eauto.
Qed.

Lemma run_process_ready es : forall a, ready (a_store a) ->
  exists a', run_process decode_SimulateReq decode_ResetReq es a = Some a' /\ ready (a_store a').
Proof.
  induction es as [|e es IH]; intros a Ha; simpl; [eauto|].
  destruct (process_ready e a Ha) as (a1 & -> & H1). by apply IH.
Qed.

(** C18: every HTTP request is answered, with the right status.  After any sequence
    of requests, loop iterations, ingested events, queries and outside changes of
    the cluster, whatever the clock does, nothing has panicked and the next request
    gets an answer.  An unknown path gets 404; at an endpoint, a body that does not
    decode, a replica count that is not a number from one to ten, or a pod request
    with no name or outside of a cluster gets 400, and these change nothing.  Any
    other request makes the calls to the cluster that serving it takes, in order:
    if they all succeed the answer is 200; at the first that fails it stops and
    answers 500 with the error of that call, and the store, the autoscaler and its
    log are as before.  A preflight request gets 200 and changes nothing, and every
    answer of an endpoint allows any origin. *)
Theorem http_always_answers es i r a0 : ready (a_store a0) ->
  exists a a' rs, run_process decode_SimulateReq decode_ResetReq es a0 = Some a
  /\ ServeHTTP decode_SimulateReq decode_ResetReq i r a = Some (a', rs)
  /\ if bool_decide (rq_Path r ∈ endpoints) then
       ("Access-Control-Allow-Origin", "*") ∈ rs_Headers rs
       /\ (preflight r = true -> a' = a /\ rs_Status rs = 200)
       /\ if bad_request r a then rs_Status rs = 400 /\ a' = a else carried_out (plan r a) a a' rs
     else rs_Status rs = 404 /\ a' = a.
Proof.
  intros H0. destruct (run_process_ready es a0 H0) as (a & Ea & Ha). exists a. case_bool_decide as Hin.
  - destruct (endpoint_answered i r a Hin Ha) as (a' & rs & ? & _ & ?). eauto.
  - rewrite other_path_not_found by done. eauto 8.
Qed.
End answers.

(** ** What is written to the cluster *)
Inductive write := WScale (ns name : string) (scale : Scale) | WCreate (ns : string) (d : Deployment).

(** Any cluster, with a record of the writes it is asked for. *)
#[export] Instance recorded {K} `{Deployments K} : Deployments (K * list write) := {
  GetLabels ns name '(k, w) := let '(k, r) := GetLabels ns name k in ((k, w), r);
  GetScale ns name '(k, w) := let '(k, r) := GetScale ns name k in ((k, w), r);
  UpdateScale ns name sc '(k, w) := let '(k, r) := UpdateScale ns name sc k in ((k, w ++ [WScale ns name sc]), r);
  Create ns d '(k, w) := let '(k, r) := Create ns d k in ((k, w ++ [WCreate ns d]), r) }.

Definition writes {S K} (a : api S (K * list write)) : list write :=
  match a_client a with Some (_, w) => w | None => [] end.

Section writes.
Context {S K : Type} `{PS : ProfileStore S} `{KS : Deployments K}.
Context (decode_SimulateReq : string -> SimulateReq + string) (decode_ResetReq : string -> string + string).
Implicit Types a : api S (K * list write).

(** What the request asks of the cluster: the count posted to [/api/scale], or the
    pod of [/api/pods/create]. *)
Definition asks (r : http_request) (w : write) : Prop :=
  rq_Path r = "/api/scale" /\ rq_Method r = "POST"
    /\ (exists n rest, parse_replicas (query_Get "replicas" r) = Some n
          /\ 1 <= n <= 10 /\ w = WScale "default" "demo-workload" (mk_Scale rest n))
  \/ rq_Path r = "/api/pods/create" /\ rq_Method r <> "OPTIONS" /\ query_Get "name" r <> ""
    /\ w = WCreate "default" (workload_deployment (query_Get "name" r)).

Lemma api_scale_writes r a a' rs : rq_Path r = "/api/scale" -> api_scale r a = (a', rs) ->
  writes a' = writes a \/ exists w, asks r w /\ writes a' = writes a ++ [w].
Proof.
  intros Hp. unfold api_scale, writes. destruct (preflight r); [intros [= <- _]; by left|].
  case_bool_decide.
  - destruct (a_client a) as [[k w]|] eqn:Ek; [|intros [= <- _]; rewrite Ek; by left].
    cbn. destruct (GetScale namespace demoDeployment k) as [k' sc]. intros [= <- _]. by left.
  - case_bool_decide as Hm; [|intros [= <- _]; by left].
    destruct (parse_replicas (query_Get "replicas" r)) as [n|] eqn:En; [|intros [= <- _]; by left].
    destruct (a_client a) as [[k w]|] eqn:Ek; [|intros [= <- _]; simpl; rewrite Ek; by left].
    cbn. destruct (GetScale namespace demoDeployment k) as [k' [sc|err]]; [|intros [= <- _]; by left].
    destruct (UpdateScale namespace demoDeployment (mk_Scale (sc_rest sc) n) k') as [k2 e].
    intros [= <- _]. right. eexists. split; [|done].
    left. split_and!; [done..|]. exists n, (sc_rest sc). split_and!; [done|by eapply parse_replicas_range..|done].
Qed.

Lemma api_create_writes r a a' rs : rq_Path r = "/api/pods/create" -> api_create r a = (a', rs) ->
  writes a' = writes a \/ exists w, asks r w /\ writes a' = writes a ++ [w].
Proof using.
  intros Hp. unfold api_create, writes, preflight. case_bool_decide; [intros [= <- _]; by left|].
  destruct (a_client a) as [[k w]|] eqn:Ek; [|intros [= <- _]; rewrite Ek; by left].
  case_bool_decide; [intros [= <- _]; rewrite Ek; by left|].
  cbn. destruct (Create namespace (workload_deployment (query_Get "name" r)) k) as [k' e].
  intros [= <- _]. right. eexists. split; [right; eauto 8|done].
Qed.

Lemma same_client_writes a a' : a_client a' = a_client a -> writes a' = writes a.
Proof using. unfold writes. by intros ->. Qed.

Lemma profiles_client i r a a' rs : api_profiles i r a = Some (a', rs) -> a_client a' = a_client a.
Proof using.
  unfold api_profiles. destruct (preflight r); [by intros [= <- _]|].
  destruct (query_all (in_keys i) (a_store a)) as [[s' ps]|]; simpl; [|done]. by intros [= <- _].
Qed.

Lemma simulate_client i r a a' rs : api_simulate decode_SimulateReq i r a = Some (a', rs) -> a_client a' = a_client a.
Proof using.
  unfold api_simulate. destruct (preflight r); [by intros [= <- _]|].
  destruct (decode_SimulateReq (rq_Body r)) as [req|err]; [|by intros [= <- _]].
  destruct (api_simulate_events _ _ req (a_simulated a) (a_store a)) as [[ks s']|]; simpl; [|done]. by intros [= <- _].
Qed.

Lemma reset_client i r a a' rs : api_reset decode_ResetReq i r a = Some (a', rs) -> a_client a' = a_client a.
Proof using.
  unfold api_reset. destruct (preflight r); [by intros [= <- _]|].
  destruct (decode_ResetReq (rq_Body r)) as [key|err]; [|by intros [= <- _]].
  destruct (reset_profile _ _ key (a_store a)) as [s'|]; simpl; [|done]. by intros [= <- _].
Qed.

Lemma toggle_client b i r a a' rs : api_toggle b i r a = (a', rs) -> a_client a' = a_client a.
Proof using. unfold api_toggle. destruct (preflight r); by intros [= <- _]. Qed.

Lemma request_writes i r a a' rs : ServeHTTP decode_SimulateReq decode_ResetReq i r a = Some (a', rs) ->
  writes a' = writes a \/ exists w, asks r w /\ writes a' = writes a ++ [w].
Proof.
  unfold ServeHTTP. intros H.
  case_bool_decide; [left; by eapply same_client_writes, profiles_client|].
  case_bool_decide; [left; by eapply same_client_writes, simulate_client|].
  case_bool_decide; [left; by eapply same_client_writes, reset_client|].
  case_bool_decide; [destruct (api_scale r a) eqn:E; simplify_eq; by eapply api_scale_writes|].
  case_bool_decide; [destruct (api_toggle true i r a) eqn:E; simplify_eq; left; by eapply same_client_writes, toggle_client|].
  case_bool_decide; [destruct (api_toggle false i r a) eqn:E; simplify_eq; left; by eapply same_client_writes, toggle_client|].
  case_bool_decide; [simplify_eq; by left|].
  case_bool_decide; [simplify_eq; by left|].
  case_bool_decide; [destruct (api_create r a) eqn:E; simplify_eq; by eapply api_create_writes|].
  simplify_eq. by left.
Qed.

(** Why the loop writes: it is enabled, a workload was simulated, the deployment
    has the label, and the rule asks for another count than the one just read. *)
Definition loop_asks (i : inputs) (a : api S (K * list write)) (w : write) : Prop :=
  autoscalingEnabled (a_auto a) = true /\ in_keys i <> []
  /\ exists k ws k' labels scale s' n reason, a_client a = Some (k, ws)
    /\ GetLabels "default" "demo-workload" k = (k', inl labels) /\ labels !! "akil.io/autoscale" = Some "true"
    /\ snd (GetScale "default" "demo-workload" k') = inl scale
    /\ decide_replicas (in_keys i) (sc_Replicas scale) (a_store a) = Some (s', (n, reason))
    /\ n <> sc_Replicas scale
    /\ (1 <= sc_Replicas scale <= 10 -> 1 <= n <= 10)
    /\ w = WScale "default" "demo-workload" (mk_Scale (sc_rest scale) n).

Lemma loop_writes i a a' : loop_tick i a = Some a' ->
  writes a' = writes a \/ exists w, loop_asks i a w /\ writes a' = writes a ++ [w].
Proof.
  unfold loop_tick, cluster_tick, loop_asks, namespace, demoDeployment. destruct (autoscalingEnabled (a_auto a)) eqn:Een; [|intros [= <-]; by left]. cbn [negb].
  destruct (a_client a) as [[k ws]|] eqn:Ek.
  2: { destruct (tick_simulated _ _ _ _ _) as [[s' x]|]; simpl; [|done]. intros [= <-]. left. by apply same_client_writes. }
  destruct (in_keys i) as [|kt keys] eqn:Ekeys; [intros [= <-]; by left|].
  unfold writes. rewrite Ek. cbn [GetLabels GetScale UpdateScale recorded].
  destruct (GetLabels "default" "demo-workload" k) as [k1 labels] eqn:El.
  destruct labels as [labels|err]; [|intros [= <-]; by left]. case_bool_decide as Hl; [|intros [= <-]; by left].
  cbn [negb]. destruct (GetScale "default" "demo-workload" k1) as [k2 sc] eqn:Es.
  destruct sc as [scale|err]; [|intros [= <-]; by left].
  destruct (decide_replicas (kt :: keys) (sc_Replicas scale) (a_store a)) as [[s' [n reason]]|] eqn:Ed; [|done].
  cbn [mbind option_bind]. destruct (n =? sc_Replicas scale) eqn:En; [intros [= <-]; by left|].
  destruct (UpdateScale "default" "demo-workload" (mk_Scale (sc_rest scale) n) k2) as [k3 e].
  intros H. right. exists (WScale "default" "demo-workload" (mk_Scale (sc_rest scale) n)). split.
  - split; [done|]. split; [done|]. exists k, ws, k1, labels, scale, s', n, reason. rewrite Es.
    apply Z.eqb_neq in En. split_and!; try done. intros Hc. by eapply decide_replicas_range.
  - destruct e; by injection H as <-.
Qed.

(** C17: nothing is written to the cluster without cause, and each cause writes
    once.  Whatever happens to the process, at most one write is asked of the
    cluster: by a POST to [/api/scale], for [demo-workload] only and with the posted
    count, which is from one to ten; by a pod request, for the deployment of that
    name; or by the loop, only while it is enabled and the deployment carries the
    label [akil.io/autoscale=true], for the count its rule gives from the count just
    read, everything else of the scale being kept. *)
Theorem cluster_writes_justified e a a' : process decode_SimulateReq decode_ResetReq e a = Some a' ->
  match e with ClusterChanged _ => True | _ => writes a' = writes a
    \/ exists w, writes a' = writes a ++ [w] /\ match e with
       | Http _ r => asks r w
       | LoopTick i => loop_asks i a w
       | _ => False
       end end.
Proof.
  destruct e as [i r|i|tc tr node evt|now key|k]; simpl; intros H; [..|done].
  - destruct (ServeHTTP _ _ i r a) as [[a1 rs]|] eqn:E; [|done]. injection H as <-.
    destruct (request_writes i r a a1 rs E) as [?|(w & ? & ?)]; eauto.
  - destruct (loop_writes i a a' H) as [?|(w & ? & ?)]; eauto.
  - destruct (ingest_event tc tr node evt (a_store a)); simplify_eq/=. by left.
  - destruct (grpc_QueryProfile now key (a_store a)) as [[s' x]|]; simplify_eq/=. by left.
Qed.
End writes.

(** ** Witnesses: a cluster of one deployment *)
Record small_cluster := mk_small_cluster { sm_labels : gmap string string; sm_replicas : Z }.

#[export] Instance small_deployments : Deployments small_cluster := {
  GetLabels _ name k := (k, if bool_decide (name = "demo-workload") then inl (sm_labels k) else inr "not found");
  GetScale _ name k :=
    (k, if bool_decide (name = "demo-workload") then inl (mk_Scale "" (sm_replicas k)) else inr "not found");
  UpdateScale _ name sc k :=
    if bool_decide (name = "demo-workload") then (mk_small_cluster (sm_labels k) (sc_Replicas sc), None)
    else (k, Some "not found");
  Create _ _ k := (k, Some "forbidden") }.

(** Every simulated burst is the same one, and no reset decodes. *)
Definition burst (_ : string) : SimulateReq + string := inl (mk_SimulateReq "w" "n1" 10 0 0 120000).
Definition no_reset (_ : string) : string + string := inr "EOF".

Definition at_noon : inputs := mk_inputs day day busy_keys "12:00:03".
Definition demo_process {X} (s : Store) : api Store (small_cluster * list X) :=
  mk_api s (autoscaler_init "1") {["w"]} (Some (mk_small_cluster {["akil.io/autoscale" := "true"]} 2, [])).

Lemma new_store_ready : ready (NewStore 12 5000000000).
Proof.
  destruct (NewStore_ok 12 5000000000) as [Hok Hv]. split; [exact Hok|]. split; [reflexivity|].
  intros key wp. change (ps_view ?s) with (view s). by rewrite Hv, lookup_empty.
Qed.

Definition pod_request : http_request := mk_http_request "POST" "/api/pods/create" [("name", "web")] "".

Lemma pod_endpoint : rq_Path pod_request ∈ endpoints.
Proof. unfold endpoints. simpl. set_solver. Qed.

Definition demo_events : list (event (small_cluster * list (call * option string))) :=
  [Http at_noon (mk_http_request "POST" "/api/simulate-events" [] "{}"); LoopTick at_noon].

(** The process is still in its cluster after a burst and an iteration of the loop. *)
Lemma demo_client : (fun a => bool_decide (is_Some (a_client a))) <$>
  run_process burst no_reset demo_events (demo_process (NewStore 12 5000000000)) = Some true.
Proof. vm_compute. reflexivity. Qed.

(** Then this cluster refuses to create a pod, and the answer says so. *)
Lemma http_always_answers_witness :
  exists a a' rs, run_process burst no_reset demo_events (demo_process (NewStore 12 5000000000)) = Some a
    /\ ServeHTTP burst no_reset at_noon pod_request a = Some (a', rs)
    /\ carried_out [CallCreate] a a' rs.
Proof.
  destruct (http_always_answers burst no_reset demo_events at_noon pod_request
    (demo_process (NewStore 12 5000000000)) new_store_ready) as (a & a' & rs & Ea & Er & H).
  rewrite (bool_decide_true (rq_Path pod_request ∈ endpoints) pod_endpoint) in H. destruct H as (_ & _ & H).
  pose proof demo_client as Hc. rewrite Ea in Hc. cbn [fmap option_fmap option_map] in Hc. injection Hc as Hc.
  assert (bad_request burst no_reset pod_request a = false) as Hb by (unfold bad_request; rewrite Hc; reflexivity).
  assert (plan pod_request a = [CallCreate]) as Hp by (unfold plan; rewrite Hc; reflexivity).
  rewrite Hb, Hp in H. exists a, a', rs. split; [exact Ea|]. split; [exact Er|exact H].
Defined.

Lemma busy_tick_writes :
  writes <$> process burst no_reset (LoopTick at_noon) (demo_process busy_store)
  = Some [WScale "default" "demo-workload" (mk_Scale "" 3)].
Proof. vm_compute. reflexivity. Qed.

Lemma cluster_writes_justified_witness :
  exists a, process burst no_reset (LoopTick at_noon) (demo_process busy_store) = Some a
    /\ loop_asks at_noon (demo_process busy_store) (WScale "default" "demo-workload" (mk_Scale "" 3)).
Proof.
  pose proof busy_tick_writes as Hw.
  destruct (process burst no_reset (LoopTick at_noon) (demo_process busy_store)) as [a|] eqn:E; [|discriminate Hw].
  exists a. split; [reflexivity|]. cbn [fmap option_fmap option_map] in Hw. injection Hw as Hw.
  destruct (cluster_writes_justified burst no_reset _ _ _ E) as [H|(w & H & Ha)]; rewrite Hw in H; [discriminate H|].
  injection H as <-. exact Ha.
Defined.
